(** * Compression and retrieval scoring engine of the memory system

    A shallow embedding of [src/compression-engine.js] (class
    [CompressionEngine]) and [src/retrieval-service.js] (class
    [RetrievalService]), with the properties of the specification stated
    and proved about the embedded functions.

    Conventions of the embedding.
    - Text is a [string] of 8-bit characters and is read as ASCII: a
      character is a word character (the class [\w] of JavaScript regular
      expressions) when it is a letter, a digit or the underscore, and
      [toLowerCase] changes the letters [A]..[Z] only.
    - Numbers are exact: integers ([Z]) for confidences, limits and
      times in milliseconds, rationals ([Q]) for thresholds, weights,
      ages in days and scores; the rounding of floating-point
      arithmetic is not part of the embedding.  A number that the code
      may compute as [NaN] is a [JsNum] (the quotient of two set sizes)
      or an
      [option Q] (a score, [None] being [NaN]).  A recency window of zero,
      which makes the code divide by zero, is outside the embedding: the
      properties that depend on it assume that the window is not zero.
    - An exception is a value [Throw e] of the [Result] monad, and [e]
      carries a message as an [Error] object does; a [try]/[catch] block
      is a [match] on the result of its body.
    - [Array.prototype.sort] is the stable sort by insertion of
      [JsArray.sort]; an object used as a dictionary is the list of its
      properties ([JsObject]), a [Set] the list of its elements
      ([JsSet]).
    - The clock ([new Date()]) is read as one instant [now], in
      milliseconds, for the whole of one operation, and the graph
      collaborator answers the same question in the same way during one
      operation. *)

From Stdlib Require Import QArith Qminmax Qround String Ascii ZArith List Lia Lqa.
From Stdlib Require Import Sorting.Permutation Sorting.Sorted DecimalString.
From stdpp Require Import base decidable option list sets gmap strings.

(** ** Exceptions *)

Inductive Exn : Type := Error (message : string).

Definition message_of (e : Exn) : string :=
  match e with Error m => m end.

Inductive Result (A : Type) : Type :=
| Ok (a : A)
| Throw (e : Exn).
Arguments Ok {A} a.
Arguments Throw {A} e.

#[global] Instance Result_ret : MRet Result := fun A a => Ok a.
#[global] Instance Result_bind : MBind Result := fun A B f m =>
  match m with
  | Ok a => f a
  | Throw e => Throw e
  end.

(** [obj.prop] where [obj] may be [undefined]: reading a property of
    [undefined] raises a [TypeError]. *)
Definition TypeError : Exn := Error "TypeError".

(** The exception of [toISOString] on a date that is not valid. *)
Definition RangeError : Exn := Error "RangeError".

Definition defined {A : Type} (o : option A) : Result A :=
  match o with
  | Some a => Ok a
  | None => Throw TypeError
  end.

(** A loop whose body may throw: [for (const x of l) acc = body(acc, x)]. *)
Fixpoint foldM {A B : Type} (body : B -> A -> Result B) (l : list A) (acc : B)
  : Result B :=
  match l with
  | [] => Ok acc
  | x :: l' => acc' ← body acc x; foldM body l' acc'
  end.

(** ** Numbers *)

(** The value of [n / d] for two sizes [n] and [d]. *)
Inductive JsNum : Type :=
| NaN
| Infinity
| Num (q : Q).

Definition size_div (n d : nat) : JsNum :=
  match d, n with
  | O, O => NaN
  | O, S _ => Infinity
  | S _, _ => Num (Z.of_nat n # Pos.of_nat d)
  end.

(** [x >= t] for a finite [t]: every comparison with [NaN] is false. *)
Definition js_ge (x : JsNum) (t : Q) : bool :=
  match x with
  | NaN => false
  | Infinity => true
  | Num q => Qle_bool t q
  end.

(** ** Strings *)

Module Str.

Definition code (c : ascii) : nat := nat_of_ascii c.

Definition is_upper (c : ascii) : bool :=
  (65 <=? code c) && (code c <=? 90).

(** The class [\w]: [A-Za-z0-9_]. *)
Definition is_word_char (c : ascii) : bool :=
  ((48 <=? code c) && (code c <=? 57))
  || ((65 <=? code c) && (code c <=? 90))
  || ((97 <=? code c) && (code c <=? 122))
  || (code c =? 95).

Definition lower_char (c : ascii) : ascii :=
  if is_upper c then ascii_of_nat (code c + 32) else c.

Fixpoint toLowerCase (s : string) : string :=
  match s with
  | EmptyString => EmptyString
  | String c s' => String (lower_char c) (toLowerCase s')
  end.

(** [s.split(/C+/)] for a class [C] of separator characters: the pieces
    of [s] between the maximal runs of separators.  As in JavaScript the
    result starts with an empty piece when [s] starts with a separator,
    ends with one when [s] ends with a separator, and is [[""]] for the
    empty string. *)
Definition starts_with (sep : ascii -> bool) (s : string) : bool :=
  match s with
  | EmptyString => false
  | String c _ => sep c
  end.

Fixpoint split_runs (sep : ascii -> bool) (s : string) : list string :=
  match s with
  | EmptyString => [EmptyString]
  | String c s' =>
      if sep c then
        if starts_with sep s' then split_runs sep s'
        else EmptyString :: split_runs sep s'
      else
        match split_runs sep s' with
        | t :: ts => String c t :: ts
        | [] => [String c EmptyString]
        end
  end.

Definition is_nonword (c : ascii) : bool := negb (is_word_char c).

(** [s.split(/\W+/)] *)
Definition split_nonword (s : string) : list string := split_runs is_nonword s.

(** The class [\s], on ASCII. *)
Definition is_space (c : ascii) : bool :=
  (code c =? 32) || ((9 <=? code c) && (code c <=? 13)).

(** [s.split(/\s+/)] *)
Definition split_space (s : string) : list string := split_runs is_space s.

(** [s.replace(/[^\w\s]/g, ' ')] *)
Fixpoint blank_punctuation (s : string) : string :=
  match s with
  | EmptyString => EmptyString
  | String c s' =>
      String (if is_word_char c || is_space c then c else " "%char)
             (blank_punctuation s')
  end.

(** [s.includes(k)] *)
Fixpoint includes (s k : string) : bool :=
  String.prefix k s
  || match s with
     | EmptyString => false
     | String _ s' => includes s' k
     end.

Definition nonempty (t : string) : bool := 0 <? String.length t.

(** [s.split(/\W+/).filter(t => t.length > 0)] *)
Definition words (s : string) : list string :=
  filter (fun t => nonempty t = true) (split_nonword s).

(** [`${n}`] for a length [n]. *)
Definition of_nat (n : nat) : string :=
  NilZero.string_of_uint (Nat.to_uint n).

End Str.

(** ** Insertion-ordered sets ([Set]) *)

Module JsSet.

(** A [Set] of strings is the list of its elements in insertion order,
    without repetition. *)
Definition has (s : list string) (x : string) : bool :=
  bool_decide (x ∈ s).

Definition add (s : list string) (x : string) : list string :=
  if has s x then s else s ++ [x].

(** [new Set(l)] *)
Definition of_list (l : list string) : list string :=
  fold_left add l [].

Definition size (s : list string) : nat := length s.

End JsSet.

(** ** Token similarity *)

(** [_calculateSimilarity(contentA, contentB)] on two strings. *)
Definition similarity_of_strings (contentA contentB : string) : JsNum :=
  let tokensA := Str.words (Str.toLowerCase contentA) in
  let tokensB := Str.words (Str.toLowerCase contentB) in
  let setA := JsSet.of_list tokensA in
  let setB := JsSet.of_list tokensB in
  let intersection := JsSet.of_list (filter (fun x => JsSet.has setB x = true) setA) in
  let union := JsSet.of_list (setA ++ setB) in
  size_div (JsSet.size intersection) (JsSet.size union).

(** [_calculateSimilarity] as the clusterer calls it, on the [content]
    fields of two observations: [contentA.toLowerCase()] raises a
    [TypeError] when the field is missing. *)
Definition _calculateSimilarity (contentA contentB : option string) : Result JsNum :=
  a ← defined contentA;
  b ← defined contentB;
  Ok (similarity_of_strings a b).


(** ** Plain objects used as dictionaries *)

Module JsObject.

(** An object used as a dictionary is the list of its own properties in
    the order of their creation.  [Object.entries] lists the keys that
    are array indices first, by increasing value, and then the other
    keys in creation order. *)
Abbreviation t V := (list (string * V)) (only parsing).

Fixpoint get {V : Type} (o : t V) (k : string) : option V :=
  match o with
  | [] => None
  | (k', v) :: o' => if String.eqb k' k then Some v else get o' k
  end.

(** [o[k] = v]: an existing property keeps its place. *)
Fixpoint set {V : Type} (o : t V) (k : string) (v : V) : t V :=
  match o with
  | [] => [(k, v)]
  | (k', v') :: o' =>
      if String.eqb k' k then (k', v) :: o' else (k', v') :: set o' k v
  end.

Definition is_digit (c : ascii) : bool :=
  (48 <=? nat_of_ascii c) && (nat_of_ascii c <=? 57).

Fixpoint digits_value (s : string) (acc : N) : option N :=
  match s with
  | EmptyString => Some acc
  | String c s' =>
      if is_digit c
      then digits_value s' (10 * acc + (N.of_nat (nat_of_ascii c) - 48))%N
      else None
  end.

(** The value of [k] when [k] is an array index: a canonical decimal
    numeral below [2^32 - 1]. *)
Definition array_index (k : string) : option N :=
  match k with
  | EmptyString => None
  | String c rest =>
      if (nat_of_ascii c =? 48) && negb (String.eqb rest EmptyString) then None
      else
        match digits_value k 0%N with
        | Some n => if (n <? 4294967295)%N then Some n else None
        | None => None
        end
  end.

Fixpoint insert_index {V : Type} (n : N) (kv : string * V)
    (l : list (N * (string * V))) : list (N * (string * V)) :=
  match l with
  | [] => [(n, kv)]
  | (m, kv') :: l' =>
      if (n <? m)%N then (n, kv) :: l else (m, kv') :: insert_index n kv l'
  end.

Fixpoint index_entries {V : Type} (o : t V) : list (N * (string * V)) :=
  match o with
  | [] => []
  | (k, v) :: o' =>
      match array_index k with
      | Some n => insert_index n (k, v) (index_entries o')
      | None => index_entries o'
      end
  end.

Definition named_entries {V : Type} (o : t V) : list (string * V) :=
  filter (fun kv => array_index (fst kv) = None) o.

(** [Object.entries(o)] *)
Definition entries {V : Type} (o : t V) : list (string * V) :=
  map snd (index_entries o) ++ named_entries o.

(** The properties that every object inherits from [Object.prototype]. *)
Definition inherited : list string :=
  [ "constructor"; "hasOwnProperty"; "isPrototypeOf"; "propertyIsEnumerable";
    "toLocaleString"; "toString"; "valueOf"; "__defineGetter__";
    "__defineSetter__"; "__lookupGetter__"; "__lookupSetter__";
    "__proto__" ]%string.

(** The value of a property that counts occurrences: a count, or the
    string that [+ 1] makes of an inherited function. *)
Inductive Count : Type :=
| Times (n : nat)
| NotANumber.

(** [counts[item] = (counts[item] || 0) + 1] *)
Definition count_item (counts : t Count) (item : string) : t Count :=
  match get counts item with
  | Some (Times n) => set counts item (Times (n + 1))
  | Some NotANumber => counts
  | None =>
      if bool_decide (item ∈ inherited)
      then if String.eqb item "__proto__" then counts
           else set counts item NotANumber
      else set counts item (Times 1)
  end.

End JsObject.

(** ** Data model *)

(** A [timestamp] field, which the graph writes as an ISO string:
    missing, a value that [new Date] cannot read, or a date given by its
    time in milliseconds. *)
Inductive Timestamp : Type :=
| TsMissing
| TsInvalid
| TsAt (ms : Z).

(** [new Date(ts).getTime()]; [None] is [NaN]. *)
Definition getTime (ts : Timestamp) : option Z :=
  match ts with
  | TsAt ms => Some ms
  | _ => None
  end.

(** The truth value of a timestamp field: a string that is present is
    not empty. *)
Definition ts_truthy (ts : Timestamp) : bool :=
  match ts with
  | TsMissing => false
  | _ => true
  end.

Definition ms_per_day : Z := 1000 * 60 * 60 * 24.

(** [(now - t) / (1000 * 60 * 60 * 24)] *)
Definition days_between (now t : Z) : Q :=
  (inject_Z (now - t) / inject_Z ms_per_day)%Q.

Record Observation : Type := mkObservation {
  content : option string;
  timestamp : Timestamp;
  confidence : option Z;
  category : option string;
  is_critical : bool
}.

(** The [category] field, under a name that no argument hides. *)
Definition category_of (o : Observation) : option string := category o.

(** [x || d] for a number [x] that may be missing: [0] is falsy. *)
Definition num_or (x : option Z) (d : Z) : Z :=
  match x with
  | Some 0%Z | None => d
  | Some v => v
  end.

(** [s || d] for a string [s] that may be missing: [""] is falsy. *)
Definition str_or (s : option string) (d : string) : string :=
  match s with
  | Some EmptyString | None => d
  | Some v => v
  end.

(** A stable sort by a comparator: [cmp a b] is [Gt] when the comparator
    of the code returns a positive number (then [b] goes first), [Lt]
    when it returns a negative one and [Eq] when it returns zero or
    [NaN].  [Array.prototype.sort] is stable; for a consistent comparator
    its result is the stable arrangement computed here. *)
Module JsArray.

Fixpoint insert {A : Type} (cmp : A -> A -> comparison) (x : A) (l : list A) : list A :=
  match l with
  | [] => [x]
  | y :: l' =>
      match cmp x y with
      | Gt => y :: insert cmp x l'
      | _ => x :: l
      end
  end.

Fixpoint sort {A : Type} (cmp : A -> A -> comparison) (l : list A) : list A :=
  match l with
  | [] => []
  | x :: l' => insert cmp x (sort cmp l')
  end.

(** [l.slice(0, n)] *)
Definition slice0 {A : Type} (n : Z) (l : list A) : list A :=
  if (n <? 0)%Z
  then take (Z.to_nat (Z.max (Z.of_nat (length l) + n) 0)) l
  else take (Z.to_nat n) l.

End JsArray.

(** A compressed observation, as [_compressCluster] builds it;
    [temporalCompression] adds [time_window]. *)
Module Compressed.
Record t : Type := mk {
  content : string;
  source_observations : list (option string);
  confidence : Z;
  category : string;
  timestamp : Timestamp;
  is_critical : bool;
  time_window : option string
}.
End Compressed.

(** An item of [pendingObservations]. *)
Module Pending.
Record t : Type := mk {
  entityName : string;
  entityType : string;
  observation : Observation
}.
End Pending.

(** A group of [_groupObservations]. *)
Module Group.
Record t : Type := mk {
  entityName : string;
  entityType : string;
  category : string;
  observations : list Observation
}.
End Group.

(** ** The compression engine *)

Module CompressionEngine.

Record Options : Type := mkOptions {
  similarityThreshold : Q;
  maxObservationAge : Q;
  preserveCritical : bool;
  minConfidence : Z
}.

Record t : Type := mk {
  compressionThreshold : Z;
  options : Options
}.

Definition default_options : Options :=
  {| similarityThreshold := 6 # 10;
     maxObservationAge := 7 # 1;
     preserveCritical := true;
     minConfidence := 3 |}.

(** [new CompressionEngine()] *)
Definition default_engine : t :=
  {| compressionThreshold := 5; options := default_options |}.

(** [x < m], false when [x] is missing ([undefined < m]). *)
Definition num_lt (x : option Z) (m : Z) : bool :=
  match x with
  | Some v => (v <? m)%Z
  | None => false
  end.

(** [(now - obsDate) / (1000 * 60 * 60 * 24)]; [None] is [NaN]. *)
Definition ageInDays (now : Z) (ts : Timestamp) : option Q :=
  match getTime ts with
  | Some t => Some (days_between now t)
  | None => None
  end.

(** [age > m], false when [age] is [NaN]. *)
Definition age_gt (age : option Q) (m : Q) : bool :=
  match age with
  | Some a => negb (Qle_bool a m)
  | None => false
  end.

Definition groupKey (item : Pending.t) : string :=
  (Pending.entityName item ++ ":"
     ++ str_or (category (Pending.observation item)) "general")%string.

(** One turn of the loop of [_groupObservations]. *)
Definition group_step (this : t) (now : Z)
    (groups : JsObject.t Group.t) (item : Pending.t) : JsObject.t Group.t :=
  let observation := Pending.observation item in
  if preserveCritical (options this) && is_critical observation then groups
  else if num_lt (confidence observation) (minConfidence (options this)) then groups
  else if age_gt (ageInDays now (timestamp observation))
                 (maxObservationAge (options this)) then groups
  else
    let key := groupKey item in
    let group :=
      match JsObject.get groups key with
      | Some g => g
      | None =>
          {| Group.entityName := Pending.entityName item;
             Group.entityType := Pending.entityType item;
             Group.category := str_or (category observation) "general";
             Group.observations := [] |}
      end in
    JsObject.set groups key
      {| Group.entityName := Group.entityName group;
         Group.entityType := Group.entityType group;
         Group.category := Group.category group;
         Group.observations := Group.observations group ++ [observation] |}.

Definition _groupObservations (this : t) (now : Z) (observations : list Pending.t)
  : JsObject.t Group.t :=
  fold_left (group_step this now) observations [].

(** The inner loop of [_clusterSimilarObservations], at index [j]. *)
Definition cluster_scan (this : t) (observations : list Observation)
    (obsA : Observation) (st : gset nat * list Observation) (j : nat)
  : Result (gset nat * list Observation) :=
  let '(processed, cluster) := st in
  if bool_decide (j ∈ processed) then Ok st
  else
    obsB ← defined (observations !! j);
    similarity ← _calculateSimilarity (content obsA) (content obsB);
    if js_ge similarity (similarityThreshold (options this))
    then Ok ({[ j ]} ∪ processed, cluster ++ [obsB])
    else Ok st.

(** The outer loop, at index [i]. *)
Definition cluster_open (this : t) (observations : list Observation)
    (st : gset nat * list (list Observation)) (i : nat)
  : Result (gset nat * list (list Observation)) :=
  let '(processed, clusters) := st in
  if bool_decide (i ∈ processed) then Ok st
  else
    obsA ← defined (observations !! i);
    '(processed', cluster) ←
      foldM (cluster_scan this observations obsA)
            (seq (i + 1) (length observations - (i + 1)))
            ({[ i ]} ∪ processed, [obsA]);
    Ok (processed', if 1 <? length cluster then clusters ++ [cluster] else clusters).

Definition _clusterSimilarObservations (this : t) (observations : list Observation)
  : Result (list (list Observation)) :=
  '(_, clusters) ←
    foldM (cluster_open this observations) (seq 0 (length observations)) (∅, []);
  Ok clusters.

Definition most_step (best : nat * option string) (entry : string * JsObject.Count)
  : nat * option string :=
  match snd entry with
  | JsObject.Times count =>
      if fst best <? count then (count, Some (fst entry)) else best
  | JsObject.NotANumber => best
  end.

Definition _getMostCommon (arr : list string) : option string :=
  match arr with
  | [] => None
  | _ =>
      let counts := fold_left JsObject.count_item arr [] in
      snd (fold_left most_step (JsObject.entries counts) (0, None))
  end.

Definition long_word (w : string) : bool := 3 <? String.length w.

Definition push_if_long (l : list string) (w : option string) : list string :=
  match w with
  | Some w => if long_word w then l ++ [w] else l
  | None => l
  end.

(** One turn of the first loop of [_generateSummary]. *)
Definition summary_step (acc : list string * list string * list string)
    (obs : Observation) : Result (list string * list string * list string) :=
  let '(subjects, actions, objects) := acc in
  text ← defined (content obs);
  let words := Str.words text in
  if 2 <? length words then
    Ok (push_if_long subjects (words !! 0),
        push_if_long actions (words !! 1),
        fold_left (fun objs i => push_if_long objs (words !! i))
                  (seq 2 (Nat.min 5 (length words) - 2)) objects)
  else Ok acc.

Definition observed_times (n : nat) : string :=
  (" (observed " ++ Str.of_nat n ++ " times)")%string.

Definition _generateSummary (cluster : list Observation) : Result string :=
  '(subjects, actions, objects) ← foldM summary_step cluster ([], [], []);
  let mainSubject := str_or (_getMostCommon subjects) "Subject" in
  let mainAction := str_or (_getMostCommon actions) "performed action" in
  let mainObject := str_or (_getMostCommon objects) "object" in
  let summary := (mainSubject ++ " " ++ mainAction ++ " " ++ mainObject)%string in
  Ok (if 1 <? length cluster
      then (summary ++ observed_times (length cluster))%string
      else summary).

(** The comparator [(a, b) => new Date(b.timestamp) - new Date(a.timestamp)]. *)
Definition newest_first (a b : Observation) : comparison :=
  match getTime (timestamp b), getTime (timestamp a) with
  | Some tb, Some ta => (tb ?= ta)%Z
  | _, _ => Eq
  end.

(** [Math.round]: the nearest integer, a half going up. *)
Definition round (q : Q) : Z := Qfloor (q + (1 # 2)).

Definition sum_confidence (cluster : list Observation) : Z :=
  fold_left (fun sum obs => (sum + num_or (confidence obs) 3)%Z) cluster 0%Z.

(** The body of the [try] block of [_compressCluster]. *)
Definition compress_cluster_body (cluster : list Observation)
    (entityName category : string) : Result Compressed.t :=
  let sortedCluster := JsArray.sort newest_first cluster in
  first ← defined (head sortedCluster);
  let timestamp := timestamp first in
  let avgConfidence :=
    round (inject_Z (sum_confidence sortedCluster)
           / inject_Z (Z.of_nat (length sortedCluster))) in
  summary ← _generateSummary sortedCluster;
  let is_critical := existsb is_critical sortedCluster in
  Ok {| Compressed.content := summary;
        Compressed.source_observations := map content sortedCluster;
        Compressed.confidence := avgConfidence;
        Compressed.category := category;
        Compressed.timestamp := timestamp;
        Compressed.is_critical := is_critical;
        Compressed.time_window := None |}.

(** [_compressCluster]; [None] is [null]. *)
Definition _compressCluster (cluster : list Observation)
    (entityName category : string) : option Compressed.t :=
  match compress_cluster_body cluster entityName category with
  | Ok compressed => Some compressed
  | Throw _ => None
  end.

(** One turn of the loop over the clusters of a group. *)
Definition compress_step (this : t) (group : Group.t)
    (compressedResults : list Compressed.t) (cluster : list Observation)
  : list Compressed.t :=
  if (compressionThreshold this <=? Z.of_nat (length cluster))%Z then
    match _compressCluster cluster (Group.entityName group) (Group.category group) with
    | Some compressed => compressedResults ++ [compressed]
    | None => compressedResults
    end
  else compressedResults.

(** One turn of the loop over the groups. *)
Definition compress_group (this : t) (compressedResults : list Compressed.t)
    (entry : string * Group.t) : Result (list Compressed.t) :=
  let group := snd entry in
  if (Z.of_nat (length (Group.observations group)) <? compressionThreshold this)%Z
  then Ok compressedResults
  else
    clusters ← _clusterSimilarObservations this (Group.observations group);
    Ok (fold_left (compress_step this group) clusters compressedResults).

(** The body of the [try] block of [compressObservations]. *)
Definition compress_body (this : t) (now : Z) (pendingObservations : list Pending.t)
  : Result (list Compressed.t) :=
  let groupedObservations := _groupObservations this now pendingObservations in
  foldM (compress_group this) (JsObject.entries groupedObservations) [].

Definition compressObservations (this : t) (now : Z)
    (pendingObservations : list Pending.t) : list Compressed.t :=
  match pendingObservations with
  | [] => []
  | _ =>
      match compress_body this now pendingObservations with
      | Ok compressedResults => compressedResults
      | Throw _ => []
      end
  end.

(** An item of the input of [temporalCompression]: an observation that
    carries the name and, possibly, the type of its entity. *)
Record Historical : Type := mkHistorical {
  h_entityName : string;
  h_entityType : option string;
  h_observation : Observation
}.

Section Temporal.

(** The calendar arithmetic of [_groupByTimeWindow], which belongs to
    [Date]: the key of the window of a date, for a window size in
    days; [toISOString] raises a [RangeError] when the arithmetic
    leaves the range of dates. *)
Variable windowKey : Z -> Z -> Result string.

Definition window_step (timeWindowDays : Z)
    (windows : JsObject.t (list Historical)) (obs : Historical)
  : Result (JsObject.t (list Historical)) :=
  match timestamp (h_observation obs) with
  | TsMissing => Ok windows
  | TsInvalid => Throw RangeError
  | TsAt ms =>
      key ← windowKey ms timeWindowDays;
      Ok (JsObject.set windows key
            (default [] (JsObject.get windows key) ++ [obs]))
  end.

Definition _groupByTimeWindow (observations : list Historical)
    (timeWindowDays : Z) : Result (JsObject.t (list Historical)) :=
  foldM (window_step timeWindowDays) observations [].

Definition formatted (obs : Historical) : Pending.t :=
  {| Pending.entityName := h_entityName obs;
     Pending.entityType := str_or (h_entityType obs) "Unknown";
     Pending.observation := h_observation obs |}.

Definition tag_window (windowKey : string) (compressed : Compressed.t)
  : Compressed.t :=
  {| Compressed.content := Compressed.content compressed;
     Compressed.source_observations := Compressed.source_observations compressed;
     Compressed.confidence := Compressed.confidence compressed;
     Compressed.category := Compressed.category compressed;
     Compressed.timestamp := Compressed.timestamp compressed;
     Compressed.is_critical := Compressed.is_critical compressed;
     Compressed.time_window := Some windowKey |}.

(** The body of the [try] block of [temporalCompression]. *)
Definition temporal_body (this : t) (now : Z) (observations : list Historical)
    (timeWindowDays : Z) : Result (list Compressed.t) :=
  timeWindows ← _groupByTimeWindow observations timeWindowDays;
  Ok (fold_left
        (fun compressedResults entry =>
           let windowCompressed :=
             compressObservations this now (map formatted (snd entry)) in
           compressedResults ++ map (tag_window (fst entry)) windowCompressed)
        (JsObject.entries timeWindows) []).

Definition temporalCompression (this : t) (now : Z)
    (observations : list Historical) (timeWindowDays : Z)
  : list Compressed.t :=
  match observations with
  | [] => []
  | _ =>
      match temporal_body this now observations timeWindowDays with
      | Ok compressedResults => compressedResults
      | Throw _ => []
      end
  end.

End Temporal.

End CompressionEngine.

(** ** Entities, relations and the graph collaborator *)

Module Entity.
(** An entity of the graph; a missing [observations] field is the
    empty list. *)
Record t : Type := mk {
  name : string;
  entityType : string;
  observations : list Observation
}.
End Entity.

Module Relation.
Record Attributes : Type := mkAttributes {
  time : Timestamp;
  is_critical : bool
}.

Record t : Type := mk {
  from : string;
  relationType : string;
  to : string;
  attributes : option Attributes
}.
End Relation.

Module Graph.
(** The value of [exportGraph()]. *)
Record t : Type := mk {
  entities : option (list Entity.t);
  relations : option (list Relation.t)
}.
End Graph.

(** The operations that the retrieval service calls on the graph
    collaborator.  Each of them may fail. *)
Class KnowledgeGraph (G : Type) : Type := {
  getEntity : G -> string -> Result (option Entity.t);
  search : G -> string -> Result (option (list Entity.t));
  getEntityRelations : G -> string -> Result (list Relation.t);
  exportGraph : G -> Result (option Graph.t)
}.

(** An in-memory graph: a list of entities and a list of relations.  A
    search answers with every entity; when [broken] is set every
    operation fails. *)
Module MemoryGraph.
Record t : Type := mk {
  entities : list Entity.t;
  relations : list Relation.t;
  broken : bool
}.

Definition unavailable : Exn := Error "graph unavailable".

Definition guard {A : Type} (g : t) (a : A) : Result A :=
  if broken g then Throw unavailable else Ok a.

Definition lookup_entity (g : t) (entityName : string) : option Entity.t :=
  find (fun e => String.eqb (Entity.name e) entityName) (entities g).

Definition touches (entityName : string) (r : Relation.t) : bool :=
  String.eqb (Relation.from r) entityName || String.eqb (Relation.to r) entityName.

#[global] Instance graph : KnowledgeGraph t := {|
  getEntity g entityName := guard g (lookup_entity g entityName);
  search g query := guard g (Some (entities g));
  getEntityRelations g entityName :=
    guard g (filter (fun r => touches entityName r = true) (relations g));
  exportGraph g :=
    guard g (Some {| Graph.entities := Some (entities g);
                     Graph.relations := Some (relations g) |})
|}.
End MemoryGraph.

(** ** The retrieval service *)

Module RetrievalService.

Module Weights.
Record t : Type := mk {
  recency : Q;
  confidence : Q;
  relevance : Q
}.
End Weights.

Record Options : Type := mkOptions {
  maxEntities : Z;
  maxObservationsPerEntity : Z;
  maxRelations : Z;
  minConfidence : Z;
  recencyWindow : Q;
  weights : Weights.t
}.

(** The options of [new RetrievalService()]. *)
Definition default_options : Options :=
  {| maxEntities := 10;
     maxObservationsPerEntity := 5;
     maxRelations := 20;
     minConfidence := 3;
     recencyWindow := 30 # 1;
     weights := {| Weights.recency := 3 # 10;
                  Weights.confidence := 3 # 10;
                  Weights.relevance := 4 # 10 |} |}.

(** The [options] argument of one call: the fields that it sets. *)
Record Overrides : Type := mkOverrides {
  set_maxEntities : option Z;
  set_maxObservationsPerEntity : option Z;
  set_maxRelations : option Z;
  set_minConfidence : option Z;
  set_recencyWindow : option Q;
  set_weights : option Weights.t
}.

Definition no_overrides : Overrides :=
  {| set_maxEntities := None; set_maxObservationsPerEntity := None;
     set_maxRelations := None; set_minConfidence := None;
     set_recencyWindow := None; set_weights := None |}.

(** [{ ...this.options, ...options }] *)
Definition merge (this : Options) (options : Overrides) : Options :=
  {| maxEntities := default (maxEntities this) (set_maxEntities options);
     maxObservationsPerEntity :=
       default (maxObservationsPerEntity this) (set_maxObservationsPerEntity options);
     maxRelations := default (maxRelations this) (set_maxRelations options);
     minConfidence := default (minConfidence this) (set_minConfidence options);
     recencyWindow := default (recencyWindow this) (set_recencyWindow options);
     weights := default (weights this) (set_weights options) |}.

(** The conversation context: a string, or an object given by its
    [JSON.stringify] text. *)
Inductive Context : Type :=
| ContextString (text : string)
| ContextObject (json : string).

Definition stopWords : list string :=
  [ "the"; "and"; "are"; "for"; "was"; "that"; "this"; "with"; "have"; "from";
    "what"; "which"; "when"; "where"; "who"; "will"; "would"; "there"; "their";
    "about"; "should"; "could"; "been"; "more"; "very"; "some"; "other"; "then"
  ]%string.

Definition _isStopWord (word : string) : bool :=
  bool_decide (word ∈ stopWords).

(** The comparator [(a, b) => b - a] on two numbers that may be [NaN]
    ([None]). *)
Definition descending (a b : option Q) : comparison :=
  match b, a with
  | Some y, Some x => (y ?= x)%Q
  | _, _ => Eq
  end.

Definition count_value (c : JsObject.Count) : option Q :=
  match c with
  | JsObject.Times n => Some (inject_Z (Z.of_nat n))
  | JsObject.NotANumber => None
  end.

(** [_extractKeywords]: the text is put in lowercase, its punctuation
    is blanked, and it is cut at the white space; the words of more than
    three characters that are not stop words are counted, and the ten
    most frequent are kept, in the order of [Object.entries] among equal
    counts.  (A count that is not a number, which only the word
    [constructor] can have here, compares as equal to every other.) *)
Definition _extractKeywords (context : Context) : list string :=
  let contextText :=
    match context with
    | ContextString text => text
    | ContextObject json => json
    end in
  let tokens :=
    filter (fun word => (3 <? String.length word) && negb (_isStopWord word) = true)
           (Str.split_space (Str.blank_punctuation (Str.toLowerCase contextText))) in
  let wordCounts := fold_left JsObject.count_item tokens [] in
  map fst
    (JsArray.slice0 10
       (JsArray.sort (fun a b => descending (count_value (snd a)) (count_value (snd b)))
                     (JsObject.entries wordCounts))).

Fixpoint dedup_entities (entities : list Entity.t) (entityNames : list string)
  : list Entity.t :=
  match entities with
  | [] => []
  | entity :: rest =>
      if JsSet.has entityNames (Entity.name entity)
      then dedup_entities rest entityNames
      else entity :: dedup_entities rest (JsSet.add entityNames (Entity.name entity))
  end.

Definition _removeDuplicateEntities (entities : list Entity.t) : list Entity.t :=
  dedup_entities entities [].

Record Scores : Type := mkScores {
  s_relevance : Q;
  s_recency : Q;
  s_confidence : Q
}.

(** [{ ...entity, score, scores }] *)
Record ScoredEntity : Type := mkScoredEntity {
  entity : Entity.t;
  score : Q;
  scores : Scores
}.

(** [{ ...relation, score }]; the score is [None] when it is [NaN]. *)
Record ScoredRelation : Type := mkScoredRelation {
  relation : Relation.t;
  relation_score : option Q
}.

(** [{ ...obs, score }]; the score is [None] when it is [NaN]. *)
Record ScoredObservation : Type := mkScoredObservation {
  obs : Observation;
  obs_score : option Q
}.

(** [{ ...entity, observations }] with the observations selected for
    the answer. *)
Record Retrieved (E : Type) (O : Type) : Type := mkRetrieved {
  of_entity : E;
  observations : list O
}.
Arguments mkRetrieved {E O} _ _.
Arguments of_entity {E O} _.
Arguments observations {E O} _.

(** [Math.max(0, 1 - daysSince / recencyWindow)] *)
Definition recency_of_days (recencyWindow daysSince : Q) : Q :=
  Qmax 0 (1 - daysSince / recencyWindow)%Q.

(** [Math.max(...timestamps)] for a list of positive numbers; [0] stands
    for the empty list, which the code excludes before. *)
Definition max_list (timestamps : list Z) : Z :=
  fold_right Z.max 0%Z timestamps.

(** The value of [retrieveRelevantMemories]. *)
Module Relevant.
Record t : Type := mk {
  entities : list (Retrieved ScoredEntity ScoredObservation);
  relations : list ScoredRelation;
  context : option (list string * Options);
  error : option string
}.
End Relevant.

(** The value of [retrieveByCategory]. *)
Module ByCategory.
Record t : Type := mk {
  category : option string;
  entities : list (Retrieved Entity.t ScoredObservation);
  error : option string
}.
End ByCategory.

(** The value of [retrieveCriticalMemories]. *)
Module Critical.
Record t : Type := mk {
  entities : list Entity.t;
  relations : list Relation.t;
  error : option string
}.
End Critical.

(** The argument and the value of [retrieveByTimeRange]. *)
Module ByTimeRange.
Record Range : Type := mkRange {
  startDate : Timestamp;
  endDate : Timestamp
}.

Inductive RangeText : Type :=
| Formatted (startDate endDate : string)
| AsGiven (timeRange : Range).

Record t : Type := mk {
  timeRange : RangeText;
  entities : list Entity.t;
  relations : list Relation.t;
  error : option string
}.
End ByTimeRange.

(** [a >= b] and [a <= b] on numbers that may be [NaN]. *)
Definition num_ge (a b : option Z) : bool :=
  match a, b with
  | Some x, Some y => (y <=? x)%Z
  | _, _ => false
  end.

Definition num_le (a b : option Z) : bool := num_ge b a.

(** [x + y] on numbers that may be [NaN]. *)
Definition num_add (x y : option Q) : option Q :=
  match x, y with
  | Some a, Some b => Some (a + b)%Q
  | _, _ => None
  end.

Section Service.

(** [JSON.stringify] of an entity. *)
Variable stringify : Entity.t -> string.

(** [new Date(ms).toISOString()], which raises a [RangeError] outside
    the range of dates. *)
Variable toISOString : Z -> Result string.

Context {G : Type} `{KnowledgeGraph G}.

Variable this : Options.
Variable now : Z.

Definition _calculateRelevanceScore (entity : Entity.t) (keywords : list string) : Q :=
  let entityString := Str.toLowerCase (stringify entity) in
  let matches :=
    fold_left
      (fun matches keyword =>
         if Str.includes entityString (Str.toLowerCase keyword)
         then (matches + 1)%nat else matches)
      keywords 0%nat in
  if 0 <? length keywords
  then (inject_Z (Z.of_nat matches) / inject_Z (Z.of_nat (length keywords)))%Q
  else 0%Q.

(** [_calculateRecencyScore]: a time that is [NaN] does not pass the
  test [timestamp > 0], so it is dropped at once. *)
Definition _calculateRecencyScore (entity : Entity.t) : Q :=
  match Entity.observations entity with
  | [] => 0%Q
  | _ =>
      let timestamps :=
        filter (fun timestamp => (0 < timestamp)%Z)
          (omap (fun obs =>
                   if ts_truthy (timestamp obs) then getTime (timestamp obs)
                   else Some 0%Z)
                (Entity.observations entity)) in
      match timestamps with
      | [] => 0%Q
      | _ =>
          let mostRecent := max_list timestamps in
          let daysSince := days_between now mostRecent in
          recency_of_days (recencyWindow this) daysSince
      end
  end.

Definition _calculateConfidenceScore (entity : Entity.t) : Q :=
  match Entity.observations entity with
  | [] => 0%Q
  | _ =>
      let confidences :=
        filter (fun confidence => (0 < confidence)%Z)
               (map (fun obs => num_or (confidence obs) 0)
                    (Entity.observations entity)) in
      match confidences with
      | [] => 0%Q
      | _ =>
          let avgConfidence :=
            (inject_Z (fold_left Z.add confidences 0%Z)
             / inject_Z (Z.of_nat (length confidences)))%Q in
          (avgConfidence / 5)%Q
      end
  end.

Definition _scoreEntities (entities : list Entity.t) (keywords : list string)
  : list ScoredEntity :=
  map (fun entity =>
         let relevanceScore := _calculateRelevanceScore entity keywords in
         let recencyScore := _calculateRecencyScore entity in
         let confidenceScore := _calculateConfidenceScore entity in
         let totalScore :=
           (Weights.relevance (weights this) * relevanceScore
            + Weights.recency (weights this) * recencyScore
            + Weights.confidence (weights this) * confidenceScore)%Q in
         {| entity := entity;
            score := totalScore;
            scores := {| s_relevance := relevanceScore;
                         s_recency := recencyScore;
                         s_confidence := confidenceScore |} |})
      entities.

Definition _scoreRelations (relations : list Relation.t)
    (topEntities : list ScoredEntity) : list ScoredRelation :=
  let entityNames := JsSet.of_list (map (fun e => Entity.name (entity e)) topEntities) in
  map (fun relation =>
         let connectsTopEntities :=
           JsSet.has entityNames (Relation.from relation)
           && JsSet.has entityNames (Relation.to relation) in
         let score := if connectsTopEntities then 1%Q else (1 # 2)%Q in
         let score :=
           match Relation.attributes relation with
           | Some a => if Relation.is_critical a then (score + (3 # 10))%Q else score
           | None => score
           end in
         let score :=
           match Relation.attributes relation with
           | Some a =>
               if ts_truthy (Relation.time a) then
                 match getTime (Relation.time a) with
                 | Some relationTime =>
                     let daysSince := days_between now relationTime in
                     let recencyBoost :=
                       Qmax 0 ((2 # 10) * (1 - daysSince / recencyWindow this))%Q in
                     Some (score + recencyBoost)%Q
                 | None => None
                 end
               else Some score
           | None => Some score
           end in
         {| relation := relation; relation_score := score |})
      relations.

(** The score that [_filterAndSortObservations] gives to one
    observation. *)
Definition observation_score (keywords : list string) (options : Options)
    (o : Observation) : option Q :=
  let relevanceScore :=
    (inject_Z (Z.of_nat
       (fold_left
          (fun score keyword =>
             match content o with
             | Some text =>
                 if negb (String.eqb text EmptyString)
                    && Str.includes (Str.toLowerCase text) (Str.toLowerCase keyword)
                 then (score + 1)%nat else score
             | None => score
             end)
          keywords 0%nat))
     / inject_Z (Z.of_nat (Nat.max 1 (length keywords))))%Q in
  let recencyScore :=
    if ts_truthy (timestamp o) then
      match getTime (timestamp o) with
      | Some obsTime =>
          Some (recency_of_days (recencyWindow options) (days_between now obsTime))
      | None => None
      end
    else Some 0%Q in
  let confidenceScore := (inject_Z (num_or (confidence o) 0) / 5)%Q in
  let criticalBonus := if is_critical o then (1 # 2)%Q else 0%Q in
  num_add
    (num_add
       (num_add (Some (Weights.relevance (weights options) * relevanceScore)%Q)
                (option_map (Qmult (Weights.recency (weights options))) recencyScore))
       (Some (Weights.confidence (weights options) * confidenceScore)%Q))
    (Some criticalBonus).

Definition _filterAndSortObservations (observations : list Observation)
    (keywords : list string) (options : Options) : list ScoredObservation :=
  match observations with
  | [] => []
  | _ =>
      let filteredObservations :=
        filter (fun o => (minConfidence options <= num_or (confidence o) 0)%Z)
               observations in
      let scoredObservations :=
        map (fun o => {| obs := o; obs_score := observation_score keywords options o |})
            filteredObservations in
      JsArray.slice0 (maxObservationsPerEntity options)
        (JsArray.sort (fun a b => descending (obs_score a) (obs_score b))
                      scoredObservations)
  end.

(** The loop [for (const entityName of names)] that fetches the
    entities that exist. *)
Definition fetch_entities (knowledgeGraph : G) (names : list string)
  : Result (list Entity.t) :=
  foldM (fun entities entityName =>
           found ← getEntity knowledgeGraph entityName;
           Ok (match found with
               | Some e => entities ++ [e]
               | None => entities
               end))
        names [].

(** The body of the [try] block of [retrieveRelevantMemories]. *)
Definition relevant_body (knowledgeGraph : G) (context : Context)
    (targetEntities : list string) (options : Overrides) : Result Relevant.t :=
  let retrievalOptions := merge this options in
  let keywords := _extractKeywords context in
  entities ←
    (if 0 <? length targetEntities
     then fetch_entities knowledgeGraph targetEntities
     else
       found ←
         foldM (fun entities keyword =>
                  results ← search knowledgeGraph keyword;
                  Ok (match results with
                      | Some es => entities ++ es
                      | None => entities
                      end))
               keywords [];
       Ok (_removeDuplicateEntities found));
  let scoredEntities := _scoreEntities entities keywords in
  let topEntities :=
    JsArray.slice0 (maxEntities retrievalOptions)
      (JsArray.sort (fun a b => descending (Some (score a)) (Some (score b)))
                    scoredEntities) in
  relations ←
    foldM (fun relations e =>
             entityRelations ← getEntityRelations knowledgeGraph (Entity.name (entity e));
             Ok (relations ++ entityRelations))
          topEntities [];
  let scoredRelations := _scoreRelations relations topEntities in
  let topRelations :=
    JsArray.slice0 (maxRelations retrievalOptions)
      (JsArray.sort (fun a b => descending (relation_score a) (relation_score b))
                    scoredRelations) in
  let processedEntities :=
    map (fun e =>
           mkRetrieved e
             (_filterAndSortObservations (Entity.observations (entity e))
                keywords retrievalOptions))
        topEntities in
  Ok {| Relevant.entities := processedEntities;
        Relevant.relations := topRelations;
        Relevant.context := Some (keywords, retrievalOptions);
        Relevant.error := None |}.

Definition retrieveRelevantMemories (knowledgeGraph : G) (context : Context)
    (targetEntities : list string) (options : Overrides) : Relevant.t :=
  match relevant_body knowledgeGraph context targetEntities options with
  | Ok result => result
  | Throw error =>
      {| Relevant.entities := [];
         Relevant.relations := [];
         Relevant.context := None;
         Relevant.error := Some (message_of error) |}
  end.

(** The entities that the three specialised retrievals start from. *)
Definition candidate_entities (knowledgeGraph : G) (entityNames : list string)
  : Result (list Entity.t) :=
  if 0 <? length entityNames
  then fetch_entities knowledgeGraph entityNames
  else
    graph ← exportGraph knowledgeGraph;
    graph ← defined graph;
    Ok (default [] (Graph.entities graph)).

(** [entities.map(e => ({ ...e, observations: e.observations.filter(keep) }))
    .filter(e => e.observations.length > 0)] *)
Definition restrict_observations (keep : Observation -> bool)
    (entities : list Entity.t) : list Entity.t :=
  filter (fun e => (0 <? length (Entity.observations e)) = true)
    (map (fun e =>
            {| Entity.name := Entity.name e;
               Entity.entityType := Entity.entityType e;
               Entity.observations :=
                 filter (fun o => keep o = true) (Entity.observations e) |})
         entities).

(** The body of the [try] block of [retrieveByCategory]. *)
Definition category_body (knowledgeGraph : G) (category : option string)
    (entityNames : list string) (options : Overrides) : Result ByCategory.t :=
  entities ← candidate_entities knowledgeGraph entityNames;
  let filteredEntities :=
    restrict_observations
      (fun o => bool_decide (category_of o = category)) entities in
  let mergedOptions := merge this options in
  let processedEntities :=
    map (fun e =>
           mkRetrieved e
             (_filterAndSortObservations (Entity.observations e) [] mergedOptions))
        filteredEntities in
  Ok {| ByCategory.category := category;
        ByCategory.entities := processedEntities;
        ByCategory.error := None |}.

Definition retrieveByCategory (knowledgeGraph : G) (category : option string)
    (entityNames : list string) (options : Overrides) : ByCategory.t :=
  match category_body knowledgeGraph category entityNames options with
  | Ok result => result
  | Throw error =>
      {| ByCategory.category := category;
         ByCategory.entities := [];
         ByCategory.error := Some (message_of error) |}
  end.

(** [graph.relations.filter(keep)] on a second export of the graph. *)
Definition exported_relations (knowledgeGraph : G) (keep : Relation.t -> bool)
  : Result (list Relation.t) :=
  graph ← exportGraph knowledgeGraph;
  Ok (match graph with
      | Some g =>
          match Graph.relations g with
          | Some rs => filter (fun r => keep r = true) rs
          | None => []
          end
      | None => []
      end).

Definition critical_relation (r : Relation.t) : bool :=
  match Relation.attributes r with
  | Some a => Relation.is_critical a
  | None => false
  end.

(** The body of the [try] block of [retrieveCriticalMemories]. *)
Definition critical_body (knowledgeGraph : G) (entityNames : list string)
  : Result Critical.t :=
  entities ← candidate_entities knowledgeGraph entityNames;
  let criticalEntities := restrict_observations is_critical entities in
  relations ← exported_relations knowledgeGraph critical_relation;
  Ok {| Critical.entities := criticalEntities;
        Critical.relations := relations;
        Critical.error := None |}.

Definition retrieveCriticalMemories (knowledgeGraph : G) (entityNames : list string)
  : Critical.t :=
  match critical_body knowledgeGraph entityNames with
  | Ok result => result
  | Throw error =>
      {| Critical.entities := [];
         Critical.relations := [];
         Critical.error := Some (message_of error) |}
  end.

Definition in_range (startTime endTime : option Z) (ts : Timestamp) : bool :=
  ts_truthy ts
  && num_ge (getTime ts) startTime && num_le (getTime ts) endTime.

(** The body of the [try] block of [retrieveByTimeRange]. *)
Definition time_range_body (knowledgeGraph : G) (timeRange : ByTimeRange.Range)
    (entityNames : list string) : Result ByTimeRange.t :=
  let startDate := ByTimeRange.startDate timeRange in
  let endDate := ByTimeRange.endDate timeRange in
  let startTime := if ts_truthy startDate then getTime startDate else Some 0%Z in
  let endTime := if ts_truthy endDate then getTime endDate else Some now in
  entities ← candidate_entities knowledgeGraph entityNames;
  let filteredEntities :=
    restrict_observations (fun o => in_range startTime endTime (timestamp o))
                          entities in
  relations ←
    exported_relations knowledgeGraph
      (fun r =>
         match Relation.attributes r with
         | Some a => in_range startTime endTime (Relation.time a)
         | None => false
         end);
  startText ←
    (match startDate with
     | TsMissing => Ok "beginning"%string
     | TsInvalid => Throw RangeError
     | TsAt ms => toISOString ms
     end);
  endText ←
    (match endDate with
     | TsMissing => toISOString now
     | TsInvalid => Throw RangeError
     | TsAt ms => toISOString ms
     end);
  Ok {| ByTimeRange.timeRange := ByTimeRange.Formatted startText endText;
        ByTimeRange.entities := filteredEntities;
        ByTimeRange.relations := relations;
        ByTimeRange.error := None |}.

Definition retrieveByTimeRange (knowledgeGraph : G) (timeRange : ByTimeRange.Range)
    (entityNames : list string) : ByTimeRange.t :=
  match time_range_body knowledgeGraph timeRange entityNames with
  | Ok result => result
  | Throw error =>
      {| ByTimeRange.timeRange := ByTimeRange.AsGiven timeRange;
         ByTimeRange.entities := [];
         ByTimeRange.relations := [];
         ByTimeRange.error := Some (message_of error) |}
  end.

End Service.

End RetrievalService.

(** ** The knowledge graph handler *)

(** The value of [search_nodes] and [open_nodes]. *)
Module Nodes.
Record t : Type := mk {
  entities : option (list Entity.t)
}.
End Nodes.

(** The functions of the server-memory store, which the handler calls
    with a callback.  A call is answered with a result or with an error,
    or the function is not there and the call itself raises an exception;
    the store has a state of its own. *)
Module Mcp.
Inductive Answer (A : Type) : Type :=
| Resolved (a : A)
| Rejected (e : Exn)
| Unavailable.
Arguments Resolved {A} a.
Arguments Rejected {A} e.
Arguments Unavailable {A}.

Record Server (S : Type) : Type := mkServer {
  create_entities : S -> list Entity.t -> Answer unit * S;
  create_relations : S -> list Relation.t -> Answer unit * S;
  add_observations : S -> string -> list Observation -> Answer unit * S;
  delete_entities : S -> list string -> Answer unit * S;
  delete_relations : S -> list Relation.t -> Answer unit * S;
  read_graph : S -> Answer (option Graph.t) * S;
  search_nodes : S -> string -> Answer (option Nodes.t) * S;
  open_nodes : S -> list string -> Answer (option Nodes.t) * S
}.
Arguments create_entities {S} _ _ _.
Arguments create_relations {S} _ _ _.
Arguments add_observations {S} _ _ _ _.
Arguments delete_entities {S} _ _ _.
Arguments delete_relations {S} _ _ _.
Arguments read_graph {S} _ _.
Arguments search_nodes {S} _ _ _.
Arguments open_nodes {S} _ _ _.
End Mcp.

(** The class [KnowledgeGraphHandler].  An entity or a relation is a
    value of the data model, in which a missing [name], [entityType],
    [from], [relationType] or [to] is the empty text and missing
    [observations] are the empty list.  The two caches are finite maps;
    a method is a function of the state of the store and of the handler,
    and a [try] block is a program that may raise an exception after it
    has changed this state.  The store and the handler share no object:
    what the handler caches is a value of its own. *)
Module KnowledgeGraphHandler.

Record t : Type := mk {
  initialized : bool;
  entityCache : gmap string Entity.t;
  relationCache : gmap string Relation.t
}.

(** [new KnowledgeGraphHandler()] *)
Definition new : t :=
  {| initialized := false; entityCache := ∅; relationCache := ∅ |}.

(** [{ success: true, ... }] or [{ success: false, error }]. *)
Inductive Outcome (A : Type) : Type :=
| Success (a : A)
| Failure (error : string).
Arguments Success {A} a.
Arguments Failure {A} error.

Definition cacheKey (relation : Relation.t) : string :=
  (Relation.from relation ++ ":" ++ Relation.relationType relation ++ ":"
     ++ Relation.to relation)%string.

Definition touches (entityName : string) (relation : Relation.t) : bool :=
  String.eqb (Relation.from relation) entityName
  || String.eqb (Relation.to relation) entityName.

(** [for (const entity of entities) this.entityCache.set(entity.name, entity)] *)
Definition cache_entities (entities : list Entity.t) (cache : gmap string Entity.t)
  : gmap string Entity.t :=
  fold_left (fun cache entity => <[Entity.name entity := entity]> cache) entities cache.

Definition cache_relations (relations : list Relation.t)
    (cache : gmap string Relation.t) : gmap string Relation.t :=
  fold_left (fun cache relation => <[cacheKey relation := relation]> cache)
            relations cache.

Definition empty_graph : Graph.t :=
  {| Graph.entities := Some []; Graph.relations := Some [] |}.

Definition no_nodes : Nodes.t := {| Nodes.entities := Some [] |}.

Definition invalid_entity : Exn :=
  Error "Entity must have name and entityType properties".
Definition invalid_observation : Exn :=
  Error "Observation must have content property".
Definition invalid_relation : Exn :=
  Error "Relation must have from, relationType, and to properties".
Definition unreadable_graph : Exn :=
  Error "Failed to read graph from server-memory MCP".

Section Handler.
Context {S : Type}.
Variable mcp : Mcp.Server S.

(** The state of the store and of the handler. *)
Definition World : Type := S * t.

Definition with_entities (w : World) (cache : gmap string Entity.t) : World :=
  (fst w, {| initialized := initialized (snd w);
             entityCache := cache;
             relationCache := relationCache (snd w) |}).

Definition with_relations (w : World) (cache : gmap string Relation.t) : World :=
  (fst w, {| initialized := initialized (snd w);
             entityCache := entityCache (snd w);
             relationCache := cache |}).

(** A wrapper of a function of the store: the promise is resolved
    with the result, rejected with the error, or resolved with a
    simulated result when the function is not there. *)
Definition wrapper {A : Type} (simulated : A) (call : S -> Mcp.Answer A * S)
    (w : World) : Result A * World :=
  match call (fst w) with
  | (Mcp.Resolved a, s) => (Ok a, (s, snd w))
  | (Mcp.Rejected e, s) => (Throw e, (s, snd w))
  | (Mcp.Unavailable, _) => (Ok simulated, w)
  end.

Definition _createEntities (entities : list Entity.t) : World -> Result unit * World :=
  wrapper tt (fun s => Mcp.create_entities mcp s entities).
Definition _createRelations (relations : list Relation.t)
  : World -> Result unit * World :=
  wrapper tt (fun s => Mcp.create_relations mcp s relations).
Definition _addObservations (entityName : string) (contents : list Observation)
  : World -> Result unit * World :=
  wrapper tt (fun s => Mcp.add_observations mcp s entityName contents).
Definition _deleteEntities (entityNames : list string)
  : World -> Result unit * World :=
  wrapper tt (fun s => Mcp.delete_entities mcp s entityNames).
Definition _deleteRelations (relations : list Relation.t)
  : World -> Result unit * World :=
  wrapper tt (fun s => Mcp.delete_relations mcp s relations).
Definition _readGraph : World -> Result (option Graph.t) * World :=
  wrapper (Some empty_graph) (fun s => Mcp.read_graph mcp s).
Definition _searchNodes (query : string) : World -> Result (option Nodes.t) * World :=
  wrapper (Some no_nodes) (fun s => Mcp.search_nodes mcp s query).
Definition _openNodes (names : list string) : World -> Result (option Nodes.t) * World :=
  wrapper (Some no_nodes) (fun s => Mcp.open_nodes mcp s names).

Definition initialize (w : World) : bool * World :=
  match _readGraph w with
  | (Ok (Some _), w') =>
      (true, (fst w', {| initialized := true;
                         entityCache := entityCache (snd w');
                         relationCache := relationCache (snd w') |}))
  | (Ok None, w') => (false, w')
  | (Throw _, w') => (false, w')
  end.

Definition ensureInitialized (w : World) : bool * World :=
  if initialized (snd w) then (true, w) else initialize w.

(** The [try] block of [createEntity]. *)
Definition createEntity_body (entity : Entity.t) (w : World)
  : Result Entity.t * World :=
  if String.eqb (Entity.name entity) EmptyString
     || String.eqb (Entity.entityType entity) EmptyString
  then (Throw invalid_entity, w)
  else
    match _createEntities [entity] w with
    | (Ok _, w') =>
        (Ok entity,
         with_entities w' (<[Entity.name entity := entity]> (entityCache (snd w'))))
    | (Throw e, w') => (Throw e, w')
    end.

Definition createEntity (entity : Entity.t) (w : World)
  : Outcome Entity.t * World :=
  let '(_, w) := ensureInitialized w in
  match createEntity_body entity w with
  | (Ok created, w') => (Success created, w')
  | (Throw error, w') => (Failure (message_of error), w')
  end.

(** The [try] block of [entityExists]. *)
Definition entityExists_body (entityName : string) (w : World)
  : Result bool * World :=
  match _searchNodes entityName w with
  | (Ok results, w') =>
      match results ≫= Nodes.entities with
      | Some (first :: rest) =>
          (Ok (existsb (fun entity => String.eqb (Entity.name entity) entityName)
                       (first :: rest)),
           with_entities w' (cache_entities (first :: rest) (entityCache (snd w'))))
      | _ => (Ok false, w')
      end
  | (Throw e, w') => (Throw e, w')
  end.

Definition entityExists (entityName : string) (w : World) : bool * World :=
  let '(_, w) := ensureInitialized w in
  if bool_decide (is_Some (entityCache (snd w) !! entityName)) then (true, w)
  else
    match entityExists_body entityName w with
    | (Ok found, w') => (found, w')
    | (Throw _, w') => (false, w')
    end.

(** The [try] block of [getEntity]. *)
Definition getEntity_body (entityName : string) (w : World)
  : Result (option Entity.t) * World :=
  match _openNodes [entityName] w with
  | (Ok results, w') =>
      match results ≫= Nodes.entities with
      | Some (entity :: _) =>
          (Ok (Some entity),
           with_entities w' (<[entityName := entity]> (entityCache (snd w'))))
      | _ => (Ok None, w')
      end
  | (Throw e, w') => (Throw e, w')
  end.

Definition getEntity (entityName : string) (w : World) : option Entity.t * World :=
  let '(_, w) := ensureInitialized w in
  match entityCache (snd w) !! entityName with
  | Some entity => (Some entity, w)
  | None =>
      match getEntity_body entityName w with
      | (Ok found, w') => (found, w')
      | (Throw _, w') => (None, w')
      end
  end.

(** The observation with the timestamp that [addObservation] gives it
    when it has none. *)
Definition stamped (now : Z) (observation : Observation) : Observation :=
  if ts_truthy (timestamp observation) then observation
  else
    {| content := content observation;
       timestamp := TsAt now;
       confidence := confidence observation;
       category := category observation;
       is_critical := is_critical observation |}.

Definition with_observation (entity : Entity.t) (observation : Observation)
  : Entity.t :=
  {| Entity.name := Entity.name entity;
     Entity.entityType := Entity.entityType entity;
     Entity.observations := Entity.observations entity ++ [observation] |}.

(** The [try] block of [addObservation]. *)
Definition addObservation_body (now : Z) (entityName : string)
    (observation : Observation) (w : World)
  : Result (string * Observation) * World :=
  match content observation with
  | None | Some EmptyString => (Throw invalid_observation, w)
  | Some _ =>
      let observation := stamped now observation in
      match _addObservations entityName [observation] w with
      | (Ok _, w') =>
          (Ok (entityName, observation),
           match entityCache (snd w') !! entityName with
           | Some entity =>
               with_entities w'
                 (<[entityName := with_observation entity observation]>
                    (entityCache (snd w')))
           | None => w'
           end)
      | (Throw e, w') => (Throw e, w')
      end
  end.

Definition addObservation (now : Z) (entityName : string) (observation : Observation)
    (w : World) : Outcome (string * Observation) * World :=
  let '(_, w) := ensureInitialized w in
  match addObservation_body now entityName observation w with
  | (Ok added, w') => (Success added, w')
  | (Throw error, w') => (Failure (message_of error), w')
  end.

Definition unknown_entity (entityName : string) : Entity.t :=
  {| Entity.name := entityName; Entity.entityType := "Unknown";
     Entity.observations := [] |}.

(** The [try] block of [createRelation]. *)
Definition createRelation_body (relation : Relation.t) (w : World)
  : Result Relation.t * World :=
  if String.eqb (Relation.from relation) EmptyString
     || String.eqb (Relation.relationType relation) EmptyString
     || String.eqb (Relation.to relation) EmptyString
  then (Throw invalid_relation, w)
  else
    let '(fromExists, w) := entityExists (Relation.from relation) w in
    let '(toExists, w) := entityExists (Relation.to relation) w in
    let w :=
      if fromExists then w
      else snd (createEntity (unknown_entity (Relation.from relation)) w) in
    let w :=
      if toExists then w
      else snd (createEntity (unknown_entity (Relation.to relation)) w) in
    match _createRelations [relation] w with
    | (Ok _, w') =>
        (Ok relation,
         with_relations w' (<[cacheKey relation := relation]> (relationCache (snd w'))))
    | (Throw e, w') => (Throw e, w')
    end.

Definition createRelation (relation : Relation.t) (w : World)
  : Outcome Relation.t * World :=
  let '(_, w) := ensureInitialized w in
  match createRelation_body relation w with
  | (Ok created, w') => (Success created, w')
  | (Throw error, w') => (Failure (message_of error), w')
  end.

(** The [try] block of [getEntityRelations]. *)
Definition getEntityRelations_body (entityName : string) (w : World)
  : Result (list Relation.t) * World :=
  match _readGraph w with
  | (Ok graph, w') =>
      match graph ≫= Graph.relations with
      | Some all =>
          let relations := filter (fun r => touches entityName r = true) all in
          (Ok relations,
           with_relations w' (cache_relations relations (relationCache (snd w'))))
      | None => (Ok [], w')
      end
  | (Throw e, w') => (Throw e, w')
  end.

Definition getEntityRelations (entityName : string) (w : World)
  : list Relation.t * World :=
  let '(_, w) := ensureInitialized w in
  match getEntityRelations_body entityName w with
  | (Ok relations, w') => (relations, w')
  | (Throw _, w') => ([], w')
  end.

(** The [try] block of [deleteEntity]. *)
Definition deleteEntity_body (entityName : string) (w : World)
  : Result string * World :=
  match _deleteEntities [entityName] w with
  | (Ok _, w') =>
      (Ok entityName,
       (fst w',
        {| initialized := initialized (snd w');
           entityCache := delete entityName (entityCache (snd w'));
           relationCache :=
             filter (fun kr => touches entityName (snd kr) = false)
                    (relationCache (snd w')) |}))
  | (Throw e, w') => (Throw e, w')
  end.

Definition deleteEntity (entityName : string) (w : World)
  : Outcome string * World :=
  let '(_, w) := ensureInitialized w in
  match deleteEntity_body entityName w with
  | (Ok deleted, w') => (Success deleted, w')
  | (Throw error, w') => (Failure (message_of error), w')
  end.

(** The [try] block of [deleteRelation]. *)
Definition deleteRelation_body (relation : Relation.t) (w : World)
  : Result Relation.t * World :=
  if String.eqb (Relation.from relation) EmptyString
     || String.eqb (Relation.relationType relation) EmptyString
     || String.eqb (Relation.to relation) EmptyString
  then (Throw invalid_relation, w)
  else
    match _deleteRelations [relation] w with
    | (Ok _, w') =>
        (Ok relation,
         with_relations w' (delete (cacheKey relation) (relationCache (snd w'))))
    | (Throw e, w') => (Throw e, w')
    end.

Definition deleteRelation (relation : Relation.t) (w : World)
  : Outcome Relation.t * World :=
  let '(_, w) := ensureInitialized w in
  match deleteRelation_body relation w with
  | (Ok deleted, w') => (Success deleted, w')
  | (Throw error, w') => (Failure (message_of error), w')
  end.

(** The [try] block of [search]. *)
Definition search_body (query : string) (w : World) : Result Nodes.t * World :=
  match _searchNodes query w with
  | (Ok results, w') =>
      (Ok (default no_nodes results),
       match results ≫= Nodes.entities with
       | Some entities =>
           with_entities w' (cache_entities entities (entityCache (snd w')))
       | None => w'
       end)
  | (Throw e, w') => (Throw e, w')
  end.

Definition search (query : string) (w : World) : Nodes.t * World :=
  let '(_, w) := ensureInitialized w in
  match search_body query w with
  | (Ok results, w') => (results, w')
  | (Throw _, w') => (no_nodes, w')
  end.

(** The [try] block of [exportGraph]. *)
Definition exportGraph_body (w : World) : Result Graph.t * World :=
  match _readGraph w with
  | (Ok graph, w') =>
      let w1 :=
        match graph ≫= Graph.entities with
        | Some entities =>
            with_entities w' (cache_entities entities (entityCache (snd w')))
        | None => w'
        end in
      let w2 :=
        match graph ≫= Graph.relations with
        | Some relations =>
            with_relations w1 (cache_relations relations (relationCache (snd w1)))
        | None => w1
        end in
      (Ok (default empty_graph graph), w2)
  | (Throw e, w') => (Throw e, w')
  end.

Definition exportGraph (w : World) : Graph.t * World :=
  let '(_, w) := ensureInitialized w in
  match exportGraph_body w with
  | (Ok graph, w') => (graph, w')
  | (Throw _, w') => (empty_graph, w')
  end.

(** The [try] block of [clearGraph]. *)
Definition clearGraph_body (w : World) : Result string * World :=
  match _readGraph w with
  | (Ok graph, w') =>
      let deleted :=
        match graph ≫= Graph.entities with
        | Some (first :: rest) =>
            _deleteEntities (map Entity.name (first :: rest)) w'
        | _ => (Ok tt, w')
        end in
      match deleted with
      | (Ok _, w'') =>
          (Ok "Knowledge graph cleared"%string,
           (fst w'', {| initialized := initialized (snd w'');
                        entityCache := ∅;
                        relationCache := ∅ |}))
      | (Throw e, w'') => (Throw e, w'')
      end
  | (Throw e, w') => (Throw e, w')
  end.

Definition clearGraph (w : World) : Outcome string * World :=
  let '(_, w) := ensureInitialized w in
  match clearGraph_body w with
  | (Ok message, w') => (Success message, w')
  | (Throw error, w') => (Failure (message_of error), w')
  end.

End Handler.

End KnowledgeGraphHandler.

(** * Specification-level notions *)

(** The set of the tokens of a text, as the specification words it: the
    lowercase text is cut at the non-word characters and the empty pieces
    are dropped. *)
Definition token_set (text : string) : gset string :=
  list_to_set (Str.words (Str.toLowerCase text)).

(** The Jaccard index [|A ∩ B| / |A ∪ B|] of two sets of tokens. *)
Definition jaccard (A B : gset string) : Q :=
  Z.of_nat (size (A ∩ B)) # Pos.of_nat (size (A ∪ B)).

(** A text made of word characters only. *)
Fixpoint word_only (t : string) : Prop :=
  match t with
  | EmptyString => True
  | String c t' => Str.is_word_char c = true ∧ word_only t'
  end.

(** What follows a token: the end of the text, or a character that is
    not a word character. *)
Definition boundary_after (post : string) : Prop :=
  match post with
  | EmptyString => True
  | String c _ => Str.is_word_char c = false
  end.

(** [leading s t]: the text [s] starts with the run of word characters
    [t], which may be empty, and this run cannot be extended. *)
Definition leading (s t : string) : Prop :=
  ∃ post, s = (t ++ post)%string ∧ word_only t ∧ boundary_after post.

(** [inner s t]: the run of word characters [t] stands in [s] between a
    character that is not a word character and a boundary. *)
Definition inner (s t : string) : Prop :=
  ∃ pre c post,
    s = ((pre ++ String c EmptyString) ++ t ++ post)%string
    ∧ Str.is_word_char c = false ∧ word_only t ∧ boundary_after post.

(** A token of [s], in the words of the specification: a non-empty run
    of word characters of [s] that cannot be extended on either side. *)
Definition is_token (s t : string) : Prop :=
  t ≠ EmptyString ∧ (leading s t ∨ inner s t).

(** Two observations are similar for the clusterer when both have a
    content and the similarity of the two contents reaches
    [similarityThreshold]. *)
Definition similar (this : CompressionEngine.t) (seed o : Observation) : bool :=
  match content seed, content o with
  | Some a, Some b =>
      js_ge (similarity_of_strings a b)
            (CompressionEngine.similarityThreshold (CompressionEngine.options this))
  | _, _ => false
  end.

(** The clustering that the specification describes: the first
    observation not yet assigned opens a cluster as its seed; the later
    unassigned observations that are similar to the seed join it, in
    their order; a cluster that stays alone with its seed is dropped; the
    observations left over are treated in the same way.  [fuel] bounds
    the number of seeds. *)
Fixpoint greedy (fuel : nat) (this : CompressionEngine.t)
    (unassigned : list Observation) : list (list Observation) :=
  match fuel, unassigned with
  | S fuel', seed :: later =>
      let members := filter (fun o => similar this seed o = true) later in
      let others := filter (fun o => similar this seed o ≠ true) later in
      match members with
      | [] => greedy fuel' this others
      | _ => (seed :: members) :: greedy fuel' this others
      end
  | _, _ => []
  end.

Definition greedy_clusters (this : CompressionEngine.t)
    (observations : list Observation) : list (list Observation) :=
  greedy (length observations) this observations.

(** A cluster as the clusterer emits it: a seed followed by at least one
    member, all taken from the observations, each member with a
    similarity to the seed of at least [similarityThreshold]. *)
Definition seeded (this : CompressionEngine.t) (observations : list Observation)
    (c : list Observation) : Prop :=
  ∃ seed members,
    c = seed :: members ∧ 2 ≤ length c
    ∧ (seed :: members) ⊆ observations
    ∧ ∀ m, m ∈ members →
        ∃ a b, content seed = Some a ∧ content m = Some b
          ∧ js_ge (similarity_of_strings a b)
                  (CompressionEngine.similarityThreshold (CompressionEngine.options this))
            = true.

(** The observations at the indices [js] that are not in the set
    [P] of processed indices. *)
Definition pick (observations : list Observation) (P : gset nat) (js : list nat)
  : list Observation :=
  omap (fun k => if decide (k ∈ P) then None else observations !! k) js.


(** Three contents for which similarity at the default threshold is not
    transitive: [ab] and [bc] share three tokens out of four and three out
    of five, [ab] and the third text two out of five. *)
Definition chain_a : Observation :=
  mkObservation (Some "p q r"%string) (TsAt 1) (Some 3%Z) None false.
Definition chain_b : Observation :=
  mkObservation (Some "p q r s"%string) (TsAt 2) (Some 3%Z) None false.
Definition chain_c : Observation :=
  mkObservation (Some "q r s t"%string) (TsAt 3) (Some 3%Z) None false.

(** The three exclusion rules of the observation filter, in the words of
    the specification. *)
Definition excluded_as_critical (this : CompressionEngine.t) (o : Observation) : Prop :=
  CompressionEngine.preserveCritical (CompressionEngine.options this) = true
  ∧ is_critical o = true.

Definition excluded_by_confidence (this : CompressionEngine.t) (o : Observation) : Prop :=
  ∃ c, confidence o = Some c
       ∧ (c < CompressionEngine.minConfidence (CompressionEngine.options this))%Z.

Definition excluded_by_age (this : CompressionEngine.t) (now : Z) (o : Observation) : Prop :=
  ∃ t, getTime (timestamp o) = Some t
       ∧ (CompressionEngine.maxObservationAge (CompressionEngine.options this)
          < days_between now t)%Q.

(** The test that the code makes by its three [continue] statements. *)
Definition eligible (this : CompressionEngine.t) (now : Z) (o : Observation) : bool :=
  negb (CompressionEngine.preserveCritical (CompressionEngine.options this)
        && is_critical o)
  && negb (CompressionEngine.num_lt (confidence o)
             (CompressionEngine.minConfidence (CompressionEngine.options this)))
  && negb (CompressionEngine.age_gt
             (CompressionEngine.ageInDays now (timestamp o))
             (CompressionEngine.maxObservationAge (CompressionEngine.options this))).

(** The eligible observations of the items with a given group key, in
    the order of the items. *)
Definition eligible_for (this : CompressionEngine.t) (now : Z) (key : string)
    (items : list Pending.t) : list Observation :=
  map Pending.observation
    (filter (fun p => eligible this now (Pending.observation p) = true
                      ∧ CompressionEngine.groupKey p = key) items).

(** A group produces a compressed observation when one of the clusters
    of its observations is compressed into it. *)
Definition produces (this : CompressionEngine.t) (g : Group.t) (out : Compressed.t) : Prop :=
  ∃ clusters cluster,
    CompressionEngine._clusterSimilarObservations this (Group.observations g) = Ok clusters
    ∧ cluster ∈ clusters
    ∧ (CompressionEngine.compressionThreshold this <= Z.of_nat (length cluster))%Z
    ∧ CompressionEngine._compressCluster cluster (Group.entityName g) (Group.category g)
      = Some out.
(** What [_groupObservations] has built from the items [items]: one
    group for each key that has an eligible observation, holding these
    observations in the order of the items. *)
Definition grouped (this : CompressionEngine.t) (now : Z)
    (groups : JsObject.t Group.t) (items : list Pending.t) : Prop :=
  NoDup (map fst groups)
  ∧ ∀ key,
      match JsObject.get groups key with
      | Some g =>
          Group.observations g = eligible_for this now key items
          ∧ eligible_for this now key items ≠ []
      | None => eligible_for this now key items = []
      end.

(** The time of an observation in milliseconds, [0] when it has none. *)
Definition time_ms (o : Observation) : Z :=
  match timestamp o with
  | TsAt ms => ms
  | _ => 0%Z
  end.

Definition has_time (o : Observation) : Prop := ∃ ms, timestamp o = TsAt ms.

(** A confidence, an absent one counting as 3. *)
Definition confidence_or_3 (o : Observation) : Z := default 3%Z (confidence o).

(** The mean of the confidences of a cluster. *)
Definition mean_confidence (cluster : list Observation) : Q :=
  (inject_Z (foldr Z.add 0%Z (map confidence_or_3 cluster))
   / inject_Z (Z.of_nat (length cluster)))%Q.

(** [r] is [q] rounded to the nearest integer, a half going up. *)
Definition rounds_half_up (q : Q) (r : Z) : Prop :=
  (inject_Z r - (1 # 2) <= q)%Q ∧ (q < inject_Z r + (1 # 2))%Q.

(** [newer a b]: [a] is at least as recent as [b]. *)
Definition newer (a b : Observation) : Prop := (time_ms b <= time_ms a)%Z.

Definition ends_with (s suffix : string) : Prop :=
  ∃ prefix, s = (prefix ++ suffix)%string.

(** Two observations with the confidences 3 and 4, whose mean 3.5 lies
    half-way between two integers. *)
Definition half_a : Observation :=
  mkObservation (Some "Alice likes green tea"%string) (TsAt 10) (Some 3%Z) None false.
Definition half_b : Observation :=
  mkObservation (Some "Alice likes black tea"%string) (TsAt 20) (Some 4%Z) None true.

(** A group or a cluster is large when it has at least
    [compressionThreshold] members. *)
Definition large (this : CompressionEngine.t) (l : list Observation) : bool :=
  (CompressionEngine.compressionThreshold this <=? Z.of_nat (length l))%Z.

(** The clusters that compression keeps, each with its group: the large
    clusters of the large groups, in the order of the groups and of the
    clusters. *)
Definition kept_clusters (this : CompressionEngine.t) (g : Group.t)
  : list (Group.t * list Observation) :=
  map (pair g)
    (filter (fun c => large this c = true)
            (greedy_clusters this (Group.observations g))).

Definition compression_plan (this : CompressionEngine.t)
    (groups : list (string * Group.t)) : list (Group.t * list Observation) :=
  flat_map (kept_clusters this)
    (filter (fun g => large this (Group.observations g) = true) (map snd groups)).

(** [out] is the compressed observation of the cluster [c] of the group
    [g]. *)
Definition compresses (gc : Group.t * list Observation) (out : Compressed.t) : Prop :=
  CompressionEngine._compressCluster (snd gc) (Group.entityName (fst gc))
    (Group.category (fst gc)) = Some out
  ∧ length (Compressed.source_observations out) = length (snd gc).

(** The engine and the two pending observations of the example of the
    specification. *)
Definition example_engine : CompressionEngine.t :=
  {| CompressionEngine.compressionThreshold := 2;
     CompressionEngine.options :=
       {| CompressionEngine.similarityThreshold := 2 # 10;
          CompressionEngine.maxObservationAge := 7 # 1;
          CompressionEngine.preserveCritical := true;
          CompressionEngine.minConfidence := 3 |} |}.

Definition example_pending (entityName entityType : string) (T : Z) : list Pending.t :=
  [ {| Pending.entityName := entityName; Pending.entityType := entityType;
       Pending.observation :=
         mkObservation (Some "User asked about memory"%string) (TsAt T)
                       (Some 5%Z) (Some "goal"%string) false |};
    {| Pending.entityName := entityName; Pending.entityType := entityType;
       Pending.observation :=
         mkObservation (Some "User questioned about storage"%string) (TsAt (T + 1))
                       (Some 5%Z) (Some "goal"%string) false |} ].

(** Five eligible observations of one entity and one category, of which
    only the first two are similar. *)
Definition sparse_pending : list Pending.t :=
  map (fun text =>
         {| Pending.entityName := "user"%string; Pending.entityType := "Person"%string;
            Pending.observation :=
              mkObservation (Some text) (TsAt 1000) (Some 5%Z) (Some "goal"%string) false |})
      [ "likes green tea"; "likes green tea"; "plays chess"; "owns a bike";
        "reads novels" ]%string.

(** An entity seen fifteen days after the epoch, with one observation
    that has no timestamp. *)
Definition fortnight : Entity.t :=
  {| Entity.name := "user";
     Entity.entityType := "Person";
     Entity.observations :=
       [ mkObservation (Some "likes tea"%string) TsMissing (Some 4%Z) None false;
         mkObservation (Some "plays chess"%string) (TsAt (15 * ms_per_day)) (Some 4%Z)
                       None false ] |}.

(** The entity [r] is the entity [e] with its observations restricted to
    those that [keep] accepts. *)
Definition restricted (keep : Observation -> bool) (e r : Entity.t) : Prop :=
  Entity.name r = Entity.name e
  ∧ Entity.entityType r = Entity.entityType e
  ∧ Entity.observations r
    = filter (fun o => keep o = true) (Entity.observations e).

(** The relations of an exported graph. *)
Definition graph_relations (graph : option Graph.t) : list Relation.t :=
  match graph with
  | Some g => default [] (Graph.relations g)
  | None => []
  end.

(** A user with one critical and two ordinary observations, of which one
    has a low confidence, and two relations, of which one is critical. *)
Definition sample_user : Entity.t :=
  {| Entity.name := "user";
     Entity.entityType := "Person";
     Entity.observations :=
       [ mkObservation (Some "is allergic to nuts"%string) (TsAt 1000) (Some 5%Z)
                       (Some "identity"%string) true;
         mkObservation (Some "likes green tea"%string) (TsAt 2000) (Some 4%Z)
                       (Some "preference"%string) false;
         mkObservation (Some "may like jazz"%string) (TsAt 3000) (Some 2%Z)
                       (Some "preference"%string) false ] |}.

Definition sample_graph : MemoryGraph.t :=
  {| MemoryGraph.entities :=
       [ sample_user;
         {| Entity.name := "tea"; Entity.entityType := "Drink";
            Entity.observations := [] |} ];
     MemoryGraph.relations :=
       [ {| Relation.from := "user"; Relation.relationType := "avoids";
            Relation.to := "nuts";
            Relation.attributes :=
              Some {| Relation.time := TsAt 1000; Relation.is_critical := true |} |};
         {| Relation.from := "user"; Relation.relationType := "likes";
            Relation.to := "tea"; Relation.attributes := None |} ];
     MemoryGraph.broken := false |}.

(** The same graph when the store does not answer. *)
Definition broken_graph : MemoryGraph.t :=
  {| MemoryGraph.entities := MemoryGraph.entities sample_graph;
     MemoryGraph.relations := MemoryGraph.relations sample_graph;
     MemoryGraph.broken := true |}.

(** A relation has a readable time when its [time] attribute, if any, is
    a date. *)
Definition readable_time (r : Relation.t) : Prop :=
  ∀ a, Relation.attributes r = Some a → Relation.time a ≠ TsInvalid.

(** [a] may stand before [b] in a list sorted by descending score. *)
Definition score_before {A : Type} (key : A → option Q) (a b : A) : Prop :=
  ∃ x y, key a = Some x ∧ key b = Some y ∧ (y <= x)%Q.

Definition entity_score
    (r : RetrievalService.Retrieved RetrievalService.ScoredEntity
           RetrievalService.ScoredObservation) : option Q :=
  Some (RetrievalService.score (RetrievalService.of_entity r)).

(** A score, with 0 for the score that is not a number. *)
Definition key_or_zero {A : Type} (key : A → option Q) (a : A) : Q :=
  default 0%Q (key a).

(** The stub of [JSON.stringify] used in the examples: the name of the
    entity. *)
Definition name_only (e : Entity.t) : string := Entity.name e.

(** Two pending observations of one group, the second without content. *)
Definition silent_pending : list Pending.t :=
  [ {| Pending.entityName := "user"; Pending.entityType := "Person";
       Pending.observation :=
         mkObservation (Some "User asked about memory"%string) (TsAt 0) (Some 5%Z)
                       (Some "goal"%string) false |};
    {| Pending.entityName := "user"; Pending.entityType := "Person";
       Pending.observation :=
         mkObservation None (TsAt 1) (Some 5%Z) (Some "goal"%string) false |} ].

(** A historical observation whose timestamp is not a date. *)
Definition undated : list CompressionEngine.Historical :=
  [ {| CompressionEngine.h_entityName := "user";
       CompressionEngine.h_entityType := None;
       CompressionEngine.h_observation :=
         mkObservation (Some "likes tea"%string) TsInvalid (Some 5%Z) None false |} ].

(** Stubs of the calendar for the examples: every date falls in the
    window, and prints as the day, of the epoch. *)
Definition epoch_window (ms days : Z) : Result string := Ok "1970-01-01"%string.
Definition epoch_iso (ms : Z) : Result string := Ok "1970-01-01T00:00:00.000Z"%string.

(** [cluster] holds the observations at the positions [positions], in
    this order. *)
Definition at_positions (observations cluster : list Observation)
    (positions : list nat) : Prop :=
  Forall2 (fun o k => observations !! k = Some o) cluster positions.

(** The state of the outer loop of the clusterer and the positions of
    the clusters built so far: each cluster holds the observations at its
    positions, which increase and are at least two; no position is used
    twice, and every position used is marked as processed. *)
Definition positions_ok (observations : list Observation)
    (st : gset nat * list (list Observation)) (indices : list (list nat)) : Prop :=
  Forall2 (at_positions observations) (snd st) indices
  ∧ Forall (fun positions => StronglySorted lt positions ∧ 2 ≤ length positions) indices
  ∧ NoDup (concat indices)
  ∧ ∀ k, k ∈ concat indices → k ∈ fst st.

(** The number of occurrences of a word in a list. *)
Definition occurrences (w : string) (arr : list string) : nat :=
  length (filter (fun x => x = w) arr).

(** What the loop [counts[item] = (counts[item] || 0) + 1] has built
    from the words [arr]: a word that no object inherits has its number
    of occurrences, and an inherited name has no count. *)
Definition counted (counts : JsObject.t JsObject.Count) (arr : list string) : Prop :=
  NoDup (map fst counts)
  ∧ ∀ w,
      if decide (w ∈ JsObject.inherited)
      then JsObject.get counts w = None ∨ JsObject.get counts w = Some JsObject.NotANumber
      else JsObject.get counts w
           = match occurrences w arr with
             | O => None
             | S n => Some (JsObject.Times (S n))
             end.

(** [w] is a word of more than three characters that stands at one of
    the positions [positions] among the words of a member of the cluster
    that has more than two words. *)
Definition word_at (cluster : list Observation) (positions : list nat) (w : string)
  : Prop :=
  ∃ o text i,
    o ∈ cluster ∧ content o = Some text ∧ 2 < length (Str.words text)
    ∧ i ∈ positions ∧ Str.words text !! i = Some w ∧ 3 < String.length w.

(** Two observations of which the second has no content. *)
Definition silent_pair : list Observation :=
  [ mkObservation (Some "User asked about memory"%string) (TsAt 10) (Some 5%Z) None false;
    mkObservation None (TsAt 20) (Some 5%Z) None false ].

(** The number of observations held by a list of groups. *)
Definition group_total (groups : list (string * Group.t)) : nat :=
  sum_list_with (fun e => length (Group.observations (snd e))) groups.

(** The number of source observations of a list of compressed
    observations. *)
Definition source_total (outs : list Compressed.t) : nat :=
  sum_list_with (fun out => length (Compressed.source_observations out)) outs.

(** The compressed observation of the two observations of the example,
    taken at the times 0 and 1. *)
Definition example_compressed : Compressed.t :=
  {| Compressed.content := "User questioned about (observed 2 times)";
     Compressed.source_observations :=
       [Some "User questioned about storage"%string; Some "User asked about memory"%string];
     Compressed.confidence := 5;
     Compressed.category := "goal";
     Compressed.timestamp := TsAt 1;
     Compressed.is_critical := false;
     Compressed.time_window := None |}.

(** The historical observations whose timestamp falls in the window of
    key [key], in their order. *)
Definition in_window (windowKey : Z -> Z -> Result string) (timeWindowDays : Z)
    (key : string) (h : CompressionEngine.Historical) : bool :=
  match timestamp (CompressionEngine.h_observation h) with
  | TsAt ms =>
      match windowKey ms timeWindowDays with
      | Ok k => String.eqb k key
      | Throw _ => false
      end
  | _ => false
  end.

Definition window (windowKey : Z -> Z -> Result string) (timeWindowDays : Z)
    (key : string) (observations : list CompressionEngine.Historical)
  : list CompressionEngine.Historical :=
  filter (fun h => in_window windowKey timeWindowDays key h = true) observations.

(** What [_groupByTimeWindow] has built from the observations
    [observations]: under each key, the observations of its window. *)
Definition windows_of (windowKey : Z -> Z -> Result string) (timeWindowDays : Z)
    (windows : JsObject.t (list CompressionEngine.Historical))
    (observations : list CompressionEngine.Historical) : Prop :=
  NoDup (map fst windows)
  ∧ ∀ key, default [] (JsObject.get windows key)
           = window windowKey timeWindowDays key observations.

(** Two historical observations of the example, at the times 0 and 1. *)
Definition example_history : list CompressionEngine.Historical :=
  [ CompressionEngine.mkHistorical "user" (Some "Person"%string)
      (mkObservation (Some "User asked about memory"%string) (TsAt 0)
                     (Some 5%Z) (Some "goal"%string) false);
    CompressionEngine.mkHistorical "user" (Some "Person"%string)
      (mkObservation (Some "User questioned about storage"%string) (TsAt 1)
                     (Some 5%Z) (Some "goal"%string) false) ].

(** The text that [_extractKeywords] reads. *)
Definition context_text (context : RetrievalService.Context) : string :=
  match context with
  | RetrievalService.ContextString text => text
  | RetrievalService.ContextObject json => json
  end.

(** The candidate keywords of a context: the pieces of the lowercase
    text between white space, punctuation counting as white space, that
    have more than three characters and are not stop words. *)
Definition candidates (context : RetrievalService.Context) : list string :=
  filter (fun word => (3 <? String.length word)
                      && negb (RetrievalService._isStopWord word) = true)
    (Str.split_space (Str.blank_punctuation (Str.toLowerCase (context_text context)))).

(** The characters of a string. *)
Definition chars (s : string) : list ascii := list_ascii_of_string s.

(** A lowercase word: letters that are not capitals, digits and
    underscores. *)
Definition lowercase_word (s : string) : Prop :=
  Forall (fun c => Str.is_word_char c = true ∧ Str.is_upper c = false) (chars s).

(** The first entity of a list that has a given name. *)
Definition first_named (name : string) (entities : list Entity.t) : option Entity.t :=
  find (fun e => String.eqb (Entity.name e) name) entities.

(** An observation of the data model, as the scores expect it: its
    confidence, when it has one, is at most 5, and its timestamp, when
    [Date] can read it, is not later than [now]. *)
Definition on_scale (o : Observation) : Prop :=
  ∀ c, confidence o = Some c → (c <= 5)%Z.

Definition not_later (now : Z) (ts : Timestamp) : Prop :=
  ∀ t, getTime ts = Some t → (t <= now)%Z.

(** A number between 0 and 1. *)
Definition in_unit (q : Q) : Prop := (0 <= q)%Q ∧ (q <= 1)%Q.

(** The base score of a relation: 1 when it connects two of the top
    entities, one half otherwise. *)
Definition base_score (topEntities : list RetrievalService.ScoredEntity)
    (r : Relation.t) : Q :=
  if bool_decide (Relation.from r ∈ map (fun e => Entity.name (RetrievalService.entity e))
                                        topEntities
                  ∧ Relation.to r ∈ map (fun e => Entity.name (RetrievalService.entity e))
                                        topEntities)
  then 1%Q else (1 # 2)%Q.

(** The [time] attribute of a relation, missing when the relation has no
    attributes. *)
Definition relation_time (r : Relation.t) : Timestamp :=
  match Relation.attributes r with
  | Some a => Relation.time a
  | None => TsMissing
  end.

(** A critical relation between the two top entities of the sample, seen
    fifteen days after the epoch. *)
Definition sample_relation : Relation.t :=
  Relation.mk "user" "likes" "tea"
    (Some (Relation.mkAttributes (TsAt (15 * ms_per_day)) true)).

Definition sample_top : list RetrievalService.ScoredEntity :=
  [ RetrievalService.mkScoredEntity (Entity.mk "user" "Person" []) 0
      (RetrievalService.mkScores 0 0 0);
    RetrievalService.mkScoredEntity (Entity.mk "tea" "Drink" []) 0
      (RetrievalService.mkScores 0 0 0) ].

(** The name of an entity of the answer of general retrieval. *)
Definition retrieved_name
    (r : RetrievalService.Retrieved RetrievalService.ScoredEntity
           RetrievalService.ScoredObservation) : string :=
  Entity.name (RetrievalService.entity (RetrievalService.of_entity r)).

(** Options of one call that change the weights and the recency window
    only. *)
Definition reweighted : RetrievalService.Overrides :=
  {| RetrievalService.set_maxEntities := None;
     RetrievalService.set_maxObservationsPerEntity := None;
     RetrievalService.set_maxRelations := None;
     RetrievalService.set_minConfidence := None;
     RetrievalService.set_recencyWindow := Some (1 # 1)%Q;
     RetrievalService.set_weights :=
       Some (RetrievalService.Weights.mk 1 0 0) |}.

(** The bounds of a time range in milliseconds: a missing start is the
    epoch and a missing end is [now]. *)
Definition range_from (timeRange : RetrievalService.ByTimeRange.Range) : Z :=
  match RetrievalService.ByTimeRange.startDate timeRange with
  | TsAt ms => ms
  | _ => 0%Z
  end.

Definition range_until (now : Z) (timeRange : RetrievalService.ByTimeRange.Range) : Z :=
  match RetrievalService.ByTimeRange.endDate timeRange with
  | TsAt ms => ms
  | _ => now
  end.

(** A timestamp that [Date] reads as a time between two bounds. *)
Definition within (lo hi : Z) (ts : Timestamp) : bool :=
  match ts with
  | TsAt t => (lo <=? t)%Z && (t <=? hi)%Z
  | _ => false
  end.

(** The text of a bound of the range in the answer. *)
Definition bound_text (toISOString : Z -> Result string) (missing : Result string)
    (ts : Timestamp) : Result string :=
  match ts with
  | TsMissing => missing
  | TsInvalid => Throw RangeError
  | TsAt ms => toISOString ms
  end.

(** A readable range: neither bound is a text that [Date] cannot read. *)
Definition readable_range (timeRange : RetrievalService.ByTimeRange.Range) : Prop :=
  RetrievalService.ByTimeRange.startDate timeRange ≠ TsInvalid
  ∧ RetrievalService.ByTimeRange.endDate timeRange ≠ TsInvalid.

(** The pending items that pass the filter and have a given group key,
    in their order. *)
Definition members_of (this : CompressionEngine.t) (now : Z) (key : string)
    (items : list Pending.t) : list Pending.t :=
  filter (fun p => eligible this now (Pending.observation p) = true
                   ∧ CompressionEngine.groupKey p = key) items.

(** The group keys of the pending items that pass the filter, in the
    order of the items. *)
Definition eligible_keys (this : CompressionEngine.t) (now : Z)
    (items : list Pending.t) : list string :=
  map CompressionEngine.groupKey
    (filter (fun p => eligible this now (Pending.observation p) = true) items).

(** A group carries the name, the type and the category of the item
    [first]. *)
Definition opened_by (first : Pending.t) (g : Group.t) : Prop :=
  Group.entityName g = Pending.entityName first
  ∧ Group.entityType g = Pending.entityType first
  ∧ Group.category g = str_or (category (Pending.observation first)) "general".

(** Two pending observations of one entity that disagree on its type. *)
Definition retyped_pending : list Pending.t :=
  [ Pending.mk "user" "Person"
      (mkObservation (Some "likes green tea"%string) (TsAt 0) (Some 4%Z) None false);
    Pending.mk "user" "Robot"
      (mkObservation (Some "plays chess"%string) (TsAt 0) (Some 4%Z) None false) ].

(** An observation whose confidence, when it has one, is between 0 and
    5. *)
Definition rated (o : Observation) : Prop :=
  ∀ c, confidence o = Some c → (0 <= c <= 5)%Z.

(** The bonus of a critical observation. *)
Definition critical_bonus (o : Observation) : Q :=
  if is_critical o then (1 # 2)%Q else 0%Q.

(** Weights that are not negative. *)
Definition fair_weights (w : RetrievalService.Weights.t) : Prop :=
  (0 <= RetrievalService.Weights.relevance w)%Q
  ∧ (0 <= RetrievalService.Weights.recency w)%Q
  ∧ (0 <= RetrievalService.Weights.confidence w)%Q.

(** Whether the content of an observation includes a keyword, letter
    case apart; an observation without content, or with an empty one,
    includes none. *)
Definition includes_keyword (o : Observation) (keyword : string) : bool :=
  match content o with
  | Some text =>
      negb (String.eqb text EmptyString)
      && Str.includes (Str.toLowerCase text) (Str.toLowerCase keyword)
  | None => false
  end.

(** The number of the keywords that the content of an observation
    includes. *)
Definition keyword_matches (keywords : list string) (o : Observation) : nat :=
  length (filter (fun keyword => includes_keyword o keyword = true) keywords).

(** The entities that a graph knows under the names [names], in the
    order of the names. *)
Definition named {G : Type} `{KnowledgeGraph G} (knowledgeGraph : G)
    (names : list string) : list Entity.t :=
  omap (fun entityName =>
          match getEntity knowledgeGraph entityName with
          | Ok found => found
          | Throw _ => None
          end)
       names.

(** A graph that finds entities by name but cannot be exported. *)
Module Directory.
Record t : Type := mk { entities : list Entity.t }.

Definition sealed : Exn := Error "export refused".

#[global] Instance graph : KnowledgeGraph t := {|
  getEntity g entityName :=
    Ok (find (fun e => String.eqb (Entity.name e) entityName) (entities g));
  search g query := Ok None;
  getEntityRelations g entityName := Ok [];
  exportGraph g := Throw sealed
|}.
End Directory.

(** A store of which no function is there: every call raises an
    exception, and the wrappers of the handler simulate the results. *)
Definition offline : Mcp.Server unit :=
  {| Mcp.create_entities := fun s _ => (Mcp.Unavailable, s);
     Mcp.create_relations := fun s _ => (Mcp.Unavailable, s);
     Mcp.add_observations := fun s _ _ => (Mcp.Unavailable, s);
     Mcp.delete_entities := fun s _ => (Mcp.Unavailable, s);
     Mcp.delete_relations := fun s _ => (Mcp.Unavailable, s);
     Mcp.read_graph := fun s => (Mcp.Unavailable, s);
     Mcp.search_nodes := fun s _ => (Mcp.Unavailable, s);
     Mcp.open_nodes := fun s _ => (Mcp.Unavailable, s) |}.

(** The two caches of a handler are those of another. *)
Definition same_caches (a b : KnowledgeGraphHandler.t) : Prop :=
  KnowledgeGraphHandler.entityCache a = KnowledgeGraphHandler.entityCache b
  ∧ KnowledgeGraphHandler.relationCache a = KnowledgeGraphHandler.relationCache b.

(** An entity that passes the validation of [createEntity]. *)
Definition valid_entity (entity : Entity.t) : Prop :=
  Entity.name entity ≠ EmptyString ∧ Entity.entityType entity ≠ EmptyString.

(** An observation that passes the validation of [addObservation]. *)
Definition has_content (observation : Observation) : Prop :=
  ∃ text, content observation = Some text ∧ text ≠ EmptyString.

(** A relation that passes the validation of [createRelation] and of
    [deleteRelation]. *)
Definition valid_relation (relation : Relation.t) : Prop :=
  Relation.from relation ≠ EmptyString
  ∧ Relation.relationType relation ≠ EmptyString
  ∧ Relation.to relation ≠ EmptyString.

(** A text without a colon. *)
Fixpoint colon_free (s : string) : bool :=
  match s with
  | EmptyString => true
  | String c rest => negb (Ascii.eqb c ":") && colon_free rest
  end.

(** Every entry of the first cache is an entry of the second. *)
Definition keeps_names (before after : gmap string Entity.t) : Prop :=
  ∀ name, is_Some (before !! name) → is_Some (after !! name).

(** A store that holds these entities and no relation, and accepts every
    change without making it. *)
Definition holding (entities : list Entity.t) : Mcp.Server unit :=
  {| Mcp.create_entities := fun s _ => (Mcp.Resolved tt, s);
     Mcp.create_relations := fun s _ => (Mcp.Resolved tt, s);
     Mcp.add_observations := fun s _ _ => (Mcp.Resolved tt, s);
     Mcp.delete_entities := fun s _ => (Mcp.Resolved tt, s);
     Mcp.delete_relations := fun s _ => (Mcp.Resolved tt, s);
     Mcp.read_graph := fun s =>
       (Mcp.Resolved (Some {| Graph.entities := Some entities;
                              Graph.relations := Some [] |}), s);
     Mcp.search_nodes := fun s _ =>
       (Mcp.Resolved (Some {| Nodes.entities := Some entities |}), s);
     Mcp.open_nodes := fun s names =>
       (Mcp.Resolved
          (Some {| Nodes.entities :=
                     Some (List.filter
                             (fun e => existsb (String.eqb (Entity.name e)) names)
                             entities) |}), s) |}.

(** Two observations whose content has no word character. *)
Definition wordless_pair : list Observation :=
  [ mkObservation (Some "?!"%string) (TsAt 10) (Some 5%Z) None false;
    mkObservation (Some "?!"%string) (TsAt 20) (Some 5%Z) None false ].

(** An instant of November 2023, in milliseconds, and the instant one
    minute later. *)
Definition some_day : Z := 1700000000000.
Definition a_minute_later : Z := 1700000060000.

(** Two similar pending observations of one entity and one category, of
    which the first has no timestamp. *)
Definition undated_pending : list Pending.t :=
  [ {| Pending.entityName := "user"; Pending.entityType := "Person";
       Pending.observation :=
         mkObservation (Some "User asked about memory"%string) TsMissing
                       (Some 5%Z) (Some "goal"%string) false |};
    {| Pending.entityName := "user"; Pending.entityType := "Person";
       Pending.observation :=
         mkObservation (Some "User questioned about storage"%string) (TsAt some_day)
                       (Some 5%Z) (Some "goal"%string) false |} ].

(** The graph of a user with two relations, of which the first has a
    time that is not a date. *)
Definition unreadable_graph : MemoryGraph.t :=
  {| MemoryGraph.entities :=
       [ {| Entity.name := "user"; Entity.entityType := "Person";
            Entity.observations :=
              [ mkObservation (Some "likes green tea"%string) (TsAt some_day)
                              (Some 4%Z) (Some "preference"%string) false ] |} ];
     MemoryGraph.relations :=
       [ {| Relation.from := "user"; Relation.relationType := "avoids";
            Relation.to := "nuts";
            Relation.attributes :=
              Some {| Relation.time := TsInvalid; Relation.is_critical := false |} |};
         {| Relation.from := "user"; Relation.relationType := "likes";
            Relation.to := "tea"; Relation.attributes := None |} ];
     MemoryGraph.broken := false |}.

(** The answer of general retrieval for the user on this graph. *)
Definition unreadable_answer : RetrievalService.Relevant.t :=
  RetrievalService.retrieveRelevantMemories name_only RetrievalService.default_options
    a_minute_later unreadable_graph
    (RetrievalService.ContextString "user likes green tea")
    ["user"%string] RetrievalService.no_overrides.

(** An observation without timestamp. *)
Definition daily_tea : Observation :=
  mkObservation (Some "drinks tea daily"%string) TsMissing (Some 4%Z)
                (Some "behavior"%string) false.

(** The state in which [createRelation] asks the store to create the
    relation: after the two checks of existence, and after the creation
    of the end that the first check did not find and of the end that the
    second check did not find. *)
Definition ends_ensured {S : Type} (mcp : Mcp.Server S) (relation : Relation.t)
    (w : S * KnowledgeGraphHandler.t) : S * KnowledgeGraphHandler.t :=
  let '(fromExists, w) :=
    KnowledgeGraphHandler.entityExists mcp (Relation.from relation) w in
  let '(toExists, w) :=
    KnowledgeGraphHandler.entityExists mcp (Relation.to relation) w in
  let w :=
    if fromExists then w
    else snd (KnowledgeGraphHandler.createEntity mcp
                (KnowledgeGraphHandler.unknown_entity (Relation.from relation)) w) in
  if toExists then w
  else snd (KnowledgeGraphHandler.createEntity mcp
              (KnowledgeGraphHandler.unknown_entity (Relation.to relation)) w).

(** Two relations between the same entities that differ in their
    attributes. *)
Definition sample_employment : Relation.t :=
  {| Relation.from := "user"; Relation.relationType := "works_at";
     Relation.to := "acme"; Relation.attributes := None |}.

Definition sample_critical_employment : Relation.t :=
  {| Relation.from := "user"; Relation.relationType := "works_at";
     Relation.to := "acme";
     Relation.attributes :=
       Some {| Relation.time := TsMissing; Relation.is_critical := true |} |}.

(** * Properties *)

(** ** The embedding on concrete inputs *)

Example split_of_empty : Str.split_nonword "" = [""%string].
Proof. reflexivity. Qed.

Example split_with_separators_at_both_ends :
  Str.split_nonword "  a, b " = [""; "a"; "b"; ""]%string.
Proof. reflexivity. Qed.

Example split_of_separators_only : Str.split_nonword "?!" = [""; ""]%string.
Proof. reflexivity. Qed.

Example words_of_a_sentence :
  Str.words (Str.toLowerCase "User asked, about: MEMORY_1!")
  = ["user"; "asked"; "about"; "memory_1"]%string.
Proof. reflexivity. Qed.

Example set_keeps_first_occurrences :
  JsSet.of_list ["b"; "a"; "b"; "c"; "a"]%string = ["b"; "a"; "c"]%string.
Proof. reflexivity. Qed.

Example entries_put_array_indices_first :
  JsObject.entries [("b", 1); ("10", 2); ("9", 3); ("01", 4); ("a", 5)]%string
  = [("9", 3); ("10", 2); ("b", 1); ("01", 4); ("a", 5)]%string.
Proof. reflexivity. Qed.

Example most_common_is_first_among_equals :
  CompressionEngine._getMostCommon ["asked"; "questioned"; "questioned"; "asked"]%string
  = Some "asked"%string.
Proof. reflexivity. Qed.

Example most_common_prefers_array_indices :
  CompressionEngine._getMostCommon ["year"; "2024"]%string = Some "2024"%string.
Proof. reflexivity. Qed.

Example most_common_skips_inherited_names :
  CompressionEngine._getMostCommon ["toString"; "toString"; "word"]%string
  = Some "word"%string.
Proof. reflexivity. Qed.

Example round_goes_up_at_a_half :
  CompressionEngine.round (7 # 2) = 4%Z ∧ CompressionEngine.round (- 5 # 2) = (-2)%Z
  ∧ CompressionEngine.round (10 # 3) = 3%Z.
Proof. split_and!; reflexivity. Qed.

Example slice_with_a_negative_end :
  JsArray.slice0 (-1) [1; 2; 3] = [1; 2] ∧ JsArray.slice0 2 [1; 2; 3] = [1; 2]
  ∧ JsArray.slice0 5 [1; 2; 3] = [1; 2; 3].
Proof. split_and!; reflexivity. Qed.

Example sort_is_stable :
  JsArray.sort (fun a b => Z.compare (fst b) (fst a))
    [(1, "a"); (2, "b"); (1, "c"); (2, "d")]%Z%string
  = [(2, "b"); (2, "d"); (1, "a"); (1, "c")]%Z%string.
Proof. reflexivity. Qed.

Example keywords_of_a_context :
  RetrievalService._extractKeywords
    (RetrievalService.ContextString "The memory system: memory about 2024, 2024!")
  = ["2024"; "memory"; "system"]%string.
Proof. reflexivity. Qed.

Example summary_of_the_example :
  map Compressed.content
      (CompressionEngine.compressObservations example_engine 1000
         (example_pending "user" "Person" 0))
  = ["User questioned about (observed 2 times)"%string].
Proof. reflexivity. Qed.

(** ** Insertion-ordered sets against finite sets *)

Section JsSetFacts.

Lemma add_elem (s : list string) (x y : string) :
  y ∈ JsSet.add s x ↔ y ∈ s ∨ y = x.
Proof.
  unfold JsSet.add, JsSet.has. case_bool_decide as Hx.
  - split; [auto | intros [?| ->]; auto].
  - rewrite elem_of_app, list_elem_of_singleton. tauto.
Qed.

Lemma add_nodup (s : list string) (x : string) :
  NoDup s → NoDup (JsSet.add s x).
Proof.
  intros Hs. unfold JsSet.add, JsSet.has. case_bool_decide as Hx; [done|].
  apply NoDup_app. split_and!; [done| |apply NoDup_singleton].
  intros y Hy ->%list_elem_of_singleton. contradiction.
Qed.

Lemma fold_add_elem (l s : list string) (y : string) :
  y ∈ fold_left JsSet.add l s ↔ y ∈ s ∨ y ∈ l.
Proof.
  revert s. induction l as [|x l IH]; intros s; simpl.
  - rewrite elem_of_nil. tauto.
  - rewrite IH, add_elem, elem_of_cons. tauto.
Qed.

Lemma fold_add_nodup (l s : list string) :
  NoDup s → NoDup (fold_left JsSet.add l s).
Proof.
  revert s. induction l as [|x l IH]; intros s Hs; simpl; [done|].
  apply IH, add_nodup, Hs.
Qed.

Lemma of_list_elem (l : list string) (y : string) :
  y ∈ JsSet.of_list l ↔ y ∈ l.
Proof.
  unfold JsSet.of_list. rewrite fold_add_elem, elem_of_nil. tauto.
Qed.

Lemma of_list_nodup (l : list string) : NoDup (JsSet.of_list l).
Proof. apply fold_add_nodup, NoDup_nil_2. Qed.

(** The size of [new Set(l)] is the size of the finite set of the
    elements of [l]. *)
Lemma of_list_size (l : list string) (X : gset string) :
  (∀ y, y ∈ l ↔ y ∈ X) → JsSet.size (JsSet.of_list l) = size X.
Proof.
  intros HX. unfold JsSet.size.
  rewrite <- (size_list_to_set (C := gset string) (JsSet.of_list l))
    by apply of_list_nodup.
  f_equal. apply set_eq. intros y.
  rewrite elem_of_list_to_set, of_list_elem. apply HX.
Qed.

Lemma has_true (s : list string) (x : string) :
  JsSet.has s x = true ↔ x ∈ s.
Proof. unfold JsSet.has. apply bool_decide_eq_true. Qed.

End JsSetFacts.

(** ** Tokens *)

Lemma append_empty (s : string) : (EmptyString ++ s)%string = s.
Proof. reflexivity. Qed.

Lemma append_String (c : ascii) (a b : string) :
  (String c a ++ b)%string = String c (a ++ b)%string.
Proof. reflexivity. Qed.

Lemma leading_unique (s a b : string) : leading s a → leading s b → a = b.
Proof.
  revert s b.
  induction a as [|x a IH]; intros s b (pa & Hsa & Hwa & Hba) (pb & Hsb & Hwb & Hbb).
  - destruct b as [|y b]; [done|]. exfalso.
    destruct Hwb as [Hy _]. rewrite Hsb, append_empty, append_String in Hsa.
    rewrite <- Hsa in Hba. simpl in Hba. congruence.
  - destruct Hwa as [Hx Hwa]. destruct b as [|y b].
    + exfalso. rewrite Hsa, append_empty, append_String in Hsb.
      rewrite <- Hsb in Hbb. simpl in Hbb. congruence.
    + destruct Hwb as [Hy Hwb]. rewrite Hsa, !append_String in Hsb.
      injection Hsb as -> Hrest. f_equal.
      apply (IH (a ++ pa)%string); [by exists pa | by exists pb].
Qed.

Lemma inner_cons (c : ascii) (s t : string) : inner s t → inner (String c s) t.
Proof.
  intros (pre & d & post & -> & Hd & Hw & Hb).
  by exists (String c pre), d, post.
Qed.

Lemma inner_tail (c : ascii) (s t : string) :
  inner (String c s) t →
  inner s t ∨ (Str.is_word_char c = false ∧ leading s t).
Proof.
  intros (pre & d & post & Hs & Hd & Hw & Hb).
  destruct pre as [|c1 pre].
  - rewrite append_empty, append_String, append_empty in Hs.
    injection Hs as -> ->. right. split; [done|]. by exists post.
  - rewrite !append_String in Hs.
    injection Hs as -> ->. left. by exists pre, d, post.
Qed.

Lemma leading_nonword (c : ascii) (s t : string) :
  Str.is_word_char c = false → leading (String c s) t → t = EmptyString.
Proof.
  intros Hc (post & Hs & Hw & _). destruct t as [|x t]; [done|].
  rewrite append_String in Hs. injection Hs as <- _. destruct Hw. congruence.
Qed.

(** The pieces that [split] returns: the first is the leading run of
    word characters, the non-empty ones among the others are the runs
    that follow a separator. *)
Lemma split_nonword_spec (s : string) :
  ∃ t0 ts,
    Str.split_nonword s = t0 :: ts
    ∧ leading s t0
    ∧ ∀ t, t ≠ EmptyString → (t ∈ ts ↔ inner s t).
Proof.
  unfold Str.split_nonword.
  induction s as [|c s (t0 & ts & Hsplit & Hlead & Hinner)].
  - exists EmptyString, []. split_and!; [done | by exists EmptyString |].
    intros t Ht. split; [by intros ?%elem_of_nil|].
    intros (pre & d & post & Hs & _).
    destruct pre; [by rewrite append_empty, append_String in Hs|].
    by rewrite !append_String in Hs.
  - cbn [Str.split_runs]. unfold Str.is_nonword at 1.
    destruct (Str.is_word_char c) eqn:Hc; cbn [negb].
    + rewrite Hsplit. exists (String c t0), ts. split_and!; [done | |].
      * destruct Hlead as (post & -> & Hw & Hb). exists post.
        by rewrite append_String.
      * intros t Ht. rewrite (Hinner t Ht). split; [apply inner_cons|].
        intros [?|[? _]]%inner_tail; [done | congruence].
    + assert (Hlead_s : leading (String c s) EmptyString)
        by by exists (String c s).
      destruct (Str.starts_with Str.is_nonword s) eqn:Hstart.
      * rewrite Hsplit. destruct s as [|d s]; [done|].
        simpl in Hstart. apply negb_true_iff in Hstart.
        pose proof (leading_nonword d s t0 Hstart Hlead) as ->.
        exists EmptyString, ts. split_and!; [done | done |].
        intros t Ht. rewrite (Hinner t Ht). split; [apply inner_cons|].
        intros [?|[_ Hl]]%inner_tail; [done|].
        by apply (leading_nonword d s t Hstart) in Hl.
      * rewrite Hsplit. exists EmptyString, (t0 :: ts). split_and!; [done | done |].
        intros t Ht. rewrite elem_of_cons, (Hinner t Ht). split.
        -- intros [->|Hin]; [|by apply inner_cons].
           destruct Hlead as (post & -> & Hw & Hb).
           by exists EmptyString, c, post.
        -- intros [?|[_ Hl]]%inner_tail; [by right|].
           left. by apply (leading_unique s).
Qed.

Lemma nonempty_spec (t : string) : Str.nonempty t = true ↔ t ≠ EmptyString.
Proof. by destruct t. Qed.

(** The words of a text are its tokens. *)
Lemma words_are_tokens (s t : string) : t ∈ Str.words s ↔ is_token s t.
Proof.
  unfold Str.words, is_token.
  destruct (split_nonword_spec s) as (t0 & ts & -> & Hlead & Hinner).
  rewrite list_elem_of_filter, nonempty_spec, elem_of_cons. split.
  - intros [Hne [->|Hin]]; [by auto|]. split; [done|]. right. by apply Hinner.
  - intros [Hne [Hl|Hi]]; (split; [done|]).
    + left. by apply (leading_unique s).
    + right. by apply Hinner.
Qed.

Lemma token_set_spec (text : string) (t : string) :
  t ∈ token_set text ↔ is_token (Str.toLowerCase text) t.
Proof. unfold token_set. rewrite elem_of_list_to_set. apply words_are_tokens. Qed.

(** ** Similarity as a Jaccard index *)

(** The two sizes that [_calculateSimilarity] divides. *)
Lemma similarity_sizes (a b : string) :
  similarity_of_strings a b =
  size_div (size (token_set a ∩ token_set b)) (size (token_set a ∪ token_set b)).
Proof.
  unfold similarity_of_strings, token_set. f_equal.
  - apply of_list_size. intros y.
    rewrite list_elem_of_filter, has_true, !of_list_elem, elem_of_intersection,
      !elem_of_list_to_set. tauto.
  - apply of_list_size. intros y.
    rewrite elem_of_app, !of_list_elem, elem_of_union, !elem_of_list_to_set. tauto.
Qed.

Lemma size_div_positive (n d : nat) :
  d ≠ 0 → size_div n d = Num (Z.of_nat n # Pos.of_nat d).
Proof. destruct d; [done|]. reflexivity. Qed.

Lemma pos_of_nat_Z (d : nat) : d ≠ 0 → Z.pos (Pos.of_nat d) = Z.of_nat d.
Proof.
  destruct d as [|d]; [done|]. intros _.
  rewrite <- Pos.of_nat_succ, Zpos_P_of_succ_nat. lia.
Qed.

Lemma ratio_bounds (n d : nat) :
  n ≤ d → d ≠ 0 → (0 <= Z.of_nat n # Pos.of_nat d)%Q ∧ (Z.of_nat n # Pos.of_nat d <= 1)%Q.
Proof.
  intros Hnd Hd. unfold Qle. cbn [Qnum Qden].
  rewrite (pos_of_nat_Z d Hd). lia.
Qed.

Lemma ratio_one (n : nat) : n ≠ 0 → (Z.of_nat n # Pos.of_nat n == 1)%Q.
Proof.
  intros Hn. unfold Qeq. cbn [Qnum Qden].
  rewrite (pos_of_nat_Z n Hn). lia.
Qed.

(** The similarity of two texts of which one has a token.  The tokens
    of a text are the non-empty runs of
    word characters of the lowercase text that cannot be extended.
    Whenever at least one of the two texts contains a token, the
    similarity is the Jaccard index [|A ∩ B| / |A ∪ B|] of the two sets of
    tokens, a rational number between 0 and 1; it is the same for [(a, b)]
    and [(b, a)], and it is 1 when the two texts have the same tokens, in
    particular for [(x, x)]. *)
Theorem similarity_is_jaccard (a b : string) :
  token_set a ∪ token_set b ≠ ∅ →
  (∀ t, t ∈ token_set a ↔ is_token (Str.toLowerCase a) t)
  ∧ (∀ t, t ∈ token_set b ↔ is_token (Str.toLowerCase b) t)
  ∧ ∃ q : Q,
      similarity_of_strings a b = Num q
      ∧ q = jaccard (token_set a) (token_set b)
      ∧ (0 <= q)%Q ∧ (q <= 1)%Q
      ∧ similarity_of_strings b a = Num q
      ∧ (token_set a = token_set b → (q == 1)%Q).
Proof.
  intros Hne.
  assert (Hd : size (token_set a ∪ token_set b) ≠ 0).
  { intros Hz. apply Hne. by apply size_empty_inv, leibniz_equiv in Hz. }
  assert (Hle : size (token_set a ∩ token_set b) ≤ size (token_set a ∪ token_set b)).
  { apply subseteq_size. intros x.
    rewrite elem_of_intersection, elem_of_union. tauto. }
  destruct (ratio_bounds _ _ Hle Hd) as [Hlow Hhigh].
  split; [apply token_set_spec|]. split; [apply token_set_spec|].
  exists (jaccard (token_set a) (token_set b)).
  split_and!; [| done | exact Hlow | exact Hhigh | |].
  - rewrite similarity_sizes. by apply size_div_positive.
  - rewrite similarity_sizes.
    rewrite (comm_L (∩) (token_set b)), (comm_L (∪) (token_set b)).
    by apply size_div_positive.
  - intros Heq. unfold jaccard. rewrite <- Heq in *.
    rewrite (idemp_L (∩)), (idemp_L (∪)) in *. by apply ratio_one.
Qed.

(** The two contents of the example of the specification share the
    tokens [user] and [about]: their similarity is 2/6. *)
Lemma similarity_is_jaccard_witness :
  similarity_of_strings "User asked about memory" "User questioned about storage"
  = Num (2 # 6)
  ∧ is_token (Str.toLowerCase "User asked about memory") "about"
  ∧ ∃ q : Q,
      similarity_of_strings "User asked about memory" "User questioned about storage"
      = Num q
      ∧ (0 <= q)%Q ∧ (q <= 1)%Q
      ∧ similarity_of_strings "User questioned about storage" "User asked about memory"
        = Num q.
Proof.
  destruct (similarity_is_jaccard "User asked about memory"
              "User questioned about storage")
    as (Htokens & _ & q & Hq & _ & Hlow & Hhigh & Hsym & _).
  { vm_compute. discriminate. }
  split_and!.
  - reflexivity.
  - apply Htokens. vm_compute. reflexivity.
  - exists q. by split_and!.
Defined.

(** C1.  The code on two texts without a token.  For two empty texts,
    and for two texts that hold no word character, both sets of tokens
    are empty and [_calculateSimilarity] returns the quotient [0 / 0] of
    the two sizes, which is [NaN] and no number: the union is not tested
    for emptiness before the division.  The claim gives 0 for two inputs
    that are empty or contain no tokens, and the comment of the function
    promises a score between 0 and 1.  As no comparison with [NaN] holds,
    the clusterer never puts two such observations in one cluster, even
    when their contents are the same. *)
Theorem similarity_without_tokens :
  _calculateSimilarity (Some ""%string) (Some ""%string) = Ok NaN
  ∧ _calculateSimilarity (Some "?!"%string) (Some "?!"%string) = Ok NaN
  ∧ Str.words (Str.toLowerCase "?!") = []
  ∧ (∀ q : Q, NaN ≠ Num q)
  ∧ (∀ threshold : Q, js_ge NaN threshold = false)
  ∧ CompressionEngine._clusterSimilarObservations CompressionEngine.default_engine
      wordless_pair = Ok [].
Proof. split_and!; done. Qed.

(** ** The similarity clusterer *)

Import CompressionEngine.

Lemma foldM_cons {A B : Type} (body : B → A → Result B) x l acc :
  foldM body (x :: l) acc = body acc x ≫= λ acc', foldM body l acc'.
Proof. reflexivity. Qed.

Lemma bind_Ok {A B : Type} (f : A → Result B) (a : A) : Ok a ≫= f = f a.
Proof. reflexivity. Qed.

Lemma foldM_invariant {A B : Type} (body : B → A → Result B) (I : B → Prop) (l : list A) :
  (∀ acc x acc', x ∈ l → I acc → body acc x = Ok acc' → I acc') →
  ∀ acc r, I acc → foldM body l acc = Ok r → I r.
Proof.
  induction l as [|x l IH]; intros Hstep acc r Hacc Hrun.
  - simpl in Hrun. congruence.
  - rewrite foldM_cons in Hrun. destruct (body acc x) as [acc'|e] eqn:Hb; [|done].
    rewrite bind_Ok in Hrun. eapply IH; [| |exact Hrun].
    + intros a y a' Hy. apply Hstep. by right.
    + eapply Hstep; [by left | exact Hacc | exact Hb].
Qed.

Lemma fold_left_invariant {A B : Type} (f : B → A → B) (I : B → Prop) (l : list A) :
  (∀ acc x, x ∈ l → I acc → I (f acc x)) →
  ∀ acc, I acc → I (fold_left f l acc).
Proof.
  induction l as [|x l IH]; intros Hstep acc Hacc; [done|].
  simpl. apply IH.
  - intros a y Hy. apply Hstep. by right.
  - apply Hstep; [by left | done].
Qed.

Section Clustering.
Variable this : CompressionEngine.t.
Variable observations : list Observation.
Hypothesis contents : Forall (λ o, is_Some (content o)) observations.

Lemma similarity_defined (a b : Observation) :
  is_Some (content a) → is_Some (content b) →
  ∃ x, _calculateSimilarity (content a) (content b) = Ok x
       ∧ js_ge x (similarityThreshold (options this)) = similar this a b.
Proof.
  intros [ca Ha] [cb Hb]. unfold similar. rewrite Ha, Hb.
  eexists. split; reflexivity.
Qed.

Lemma pick_cons P j js :
  pick observations P (j :: js)
  = match (if decide (j ∈ P) then None else observations !! j) with
    | Some o => o :: pick observations P js
    | None => pick observations P js
    end.
Proof. reflexivity. Qed.

Lemma pick_cons_in P j js : j ∈ P → pick observations P (j :: js) = pick observations P js.
Proof. intros Hj. rewrite pick_cons. by rewrite decide_True. Qed.

Lemma pick_cons_out P j js o :
  j ∉ P → observations !! j = Some o →
  pick observations P (j :: js) = o :: pick observations P js.
Proof. intros Hj Ho. rewrite pick_cons, decide_False by done. by rewrite Ho. Qed.

Lemma pick_agree P Q js :
  (∀ k, k ∈ js → k ∈ P ↔ k ∈ Q) → pick observations P js = pick observations Q js.
Proof.
  induction js as [|j js IH]; intros Hag; [done|].
  rewrite !pick_cons, IH by (intros k Hk; apply Hag; by right).
  destruct (decide (j ∈ P)) as [HP|HP], (decide (j ∈ Q)) as [HQ|HQ]; try done.
  - exfalso. apply HQ, Hag; [by left | done].
  - exfalso. apply HP, Hag; [by left | done].
Qed.

Lemma pick_insert_fresh P j js :
  j ∉ js → pick observations ({[ j ]} ∪ P) js = pick observations P js.
Proof.
  intros Hj. apply pick_agree. intros k Hk.
  rewrite elem_of_union, elem_of_singleton. split; [|auto].
  intros [->|?]; [contradiction | done].
Qed.

Lemma cluster_scan_eq obsA P cluster j :
  cluster_scan this observations obsA (P, cluster) j
  = if bool_decide (j ∈ P) then Ok (P, cluster)
    else
      defined (observations !! j) ≫= λ obsB,
      _calculateSimilarity (content obsA) (content obsB) ≫= λ similarity,
      if js_ge similarity (similarityThreshold (options this))
      then Ok ({[ j ]} ∪ P, cluster ++ [obsB])
      else Ok (P, cluster).
Proof. reflexivity. Qed.

Lemma scan_spec obsA js :
  is_Some (content obsA) → NoDup js → (∀ j, j ∈ js → j < length observations) →
  ∀ P cluster, ∃ P',
    foldM (cluster_scan this observations obsA) js (P, cluster)
    = Ok (P', cluster ++ filter (λ o, similar this obsA o = true) (pick observations P js))
    ∧ ∀ k, k ∈ P' ↔
           k ∈ P ∨ (k ∈ js ∧ ∃ o, observations !! k = Some o ∧ similar this obsA o = true).
Proof.
  intros HA. induction js as [|j js IH]; intros Hnd Hlt P cluster.
  - exists P. split; [simpl; by rewrite app_nil_r|].
    intros k. rewrite elem_of_nil. tauto.
  - apply NoDup_cons in Hnd as [Hj Hnd].
    assert (Hlt' : ∀ j0, j0 ∈ js → j0 < length observations)
      by (intros j0 Hj0; apply Hlt; by right).
    destruct (lookup_lt_is_Some_2 observations j) as [o Ho]; [apply Hlt; by left|].
    assert (HB : is_Some (content o)).
    { apply (proj1 (Forall_forall _ _) contents o). by eapply list_elem_of_lookup_2. }
    destruct (similarity_defined obsA o HA HB) as (x & Hx & Hge).
    rewrite foldM_cons, cluster_scan_eq. case_bool_decide as HjP.
    + rewrite bind_Ok. destruct (IH Hnd Hlt' P cluster) as (P' & Hrun & HP').
      exists P'. split.
      * rewrite Hrun. by rewrite pick_cons_in.
      * intros k. rewrite HP', elem_of_cons. split; [intros [?|[? ?]]; auto|].
        intros [?|[[->|?] ?]]; auto.
    + rewrite Ho. unfold defined. rewrite bind_Ok, Hx, bind_Ok, Hge.
      rewrite (pick_cons_out P j js o) by done.
      destruct (similar this obsA o) eqn:Hsim.
      * rewrite bind_Ok.
        destruct (IH Hnd Hlt' ({[ j ]} ∪ P) (cluster ++ [o])) as (P' & Hrun & HP').
        exists P'. split.
        -- rewrite Hrun. rewrite pick_insert_fresh by done.
           rewrite filter_cons_True by done. by rewrite <- app_assoc.
        -- intros k. rewrite HP', elem_of_union, elem_of_singleton, elem_of_cons.
           split; [intros [[->|?]|[? ?]]; eauto 6|].
           intros [?|[[->|?] ?]]; eauto.
      * rewrite bind_Ok.
        destruct (IH Hnd Hlt' P cluster) as (P' & Hrun & HP').
        exists P'. split.
        -- rewrite Hrun. rewrite filter_cons_False; [done|]. by rewrite Hsim.
        -- intros k. rewrite HP', elem_of_cons. split; [intros [?|[? ?]]; auto|].
           intros [?|[[->|?] (o' & Ho' & Hs')]]; eauto.
           rewrite Ho in Ho'. injection Ho' as <-. congruence.
Qed.

Lemma pick_after_scan obsA P P' js :
  (∀ k, k ∈ js → k ∈ P' ↔
        k ∈ P ∨ ∃ o, observations !! k = Some o ∧ similar this obsA o = true) →
  pick observations P' js
  = filter (λ o, similar this obsA o ≠ true) (pick observations P js).
Proof.
  induction js as [|j js IH]; intros Hch; [done|].
  assert (Hrec := IH (λ k Hk, Hch k (list_elem_of_further _ _ _ Hk))).
  assert (Hj := Hch j (list_elem_of_here _ _)).
  rewrite !pick_cons, Hrec.
  destruct (decide (j ∈ P)) as [HP|HP].
  - rewrite decide_True by (apply Hj; auto). done.
  - destruct (observations !! j) as [o|] eqn:Ho.
    + destruct (similar this obsA o) eqn:Hsim.
      * rewrite decide_True by (apply Hj; eauto).
        rewrite filter_cons_False; [done|]. intros Hn. by apply Hn.
      * rewrite decide_False.
        -- rewrite filter_cons_True; [done|]. congruence.
        -- intros [?|(o' & Ho' & Hs')]%Hj; [done|]. congruence.
    + destruct (decide (j ∈ P')); done.
Qed.

Lemma cluster_open_eq P clusters i :
  cluster_open this observations (P, clusters) i
  = if bool_decide (i ∈ P) then Ok (P, clusters)
    else
      defined (observations !! i) ≫= λ obsA,
      foldM (cluster_scan this observations obsA)
            (seq (i + 1) (length observations - (i + 1)))
            ({[ i ]} ∪ P, [obsA]) ≫= λ '(processed', cluster),
      Ok (processed', if 1 <? length cluster then clusters ++ [cluster] else clusters).
Proof. reflexivity. Qed.

Lemma greedy_nil fuel : greedy fuel this [] = [].
Proof. by destruct fuel. Qed.

Lemma open_spec m :
  ∀ i P clusters fuel,
    i + m = length observations →
    length (pick observations P (seq i m)) ≤ fuel →
    ∃ P', foldM (cluster_open this observations) (seq i m) (P, clusters)
          = Ok (P', clusters ++ greedy fuel this (pick observations P (seq i m))).
Proof.
  induction m as [|m IH]; intros i P clusters fuel Hlen Hfuel.
  - exists P. simpl. by rewrite greedy_nil, app_nil_r.
  - rewrite <- cons_seq in *. rewrite foldM_cons, cluster_open_eq.
    case_bool_decide as HiP.
    + rewrite bind_Ok. rewrite pick_cons_in in * by done.
      apply IH; [lia | done].
    + destruct (lookup_lt_is_Some_2 observations i) as [obsA HA]; [lia|].
      assert (HcA : is_Some (content obsA)).
      { apply (proj1 (Forall_forall _ _) contents obsA). by eapply list_elem_of_lookup_2. }
      rewrite (pick_cons_out P i _ obsA) in * by done.
      destruct fuel as [|fuel]; [simpl in Hfuel; lia|].
      replace (length observations - (i + 1)) with m by lia.
      replace (i + 1) with (S i) by lia.
      rewrite HA. unfold defined. rewrite bind_Ok.
      destruct (scan_spec obsA (seq (S i) m) HcA (NoDup_seq _ _)) with
        (P := {[ i ]} ∪ P) (cluster := [obsA]) as (P1 & Hrun & HP1).
      { intros j Hj%elem_of_seq. lia. }
      assert (Hfresh : i ∉ seq (S i) m) by (intros Hi%elem_of_seq; lia).
      rewrite pick_insert_fresh in Hrun by done.
      assert (Hrest : pick observations P1 (seq (S i) m)
                      = filter (λ o, similar this obsA o ≠ true)
                               (pick observations P (seq (S i) m))).
      { rewrite <- (pick_insert_fresh P i) by done.
        apply pick_after_scan. intros k Hk. rewrite HP1. split.
        - intros [?|[_ ?]]; auto.
        - intros [?|?]; auto. }
      rewrite Hrun, bind_Ok.
      assert (Hfuel' : length (pick observations P1 (seq (S i) m)) ≤ fuel).
      { rewrite Hrest. etrans; [apply length_filter|]. simpl in Hfuel. lia. }
      cbn [greedy].
      destruct (filter (λ o, similar this obsA o = true)
                       (pick observations P (seq (S i) m))) as [|m1 ms] eqn:Hmem.
      * destruct (IH (S i) P1 clusters fuel ltac:(lia) Hfuel') as (P' & Hfin).
        exists P'. cbn. by rewrite Hfin, Hrest.
      * destruct (IH (S i) P1 (clusters ++ [obsA :: m1 :: ms]) fuel ltac:(lia) Hfuel')
          as (P' & Hfin).
        exists P'. cbn. rewrite Hfin, Hrest. by rewrite <- app_assoc.
Qed.

Lemma omap_lookup_seq (pre l : list Observation) :
  omap (λ k, (pre ++ l) !! k) (seq (length pre) (length l)) = l.
Proof.
  revert pre. induction l as [|x l IH]; intros pre; [done|].
  simpl. rewrite lookup_app_r by lia. rewrite Nat.sub_diag. simpl.
  f_equal. specialize (IH (pre ++ [x])).
  rewrite <- app_assoc, length_app in IH. simpl in IH.
  by rewrite Nat.add_1_r in IH.
Qed.

Lemma pick_empty js : pick observations ∅ js = omap (λ k, observations !! k) js.
Proof.
  induction js as [|j js IH]; [done|].
  rewrite pick_cons, IH, decide_False by apply not_elem_of_empty. done.
Qed.

Lemma pick_all : pick observations ∅ (seq 0 (length observations)) = observations.
Proof. rewrite pick_empty. exact (omap_lookup_seq [] observations). Qed.

Lemma cluster_refines_greedy :
  _clusterSimilarObservations this observations = Ok (greedy_clusters this observations).
Proof.
  unfold _clusterSimilarObservations, greedy_clusters.
  destruct (open_spec (length observations) 0 ∅ [] (length observations)) as (P' & Hrun).
  - done.
  - by rewrite pick_all.
  - rewrite Hrun, bind_Ok, pick_all. done.
Qed.

End Clustering.

Lemma greedy_shape (this : CompressionEngine.t) (fuel : nat) :
  ∀ (l : list Observation) (c : list Observation),
    c ∈ greedy fuel this l →
    ∃ seed members,
      c = seed :: members ∧ members ≠ []
      ∧ Forall (λ o, similar this seed o = true) members
      ∧ (seed :: members) ⊆ l.
Proof.
  induction fuel as [|fuel IH]; intros l c Hc; [by apply elem_of_nil in Hc|].
  destruct l as [|seed later]; [by apply elem_of_nil in Hc|].
  cbn [greedy] in Hc.
  assert (Hrec : c ∈ greedy fuel this (filter (λ o, similar this seed o ≠ true) later) →
                 ∃ seed0 members, c = seed0 :: members ∧ members ≠ []
                   ∧ Forall (λ o, similar this seed0 o = true) members
                   ∧ (seed0 :: members) ⊆ seed :: later).
  { intros (s0 & ms & -> & Hne & Hsim & Hsub)%IH. exists s0, ms. split_and!; try done.
    intros x Hx. right. apply Hsub in Hx. by apply list_elem_of_filter in Hx as [_ ?]. }
  destruct (filter (λ o, similar this seed o = true) later) as [|m1 ms] eqn:Hmem; [auto|].
  apply elem_of_cons in Hc as [->|Hc]; [|auto].
  exists seed, (m1 :: ms). split_and!; [done | done | |].
  - rewrite <- Hmem. apply Forall_forall. by intros x [? _]%list_elem_of_filter.
  - intros x [->|Hx]%elem_of_cons; [by left|]. right.
    rewrite <- Hmem in Hx. by apply list_elem_of_filter in Hx as [_ ?].
Qed.

Section ClusterShape.
Variable this : CompressionEngine.t.
Variable observations : list Observation.

(** What the inner loop keeps true of the cluster that it fills. *)
Lemma scan_keeps_members (obsA : Observation) (js : list nat) P cluster P' cluster' :
  foldM (cluster_scan this observations obsA) js (P, cluster) = Ok (P', cluster') →
  ∃ members,
    cluster' = cluster ++ members
    ∧ ∀ m, m ∈ members → m ∈ observations ∧ similar this obsA m = true.
Proof.
  revert P cluster. induction js as [|j js IH]; intros P cluster Hrun.
  - injection Hrun as <- <-. exists []. split; [by rewrite app_nil_r|].
    by intros m ?%elem_of_nil.
  - rewrite foldM_cons, cluster_scan_eq in Hrun.
    case_bool_decide; [rewrite bind_Ok in Hrun; by apply IH in Hrun|].
    destruct (observations !! j) as [obsB|] eqn:Hj; [|done].
    unfold defined in Hrun. rewrite bind_Ok in Hrun.
    destruct (_calculateSimilarity (content obsA) (content obsB)) as [x|e] eqn:Hx; [|done].
    rewrite bind_Ok in Hrun.
    destruct (js_ge x (similarityThreshold (options this))) eqn:Hge;
      rewrite bind_Ok in Hrun; [|by apply IH in Hrun].
    apply IH in Hrun as (members & -> & Hmembers).
    exists (obsB :: members). split; [by rewrite <- app_assoc|].
    intros m [->|Hm]%elem_of_cons; [|by apply Hmembers].
    split; [by eapply list_elem_of_lookup_2|].
    unfold _calculateSimilarity, similar in *.
    destruct (content obsA) as [a|]; [|done].
    destruct (content obsB) as [b|]; [|done].
    unfold defined in Hx. rewrite !bind_Ok in Hx. by injection Hx as <-.
Qed.

Lemma clusters_are_seeded (clusters : list (list Observation)) :
  _clusterSimilarObservations this observations = Ok clusters →
  Forall (seeded this observations) clusters.
Proof.
  unfold _clusterSimilarObservations.
  destruct (foldM _ _ _) as [[P cs]|e] eqn:Hrun; [|done].
  rewrite bind_Ok. intros [= <-].
  apply (foldM_invariant (cluster_open this observations)
           (λ st, Forall (seeded this observations) (snd st))) in Hrun;
    [done | | constructor].
  intros [P0 acc] i [P1 acc'] _ Hacc Hstep. cbn [snd] in *.
  rewrite cluster_open_eq in Hstep.
  case_bool_decide; [by injection Hstep as <- <-|].
  destruct (observations !! i) as [obsA|] eqn:Hi; [|done].
  unfold defined in Hstep. rewrite bind_Ok in Hstep.
  destruct (foldM (cluster_scan _ _ _) _ _) as [[P2 cluster]|e] eqn:Hscan; [|done].
  rewrite bind_Ok in Hstep. injection Hstep as <- <-.
  apply scan_keeps_members in Hscan as (members & -> & Hmembers).
  destruct members as [|m members]; [done|].
  cbn [app length Nat.ltb Nat.leb]. apply Forall_app. split; [done|].
  apply Forall_singleton. exists obsA, (m :: members).
  split_and!; [done | simpl; lia | |].
  - intros x [->|Hx]%elem_of_cons; [by eapply list_elem_of_lookup_2|].
    by apply Hmembers.
  - intros x [_ Hx]%Hmembers. unfold similar in Hx.
    destruct (content obsA) as [a|]; [|done].
    destruct (content x) as [b|]; [|done]. by exists a, b.
Qed.
End ClusterShape.

(** C3.  Every cluster that the clusterer emits is a seed followed by at
    least one member, so that no cluster has size 1, and every member has
    a similarity to the seed of at least [similarityThreshold], whose
    default is 0.6.  On observations that all have a content the
    clusterer returns the greedy clusters of the specification, built in
    one pass in input order: the seed of a cluster is the earliest
    observation that no earlier cluster has taken.  Membership is not a
    transitive closure: [chain_c] is similar to [chain_b] but stays out of
    the cluster that [chain_a] seeds. *)
Theorem clusters_are_greedy (this : CompressionEngine.t) (observations : list Observation) :
  (∀ clusters,
     _clusterSimilarObservations this observations = Ok clusters →
     Forall (seeded this observations) clusters)
  ∧ (Forall (λ o, is_Some (content o)) observations →
     _clusterSimilarObservations this observations
     = Ok (greedy_clusters this observations))
  ∧ similarityThreshold (options default_engine) = (6 # 10)%Q
  ∧ similar default_engine chain_b chain_c = true
  ∧ _clusterSimilarObservations default_engine [chain_a; chain_b; chain_c]
    = Ok [[chain_a; chain_b]].
Proof.
  split_and!; [apply clusters_are_seeded | apply cluster_refines_greedy | done..].
Qed.

(** C3 at the three observations of the chain. *)
Lemma clusters_are_greedy_witness :
  Forall (seeded default_engine [chain_a; chain_b; chain_c]) [[chain_a; chain_b]]
  ∧ greedy_clusters default_engine [chain_a; chain_b; chain_c] = [[chain_a; chain_b]].
Proof.
  destruct (clusters_are_greedy default_engine [chain_a; chain_b; chain_c])
    as (Hshape & Hgreedy & _ & _ & Hrun).
  split.
  - by apply Hshape.
  - assert (Hcontents : Forall (λ o, is_Some (content o)) [chain_a; chain_b; chain_c])
      by (repeat constructor; simpl; eauto).
    specialize (Hgreedy Hcontents). rewrite Hrun in Hgreedy. congruence.
Defined.

(** ** The observation filter *)

Lemma eligible_spec (this : CompressionEngine.t) (now : Z) (o : Observation) :
  eligible this now o = true ↔
  ¬ excluded_as_critical this o ∧ ¬ excluded_by_confidence this o
  ∧ ¬ excluded_by_age this now o.
Proof.
  unfold eligible, excluded_as_critical, excluded_by_confidence, excluded_by_age.
  rewrite !andb_true_iff, !negb_true_iff, andb_false_iff.
  unfold num_lt, age_gt, ageInDays.
  split.
  - intros [[Hc Hconf] Hage]. split_and!.
    + intros [H1 H2]. destruct Hc; congruence.
    + intros (c & Hc' & Hlt). rewrite Hc' in Hconf.
      apply Z.ltb_ge in Hconf. lia.
    + intros (t & Ht & Hlt). rewrite Ht in Hage.
      apply negb_false_iff, Qle_bool_iff in Hage.
      by apply Qlt_not_le in Hlt.
  - intros (Hc & Hconf & Hage). split_and!.
    + destruct (preserveCritical (options this)); [|by left].
      destruct (is_critical o); [|by right]. by destruct Hc.
    + destruct (confidence o) as [c|]; [|done].
      apply Z.ltb_ge. destruct (Z.le_gt_cases (minConfidence (options this)) c); [done|].
      destruct Hconf. exists c. split; [done | lia].
    + destruct (getTime (timestamp o)) as [t|]; [|done].
      apply negb_false_iff, Qle_bool_iff. apply Qnot_lt_le.
      intros Hlt. apply Hage. by exists t.
Qed.

Lemma get_set_eq {V : Type} (o : JsObject.t V) (k : string) (v : V) :
  JsObject.get (JsObject.set o k v) k = Some v.
Proof.
  induction o as [|[k' v'] o IH]; simpl.
  - by rewrite String.eqb_refl.
  - destruct (String.eqb k' k) eqn:Hk; simpl; rewrite Hk; [done | apply IH].
Qed.

Lemma get_set_ne {V : Type} (o : JsObject.t V) (k k' : string) (v : V) :
  k ≠ k' → JsObject.get (JsObject.set o k v) k' = JsObject.get o k'.
Proof.
  intros Hne. induction o as [|[k0 v0] o IH]; simpl.
  - destruct (String.eqb k k') eqn:Hk; [|done]. by apply String.eqb_eq in Hk.
  - destruct (String.eqb k0 k) eqn:Hk; simpl.
    + apply String.eqb_eq in Hk as ->.
      destruct (String.eqb k k') eqn:Hk'; [|done]. by apply String.eqb_eq in Hk'.
    + by rewrite IH.
Qed.

Lemma set_keys {V : Type} (o : JsObject.t V) (k : string) (v : V) :
  map fst (JsObject.set o k v)
  = match JsObject.get o k with
    | Some _ => map fst o
    | None => map fst o ++ [k]
    end.
Proof.
  induction o as [|[k0 v0] o IH]; simpl; [done|].
  destruct (String.eqb k0 k) eqn:Hk; simpl; [done|].
  rewrite IH. by destruct (JsObject.get o k).
Qed.

Lemma get_None_keys {V : Type} (o : JsObject.t V) (k : string) :
  JsObject.get o k = None ↔ k ∉ map fst o.
Proof.
  induction o as [|[k0 v0] o IH]; simpl.
  - split; [intros _; apply not_elem_of_nil | done].
  - rewrite not_elem_of_cons. destruct (String.eqb k0 k) eqn:Hk.
    + apply String.eqb_eq in Hk as ->. split; [done | by intros [? _]].
    + apply String.eqb_neq in Hk. rewrite IH. split; [intros ?; split; congruence | tauto].
Qed.

Lemma get_elem {V : Type} (o : JsObject.t V) (k : string) (v : V) :
  NoDup (map fst o) → (k, v) ∈ o → JsObject.get o k = Some v.
Proof.
  induction o as [|[k0 v0] o IH]; simpl; intros Hnd Hin.
  - by apply elem_of_nil in Hin.
  - apply NoDup_cons in Hnd as [Hk0 Hnd].
    apply elem_of_cons in Hin as [Heq|Hin].
    + injection Heq as <- <-. by rewrite String.eqb_refl.
    + destruct (String.eqb k0 k) eqn:Hk.
      * apply String.eqb_eq in Hk as ->. destruct Hk0.
        apply list_elem_of_fmap. by exists (k, v).
      * by apply IH.
Qed.

Section Grouping.
Variable this : CompressionEngine.t.
Variable now : Z.

Lemma group_step_skip groups item :
  eligible this now (Pending.observation item) = false →
  group_step this now groups item = groups.
Proof.
  unfold eligible, group_step. intros He.
  destruct (preserveCritical (options this) && is_critical (Pending.observation item));
    [done|].
  destruct (num_lt _ _); [done|]. destruct (age_gt _ _); [done|]. done.
Qed.

Lemma group_step_keep groups item :
  eligible this now (Pending.observation item) = true →
  ∃ g, group_step this now groups item = JsObject.set groups (groupKey item) g
       ∧ Group.observations g
         = match JsObject.get groups (groupKey item) with
           | Some g0 => Group.observations g0
           | None => []
           end ++ [Pending.observation item].
Proof.
  unfold eligible, group_step. intros He.
  destruct (preserveCritical (options this) && is_critical (Pending.observation item));
    [done|].
  destruct (num_lt _ _); [done|]. destruct (age_gt _ _); [done|].
  eexists. split; [reflexivity|]. simpl.
  by destruct (JsObject.get groups (groupKey item)).
Qed.

Lemma eligible_for_snoc key items item :
  eligible_for this now key (items ++ [item])
  = eligible_for this now key items
    ++ (if decide (eligible this now (Pending.observation item) = true
                   ∧ groupKey item = key)
        then [Pending.observation item] else []).
Proof.
  unfold eligible_for. rewrite filter_app, map_app. f_equal.
  rewrite filter_cons, filter_nil. by case_decide.
Qed.

Lemma grouped_all items : grouped this now (_groupObservations this now items) items.
Proof.
  unfold _groupObservations.
  induction items as [|item items IH] using rev_ind.
  - split; [apply NoDup_nil_2 | done].
  - rewrite fold_left_app. simpl.
    destruct IH as [Hnd IH].
    set (groups := fold_left (group_step this now) items []) in *.
    destruct (eligible this now (Pending.observation item)) eqn:He.
    + destruct (group_step_keep groups item He) as (g & -> & Hg). split.
      * rewrite set_keys. destruct (JsObject.get groups (groupKey item)) eqn:Hget; [done|].
        apply NoDup_app. split_and!; [done | | apply NoDup_singleton].
        intros k Hk ->%list_elem_of_singleton. by apply get_None_keys in Hget.
      * intros key. rewrite eligible_for_snoc, He.
        destruct (decide (groupKey item = key)) as [<-|Hne].
        -- rewrite get_set_eq, decide_True by done. rewrite Hg.
           specialize (IH (groupKey item)).
           destruct (JsObject.get groups (groupKey item)) as [g0|].
           ++ destruct IH as [-> _]. split; [done|]. by intros [_ ?]%app_eq_nil.
           ++ rewrite IH. split; [done | done].
        -- rewrite get_set_ne by done. rewrite decide_False by tauto.
           rewrite app_nil_r. apply IH.
    + rewrite group_step_skip by done. split; [done|].
      intros key. rewrite eligible_for_snoc, He, decide_False by (intros [? _]; done).
      rewrite app_nil_r. apply IH.
Qed.
End Grouping.

Lemma insert_index_elem {V : Type} (n : N) (kv : string * V) l y :
  y ∈ JsObject.insert_index n kv l ↔ y = (n, kv) ∨ y ∈ l.
Proof.
  induction l as [|[m kv'] l IH]; simpl.
  - rewrite list_elem_of_singleton, elem_of_nil. tauto.
  - destruct (n <? m)%N.
    + by rewrite elem_of_cons.
    + rewrite !elem_of_cons, IH. tauto.
Qed.

Lemma index_entries_elem {V : Type} (o : JsObject.t V) y :
  y ∈ JsObject.index_entries o → snd y ∈ o.
Proof.
  induction o as [|[k v] o IH]; simpl; [by intros ?%elem_of_nil|].
  destruct (JsObject.array_index k).
  - intros [->|Hy]%insert_index_elem; [by left | right; auto].
  - intros Hy. right. auto.
Qed.

Lemma entries_elem {V : Type} (o : JsObject.t V) (kv : string * V) :
  kv ∈ JsObject.entries o → kv ∈ o.
Proof.
  unfold JsObject.entries, JsObject.named_entries.
  intros [Hi|Hn]%elem_of_app.
  - apply list_elem_of_fmap in Hi as (y & -> & Hy). by apply index_entries_elem.
  - by apply list_elem_of_filter in Hn as [_ ?].
Qed.

(** Every compressed observation comes from a group that has at least
    [compressionThreshold] observations. *)
Lemma outputs_from_large_groups (this : CompressionEngine.t) (now : Z)
    (pending : list Pending.t) (out : Compressed.t) :
  out ∈ compressObservations this now pending →
  ∃ key g,
    (key, g) ∈ _groupObservations this now pending
    ∧ (compressionThreshold this <= Z.of_nat (length (Group.observations g)))%Z
    ∧ produces this g out.
Proof.
  unfold compressObservations. destruct pending as [|p pending]; [by intros ?%elem_of_nil|].
  destruct (compress_body this now (p :: pending)) as [results|e] eqn:Hbody;
    [|by intros ?%elem_of_nil].
  revert out. unfold compress_body in Hbody.
  set (groups := _groupObservations this now (p :: pending)) in *.
  apply (foldM_invariant (compress_group this)
           (λ acc, ∀ out, out ∈ acc → ∃ key g, (key, g) ∈ groups
              ∧ (compressionThreshold this <= Z.of_nat (length (Group.observations g)))%Z
              ∧ produces this g out)
           (JsObject.entries groups)) with (acc := []) (r := results);
    [| by intros out ?%elem_of_nil | exact Hbody].
  intros acc [key g] acc' Hin%entries_elem Hacc Hstep. unfold compress_group in Hstep.
  simpl in Hstep. destruct (Z.ltb_spec (Z.of_nat (length (Group.observations g)))
                                       (compressionThreshold this)) as [Hlt|Hge].
  { injection Hstep as <-. exact Hacc. }
  destruct (_clusterSimilarObservations this (Group.observations g)) as [clusters|e] eqn:Hcl;
    [|done].
  rewrite bind_Ok in Hstep. injection Hstep as <-.
  apply (fold_left_invariant (compress_step this g)
           (λ acc, ∀ out, out ∈ acc → ∃ key g, (key, g) ∈ groups
              ∧ (compressionThreshold this <= Z.of_nat (length (Group.observations g)))%Z
              ∧ produces this g out)); [|exact Hacc].
  intros acc0 cluster Hcluster Hacc0 out. unfold compress_step.
  destruct (Z.leb_spec (compressionThreshold this) (Z.of_nat (length cluster))) as [Hbig|Hsmall];
    [|apply Hacc0].
  destruct (_compressCluster cluster (Group.entityName g) (Group.category g))
    as [compressed|] eqn:Hcomp; [|apply Hacc0].
  intros [Hout| ->%list_elem_of_singleton]%elem_of_app; [by apply Hacc0|].
  exists key, g. split_and!; [done | done |].
  by exists clusters, cluster.
Qed.

(** ** Stable sorting *)

Section Sorting.
Context {A : Type}.
Variable cmp : A → A → comparison.

Lemma insert_perm (x : A) (l : list A) : JsArray.insert cmp x l ≡ₚ x :: l.
Proof.
  induction l as [|y l IH]; simpl; [done|].
  destruct (cmp x y); try done.
  rewrite IH. apply Permutation_swap.
Qed.

Lemma sort_perm (l : list A) : JsArray.sort cmp l ≡ₚ l.
Proof.
  induction l as [|x l IH]; simpl; [done|].
  by rewrite insert_perm, IH.
Qed.

Lemma sort_length (l : list A) : length (JsArray.sort cmp l) = length l.
Proof. apply Permutation_length, sort_perm. Qed.

Lemma sort_elem (l : list A) (x : A) : x ∈ JsArray.sort cmp l ↔ x ∈ l.
Proof. by rewrite sort_perm. Qed.

Variable R : A → A → Prop.
Hypothesis R_trans : Transitive R.
Hypothesis after : ∀ x y, cmp x y = Gt → R y x.
Hypothesis before : ∀ x y, cmp x y ≠ Gt → R x y.

Lemma insert_sorted (x : A) (l : list A) :
  StronglySorted R l → StronglySorted R (JsArray.insert cmp x l).
Proof.
  induction l as [|y l IH]; intros Hs; simpl.
  - repeat constructor.
  - apply StronglySorted_inv in Hs as [Hs Hy].
    destruct (cmp x y) eqn:Hc.
    + constructor; [by constructor|]. assert (R x y) by (apply before; congruence).
      constructor; [done|]. eapply Forall_impl; [exact Hy|]. intros z Hz. by etrans.
    + constructor; [by constructor|]. assert (R x y) by (apply before; congruence).
      constructor; [done|]. eapply Forall_impl; [exact Hy|]. intros z Hz. by etrans.
    + constructor; [by apply IH|].
      apply Forall_forall. intros z Hz. rewrite insert_perm in Hz.
      apply elem_of_cons in Hz as [->|Hz]; [by apply after|].
      by apply (proj1 (Forall_forall _ _) Hy).
Qed.

Lemma sort_sorted (l : list A) : StronglySorted R (JsArray.sort cmp l).
Proof.
  induction l as [|x l IH]; simpl; [constructor|]. by apply insert_sorted.
Qed.
End Sorting.

Lemma insert_ext {A : Type} (cmp cmp' : A → A → comparison) (x : A) (l : list A) :
  (∀ y, y ∈ l → cmp x y = cmp' x y) →
  JsArray.insert cmp x l = JsArray.insert cmp' x l.
Proof.
  induction l as [|y l IH]; intros Hag; simpl; [done|].
  rewrite <- (Hag y) by by left.
  destruct (cmp x y); try done. f_equal. apply IH. intros z Hz. apply Hag. by right.
Qed.

Lemma sort_ext {A : Type} (cmp cmp' : A → A → comparison) (l : list A) :
  (∀ x y, x ∈ l → y ∈ l → cmp x y = cmp' x y) →
  JsArray.sort cmp l = JsArray.sort cmp' l.
Proof.
  induction l as [|x l IH]; intros Hag; simpl; [done|].
  rewrite IH by (intros y z Hy Hz; apply Hag; by right).
  apply insert_ext. intros y Hy%sort_elem. apply Hag; [by left | by right].
Qed.

Lemma slice0_length {A : Type} (n : Z) (l : list A) :
  (0 <= n)%Z → (Z.of_nat (length (JsArray.slice0 n l)) <= n)%Z.
Proof.
  intros Hn. unfold JsArray.slice0.
  destruct (Z.ltb_spec n 0); [lia|]. rewrite length_take. lia.
Qed.

Lemma slice0_prefix {A : Type} (n : Z) (l : list A) :
  ∃ k, JsArray.slice0 n l = take k l.
Proof. unfold JsArray.slice0. destruct (n <? 0)%Z; eauto. Qed.

Lemma StronglySorted_take {A : Type} (R : A → A → Prop) (k : nat) (l : list A) :
  StronglySorted R l → StronglySorted R (take k l).
Proof.
  revert k. induction l as [|x l IH]; intros k Hs; [by rewrite take_nil|].
  destruct k; [constructor|]. simpl.
  apply StronglySorted_inv in Hs as [Hs Hx]. constructor; [by apply IH|].
  apply Forall_forall. intros y Hy. apply (proj1 (Forall_forall _ _) Hx).
  by apply (subseteq_take k l).
Qed.

(** ** The cluster summarizer *)

Lemma newest_first_valid (a b : Observation) :
  has_time a → has_time b → newest_first a b = (time_ms b ?= time_ms a)%Z.
Proof.
  intros [ta Ha] [tb Hb]. unfold newest_first, time_ms. by rewrite Ha, Hb.
Qed.

#[local] Instance newer_trans : Transitive newer.
Proof. unfold newer. intros a b c ??. lia. Qed.

Lemma sorted_newest_first (cluster : list Observation) :
  Forall has_time cluster →
  StronglySorted newer (JsArray.sort newest_first cluster).
Proof.
  intros Hvalid.
  rewrite (sort_ext newest_first (λ a b, (time_ms b ?= time_ms a)%Z)).
  - apply sort_sorted; [apply _ | |]; unfold newer; intros x y Hc.
    + apply Z.compare_gt_iff in Hc. lia.
    + destruct (Z.compare_spec (time_ms y) (time_ms x)); [lia | lia | done].
  - intros x y Hx Hy. apply newest_first_valid;
      by apply (proj1 (Forall_forall _ _) Hvalid).
Qed.

Lemma summary_step_defined acc (o : Observation) :
  is_Some (content o) → ∃ acc', summary_step acc o = Ok acc'.
Proof.
  intros [text Ht]. destruct acc as [[subjects actions] objects].
  unfold summary_step. rewrite Ht. unfold defined. rewrite bind_Ok.
  destruct (2 <? length (Str.words text)); eauto.
Qed.

Lemma summary_loop_defined (cluster : list Observation) acc :
  Forall (λ o, is_Some (content o)) cluster →
  ∃ acc', foldM summary_step cluster acc = Ok acc'.
Proof.
  revert acc. induction cluster as [|o cluster IH]; intros acc Hc; [by eexists|].
  apply Forall_cons in Hc as [Ho Hc].
  destruct (summary_step_defined acc o Ho) as [acc' Hacc'].
  rewrite foldM_cons, Hacc', bind_Ok. by apply IH.
Qed.

Lemma summary_defined (cluster : list Observation) :
  Forall (λ o, is_Some (content o)) cluster →
  ∃ summary, _generateSummary cluster = Ok summary
    ∧ (1 < length cluster → ends_with summary (observed_times (length cluster))).
Proof.
  intros Hc. destruct (summary_loop_defined cluster ([], [], []) Hc) as [[[s a] o] Hloop].
  unfold _generateSummary. rewrite Hloop, bind_Ok.
  eexists. split; [reflexivity|]. intros Hlen.
  apply Nat.ltb_lt in Hlen. rewrite Hlen. by eexists.
Qed.

Lemma sum_confidence_foldr (cluster : list Observation) :
  Forall (λ o, confidence o ≠ Some 0%Z) cluster →
  sum_confidence cluster = foldr Z.add 0%Z (map confidence_or_3 cluster).
Proof.
  intros Hc. unfold sum_confidence.
  assert (Hgen : ∀ acc, fold_left (λ sum o, (sum + num_or (confidence o) 3)%Z) cluster acc
                        = (acc + foldr Z.add 0 (map confidence_or_3 cluster))%Z).
  { induction Hc as [|o l Ho Hl IH]; intros acc; simpl; [lia|].
    rewrite IH. unfold confidence_or_3 at 2, num_or.
    destruct (confidence o) as [[| |]|]; simpl; try lia. done. }
  rewrite Hgen. lia.
Qed.

Lemma sum_perm (l l' : list Z) : l ≡ₚ l' → foldr Z.add 0%Z l = foldr Z.add 0%Z l'.
Proof. induction 1; simpl; lia. Qed.

Lemma round_half_up (q : Q) : rounds_half_up q (round q).
Proof.
  unfold rounds_half_up, round.
  pose proof (Qfloor_le (q + (1 # 2))) as Hlow.
  pose proof (Qlt_floor (q + (1 # 2))) as Hhigh.
  rewrite inject_Z_plus in Hhigh. change (inject_Z 1) with 1%Q in Hhigh.
  split; lra.
Qed.

(** C4.  An item takes part in compression exactly when none of the three
    rules excludes it: it is critical while critical observations are
    preserved, its confidence is below [minConfidence] (default 3), or its
    age exceeds [maxObservationAge] days (default 7).  The observations
    that remain are grouped, in their order, under the key
    [entityName + ":" + (category or "general")], and every compressed
    observation comes from a group that has at least
    [compressionThreshold] (default 5) observations. *)
Theorem filter_groups_and_threshold (this : CompressionEngine.t) (now : Z)
    (pending : list Pending.t) :
  let groups := _groupObservations this now pending in
  (∀ o, eligible this now o = true ↔
        ¬ excluded_as_critical this o ∧ ¬ excluded_by_confidence this o
        ∧ ¬ excluded_by_age this now o)
  ∧ grouped this now groups pending
  ∧ (∀ p, p ∈ pending → eligible this now (Pending.observation p) = true →
       ∃ g, JsObject.get groups
              (Pending.entityName p ++ ":"
                 ++ str_or (category (Pending.observation p)) "general")%string
            = Some g
            ∧ Pending.observation p ∈ Group.observations g)
  ∧ (∀ key g o, JsObject.get groups key = Some g → o ∈ Group.observations g →
       ∃ p, p ∈ pending ∧ Pending.observation p = o
            ∧ eligible this now o = true ∧ groupKey p = key)
  ∧ (∀ out, out ∈ compressObservations this now pending →
       ∃ key g, JsObject.get groups key = Some g
         ∧ (compressionThreshold this <= Z.of_nat (length (Group.observations g)))%Z
         ∧ produces this g out)
  ∧ minConfidence (options default_engine) = 3%Z
  ∧ maxObservationAge (options default_engine) = (7 # 1)%Q
  ∧ preserveCritical (options default_engine) = true
  ∧ compressionThreshold default_engine = 5%Z.
Proof.
  intros groups. pose proof (grouped_all this now pending) as Hgrouped.
  fold groups in Hgrouped. destruct Hgrouped as [Hnd Hget].
  split_and!; try done.
  - apply eligible_spec.
  - intros p Hp He. specialize (Hget (groupKey p)).
    assert (Hin : Pending.observation p ∈ eligible_for this now (groupKey p) pending).
    { unfold eligible_for. apply list_elem_of_fmap. exists p. split; [done|].
      by apply list_elem_of_filter. }
    change (Pending.entityName p ++ ":"
              ++ str_or (category (Pending.observation p)) "general")%string
      with (groupKey p).
    destruct (JsObject.get groups (groupKey p)) as [g|].
    + exists g. destruct Hget as [-> _]. done.
    + rewrite Hget in Hin. by apply elem_of_nil in Hin.
  - intros key g o Hg Ho. specialize (Hget key). rewrite Hg in Hget.
    destruct Hget as [Hobs _]. rewrite Hobs in Ho. unfold eligible_for in Ho.
    apply list_elem_of_fmap in Ho as (p & -> & Hp).
    apply list_elem_of_filter in Hp as [[He Hk] Hp]. by exists p.
  - intros out (key & g & Hin & Hlen & Hprod)%outputs_from_large_groups.
    exists key, g. split_and!; [|done|done]. by apply get_elem.
Qed.

Lemma existsb_elem {A : Type} (f : A → bool) (l : list A) :
  existsb f l = true ↔ ∃ x, x ∈ l ∧ f x = true.
Proof.
  rewrite existsb_exists. split; intros (x & Hx & Hf); exists x;
    (split; [by apply list_elem_of_In | done]).
Qed.

(** The fields of the compressed observation of a cluster that is not
    empty and whose members all have a content. *)
Lemma compress_cluster_fields (cluster : list Observation) (entityName category : string) :
  cluster ≠ [] → Forall (λ o, is_Some (content o)) cluster →
  ∃ first rest summary,
    JsArray.sort newest_first cluster = first :: rest
    ∧ _generateSummary (first :: rest) = Ok summary
    ∧ _compressCluster cluster entityName category
      = Some {| Compressed.content := summary;
                Compressed.source_observations := map content (first :: rest);
                Compressed.confidence :=
                  round (inject_Z (sum_confidence (first :: rest))
                         / inject_Z (Z.of_nat (length (first :: rest))));
                Compressed.category := category;
                Compressed.timestamp := timestamp first;
                Compressed.is_critical := existsb is_critical (first :: rest);
                Compressed.time_window := None |}.
Proof.
  intros Hne Hcontents.
  destruct (JsArray.sort newest_first cluster) as [|first rest] eqn:Hsort.
  { apply (f_equal length) in Hsort. rewrite sort_length in Hsort.
    destruct cluster; [done | simpl in Hsort; lia]. }
  destruct (summary_defined (first :: rest)) as (summary & Hsum & _).
  { rewrite <- Hsort. apply Forall_forall. intros o Ho%sort_elem.
    by apply (proj1 (Forall_forall _ _) Hcontents). }
  exists first, rest, summary. split_and!; [done | done |].
  unfold _compressCluster, compress_cluster_body. cbv zeta. rewrite Hsort.
  change (defined (head (first :: rest))) with (Ok (A := Observation) first).
  rewrite bind_Ok, Hsum, bind_Ok. done.
Qed.

(** X30.  For a cluster that is not empty, whose members have a content, a
    readable timestamp and a confidence that is absent or not zero, the
    summarizer returns a compressed observation: its timestamp is that of
    a member that no member is more recent than; its confidence is the
    mean of the confidences, an absent one counting as 3, rounded to the
    nearest integer with a half going up; it is critical exactly when a
    member is; its sources are the contents of all the members, most
    recent first; and its content ends with [" (observed n times)"] when
    the cluster has more than one member.  Whenever the body of the
    summarizer raises an exception, as it does on an empty cluster, the
    result is [null]. *)
Theorem compressed_cluster (cluster : list Observation) (entityName category : string) :
  cluster ≠ [] →
  Forall (λ o, is_Some (content o)) cluster →
  Forall has_time cluster →
  Forall (λ o, confidence o ≠ Some 0%Z) cluster →
  ∃ out,
    _compressCluster cluster entityName category = Some out
    ∧ (∃ newest, newest ∈ cluster
         ∧ Compressed.timestamp out = timestamp newest
         ∧ ∀ o, o ∈ cluster → newer newest o)
    ∧ rounds_half_up (mean_confidence cluster) (Compressed.confidence out)
    ∧ (Compressed.is_critical out = true ↔ ∃ o, o ∈ cluster ∧ is_critical o = true)
    ∧ (∃ sorted, sorted ≡ₚ cluster ∧ StronglySorted newer sorted
         ∧ Compressed.source_observations out = map content sorted)
    ∧ (1 < length cluster →
       ends_with (Compressed.content out)
         (" (observed " ++ Str.of_nat (length cluster) ++ " times)"))
    ∧ (∀ cl n c e, compress_cluster_body cl n c = Throw e → _compressCluster cl n c = None)
    ∧ _compressCluster [] entityName category = None.
Proof.
  intros Hne Hcontents Htimes Hconf.
  destruct (compress_cluster_fields cluster entityName category Hne Hcontents)
    as (first & rest & summary & Hsort & Hsum & Hout).
  pose proof (sort_perm newest_first cluster) as Hperm. rewrite Hsort in Hperm.
  pose proof (sorted_newest_first cluster Htimes) as Hsorted. rewrite Hsort in Hsorted.
  eexists. split; [exact Hout|]. cbn [Compressed.timestamp Compressed.confidence
    Compressed.is_critical Compressed.source_observations Compressed.content].
  split_and!.
  - exists first. split_and!; [rewrite <- Hperm; by left | done |].
    intros o Ho. rewrite <- Hperm in Ho.
    apply StronglySorted_inv in Hsorted as [_ Hfirst].
    apply elem_of_cons in Ho as [->|Ho]; [unfold newer; lia|].
    by apply (proj1 (Forall_forall _ _) Hfirst).
  - assert (Hsame : (inject_Z (sum_confidence (first :: rest))
                     / inject_Z (Z.of_nat (length (first :: rest))))%Q
                    = mean_confidence cluster).
    { unfold mean_confidence. rewrite sum_confidence_foldr.
      - by rewrite (sum_perm _ _ (Permutation_map confidence_or_3 Hperm)),
          (Permutation_length Hperm).
      - by rewrite Hperm. }
    rewrite Hsame. apply round_half_up.
  - rewrite existsb_elem. by setoid_rewrite Hperm.
  - by exists (first :: rest).
  - intros Hlen. destruct (summary_defined (first :: rest)) as (s & Hs & Hend).
    { by rewrite Hperm. }
    rewrite Hs in Hsum. injection Hsum as <-.
    rewrite <- (Permutation_length Hperm). apply Hend.
    by rewrite (Permutation_length Hperm).
  - intros cl n c e Hbody. unfold _compressCluster. by rewrite Hbody.
  - done.
Qed.

(** X30 at two observations with the confidences 3 and 4: the compressed
    confidence is 4, the timestamp is the later one and the sources are
    listed with the later observation first. *)
Lemma compressed_cluster_witness :
  ∃ out,
    _compressCluster [half_a; half_b] "Alice" "preference" = Some out
    ∧ Compressed.confidence out = 4%Z
    ∧ Compressed.timestamp out = TsAt 20
    ∧ Compressed.source_observations out
      = [Some "Alice likes black tea"%string; Some "Alice likes green tea"%string]
    ∧ Compressed.is_critical out = true
    ∧ Compressed.content out = "Alice likes black (observed 2 times)"%string
    ∧ rounds_half_up (mean_confidence [half_a; half_b]) (Compressed.confidence out).
Proof.
  destruct (compressed_cluster [half_a; half_b] "Alice" "preference")
    as (out & Hout & _ & Hround & _).
  - done.
  - repeat constructor; simpl; eauto.
  - repeat constructor; unfold has_time; simpl; eauto.
  - repeat constructor; simpl; discriminate.
  - exists out. vm_compute in Hout. injection Hout as <-.
    split_and!; try reflexivity. exact Hround.
Defined.

(** C5.  The code on a cluster with a member that has no timestamp.
    The two pending observations of [undated_pending] are similar and
    pass the filter, the first because its age is not a number, which is
    not greater than [maxObservationAge]; they form one cluster.  The
    comparator of the sort subtracts two dates, and the difference with
    the date of no timestamp is not a number, which the sort takes as
    zero: the two members are equal for the sort, which is stable and
    leaves them in the order of the input.  The compressed observation
    takes its timestamp from the first member, which has none, and lists
    the sources in the order of the input; the claim gives it the most
    recent timestamp of the members, here that of the second, and the
    sources most recent first. *)
Theorem undated_member_hides_the_latest :
  ∃ out,
    _compressCluster (map Pending.observation undated_pending) "user" "goal" = Some out
    ∧ compressObservations example_engine a_minute_later undated_pending = [out]
    ∧ map (λ p, timestamp (Pending.observation p)) undated_pending
      = [TsMissing; TsAt some_day]
    ∧ Compressed.timestamp out = TsMissing
    ∧ Compressed.source_observations out
      = [Some "User asked about memory"%string;
         Some "User questioned about storage"%string]
    ∧ newest_first (mkObservation None TsMissing None None false)
                   (mkObservation None (TsAt some_day) None None false) = Eq
    ∧ newest_first (mkObservation None (TsAt some_day) None None false)
                   (mkObservation None TsMissing None None false) = Eq.
Proof. eexists. split_and!; vm_compute; reflexivity. Qed.

(** ** The compression pipeline *)

Section Pipeline.
Variable this : CompressionEngine.t.

Lemma compress_step_keep (g : Group.t) acc cluster out :
  large this cluster = true →
  _compressCluster cluster (Group.entityName g) (Group.category g) = Some out →
  compress_step this g acc cluster = acc ++ [out].
Proof. unfold large, compress_step. by intros -> ->. Qed.

Lemma compress_step_drop (g : Group.t) acc cluster :
  large this cluster ≠ true → compress_step this g acc cluster = acc.
Proof.
  unfold large, compress_step. intros Hl.
  by destruct (compressionThreshold this <=? Z.of_nat (length cluster))%Z.
Qed.

Lemma compress_clusters (g : Group.t) (clusters : list (list Observation)) :
  Forall (λ c, c ≠ [] ∧ Forall (λ o, is_Some (content o)) c) clusters →
  ∀ acc, ∃ outs,
    fold_left (compress_step this g) clusters acc = acc ++ outs
    ∧ Forall2 compresses
        (map (pair g) (filter (λ c, large this c = true) clusters)) outs.
Proof.
  induction 1 as [|c clusters [Hne Hc] _ IH]; intros acc.
  - exists []. split; [by rewrite app_nil_r | constructor].
  - simpl. destruct (decide (large this c = true)) as [Hl|Hl].
    + destruct (compress_cluster_fields c (Group.entityName g) (Group.category g) Hne Hc)
        as (first & rest & summary & Hsort & _ & Hout).
      match type of Hout with _ = Some ?o => set (out := o) in * end.
      rewrite (compress_step_keep g acc c out Hl Hout).
      destruct (IH (acc ++ [out])) as (outs & -> & Houts).
      exists (out :: outs). split; [by rewrite <- app_assoc|].
      rewrite filter_cons_True by done. simpl. constructor; [|done].
      split; [exact Hout|]. unfold out.
      cbn [Compressed.source_observations snd].
      rewrite length_map, <- Hsort. apply sort_length.
    + rewrite compress_step_drop by done.
      destruct (IH acc) as (outs & -> & Houts). exists outs.
      by rewrite filter_cons_False.
Qed.

Lemma greedy_clusters_contents (observations : list Observation) :
  Forall (λ o, is_Some (content o)) observations →
  Forall (λ c, c ≠ [] ∧ Forall (λ o, is_Some (content o)) c)
         (greedy_clusters this observations).
Proof.
  intros Hc. apply Forall_forall. intros c Hin.
  apply greedy_shape in Hin as (seed & members & -> & _ & _ & Hsub).
  split; [done|]. apply Forall_forall. intros o Ho.
  apply (proj1 (Forall_forall _ _) Hc). by apply Hsub.
Qed.

Lemma compress_group_eq acc (key : string) (g : Group.t) :
  compress_group this acc (key, g)
  = if (Z.of_nat (length (Group.observations g)) <? compressionThreshold this)%Z
    then Ok acc
    else _clusterSimilarObservations this (Group.observations g) ≫= λ clusters,
         Ok (fold_left (compress_step this g) clusters acc).
Proof. reflexivity. Qed.

Lemma compress_groups (entries : list (string * Group.t)) :
  Forall (λ e, Forall (λ o, is_Some (content o)) (Group.observations (snd e))) entries →
  ∀ acc, ∃ outs,
    foldM (compress_group this) entries acc = Ok (acc ++ outs)
    ∧ Forall2 compresses (compression_plan this entries) outs.
Proof.
  unfold compression_plan.
  induction 1 as [|[key g] entries Hg _ IH]; intros acc.
  - exists []. split; [simpl; by rewrite app_nil_r | constructor].
  - rewrite foldM_cons, compress_group_eq. simpl snd in *.
    destruct (Z.ltb_spec (Z.of_nat (length (Group.observations g)))
                         (compressionThreshold this)) as [Hsmall|Hlarge].
    + rewrite bind_Ok. destruct (IH acc) as (outs & -> & Houts). exists outs.
      split; [done|]. simpl. rewrite filter_cons_False; [done|].
      unfold large. intros Hge%Z.leb_le. lia.
    + rewrite (cluster_refines_greedy this _ Hg), !bind_Ok.
      destruct (compress_clusters g _ (greedy_clusters_contents _ Hg) acc)
        as (outs1 & -> & Houts1).
      destruct (IH (acc ++ outs1)) as (outs2 & -> & Houts2).
      exists (outs1 ++ outs2). split; [by rewrite <- app_assoc|].
      simpl. rewrite filter_cons_True by (by apply Z.leb_le). simpl.
      by apply Forall2_app.
Qed.
End Pipeline.

Lemma grouped_contents (this : CompressionEngine.t) (now : Z) (pending : list Pending.t) :
  Forall (λ p, is_Some (content (Pending.observation p))) pending →
  Forall (λ e, Forall (λ o, is_Some (content o)) (Group.observations (snd e)))
         (JsObject.entries (_groupObservations this now pending)).
Proof.
  intros Hc. apply Forall_forall. intros [key g] Hin%entries_elem.
  destruct (grouped_all this now pending) as [Hnd Hget].
  specialize (Hget key). rewrite (get_elem _ _ _ Hnd Hin) in Hget.
  destruct Hget as [Hobs _]. simpl. rewrite Hobs. unfold eligible_for.
  apply Forall_forall. intros o (p & -> & Hp)%list_elem_of_fmap.
  apply list_elem_of_filter in Hp as [_ Hp].
  by apply (proj1 (Forall_forall _ _) Hc).
Qed.

Lemma compress_all (this : CompressionEngine.t) (now : Z) (pending : list Pending.t) :
  Forall (λ p, is_Some (content (Pending.observation p))) pending →
  Forall2 compresses
    (compression_plan this (JsObject.entries (_groupObservations this now pending)))
    (compressObservations this now pending).
Proof.
  intros Hc. unfold compressObservations. destruct pending as [|p pending].
  - constructor.
  - unfold compress_body.
    destruct (compress_groups this _ (grouped_contents this now _ Hc) [])
      as (outs & -> & Houts). done.
Qed.

Lemma days_between_mono (now t t' : Z) :
  (t <= t')%Z → (days_between now t' <= days_between now t)%Q.
Proof.
  intros Ht. unfold days_between, Qdiv. apply Qmult_le_compat_r.
  - rewrite <- Zle_Qle. lia.
  - done.
Qed.

Lemma entries_singleton {V : Type} (k : string) (v : V) :
  JsObject.entries [(k, v)] = [(k, v)].
Proof.
  unfold JsObject.entries, JsObject.named_entries.
  rewrite filter_cons, filter_nil. cbn [JsObject.index_entries fst].
  destruct (JsObject.array_index k) eqn:Hk; case_decide; done.
Qed.

Lemma example_groups (entityName entityType : string) (T now : Z) :
  (days_between now T <= 7 # 1)%Q →
  _groupObservations example_engine now (example_pending entityName entityType T)
  = [ ((entityName ++ ":" ++ "goal")%string,
       {| Group.entityName := entityName;
          Group.entityType := entityType;
          Group.category := "goal";
          Group.observations :=
            map Pending.observation (example_pending entityName entityType T) |}) ].
Proof.
  intros Hage.
  assert (H1 : Qle_bool (days_between now T) (7 # 1) = true) by by apply Qle_bool_iff.
  assert (H2 : Qle_bool (days_between now (T + 1)) (7 # 1) = true).
  { apply Qle_bool_iff. eapply Qle_trans; [apply (days_between_mono now T)|exact Hage]. lia. }
  unfold _groupObservations, example_pending. cbn [fold_left].
  unfold group_step, groupKey, ageInDays, age_gt.
  cbn -[days_between Qle_bool String.eqb String.append].
  rewrite H1, H2. cbn -[days_between Qle_bool String.eqb String.append].
  rewrite !String.eqb_refl. reflexivity.
Qed.

Lemma example_clusters (a b : Observation) :
  content a = Some "User asked about memory"%string →
  content b = Some "User questioned about storage"%string →
  greedy_clusters example_engine [a; b] = [[a; b]].
Proof.
  intros Ha Hb. unfold greedy_clusters. cbn [length greedy].
  rewrite !filter_cons, !filter_nil. unfold similar. rewrite Ha, Hb.
  repeat case_decide; done.
Qed.

Lemma example_compresses (entityName entityType : string) (T now : Z) :
  (days_between now T <= 7 # 1)%Q →
  ∃ out,
    compressObservations example_engine now (example_pending entityName entityType T)
    = [out]
    ∧ length (Compressed.source_observations out) = 2.
Proof.
  intros Hage.
  assert (Hcontents : Forall (λ p, is_Some (content (Pending.observation p)))
                             (example_pending entityName entityType T))
    by (repeat constructor; simpl; eauto).
  pose proof (compress_all example_engine now _ Hcontents) as Hall.
  rewrite (example_groups _ _ _ _ Hage), entries_singleton in Hall.
  unfold compression_plan, kept_clusters in Hall.
  cbn [map snd] in Hall. rewrite filter_cons_True, filter_nil in Hall by done.
  cbn [flat_map Group.observations example_pending map Pending.observation] in Hall.
  rewrite example_clusters, filter_cons_True, filter_nil in Hall by done.
  cbn [map app] in Hall.
  apply Forall2_cons_inv_l in Hall as (out & outs & [Hc Hlen] & Hnil & Heq).
  apply Forall2_nil_inv_l in Hnil as ->.
  exists out. by rewrite Heq.
Qed.

(** C2, counterexample.  With the default engine the five observations
    of [sparse_pending] form one group, which reaches the threshold of 5;
    the clusterer finds in it one cluster of two observations; no
    compressed observation comes out, because the cluster has fewer than
    [compressionThreshold] members. *)
Lemma sparse_is_dropped :
  ∃ g,
    JsObject.entries (_groupObservations default_engine 2000 sparse_pending)
    = [("user:goal"%string, g)]
    ∧ length (Group.observations g) = 5
    ∧ _clusterSimilarObservations default_engine (Group.observations g)
      = Ok [[ mkObservation (Some "likes green tea"%string) (TsAt 1000) (Some 5%Z)
                (Some "goal"%string) false;
              mkObservation (Some "likes green tea"%string) (TsAt 1000) (Some 5%Z)
                (Some "goal"%string) false ]]
    ∧ compressObservations default_engine 2000 sparse_pending = [].
Proof. eexists. split_and!; vm_compute; reflexivity. Qed.


(** C2 (as amended).  When every pending observation has a content, the
    compressed observations are, one for one and in order, the
    compressions of the clusters that have at least [compressionThreshold]
    members, taken in the groups that have at least [compressionThreshold]
    observations, and each lists as many sources as its cluster has
    members; smaller clusters give nothing.  In particular the two goal
    observations of the example, of one entity and not older than seven
    days, give with [similarityThreshold = 0.2] and
    [compressionThreshold = 2] exactly one compressed observation, with
    two sources. *)
Theorem large_clusters_compress (this : CompressionEngine.t) (now : Z)
    (pending : list Pending.t) :
  Forall (λ p, is_Some (content (Pending.observation p))) pending →
  Forall2 compresses
    (compression_plan this (JsObject.entries (_groupObservations this now pending)))
    (compressObservations this now pending)
  ∧ (∀ entityName entityType T,
       (days_between now T <= 7 # 1)%Q →
       ∃ out,
         compressObservations example_engine now
           (example_pending entityName entityType T) = [out]
         ∧ length (Compressed.source_observations out) = 2).
Proof.
  intros Hcontents. split.
  - by apply compress_all.
  - intros entityName entityType T. apply example_compresses.
Qed.

(** The amended C2 at the example of the specification, one second after
    the first observation. *)
Lemma large_clusters_compress_witness :
  Forall2 compresses
    (compression_plan example_engine
       (JsObject.entries
          (_groupObservations example_engine 1000 (example_pending "user" "Person" 0))))
    (compressObservations example_engine 1000 (example_pending "user" "Person" 0))
  ∧ (∀ entityName entityType T,
       (days_between 1000 T <= 7 # 1)%Q →
       ∃ out,
         compressObservations example_engine 1000
           (example_pending entityName entityType T) = [out]
         ∧ length (Compressed.source_observations out) = 2).
Proof.
  apply (large_clusters_compress example_engine 1000 (example_pending "user" "Person" 0)).
  repeat constructor; simpl; eauto.
Defined.

(** ** Recency *)

Import RetrievalService.

Lemma max_list_spec (l : list Z) :
  l ≠ [] → (∀ t, t ∈ l → (0 < t)%Z) →
  max_list l ∈ l ∧ ∀ t, t ∈ l → (t <= max_list l)%Z.
Proof.
  induction l as [|x l IH]; [done|]. intros _ Hpos.
  destruct l as [|y l].
  - simpl. assert (0 < x)%Z by (apply Hpos; by left).
    rewrite Z.max_l by lia. split; [by left|].
    intros t ->%list_elem_of_singleton. lia.
  - destruct IH as [Hin Hmax]; [done | intros t Ht; apply Hpos; by right|].
    change (max_list (x :: y :: l)) with (Z.max x (max_list (y :: l))).
    split.
    + destruct (Z.max_spec x (max_list (y :: l))) as [[_ ->]|[_ ->]];
        [by right | by left].
    + intros t [->|Ht]%elem_of_cons; [lia|]. apply Hmax in Ht. lia.
Qed.

Lemma recent_times (observations : list Observation) (t : Z) :
  t ∈ filter (λ timestamp, (0 < timestamp)%Z)
        (omap (λ o, if ts_truthy (timestamp o) then getTime (timestamp o) else Some 0%Z)
              observations)
  ↔ (0 < t)%Z ∧ ∃ o, o ∈ observations ∧ getTime (timestamp o) = Some t.
Proof.
  rewrite list_elem_of_filter, list_elem_of_omap. split.
  - intros [Hpos (o & Ho & Ht)]. split; [done|]. exists o. split; [done|].
    destruct (timestamp o); simpl in *; try done. injection Ht as <-. lia.
  - intros [Hpos (o & Ho & Ht)]. split; [done|]. exists o. split; [done|].
    destruct (timestamp o); simpl in *; done.
Qed.

Lemma div_lt_compat (a b w : Q) : (0 < w)%Q → (a < b)%Q → (a / w < b / w)%Q.
Proof.
  intros Hw Hab. unfold Qdiv. apply Qmult_lt_compat_r; [|done].
  by apply Qinv_lt_0_compat.
Qed.

Lemma div_le_compat (a b w : Q) : (0 < w)%Q → (a <= b)%Q → (a / w <= b / w)%Q.
Proof.
  intros Hw Hab. unfold Qdiv. apply Qmult_le_compat_r; [done|].
  apply Qlt_le_weak. by apply Qinv_lt_0_compat.
Qed.

Lemma div_self (w : Q) : (0 < w)%Q → (w / w == 1)%Q.
Proof. intros Hw. apply Qmult_inv_r. intros Heq. rewrite Heq in Hw. by apply Qlt_irrefl in Hw. Qed.

Lemma recency_decreases (w d1 d2 : Q) :
  (0 < w)%Q → (d1 < d2)%Q → (d1 < w)%Q →
  (recency_of_days w d2 < recency_of_days w d1)%Q.
Proof.
  intros Hw H12 H1. unfold recency_of_days.
  pose proof (div_lt_compat d1 d2 w Hw H12) as Ha.
  pose proof (div_lt_compat d1 w w Hw H1) as Hb. rewrite (div_self w Hw) in Hb.
  destruct (Q.max_spec 0 (1 - d1 / w)) as [[_ ->]|[Hle _]]; [|lra].
  destruct (Q.max_spec 0 (1 - d2 / w)) as [[_ ->]|[_ ->]]; lra.
Qed.

Lemma recency_beyond_window (w d : Q) :
  (0 < w)%Q → (w <= d)%Q → (recency_of_days w d == 0)%Q.
Proof.
  intros Hw Hd. unfold recency_of_days.
  pose proof (div_le_compat w d w Hw Hd) as Ha. rewrite (div_self w Hw) in Ha.
  apply Q.max_l. lra.
Qed.

(** C7.  With a positive recency window, whose default is 30 days, the
    recency score of an entity is 0 when none of its observations has a
    timestamp after the epoch, in particular when none has a timestamp;
    otherwise it is [max(0, 1 - daysSince / recencyWindow)] for the days
    since its most recent observation.  As a function of [daysSince] the
    score decreases strictly below the window and is 0 from the window
    on. *)
Theorem recency_score (this : Options) (now : Z) (e : Entity.t) :
  (0 < recencyWindow this)%Q →
  ((∀ o t, o ∈ Entity.observations e → getTime (timestamp o) = Some t → (t <= 0)%Z) →
   _calculateRecencyScore this now e = 0%Q)
  ∧ (∀ o m, o ∈ Entity.observations e → getTime (timestamp o) = Some m → (0 < m)%Z →
       (∀ o' t, o' ∈ Entity.observations e → getTime (timestamp o') = Some t →
                (t <= m)%Z) →
       _calculateRecencyScore this now e
       = Qmax 0 (1 - days_between now m / recencyWindow this)%Q)
  ∧ (∀ d1 d2, (d1 < d2)%Q → (d1 < recencyWindow this)%Q →
       (recency_of_days (recencyWindow this) d2
        < recency_of_days (recencyWindow this) d1)%Q)
  ∧ (∀ d, (recencyWindow this <= d)%Q →
       (recency_of_days (recencyWindow this) d == 0)%Q)
  ∧ recencyWindow default_options = (30 # 1)%Q.
Proof.
  intros Hw. split_and!; [| | | |done].
  - intros Hnone. unfold _calculateRecencyScore.
    destruct (Entity.observations e) as [|o0 l] eqn:Hobs; [done|].
    destruct (filter _ _) as [|t ts] eqn:Hts; [done|]. exfalso.
    assert (Ht : t ∈ t :: ts) by by left. rewrite <- Hts in Ht.
    apply recent_times in Ht as [Hpos (o & Ho & Ht)].
    specialize (Hnone o t Ho Ht). lia.
  - intros o m Ho Hm Hpos Hmax. unfold _calculateRecencyScore.
    destruct (Entity.observations e) as [|o0 l] eqn:Hobs; [by apply elem_of_nil in Ho|].
    assert (Hin : m ∈ filter (λ timestamp, (0 < timestamp)%Z)
              (omap (λ o, if ts_truthy (timestamp o) then getTime (timestamp o)
                          else Some 0%Z) (o0 :: l))).
    { apply recent_times. eauto. }
    destruct (filter _ _) as [|t ts] eqn:Hts; [by apply elem_of_nil in Hin|].
    destruct (max_list_spec (t :: ts)) as [Hmax_in Hmax_le]; [done| |].
    { intros t' Ht'. rewrite <- Hts in Ht'. by apply recent_times in Ht' as [? _]. }
    assert (Heq : max_list (t :: ts) = m).
    { apply Z.le_antisymm; [|by apply Hmax_le].
      destruct (proj1 (recent_times (o0 :: l) (max_list (t :: ts))))
        as [_ (o' & Ho' & Ht')]; [by rewrite Hts|].
      by apply (Hmax o'). }
    by rewrite Heq.
  - intros d1 d2. by apply recency_decreases.
  - intros d. by apply recency_beyond_window.
Qed.

(** C7 at the default window, thirty days after the epoch: the entity
    last seen fifteen days before scores one half. *)
Lemma recency_score_witness :
  (_calculateRecencyScore default_options (30 * ms_per_day) fortnight == 1 # 2)%Q
  ∧ (recency_of_days (recencyWindow default_options) (40 # 1) == 0)%Q.
Proof.
  destruct (recency_score default_options (30 * ms_per_day) fortnight)
    as (_ & Hrecent & _ & Hbeyond & _); [done|].
  split.
  - rewrite (Hrecent (mkObservation (Some "plays chess"%string) (TsAt (15 * ms_per_day))
                        (Some 4%Z) None false) (15 * ms_per_day)%Z).
    + reflexivity.
    + right. by left.
    + reflexivity.
    + reflexivity.
    + intros o' t [->|[->|Hnil%elem_of_nil]%elem_of_cons]%elem_of_cons Ht;
        [discriminate | injection Ht as <-; lia | done].
  - apply Hbeyond. done.
Defined.

(** ** Specialised retrievals *)

Lemma elem_length_pos {A : Type} (x : A) (l : list A) : x ∈ l → 0 < length l.
Proof. destruct l; [by intros ?%elem_of_nil | simpl; lia]. Qed.

Lemma restrict_observations_spec (keep : Observation → bool) (entities : list Entity.t) :
  Forall2 (restricted keep)
    (filter (λ e, existsb keep (Entity.observations e) = true) entities)
    (restrict_observations keep entities).
Proof.
  unfold restrict_observations.
  induction entities as [|e entities IH]; [constructor|].
  rewrite fmap_cons, !filter_cons. cbn [Entity.observations].
  assert (Hiff : existsb keep (Entity.observations e) = true
                 ↔ (0 <? length (filter (λ o, keep o = true) (Entity.observations e))) = true).
  { rewrite existsb_elem, Nat.ltb_lt. split.
    - intros (o & Ho & Hk).
      assert (Hin : o ∈ filter (λ o, keep o = true) (Entity.observations e))
        by by apply list_elem_of_filter.
      by apply elem_length_pos in Hin.
    - intros Hlen.
      destruct (filter (λ o, keep o = true) (Entity.observations e)) as [|o l] eqn:Hf;
        [simpl in Hlen; lia|].
      assert (Hin : o ∈ filter (λ o, keep o = true) (Entity.observations e))
        by (rewrite Hf; by left).
      apply list_elem_of_filter in Hin as [? ?]. eauto. }
  destruct (decide (existsb keep (Entity.observations e) = true)) as [Hex|Hex].
  - rewrite decide_True by by apply Hiff. constructor; [|done]. by split_and!.
  - rewrite decide_False by (by rewrite <- Hiff). done.
Qed.

Lemma restrict_observations_elem (keep : Observation → bool) (entities : list Entity.t)
    (r : Entity.t) :
  r ∈ restrict_observations keep entities →
  ∃ e, e ∈ entities ∧ restricted keep e r.
Proof.
  intros Hr.
  destruct (proj1 (list_elem_of_lookup _ _) Hr) as [i Hi].
  destruct (Forall2_lookup_r _ _ _ _ _ (restrict_observations_spec keep entities) Hi)
    as (e & He & Hres).
  exists e. split; [|done].
  apply list_elem_of_lookup_2 in He. by apply list_elem_of_filter in He as [_ ?].
Qed.

Lemma critical_relation_spec (r : Relation.t) :
  critical_relation r = true
  ↔ ∃ a, Relation.attributes r = Some a ∧ Relation.is_critical a = true.
Proof.
  unfold critical_relation. destruct (Relation.attributes r) as [a|].
  - split; [eauto | by intros (? & [= <-] & ?)].
  - split; [done | by intros (? & ? & ?)].
Qed.

(** C8.  When the graph answers, [retrieveCriticalMemories] returns no
    error; its entities are, in the order of the graph and without any
    being left out, the entities that have a critical observation, each
    with exactly its critical observations in their order; its relations
    are exactly the relations of the graph whose attributes are critical,
    in their order.  In particular an entity with one critical and one
    ordinary observation comes back with the critical one only. *)
Theorem critical_memories {G : Type} `{KnowledgeGraph G} (knowledgeGraph : G)
    (entityNames : list string) (entities : list Entity.t) (graph : option Graph.t) :
  candidate_entities knowledgeGraph entityNames = Ok entities →
  exportGraph knowledgeGraph = Ok graph →
  let result := retrieveCriticalMemories knowledgeGraph entityNames in
  Critical.error result = None
  ∧ Forall2 (restricted is_critical)
      (filter (λ e, existsb is_critical (Entity.observations e) = true) entities)
      (Critical.entities result)
  ∧ (∀ r o, r ∈ Critical.entities result →
       o ∈ Entity.observations r → is_critical o = true)
  ∧ Critical.relations result
    = filter (λ r, critical_relation r = true) (graph_relations graph)
  ∧ (∀ r, r ∈ Critical.relations result ↔
          r ∈ graph_relations graph
          ∧ ∃ a, Relation.attributes r = Some a ∧ Relation.is_critical a = true)
  ∧ (∀ name type critical ordinary,
       is_critical critical = true → is_critical ordinary = false →
       Critical.entities
         (retrieveCriticalMemories
            (MemoryGraph.mk [Entity.mk name type [critical; ordinary]] [] false) [])
       = [Entity.mk name type [critical]]).
Proof.
  intros Hentities Hgraph result.
  assert (Hresult : result
            = {| Critical.entities := restrict_observations is_critical entities;
                 Critical.relations :=
                   filter (λ r, critical_relation r = true) (graph_relations graph);
                 Critical.error := None |}).
  { unfold result, retrieveCriticalMemories, critical_body, exported_relations.
    rewrite Hentities, bind_Ok, Hgraph, !bind_Ok. unfold graph_relations.
    destruct graph as [[es [rs|]]|]; done. }
  rewrite Hresult. cbn [Critical.error Critical.entities Critical.relations].
  split_and!; [done | apply restrict_observations_spec | | done | |].
  - intros r o (e & _ & _ & _ & Hobs)%restrict_observations_elem Ho.
    rewrite Hobs in Ho. by apply list_elem_of_filter in Ho as [? _].
  - intros r. rewrite list_elem_of_filter, critical_relation_spec. tauto.
  - intros name type critical ordinary Hc Ho.
    unfold retrieveCriticalMemories, critical_body, candidate_entities,
      exported_relations, restrict_observations.
    cbn. rewrite Hc, Ho.
    rewrite (decide_True (P := true = true)) by done.
    rewrite (decide_False (P := false = true)) by done.
    cbn. by rewrite decide_True.
Qed.

(** C8 on the sample graph: the user comes back with the allergy only,
    the entity without observations is left out, and the critical
    relation is the only one returned. *)
Lemma critical_memories_witness :
  Critical.error (retrieveCriticalMemories sample_graph []) = None
  ∧ Forall2 (restricted is_critical)
      (filter (λ e, existsb is_critical (Entity.observations e) = true)
              (MemoryGraph.entities sample_graph))
      (Critical.entities (retrieveCriticalMemories sample_graph []))
  ∧ Critical.relations (retrieveCriticalMemories sample_graph [])
    = filter (λ r, critical_relation r = true) (MemoryGraph.relations sample_graph).
Proof.
  destruct (critical_memories sample_graph [] (MemoryGraph.entities sample_graph)
              (Some {| Graph.entities := Some (MemoryGraph.entities sample_graph);
                       Graph.relations := Some (MemoryGraph.relations sample_graph) |}))
    as (Herror & Hentities & _ & Hrelations & _); [reflexivity | reflexivity |].
  by split_and!.
Defined.

Lemma filter_and_sort_spec (now : Z) (observations : list Observation)
    (keywords : list string) (options : Options) (so : ScoredObservation) :
  so ∈ _filterAndSortObservations now observations keywords options →
  obs so ∈ observations
  ∧ (minConfidence options <= num_or (confidence (obs so)) 0)%Z.
Proof.
  unfold _filterAndSortObservations.
  destruct observations as [|o0 l]; [by intros ?%elem_of_nil|].
  destruct (slice0_prefix (maxObservationsPerEntity options)
              (JsArray.sort (λ a b, descending (obs_score a) (obs_score b))
                 (map (λ o, {| obs := o; obs_score := observation_score now keywords options o |})
                    (filter (λ o, (minConfidence options <= num_or (confidence o) 0)%Z)
                            (o0 :: l))))) as [k ->].
  intros Hso%(subseteq_take k)%sort_elem.
  apply list_elem_of_fmap in Hso as (o & -> & Ho). cbn [obs].
  by apply list_elem_of_filter in Ho as [? ?].
Qed.

Lemma filter_and_sort_length (now : Z) (observations : list Observation)
    (keywords : list string) (options : Options) :
  (0 <= maxObservationsPerEntity options)%Z →
  (Z.of_nat (length (_filterAndSortObservations now observations keywords options))
   <= maxObservationsPerEntity options)%Z.
Proof.
  intros Hmax. unfold _filterAndSortObservations.
  destruct observations; [simpl; lia|]. by apply slice0_length.
Qed.

(** C10.  Every entity that [retrieveByCategory] returns carries at most
    [maxObservationsPerEntity] observations (default 5, for a limit that
    is not negative); each of them has the requested category, belongs to
    the entity, and has a confidence of at least [minConfidence]
    (default 3), an absent confidence counting as 0: the list is the one
    that the filter of general retrieval gives for the observations of
    that category, not these observations reordered. *)
Theorem category_filters_and_truncates {G : Type} `{KnowledgeGraph G}
    (this : Options) (now : Z) (knowledgeGraph : G) (category : option string)
    (entityNames : list string) (options : Overrides) :
  (0 <= maxObservationsPerEntity (merge this options))%Z →
  (∀ r, r ∈ ByCategory.entities
              (retrieveByCategory this now knowledgeGraph category entityNames options) →
     (Z.of_nat (length (observations r))
      <= maxObservationsPerEntity (merge this options))%Z
     ∧ observations r
       = _filterAndSortObservations now (Entity.observations (of_entity r)) []
           (merge this options)
     ∧ ∀ so, so ∈ observations r →
         category_of (obs so) = category
         ∧ obs so ∈ Entity.observations (of_entity r)
         ∧ (minConfidence (merge this options) <= num_or (confidence (obs so)) 0)%Z
         ∧ ∀ c, confidence (obs so) = Some c →
                (minConfidence (merge this options) <= c)%Z)
  ∧ maxObservationsPerEntity default_options = 5%Z
  ∧ minConfidence default_options = 3%Z.
Proof.
  intros Hmax. split_and!; [|done|done].
  intros r. unfold retrieveByCategory, category_body.
  destruct (candidate_entities knowledgeGraph entityNames) as [entities|e];
    [|by intros ?%elem_of_nil].
  rewrite bind_Ok. cbn [ByCategory.entities].
  intros (e & -> & He)%list_elem_of_fmap. cbn [observations of_entity].
  split_and!; [by apply filter_and_sort_length | done |].
  intros so [Hin Hconf]%filter_and_sort_spec.
  apply restrict_observations_elem in He as (e0 & _ & _ & _ & Hobs).
  split_and!; [|done|done|].
  - rewrite Hobs in Hin. apply list_elem_of_filter in Hin as [Hcat _].
    by apply bool_decide_eq_true in Hcat.
  - intros c Hc. rewrite Hc in Hconf. unfold num_or in Hconf.
    destruct c; [done | done | done].
Qed.

(** C10 on the sample graph: of the two preferences of the user the one
    with confidence 2 is left out. *)
Lemma category_filters_and_truncates_witness :
  map (λ r, map (λ so, content (obs so)) (observations r))
      (ByCategory.entities
         (retrieveByCategory default_options 5000 sample_graph
            (Some "preference"%string) [] no_overrides))
  = [[Some "likes green tea"%string]]
  ∧ ∀ r, r ∈ ByCategory.entities
               (retrieveByCategory default_options 5000 sample_graph
                  (Some "preference"%string) [] no_overrides) →
      (Z.of_nat (length (observations r)) <= 5)%Z.
Proof.
  split; [reflexivity|].
  destruct (category_filters_and_truncates default_options 5000 sample_graph
              (Some "preference"%string) [] no_overrides) as (Hall & _); [done|].
  intros r Hr. by destruct (Hall r Hr) as [? _].
Defined.

(** ** Ranking *)

Lemma StronglySorted_weaken {A : Type} (R R' : A → A → Prop) (l : list A) :
  (∀ a b, a ∈ l → b ∈ l → R a b → R' a b) →
  StronglySorted R l → StronglySorted R' l.
Proof.
  induction l as [|x l IH]; intros Himpl Hs; [constructor|].
  apply StronglySorted_inv in Hs as [Hs Hx]. constructor.
  - apply IH; [|done]. intros a b Ha Hb. apply Himpl; by right.
  - apply Forall_forall. intros y Hy. apply Himpl; [by left | by right |].
    by apply (proj1 (Forall_forall _ _) Hx).
Qed.

Lemma StronglySorted_map {A B : Type} (f : A → B) (R : B → B → Prop) (l : list A) :
  StronglySorted (λ a b, R (f a) (f b)) l → StronglySorted R (map f l).
Proof.
  induction 1 as [|x l _ IH Hx]; simpl; constructor; [done|].
  apply Forall_forall. intros y (a & -> & Ha)%list_elem_of_fmap.
  by apply (proj1 (Forall_forall _ _) Hx).
Qed.

Section Descending.
Context {A : Type}.
Variable key : A → option Q.

#[local] Instance key_order_trans :
  Transitive (λ a b, (key_or_zero key b <= key_or_zero key a)%Q).
Proof. intros a b c Hab Hbc. by eapply Qle_trans. Qed.

Lemma descending_sorted (l : list A) :
  Forall (λ a, is_Some (key a)) l →
  StronglySorted (score_before key)
    (JsArray.sort (λ a b, descending (key a) (key b)) l).
Proof.
  intros Hsome.
  rewrite (sort_ext _ (λ a b, (key_or_zero key b ?= key_or_zero key a)%Q)).
  - apply (StronglySorted_weaken (λ a b, (key_or_zero key b <= key_or_zero key a)%Q)).
    + intros a b Ha%sort_elem Hb%sort_elem Hle.
      destruct (proj1 (Forall_forall _ _) Hsome a Ha) as [x Hx].
      destruct (proj1 (Forall_forall _ _) Hsome b Hb) as [y Hy].
      exists x, y. unfold key_or_zero in Hle. rewrite Hx, Hy in Hle. done.
    + apply sort_sorted; [apply _ | |].
      * intros x y Hgt. apply Qlt_le_weak. by apply Qgt_alt.
      * intros x y Hngt. by apply Qle_alt.
  - intros a b Ha Hb.
    destruct (proj1 (Forall_forall _ _) Hsome a Ha) as [x Hx].
    destruct (proj1 (Forall_forall _ _) Hsome b Hb) as [y Hy].
    unfold descending, key_or_zero. by rewrite Hx, Hy.
Qed.
End Descending.

Lemma slice0_sorted {A : Type} (R : A → A → Prop) (n : Z) (l : list A) :
  StronglySorted R l → StronglySorted R (JsArray.slice0 n l).
Proof.
  intros Hs. destruct (slice0_prefix n l) as [k ->]. by apply StronglySorted_take.
Qed.

Lemma score_relations_defined (this : Options) (now : Z) (relations : list Relation.t)
    (topEntities : list ScoredEntity) :
  Forall readable_time relations →
  Forall (λ sr, is_Some (relation_score sr))
         (_scoreRelations this now relations topEntities).
Proof.
  intros Hr. unfold _scoreRelations. apply Forall_forall.
  intros sr (r & -> & Hin)%list_elem_of_fmap. cbn [relation_score].
  pose proof (proj1 (Forall_forall _ _) Hr r Hin) as Hread. unfold readable_time in Hread.
  destruct (Relation.attributes r) as [a|]; [|eauto].
  specialize (Hread a eq_refl).
  destruct (Relation.time a); simpl; eauto. done.
Qed.

Section Relevant.
Variable stringify : Entity.t → string.
Context {G : Type} `{KnowledgeGraph G}.
Variable this : Options.
Variable now : Z.
Variable knowledgeGraph : G.

Lemma gathered_relations_readable (topEntities : list ScoredEntity) relations :
  (∀ name relations,
     getEntityRelations knowledgeGraph name = Ok relations →
     Forall readable_time relations) →
  foldM (λ relations e,
           getEntityRelations knowledgeGraph (Entity.name (entity e)) ≫= λ entityRelations,
           Ok (relations ++ entityRelations))
        topEntities [] = Ok relations →
  Forall readable_time relations.
Proof.
  intros readable.
  apply (foldM_invariant _ (Forall readable_time)); [|constructor].
  intros acc e acc' _ Hacc Hstep.
  destruct (getEntityRelations knowledgeGraph (Entity.name (entity e)))
    as [rs|err] eqn:Hrs; [|done].
  rewrite bind_Ok in Hstep. injection Hstep as <-.
  apply Forall_app. split; [done|]. by eapply readable.
Qed.

Lemma relevant_result (context : Context) (targetEntities : list string)
    (options : Overrides) (result : Relevant.t) :
  relevant_body stringify this now knowledgeGraph context targetEntities options
  = Ok result →
  ∃ scoredEntities scoredRelations,
    ((∀ name relations,
        getEntityRelations knowledgeGraph name = Ok relations →
        Forall readable_time relations) →
     Forall (λ sr, is_Some (relation_score sr)) scoredRelations)
    ∧ Relevant.entities result
      = map (λ e, mkRetrieved e
                    (_filterAndSortObservations now (Entity.observations (entity e))
                       (_extractKeywords context) (merge this options)))
          (JsArray.slice0 (maxEntities (merge this options))
             (JsArray.sort (λ a b, descending (Some (score a)) (Some (score b)))
                           scoredEntities))
    ∧ Relevant.relations result
      = JsArray.slice0 (maxRelations (merge this options))
          (JsArray.sort (λ a b, descending (relation_score a) (relation_score b))
                        scoredRelations).
Proof.
  unfold relevant_body. cbv zeta.
  match goal with
  | |- context [?m ≫= _] => destruct m as [entities|err]; [|done]
  end.
  rewrite bind_Ok.
  match goal with
  | |- context [foldM ?f ?l ?a ≫= _] => destruct (foldM f l a) as [relations|err] eqn:Hrel; [|done]
  end.
  rewrite bind_Ok. intros [= <-]. cbn [Relevant.entities Relevant.relations].
  eexists _, _. split_and!; [|reflexivity|reflexivity].
  intros readable.
  apply score_relations_defined. by eapply gathered_relations_readable.
Qed.
End Relevant.

(** C6.  The code on a graph with a relation whose time is not a date.
    The user of [unreadable_graph] has two relations, and the time of the
    first is a text that [Date] cannot read.  General retrieval for the
    user returns both, without an error, in the order of the graph: the
    score of the first is not a number, so that the comparator of the
    sort returns [NaN] for the pair, which the sort takes as zero; the two
    relations are equal for the sort, which is stable and leaves them
    where they are.  The relation whose score is one half comes after a
    relation whose score is no number: the list is not sorted by
    descending score, as the claim has it for every call. *)
Theorem unreadable_time_breaks_the_order :
  Relevant.error unreadable_answer = None
  ∧ map (λ sr, (Relation.relationType (relation sr), relation_score sr))
        (Relevant.relations unreadable_answer)
    = [("avoids"%string, None); ("likes"%string, Some (1 # 2)%Q)]
  ∧ descending None (Some (1 # 2)%Q) = Eq
  ∧ descending (Some (1 # 2)%Q) None = Eq
  ∧ ¬ StronglySorted (score_before relation_score) (Relevant.relations unreadable_answer).
Proof.
  split_and!; [reflexivity | reflexivity | reflexivity | reflexivity |].
  destruct (Relevant.relations unreadable_answer) as [|first rest] eqn:Hrelations;
    [discriminate Hrelations|].
  destruct rest as [|second rest]; [discriminate Hrelations|].
  assert (Hfirst : relation_score first = None).
  { vm_compute in Hrelations. by injection Hrelations as <- _. }
  intros Hsorted. apply StronglySorted_inv in Hsorted as [_ Hbefore].
  apply Forall_inv in Hbefore as (x & y & Hx & _). by rewrite Hfirst in Hx.
Qed.

(** The size and the order of the answer of general retrieval.  For
    limits [maxEntities] (default 10) and
    [maxRelations] (default 20) that are not negative and a recency
    window that is not zero, the result of [retrieveRelevantMemories] has
    at most [maxEntities] entities and at most [maxRelations] relations,
    and its entities are sorted by descending score; its relations are
    sorted by descending score when the time of every relation of the
    graph that has one is a date that [Date] can read, so that every
    score is a number. *)
Theorem relevant_is_bounded_and_sorted (stringify : Entity.t → string)
    {G : Type} `{KnowledgeGraph G} (this : Options) (now : Z) (knowledgeGraph : G)
    (context : Context) (targetEntities : list string) (options : Overrides) :
  (0 <= maxEntities (merge this options))%Z →
  (0 <= maxRelations (merge this options))%Z →
  ¬ (recencyWindow this == 0)%Q →
  let result :=
    retrieveRelevantMemories stringify this now knowledgeGraph context targetEntities
      options in
  (Z.of_nat (length (Relevant.entities result)) <= maxEntities (merge this options))%Z
  ∧ (Z.of_nat (length (Relevant.relations result)) <= maxRelations (merge this options))%Z
  ∧ StronglySorted (score_before entity_score) (Relevant.entities result)
  ∧ ((∀ name relations,
        getEntityRelations knowledgeGraph name = Ok relations →
        Forall readable_time relations) →
     StronglySorted (score_before relation_score) (Relevant.relations result))
  ∧ maxEntities default_options = 10%Z
  ∧ maxRelations default_options = 20%Z.
Proof.
  intros HmaxE HmaxR _ result. unfold result, retrieveRelevantMemories.
  destruct (relevant_body stringify this now knowledgeGraph context targetEntities options)
    as [r|err] eqn:Hbody.
  - destruct (relevant_result stringify this now knowledgeGraph _ _ _ _ Hbody)
      as (scoredEntities & scoredRelations & Hsome & -> & ->).
    split_and!; [| | | |done|done].
    + rewrite length_map. by apply slice0_length.
    + by apply slice0_length.
    + apply StronglySorted_map. apply slice0_sorted.
      apply (descending_sorted (λ e, Some (score e))).
      apply Forall_forall. eauto.
    + intros Hreadable. apply slice0_sorted. apply descending_sorted. by apply Hsome.
  - cbn [Relevant.entities Relevant.relations length].
    split_and!; [lia | lia | constructor | intros _; constructor | done | done].
Qed.

(** The answer of general retrieval on the sample graph, with the
    default options. *)
Lemma relevant_is_bounded_and_sorted_witness :
  let result :=
    retrieveRelevantMemories name_only default_options 5000 sample_graph
      (ContextString "user likes green tea") [] no_overrides in
  (Z.of_nat (length (Relevant.entities result)) <= 10)%Z
  ∧ (Z.of_nat (length (Relevant.relations result)) <= 20)%Z
  ∧ StronglySorted (score_before entity_score) (Relevant.entities result)
  ∧ StronglySorted (score_before relation_score) (Relevant.relations result)
  ∧ map (λ r, Entity.name (entity (of_entity r))) (Relevant.entities result)
    = ["user"; "tea"]%string.
Proof.
  destruct (relevant_is_bounded_and_sorted name_only default_options 5000 sample_graph
              (ContextString "user likes green tea") [] no_overrides)
    as (HE & HR & HsE & HsR & _).
  - done.
  - done.
  - intros Hzero. discriminate Hzero.
  - intros result. split_and!; [exact HE | exact HR | exact HsE | | reflexivity].
    apply HsR.
    intros name relations [= <-]. apply Forall_forall.
    intros r [_ Hr]%list_elem_of_filter a Ha.
    repeat (apply elem_of_cons in Hr as [->|Hr];
            [simpl in Ha; first [done | by injection Ha as <-]|]).
    by apply elem_of_nil in Hr.
Defined.

(** ** Failures *)

(** C9.  When the body of an operation raises an exception [e], the
    operation does not raise it: [compressObservations] and
    [temporalCompression] return the empty list, and the four retrieval
    operations return a result without entities and relations that
    carries the message of [e] in its [error] field.  This is the case,
    for instance, when the graph fails on the first entity that is
    asked for, or when it fails to export. *)
Theorem failures_are_contained (stringify : Entity.t → string)
    (toISOString : Z → Result string) (windowKey : Z → Z → Result string)
    {G : Type} `{KnowledgeGraph G}
    (engine : CompressionEngine.t) (service : Options) (now : Z) (knowledgeGraph : G)
    (e : Exn) (pending : list Pending.t)
    (historical : list CompressionEngine.Historical) (timeWindowDays : Z)
    (context : Context) (name : string) (entityNames : list string)
    (options : Overrides) (category : option string) (timeRange : ByTimeRange.Range) :
  (CompressionEngine.compress_body engine now pending = Throw e →
   CompressionEngine.compressObservations engine now pending = [])
  ∧ (CompressionEngine.temporal_body windowKey engine now historical timeWindowDays
     = Throw e →
     CompressionEngine.temporalCompression windowKey engine now historical timeWindowDays
     = [])
  ∧ (relevant_body stringify service now knowledgeGraph context entityNames options
     = Throw e →
     retrieveRelevantMemories stringify service now knowledgeGraph context entityNames
       options
     = {| Relevant.entities := []; Relevant.relations := [];
          Relevant.context := None; Relevant.error := Some (message_of e) |})
  ∧ (category_body service now knowledgeGraph category entityNames options = Throw e →
     retrieveByCategory service now knowledgeGraph category entityNames options
     = {| ByCategory.category := category; ByCategory.entities := [];
          ByCategory.error := Some (message_of e) |})
  ∧ (critical_body knowledgeGraph entityNames = Throw e →
     retrieveCriticalMemories knowledgeGraph entityNames
     = {| Critical.entities := []; Critical.relations := [];
          Critical.error := Some (message_of e) |})
  ∧ (time_range_body toISOString now knowledgeGraph timeRange entityNames = Throw e →
     retrieveByTimeRange toISOString now knowledgeGraph timeRange entityNames
     = {| ByTimeRange.timeRange := ByTimeRange.AsGiven timeRange;
          ByTimeRange.entities := []; ByTimeRange.relations := [];
          ByTimeRange.error := Some (message_of e) |})
  ∧ (getEntity knowledgeGraph name = Throw e →
     Relevant.error
       (retrieveRelevantMemories stringify service now knowledgeGraph context
          (name :: entityNames) options) = Some (message_of e)
     ∧ ByCategory.error
         (retrieveByCategory service now knowledgeGraph category (name :: entityNames)
            options) = Some (message_of e)
     ∧ Critical.error (retrieveCriticalMemories knowledgeGraph (name :: entityNames))
       = Some (message_of e)
     ∧ ByTimeRange.error
         (retrieveByTimeRange toISOString now knowledgeGraph timeRange
            (name :: entityNames)) = Some (message_of e))
  ∧ (exportGraph knowledgeGraph = Throw e →
     retrieveCriticalMemories knowledgeGraph []
     = {| Critical.entities := []; Critical.relations := [];
          Critical.error := Some (message_of e) |}).
Proof.
  split_and!.
  - intros Hbody. unfold CompressionEngine.compressObservations.
    destruct pending; [done|]. by rewrite Hbody.
  - intros Hbody. unfold CompressionEngine.temporalCompression.
    destruct historical; [done|]. by rewrite Hbody.
  - intros Hbody. unfold retrieveRelevantMemories. by rewrite Hbody.
  - intros Hbody. unfold retrieveByCategory. by rewrite Hbody.
  - intros Hbody. unfold retrieveCriticalMemories. by rewrite Hbody.
  - intros Hbody. unfold retrieveByTimeRange. by rewrite Hbody.
  - intros Hget.
    assert (Hfetch : fetch_entities knowledgeGraph (name :: entityNames) = Throw e).
    { unfold fetch_entities. rewrite foldM_cons, Hget. done. }
    split_and!.
    + unfold retrieveRelevantMemories, relevant_body. cbv zeta.
      cbn [length Nat.ltb Nat.leb]. by rewrite Hfetch.
    + unfold retrieveByCategory, category_body, candidate_entities.
      cbn [length Nat.ltb Nat.leb]. by rewrite Hfetch.
    + unfold retrieveCriticalMemories, critical_body, candidate_entities.
      cbn [length Nat.ltb Nat.leb]. by rewrite Hfetch.
    + unfold retrieveByTimeRange, time_range_body, candidate_entities. cbv zeta.
      cbn [length Nat.ltb Nat.leb]. by rewrite Hfetch.
  - intros Hexport. unfold retrieveCriticalMemories, critical_body, candidate_entities.
    cbn [length Nat.ltb Nat.leb]. by rewrite Hexport.
Qed.

(** C9 on a pending observation without content, on a historical
    observation without a readable date, and on a graph that does not
    answer. *)
Lemma failures_are_contained_witness :
  CompressionEngine.compressObservations example_engine 1000 silent_pending = []
  ∧ CompressionEngine.temporalCompression epoch_window example_engine 1000 undated 30 = []
  ∧ retrieveRelevantMemories name_only default_options 5000 broken_graph
      (ContextString "user likes green tea") [] no_overrides
    = {| Relevant.entities := []; Relevant.relations := [];
         Relevant.context := None; Relevant.error := Some "graph unavailable"%string |}
  ∧ retrieveByCategory default_options 5000 broken_graph (Some "goal"%string) []
      no_overrides
    = {| ByCategory.category := Some "goal"%string; ByCategory.entities := [];
         ByCategory.error := Some "graph unavailable"%string |}
  ∧ retrieveCriticalMemories broken_graph []
    = {| Critical.entities := []; Critical.relations := [];
         Critical.error := Some "graph unavailable"%string |}
  ∧ Critical.error (retrieveCriticalMemories broken_graph ["user"%string])
    = Some "graph unavailable"%string
  ∧ retrieveByTimeRange epoch_iso 5000 broken_graph
      (ByTimeRange.mkRange TsMissing TsMissing) []
    = {| ByTimeRange.timeRange :=
           ByTimeRange.AsGiven (ByTimeRange.mkRange TsMissing TsMissing);
         ByTimeRange.entities := []; ByTimeRange.relations := [];
         ByTimeRange.error := Some "graph unavailable"%string |}.
Proof.
  destruct (failures_are_contained name_only epoch_iso epoch_window example_engine
              default_options 1000 broken_graph TypeError silent_pending undated 30
              (ContextString "user likes green tea") "user" [] no_overrides
              (Some "goal"%string) (ByTimeRange.mkRange TsMissing TsMissing))
    as (Hcompress & _).
  destruct (failures_are_contained name_only epoch_iso epoch_window example_engine
              default_options 1000 broken_graph RangeError
              silent_pending undated 30 (ContextString "user likes green tea") "user" []
              no_overrides (Some "goal"%string) (ByTimeRange.mkRange TsMissing TsMissing))
    as (_ & Htemporal & _).
  destruct (failures_are_contained name_only epoch_iso epoch_window example_engine
              default_options 5000 broken_graph MemoryGraph.unavailable silent_pending
              undated 30 (ContextString "user likes green tea") "user" [] no_overrides
              (Some "goal"%string) (ByTimeRange.mkRange TsMissing TsMissing))
    as (_ & _ & Hrelevant & Hcategory & Hcritical & Hrange & Hfetch & _).
  split_and!.
  - by apply Hcompress.
  - by apply Htemporal.
  - by apply Hrelevant.
  - by apply Hcategory.
  - by apply Hcritical.
  - by destruct Hfetch as (_ & _ & ? & _).
  - by apply Hrange.
Defined.

(** ** The clusters as sets of positions *)

Section ClusterPositions.
Variable this : CompressionEngine.t.
Variable observations : list Observation.

Lemma at_positions_snoc cluster positions o k :
  at_positions observations cluster positions → observations !! k = Some o →
  at_positions observations (cluster ++ [o]) (positions ++ [k]).
Proof. intros Hc Ho. apply Forall2_app; [done|]. by repeat constructor. Qed.

Lemma sorted_snoc (positions : list nat) (k : nat) :
  StronglySorted lt positions → (∀ a, a ∈ positions → a < k) →
  StronglySorted lt (positions ++ [k]).
Proof.
  induction 1 as [|a l Hs IH Ha]; intros Hlt; simpl.
  - repeat constructor.
  - constructor.
    + apply IH. intros b Hb. apply Hlt. by right.
    + apply Forall_app. split; [done|]. constructor; [|constructor].
      apply Hlt. by left.
Qed.

(** The inner loop only adds positions that were not processed, in
    increasing order, and marks them as processed. *)
Lemma scan_positions (obsA : Observation) (js : list nat) :
  StronglySorted lt js →
  ∀ P cluster positions P' cluster',
    at_positions observations cluster positions →
    StronglySorted lt positions →
    (∀ a b, a ∈ positions → b ∈ js → a < b) →
    (∀ k, k ∈ positions → k ∈ P) →
    foldM (cluster_scan this observations obsA) js (P, cluster) = Ok (P', cluster') →
    ∃ positions',
      at_positions observations cluster' positions'
      ∧ StronglySorted lt positions'
      ∧ (∀ k, k ∈ positions' → k ∈ P')
      ∧ (∀ k, k ∈ positions' → k ∈ positions ∨ k ∉ P)
      ∧ P ⊆ P'.
Proof.
  induction 1 as [|j js Hs IH Hj]; intros P cluster positions P' cluster' Hat Hsorted Hlt HP Hrun.
  - simpl in Hrun. injection Hrun as <- <-. exists positions. split_and!; auto.
  - rewrite foldM_cons, cluster_scan_eq in Hrun.
    assert (Hlt' : ∀ a b, a ∈ positions → b ∈ js → a < b)
      by (intros a b Ha Hb; apply Hlt; [done | by right]).
    case_bool_decide as HjP.
    { rewrite bind_Ok in Hrun. by eapply IH. }
    destruct (observations !! j) as [obsB|] eqn:HB; [|done].
    change (defined (Some obsB)) with (Ok (A := Observation) obsB) in Hrun.
    rewrite bind_Ok in Hrun.
    destruct (_calculateSimilarity (content obsA) (content obsB)) as [similarity|e]; [|done].
    rewrite bind_Ok in Hrun.
    destruct (js_ge similarity (similarityThreshold (options this))).
    + rewrite bind_Ok in Hrun.
      destruct (IH ({[ j ]} ∪ P) (cluster ++ [obsB]) (positions ++ [j]) P' cluster')
        as (positions' & Hat' & Hsorted' & HP' & Hnew & Hsub); try done.
      * by apply at_positions_snoc.
      * apply sorted_snoc; [done|]. intros a Ha. apply Hlt; [done | by left].
      * intros a b [Ha| ->%list_elem_of_singleton]%elem_of_app Hb; [by apply Hlt'|].
        by apply (proj1 (Forall_forall _ _) Hj).
      * intros k [Hk| ->%list_elem_of_singleton]%elem_of_app.
        -- apply elem_of_union. right. by apply HP.
        -- apply elem_of_union. left. by apply elem_of_singleton.
      * exists positions'. split_and!; try done.
        -- intros k Hk. destruct (Hnew k Hk) as [[Hin| ->%list_elem_of_singleton]%elem_of_app|Hout].
           ++ by left.
           ++ by right.
           ++ right. intros HkP. apply Hout. apply elem_of_union. by right.
        -- intros k Hk. apply Hsub. apply elem_of_union. by right.
    + rewrite bind_Ok in Hrun. by eapply IH.
Qed.

Lemma seq_sorted (start len : nat) : StronglySorted lt (seq start len).
Proof.
  revert start. induction len as [|len IH]; intros start; simpl; constructor.
  - apply IH.
  - apply Forall_forall. intros k Hk%elem_of_seq. lia.
Qed.

Lemma open_positions st i st' :
  (∃ indices, positions_ok observations st indices) →
  cluster_open this observations st i = Ok st' →
  ∃ indices, positions_ok observations st' indices.
Proof.
  destruct st as [P clusters]. intros (indices & Hat & Hgood & Hnd & HP) Hopen.
  rewrite cluster_open_eq in Hopen. case_bool_decide as HiP.
  { injection Hopen as <-. by exists indices. }
  destruct (observations !! i) as [obsA|] eqn:HA; [|done].
  change (defined (Some obsA)) with (Ok (A := Observation) obsA) in Hopen.
  rewrite bind_Ok in Hopen.
  destruct (foldM (cluster_scan this observations obsA)
              (seq (i + 1) (length observations - (i + 1))) ({[ i ]} ∪ P, [obsA]))
    as [[P' cluster]|e] eqn:Hscan; [|done].
  rewrite bind_Ok in Hopen. injection Hopen as <-.
  destruct (scan_positions obsA (seq (i + 1) (length observations - (i + 1)))
              (seq_sorted _ _) ({[ i ]} ∪ P) [obsA] [i] P' cluster)
    as (positions & Hat' & Hsorted & HP' & Hnew & Hsub).
  { by repeat constructor. }
  { by repeat constructor. }
  { intros a b ->%list_elem_of_singleton Hb%elem_of_seq. lia. }
  { intros k ->%list_elem_of_singleton. apply elem_of_union. left.
    by apply elem_of_singleton. }
  { exact Hscan. }
  assert (Hold : ∀ k, k ∈ concat indices → k ∈ P').
  { intros k Hk. apply Hsub. apply elem_of_union. right. by apply HP. }
  destruct (Nat.ltb_spec 1 (length cluster)) as [Hlen|Hlen].
  - exists (indices ++ [positions]). unfold positions_ok. cbn [fst snd]. split_and!.
    + apply Forall2_app; [done|]. by repeat constructor.
    + apply Forall_app. split; [done|]. repeat constructor; [done|].
      by rewrite <- (Forall2_length _ _ _ Hat').
    + rewrite concat_app. simpl. rewrite app_nil_r. apply NoDup_app. split_and!.
      * done.
      * intros k Hk Hk'. destruct (Hnew k Hk') as [->%list_elem_of_singleton|Hout].
        -- by apply HiP, HP.
        -- apply Hout. apply elem_of_union. right. by apply HP.
      * clear -Hsorted. induction Hsorted as [|a l Hs IH Ha]; constructor; [|done].
        intros Hin. apply (proj1 (Forall_forall _ _) Ha) in Hin. lia.
    + intros k. rewrite concat_app. simpl. rewrite app_nil_r.
      intros [Hk|Hk]%elem_of_app; auto.
  - exists indices. unfold positions_ok. cbn [fst snd]. by split_and!.
Qed.

Lemma clusters_positions (clusters : list (list Observation)) :
  _clusterSimilarObservations this observations = Ok clusters →
  ∃ indices,
    Forall2 (at_positions observations) clusters indices
    ∧ Forall (λ positions, StronglySorted lt positions ∧ 2 ≤ length positions) indices
    ∧ NoDup (concat indices).
Proof.
  unfold _clusterSimilarObservations.
  destruct (foldM (cluster_open this observations) (seq 0 (length observations)) (∅, []))
    as [[P cl]|e] eqn:Hrun; [|done].
  rewrite bind_Ok. intros [= <-].
  destruct (foldM_invariant (cluster_open this observations)
              (λ st, ∃ indices, positions_ok observations st indices)
              (seq 0 (length observations))) with (acc := (∅ : gset nat, @nil (list Observation)))
              (r := (P, cl)) as (indices & Hat & Hgood & Hnd & _).
  - intros acc x acc' _. apply open_positions.
  - exists []. unfold positions_ok. simpl. split_and!; try constructor.
    by intros k ?%elem_of_nil.
  - exact Hrun.
  - by exists indices.
Qed.
End ClusterPositions.

Lemma at_positions_length observations cluster positions :
  at_positions observations cluster positions → length cluster = length positions.
Proof. apply Forall2_length. Qed.

Lemma at_positions_bound observations cluster positions k :
  at_positions observations cluster positions → k ∈ positions → k < length observations.
Proof.
  intros Hat Hk. apply (Forall2_flip) in Hat.
  destruct (proj1 (list_elem_of_lookup _ _) Hk) as [n Hn].
  destruct (Forall2_lookup_l _ _ _ _ _ Hat Hn) as (o & _ & Ho).
  by eapply lookup_lt_Some.
Qed.

Lemma concat_positions_length observations clusters indices :
  Forall2 (at_positions observations) clusters indices →
  length (concat clusters) = length (concat indices)
  ∧ ∀ k, k ∈ concat indices → k < length observations.
Proof.
  induction 1 as [|c p cs ps Hat _ [IHl IHb]]; simpl.
  - split; [done|]. by intros k ?%elem_of_nil.
  - rewrite !length_app, IHl, (at_positions_length _ _ _ Hat). split; [done|].
    intros k [Hk|Hk]%elem_of_app; [by eapply at_positions_bound | by apply IHb].
Qed.

Lemma clusters_total_length (this : CompressionEngine.t) (observations : list Observation)
    (clusters : list (list Observation)) :
  _clusterSimilarObservations this observations = Ok clusters →
  length (concat clusters) ≤ length observations.
Proof.
  intros (indices & Hat & _ & Hnd)%clusters_positions.
  destruct (concat_positions_length _ _ _ Hat) as [-> Hb].
  assert (Hsub : concat indices ⊆+ seq 0 (length observations)).
  { apply NoDup_submseteq; [done|]. intros k Hk. apply elem_of_seq.
    specialize (Hb k Hk). lia. }
  apply submseteq_length in Hsub. by rewrite length_seq in Hsub.
Qed.

(** X1.  The clusters are disjoint parts of the input.  Whenever the
    clusterer returns, every cluster holds the observations at an
    increasing series of at least two positions of the input, and no
    position belongs to two clusters; so the clusters have, all together,
    no more members than there are observations. *)
Theorem clusters_are_disjoint (this : CompressionEngine.t)
    (observations : list Observation) (clusters : list (list Observation)) :
  _clusterSimilarObservations this observations = Ok clusters →
  (∃ indices,
     Forall2 (at_positions observations) clusters indices
     ∧ Forall (λ positions, StronglySorted lt positions ∧ 2 ≤ length positions) indices
     ∧ NoDup (concat indices))
  ∧ length (concat clusters) ≤ length observations.
Proof.
  intros Hrun. split; [by eapply clusters_positions | by eapply clusters_total_length].
Qed.

(** X1 on the three observations of the chain: the only cluster holds the
    observations at the positions 0 and 1. *)
Lemma clusters_are_disjoint_witness :
  (∃ indices,
     Forall2 (at_positions [chain_a; chain_b; chain_c]) [[chain_a; chain_b]] indices
     ∧ Forall (λ positions, StronglySorted lt positions ∧ 2 ≤ length positions) indices
     ∧ NoDup (concat indices))
  ∧ length (concat [[chain_a; chain_b]]) ≤ 3.
Proof.
  apply (clusters_are_disjoint default_engine [chain_a; chain_b; chain_c]
           [[chain_a; chain_b]]).
  reflexivity.
Defined.

(** ** The most common word *)

Lemma occurrences_snoc_eq (w : string) (arr : list string) :
  occurrences w (arr ++ [w]) = S (occurrences w arr).
Proof.
  unfold occurrences. rewrite filter_app, length_app, filter_cons, decide_True by done.
  simpl. lia.
Qed.

Lemma occurrences_snoc_ne (w x : string) (arr : list string) :
  x ≠ w → occurrences w (arr ++ [x]) = occurrences w arr.
Proof.
  intros Hne. unfold occurrences.
  rewrite filter_app, length_app, filter_cons, decide_False by done. simpl. lia.
Qed.

Lemma occurrences_pos (w : string) (arr : list string) :
  0 < occurrences w arr ↔ w ∈ arr.
Proof.
  unfold occurrences. split.
  - intros Hpos. destruct (filter (λ x, x = w) arr) as [|y l] eqn:Hf; [simpl in Hpos; lia|].
    assert (Hy : y ∈ filter (λ x, x = w) arr) by (rewrite Hf; by left).
    by apply list_elem_of_filter in Hy as [-> ?].
  - intros Hin. apply elem_length_pos with (x := w). by apply list_elem_of_filter.
Qed.

Lemma set_nodup {V : Type} (o : JsObject.t V) (k : string) (v : V) :
  NoDup (map fst o) → NoDup (map fst (JsObject.set o k v)).
Proof.
  intros Hnd. rewrite set_keys. destruct (JsObject.get o k) eqn:Hget; [done|].
  apply NoDup_app. split_and!; [done| |apply NoDup_singleton].
  intros x Hx ->%list_elem_of_singleton. by apply get_None_keys in Hget.
Qed.

Lemma count_item_counted (counts : JsObject.t JsObject.Count) (arr : list string)
    (item : string) :
  counted counts arr → counted (JsObject.count_item counts item) (arr ++ [item]).
Proof.
  intros [Hnd Hget]. unfold JsObject.count_item.
  pose proof (Hget item) as Hitem.
  assert (Hother : ∀ w, w ∉ JsObject.inherited → item ∈ JsObject.inherited →
                        occurrences w (arr ++ [item]) = occurrences w arr).
  { intros w Hw Hi. apply occurrences_snoc_ne. by intros ->. }
  destruct (decide (item ∈ JsObject.inherited)) as [Hin|Hout].
  - (* an inherited name never gets a count *)
    assert (Hkeep : counted counts (arr ++ [item])).
    { split; [done|]. intros w. specialize (Hget w).
      destruct (decide (w ∈ JsObject.inherited)); [done|]. by rewrite Hother. }
    destruct Hitem as [-> | ->]; [|done].
    rewrite bool_decide_eq_true_2 by done.
    destruct (String.eqb item "__proto__"); [done|].
    split; [by apply set_nodup|]. intros w. specialize (Hget w).
    destruct (decide (w = item)) as [->|Hne].
    + rewrite decide_True by done. right. apply get_set_eq.
    + rewrite get_set_ne by done.
      destruct (decide (w ∈ JsObject.inherited)); [done|]. by rewrite Hother.
  - assert (Hset : ∀ n, occurrences item arr = n →
                        counted (JsObject.set counts item (JsObject.Times (n + 1)))
                                (arr ++ [item])).
    { intros n Hn. split; [by apply set_nodup|]. intros w. specialize (Hget w).
      destruct (decide (w = item)) as [Heq|Hne].
      - subst w. rewrite decide_False by done.
        rewrite get_set_eq, occurrences_snoc_eq, Hn.
        by replace (n + 1) with (S n) by lia.
      - rewrite get_set_ne by done.
        destruct (decide (w ∈ JsObject.inherited)); [done|].
        by rewrite occurrences_snoc_ne. }
    rewrite Hitem. destruct (occurrences item arr) as [|n] eqn:Hocc.
    + rewrite bool_decide_eq_false_2 by done. by apply (Hset 0).
    + by apply (Hset (S n)).
Qed.

Lemma counts_counted (arr pre : list string) (counts : JsObject.t JsObject.Count) :
  counted counts pre → counted (fold_left JsObject.count_item arr counts) (pre ++ arr).
Proof.
  revert pre counts. induction arr as [|x arr IH]; intros pre counts Hc; simpl.
  - by rewrite app_nil_r.
  - replace (pre ++ x :: arr) with ((pre ++ [x]) ++ arr) by (by rewrite <- app_assoc).
    by apply IH, count_item_counted.
Qed.

Lemma counted_nil : counted [] [].
Proof.
  split; [constructor|]. intros w. destruct (decide (w ∈ JsObject.inherited)); [by left | done].
Qed.

Lemma insert_index_perm {V : Type} (n : N) (kv : string * V) l :
  JsObject.insert_index n kv l ≡ₚ (n, kv) :: l.
Proof.
  induction l as [|[m kv'] l IH]; simpl; [done|].
  destruct (n <? m)%N; [done|]. rewrite IH. apply perm_swap.
Qed.

(** [Object.entries] lists every property once. *)
Lemma entries_perm {V : Type} (o : JsObject.t V) : JsObject.entries o ≡ₚ o.
Proof.
  unfold JsObject.entries, JsObject.named_entries.
  induction o as [|[k v] o IH]; [done|].
  rewrite filter_cons. cbn [JsObject.index_entries fst].
  destruct (JsObject.array_index k) as [n|] eqn:Hk.
  - rewrite decide_False by done. rewrite insert_index_perm. simpl. by rewrite IH.
  - rewrite decide_True by done. rewrite <- Permutation_middle. by rewrite IH.
Qed.

Lemma get_Some_elem {V : Type} (o : JsObject.t V) (k : string) (v : V) :
  JsObject.get o k = Some v → (k, v) ∈ o.
Proof.
  induction o as [|[k0 v0] o IH]; simpl; [done|].
  destruct (String.eqb k0 k) eqn:Hk.
  - apply String.eqb_eq in Hk as ->. intros [= ->]. by left.
  - intros Hget. right. by apply IH.
Qed.

(** The second loop of [_getMostCommon]: the best entry seen so far. *)
Lemma most_step_spec (entries : list (string * JsObject.Count)) (best : nat * option string) :
  let result := fold_left most_step entries best in
  fst best ≤ fst result
  ∧ (∀ w n, (w, JsObject.Times n) ∈ entries → n ≤ fst result)
  ∧ (result = best ∨ ∃ w, snd result = Some w ∧ (w, JsObject.Times (fst result)) ∈ entries).
Proof.
  revert best. induction entries as [|[w c] entries IH]; intros best; simpl.
  - split_and!; [done | by intros w n ?%elem_of_nil | by left].
  - destruct (IH (most_step best (w, c))) as (Hle & Hmax & Hres).
    set (result := fold_left most_step entries (most_step best (w, c))) in *.
    assert (Hstep : fst best ≤ fst (most_step best (w, c))
                    ∧ (∀ n, c = JsObject.Times n → n ≤ fst (most_step best (w, c)))
                    ∧ (most_step best (w, c) = best
                       ∨ most_step best (w, c) = (match c with
                                                  | JsObject.Times n => n
                                                  | _ => 0 end, Some w)
                         ∧ ∃ n, c = JsObject.Times n)).
    { unfold most_step. cbn [fst snd]. destruct c as [n|].
      - destruct (Nat.ltb_spec (fst best) n); cbn [fst snd].
        + split_and!; [lia | intros m Hm; injection Hm as <-; lia | right; eauto].
        + split_and!; [done | intros m Hm; injection Hm as <-; lia | by left].
      - split_and!; [done | done | by left]. }
    destruct Hstep as (Hb & Hc & Hs). split_and!.
    + lia.
    + intros v n [[= -> <-]|Hin]%elem_of_cons.
      * specialize (Hc n eq_refl). lia.
      * by apply (Hmax v).
    + destruct Hres as [Hres|(v & Hv & Hin)].
      * destruct Hs as [Hs|[Hs [n ->]]].
        -- left. by rewrite Hres.
        -- right. exists w. rewrite Hres, Hs. simpl. split; [done | by left].
      * right. exists v. split; [done | by right].
Qed.

(** X2.  [_getMostCommon] returns a word of the list that occurs at least
    as often as every other word, the names that every object inherits
    from [Object.prototype] left aside: such a name is never counted and
    never returned.  It returns [null] exactly when the list holds
    nothing but such names, in particular when it is empty. *)
Theorem most_common_is_most_frequent (arr : list string) :
  match _getMostCommon arr with
  | Some w =>
      w ∈ arr ∧ (w ∉ JsObject.inherited)
      ∧ (∀ v, v ∈ arr → v ∉ JsObject.inherited → occurrences v arr ≤ occurrences w arr)
  | None => (∀ v, v ∈ arr → v ∈ JsObject.inherited)
  end.
Proof.
  destruct arr as [|x arr]; [by intros v ?%elem_of_nil|].
  unfold _getMostCommon.
  destruct (counts_counted (x :: arr) [] [] counted_nil) as [Hnd Hget]. simpl app in Hget.
  set (counts := fold_left JsObject.count_item (x :: arr) []) in *.
  destruct (most_step_spec (JsObject.entries counts) (0, None)) as (_ & Hmax & Hres).
  set (result := fold_left most_step (JsObject.entries counts) (0, None)) in *.
  assert (Hplain : ∀ v, v ∈ x :: arr → v ∉ JsObject.inherited →
                        (v, JsObject.Times (occurrences v (x :: arr))) ∈ JsObject.entries counts
                        ∧ 0 < occurrences v (x :: arr)).
  { intros v Hv Hout. specialize (Hget v). rewrite decide_False in Hget by done.
    apply occurrences_pos in Hv. destruct (occurrences v (x :: arr)) as [|n]; [lia|].
    split; [|lia]. rewrite entries_perm. by apply get_Some_elem. }
  destruct Hres as [Hres|(w & Hw & Hin)].
  - rewrite Hres. simpl. intros v Hv. destruct (decide (v ∈ JsObject.inherited)); [done|].
    destruct (Hplain v Hv) as [Hin Hpos]; [done|].
    apply Hmax in Hin. rewrite Hres in Hin. simpl in Hin. lia.
  - rewrite Hw. rewrite entries_perm in Hin. apply get_elem in Hin; [|done].
    pose proof (Hget w) as Hgw. rewrite Hin in Hgw.
    destruct (decide (w ∈ JsObject.inherited)) as [Hi|Ho]; [by destruct Hgw|].
    destruct (occurrences w (x :: arr)) as [|n] eqn:Hocc; [done|].
    injection Hgw as Hc. split_and!.
    + apply occurrences_pos. lia.
    + done.
    + intros v Hv Hout. destruct (Hplain v Hv Hout) as [Hvin _].
      apply Hmax in Hvin. lia.
Qed.

(** ** The parts of a summary *)

Lemma most_common_member (arr : list string) (w : string) :
  _getMostCommon arr = Some w → w ∈ arr.
Proof.
  destruct arr as [|x arr]; [done|]. unfold _getMostCommon.
  destruct (counts_counted (x :: arr) [] [] counted_nil) as [Hnd Hget]. simpl app in Hget.
  set (counts := fold_left JsObject.count_item (x :: arr) []) in *.
  destruct (most_step_spec (JsObject.entries counts) (0, None)) as (_ & _ & Hres).
  intros Hw. destruct Hres as [Hres|(v & Hv & Hin)]; [by rewrite Hres in Hw|].
  rewrite Hw in Hv. injection Hv as <-.
  apply entries_elem, get_elem in Hin; [|done].
  specialize (Hget w). rewrite Hin in Hget.
  destruct (decide (w ∈ JsObject.inherited)); [by destruct Hget|].
  apply occurrences_pos. destruct (occurrences w (x :: arr)); [done | lia].
Qed.

Lemma push_if_long_elem (l : list string) (w : option string) (v : string) :
  v ∈ push_if_long l w → v ∈ l ∨ (w = Some v ∧ 3 < String.length v).
Proof.
  unfold push_if_long, long_word. destruct w as [w|]; [|by left].
  destruct (Nat.ltb_spec 3 (String.length w)); [|by left].
  intros [Hv| ->%list_elem_of_singleton]%elem_of_app; [by left | by right].
Qed.

Lemma summary_words (cluster : list Observation) subjects actions objects :
  foldM summary_step cluster ([], [], []) = Ok (subjects, actions, objects) →
  Forall (word_at cluster [0]) subjects
  ∧ Forall (word_at cluster [1]) actions
  ∧ Forall (word_at cluster [2; 3; 4]) objects.
Proof.
  intros Hrun.
  apply (foldM_invariant summary_step
           (λ acc, Forall (word_at cluster [0]) (acc.1.1)
                   ∧ Forall (word_at cluster [1]) (acc.1.2)
                   ∧ Forall (word_at cluster [2; 3; 4]) (acc.2)) cluster)
    with (acc := ([], [], [])) (r := (subjects, actions, objects)); [| done | done].
  intros [[ss as_] os] o acc' Ho (Hs & Ha & Hob) Hstep. unfold summary_step in Hstep.
  destruct (content o) as [text|] eqn:Htext; [|done].
  change (defined (Some text)) with (Ok (A := string) text) in Hstep. rewrite bind_Ok in Hstep.
  destruct (Nat.ltb_spec 2 (length (Str.words text))) as [Hlen|Hlen];
    [|by injection Hstep as <-].
  injection Hstep as <-. cbv beta iota delta [fst snd] in *.
  assert (Hword : ∀ i positions w, i ∈ positions → Str.words text !! i = Some w →
                    3 < String.length w → word_at cluster positions w).
  { intros i positions w Hi Hw Hl. by exists o, text, i. }
  split_and!.
  - apply Forall_forall. intros v [Hv|[Hv Hl]]%push_if_long_elem.
    + by apply (proj1 (Forall_forall _ _) Hs).
    + apply (Hword 0); [by left | done | done].
  - apply Forall_forall. intros v [Hv|[Hv Hl]]%push_if_long_elem.
    + by apply (proj1 (Forall_forall _ _) Ha).
    + apply (Hword 1); [by left | done | done].
  - apply (fold_left_invariant
             (λ objs i, push_if_long objs (Str.words text !! i))
             (Forall (word_at cluster [2; 3; 4]))); [|done].
    intros acc i Hi%elem_of_seq Hacc. apply Forall_forall.
    intros v [Hv|[Hv Hl]]%push_if_long_elem.
    + by apply (proj1 (Forall_forall _ _) Hacc).
    + apply (Hword i); [|done|done].
      assert (i = 2 ∨ i = 3 ∨ i = 4) as [->|[->| ->]].
      { change (2 ≤ i < 2 + (Nat.min 5 (length (Str.words text)) - 2)) in Hi. lia. }
      * by left.
      * right. by left.
      * right. right. by left.
Qed.

Lemma main_part (cluster : list Observation) (positions : list nat)
    (words : list string) (placeholder : string) :
  Forall (word_at cluster positions) words →
  str_or (_getMostCommon words) placeholder = placeholder
  ∨ word_at cluster positions (str_or (_getMostCommon words) placeholder).
Proof.
  intros Hwords. destruct (_getMostCommon words) as [w|] eqn:Hw; [|by left].
  apply most_common_member in Hw.
  destruct w as [|c w]; [by left|]. right. simpl.
  by apply (proj1 (Forall_forall _ _) Hwords).
Qed.

(** X3.  The summary of a cluster is made of three parts separated by
    spaces, followed by [" (observed n times)"] when the cluster has more
    than one member.  The first part is the placeholder ["Subject"] or the
    first word of a member, the second is ["performed action"] or the
    second word of a member, the third is ["object"] or a word among the
    third, fourth and fifth of a member; such a word has more than three
    characters and its member has more than two words.  So a cluster
    whose members all have at most two words is summarized by the three
    placeholders. *)
Theorem summary_is_made_of_member_words (cluster : list Observation) (summary : string) :
  _generateSummary cluster = Ok summary →
  ∃ subject action object,
    summary
    = (if 1 <? length cluster
       then ((subject ++ " " ++ action ++ " " ++ object)
               ++ " (observed " ++ Str.of_nat (length cluster) ++ " times)")%string
       else (subject ++ " " ++ action ++ " " ++ object)%string)
    ∧ (subject = "Subject"%string ∨ word_at cluster [0] subject)
    ∧ (action = "performed action"%string ∨ word_at cluster [1] action)
    ∧ (object = "object"%string ∨ word_at cluster [2; 3; 4] object)
    ∧ (Forall (λ o, ∀ text, content o = Some text → length (Str.words text) ≤ 2) cluster →
       subject = "Subject"%string ∧ action = "performed action"%string
       ∧ object = "object"%string).
Proof.
  unfold _generateSummary.
  destruct (foldM summary_step cluster ([], [], [])) as [[[subjects actions] objects]|e] eqn:Hrun;
    [|done].
  rewrite bind_Ok. intros [= <-].
  destruct (summary_words cluster _ _ _ Hrun) as (Hs & Ha & Ho).
  pose proof (main_part cluster [0] subjects "Subject" Hs) as Hsubject.
  pose proof (main_part cluster [1] actions "performed action" Ha) as Haction.
  pose proof (main_part cluster [2; 3; 4] objects "object" Ho) as Hobject.
  exists (str_or (_getMostCommon subjects) "Subject"),
         (str_or (_getMostCommon actions) "performed action"),
         (str_or (_getMostCommon objects) "object").
  split_and!; [done | done | done | done |].
  intros Hshort.
  assert (Hnone : ∀ positions w, ¬ word_at cluster positions w).
  { intros positions w (o & text & i & Hin & Htext & Hlen & _).
    pose proof (proj1 (Forall_forall _ _) Hshort o Hin text Htext). lia. }
  split_and!.
  - destruct Hsubject as [?|?%Hnone]; done.
  - destruct Haction as [?|?%Hnone]; done.
  - destruct Hobject as [?|?%Hnone]; done.
Qed.

(** X3 at two members of four words. *)
Lemma summary_is_made_of_member_words_witness :
  ∃ subject action object,
    "Alice likes black (observed 2 times)"%string
    = ((subject ++ " " ++ action ++ " " ++ object)
         ++ " (observed " ++ Str.of_nat 2 ++ " times)")%string
    ∧ (subject = "Subject"%string ∨ word_at [half_b; half_a] [0] subject)
    ∧ (action = "performed action"%string ∨ word_at [half_b; half_a] [1] action)
    ∧ (object = "object"%string ∨ word_at [half_b; half_a] [2; 3; 4] object).
Proof.
  destruct (summary_is_made_of_member_words [half_b; half_a]
              "Alice likes black (observed 2 times)" eq_refl)
    as (subject & action & object & Hsummary & Hs & Ha & Ho & _).
  by exists subject, action, object.
Defined.

(** ** Observations without a content *)

Section MissingContent.
Variable this : CompressionEngine.t.
Variable observations : list Observation.

(** The inner loop fails when the seed has no content and there is a
    position to scan, or when it reaches an observation without
    content. *)
Lemma scan_fails (obsA : Observation) (js : list nat) :
  NoDup js → (∀ j, j ∈ js → j < length observations) →
  ∀ P cluster,
    (∀ j, j ∈ js → j ∉ P) →
    (content obsA = None ∧ js ≠ [])
    ∨ (∃ j o, j ∈ js ∧ observations !! j = Some o ∧ content o = None) →
    foldM (cluster_scan this observations obsA) js (P, cluster) = Throw TypeError.
Proof.
  induction js as [|j js IH]; intros Hnd Hlt P cluster HP Hbad.
  { destruct Hbad as [[_ ?]|(j & o & ?%elem_of_nil & _)]; done. }
  apply NoDup_cons in Hnd as [Hj Hnd].
  rewrite foldM_cons, cluster_scan_eq.
  rewrite bool_decide_eq_false_2 by (apply HP; by left).
  destruct (lookup_lt_is_Some_2 observations j) as [obsB HB]; [apply Hlt; by left|].
  rewrite HB. change (defined (Some obsB)) with (Ok (A := Observation) obsB).
  rewrite bind_Ok. unfold _calculateSimilarity.
  destruct (content obsA) as [a|] eqn:HA; [|done].
  destruct (content obsB) as [b|] eqn:HBc; [|done].
  change (defined (Some a)) with (Ok (A := string) a).
  change (defined (Some b)) with (Ok (A := string) b). rewrite !bind_Ok.
  assert (Hrest : ∃ j' o, j' ∈ js ∧ observations !! j' = Some o ∧ content o = None).
  { destruct Hbad as [[? _]|(j' & o & [->|Hin]%elem_of_cons & Ho & Hc)]; [done| |by eauto].
    rewrite HB in Ho. injection Ho as <-. congruence. }
  assert (Hlt' : ∀ j0, j0 ∈ js → j0 < length observations)
    by (intros j0 Hj0; apply Hlt; by right).
  destruct (js_ge (similarity_of_strings a b) (similarityThreshold (options this)));
    rewrite bind_Ok.
  - apply IH; [done | done | | by right].
    intros j0 Hj0 [->%elem_of_singleton|Hin]%elem_of_union; [done|].
    apply (HP j0); [by right | done].
  - apply IH; [done | done | | by right].
    intros j0 Hj0. apply HP. by right.
Qed.

Lemma clusterer_fails :
  2 ≤ length observations → Exists (λ o, content o = None) observations →
  _clusterSimilarObservations this observations = Throw TypeError.
Proof.
  intros Hlen Hbad. unfold _clusterSimilarObservations.
  destruct observations as [|obsA rest] eqn:Hobs; [simpl in Hlen; lia|].
  rewrite <- Hobs in *. replace (length observations) with (S (length rest)) in *
    by (by rewrite Hobs).
  cbn [seq]. rewrite foldM_cons, cluster_open_eq.
  rewrite bool_decide_eq_false_2 by apply not_elem_of_empty.
  assert (H0 : observations !! 0 = Some obsA) by (by rewrite Hobs).
  rewrite H0. change (defined (Some obsA)) with (Ok (A := Observation) obsA).
  rewrite bind_Ok.
  replace (length observations) with (S (length rest)) by (by rewrite Hobs).
  rewrite scan_fails; [done | apply NoDup_seq | | |].
  - intros j Hj%elem_of_seq. rewrite Hobs. simpl. lia.
  - intros j Hj%elem_of_seq [->%elem_of_singleton|?%elem_of_empty]%elem_of_union; [lia|done].
  - destruct (content obsA) as [a|] eqn:HA.
    + right. apply Exists_exists in Hbad as (o & Hin & Hc).
      apply list_elem_of_lookup in Hin as [j Hj].
      exists j, o. split_and!; [|done|done].
      apply elem_of_seq. pose proof (lookup_lt_Some _ _ _ Hj) as Hlt.
      rewrite Hobs in Hlt. simpl in Hlt.
      destruct j as [|j]; [|lia]. rewrite H0 in Hj. injection Hj as <-. congruence.
    + left. split; [done|]. destruct rest; [simpl in Hlen; lia | done].
Qed.
End MissingContent.

(** X4.  The clusterer raises a [TypeError] exactly when it is given at
    least two observations of which one has no content; in every other
    case it returns clusters. *)
Theorem clusterer_needs_contents (this : CompressionEngine.t)
    (observations : list Observation) :
  (2 ≤ length observations ∧ Exists (λ o, content o = None) observations →
   _clusterSimilarObservations this observations = Throw TypeError)
  ∧ (¬ (2 ≤ length observations ∧ Exists (λ o, content o = None) observations) →
     ∃ clusters, _clusterSimilarObservations this observations = Ok clusters).
Proof.
  split.
  - intros [Hlen Hbad]. by apply clusterer_fails.
  - intros Hgood. destruct (decide (2 ≤ length observations)) as [Hlen|Hshort].
    + exists (greedy_clusters this observations). apply cluster_refines_greedy.
      apply Forall_forall. intros o Ho. destruct (content o) eqn:Hc; [done|].
      destruct Hgood. split; [done|]. apply Exists_exists. exists o.
      by split.
    + destruct observations as [|o [|o' rest]]; [by exists [] | by exists [] |].
      simpl in Hshort. lia.
Qed.

(** X4 at a pair whose second observation has no content. *)
Lemma clusterer_needs_contents_witness :
  _clusterSimilarObservations default_engine silent_pair = Throw TypeError.
Proof.
  apply (clusterer_needs_contents default_engine silent_pair).
  split; [simpl; lia|]. apply Exists_cons_tl, Exists_cons_hd. reflexivity.
Defined.

(** ** What compression keeps of its input *)

(** The compressed observation of a cluster, whenever there is one. *)
Lemma compress_cluster_inv (cluster : list Observation) (entityName category : string)
    (out : Compressed.t) :
  _compressCluster cluster entityName category = Some out →
  ∃ first rest summary,
    JsArray.sort newest_first cluster = first :: rest
    ∧ _generateSummary (first :: rest) = Ok summary
    ∧ out = {| Compressed.content := summary;
               Compressed.source_observations := map content (first :: rest);
               Compressed.confidence :=
                 round (inject_Z (sum_confidence (first :: rest))
                        / inject_Z (Z.of_nat (length (first :: rest))));
               Compressed.category := category;
               Compressed.timestamp := timestamp first;
               Compressed.is_critical := existsb is_critical (first :: rest);
               Compressed.time_window := None |}.
Proof.
  unfold _compressCluster, compress_cluster_body. cbv zeta.
  destruct (JsArray.sort newest_first cluster) as [|first rest] eqn:Hsort; [done|].
  change (defined (head (first :: rest))) with (Ok (A := Observation) first).
  rewrite bind_Ok.
  destruct (_generateSummary (first :: rest)) as [summary|e] eqn:Hsum; [|done].
  rewrite bind_Ok. intros [= <-]. by exists first, rest, summary.
Qed.

Lemma compress_cluster_sources (cluster : list Observation) (entityName category : string)
    (out : Compressed.t) :
  _compressCluster cluster entityName category = Some out →
  length (Compressed.source_observations out) = length cluster.
Proof.
  intros (first & rest & summary & Hsort & _ & ->)%compress_cluster_inv.
  cbn [Compressed.source_observations]. rewrite length_map, <- Hsort. apply sort_length.
Qed.

Lemma group_total_set (groups : list (string * Group.t)) (key : string) (g : Group.t) :
  group_total (JsObject.set groups key g)
  + match JsObject.get groups key with
    | Some g0 => length (Group.observations g0)
    | None => 0
    end
  = group_total groups + length (Group.observations g).
Proof.
  unfold group_total. induction groups as [|[k0 g0] groups IH]; simpl; [lia|].
  destruct (String.eqb k0 key); simpl; lia.
Qed.

Lemma groups_total (this : CompressionEngine.t) (now : Z) (pending : list Pending.t) :
  group_total (_groupObservations this now pending) ≤ length pending.
Proof.
  unfold _groupObservations.
  assert (Hgen : ∀ groups, group_total (fold_left (group_step this now) pending groups)
                           ≤ group_total groups + length pending).
  { induction pending as [|item pending IH]; intros groups; simpl; [lia|].
    etrans; [apply IH|].
    destruct (eligible this now (Pending.observation item)) eqn:He.
    - destruct (group_step_keep this now groups item He) as (g & -> & Hg).
      pose proof (group_total_set groups (groupKey item) g) as Hset.
      rewrite Hg, length_app in Hset. simpl in Hset.
      destruct (JsObject.get groups (groupKey item)); simpl in Hset; lia.
    - rewrite group_step_skip by done. lia. }
  apply (Hgen []).
Qed.

Lemma source_total_app (a b : list Compressed.t) :
  source_total (a ++ b) = source_total a + source_total b.
Proof. apply sum_list_with_app. Qed.

Section Shrinking.
Variable this : CompressionEngine.t.

(** One group: every cluster gives at most one compressed observation,
    with as many sources as the cluster has members, which are at least
    two. *)
Lemma compress_step_total (g : Group.t) (clusters : list (list Observation)) :
  Forall (λ c, 2 ≤ length c) clusters →
  ∀ acc,
    ∃ outs,
      fold_left (compress_step this g) clusters acc = acc ++ outs
      ∧ source_total outs ≤ length (concat clusters)
      ∧ Forall (λ out, 2 ≤ length (Compressed.source_observations out)) outs.
Proof.
  induction 1 as [|c clusters Hc _ IH]; intros acc.
  - exists []. by rewrite app_nil_r.
  - simpl. unfold compress_step at 2.
    destruct (compressionThreshold this <=? Z.of_nat (length c))%Z;
      [destruct (_compressCluster c (Group.entityName g) (Group.category g))
         as [out|] eqn:Hout|].
    + destruct (IH (acc ++ [out])) as (outs & -> & Htotal & Hsizes).
      exists (out :: outs). rewrite <- app_assoc. split; [done|].
      pose proof (compress_cluster_sources _ _ _ _ Hout) as Hlen.
      split; [|constructor; [lia | done]].
      rewrite length_app. unfold source_total in *. simpl. lia.
    + destruct (IH acc) as (outs & -> & Htotal & Hsizes).
      exists outs. rewrite length_app. split_and!; [done | lia | done].
    + destruct (IH acc) as (outs & -> & Htotal & Hsizes).
      exists outs. rewrite length_app. split_and!; [done | lia | done].
Qed.

Lemma clusters_sizes (observations : list Observation) clusters :
  _clusterSimilarObservations this observations = Ok clusters →
  Forall (λ c, 2 ≤ length c) clusters.
Proof.
  intros Hcl%clusters_are_seeded. eapply Forall_impl; [exact Hcl|].
  by intros c (seed & members & _ & Hlen & _).
Qed.

Lemma compress_groups_total (entries : list (string * Group.t)) :
  ∀ acc results,
    foldM (compress_group this) entries acc = Ok results →
    ∃ outs,
      results = acc ++ outs
      ∧ source_total outs ≤ group_total entries
      ∧ Forall (λ out, 2 ≤ length (Compressed.source_observations out)) outs.
Proof.
  induction entries as [|[key g] entries IH]; intros acc results Hrun.
  - injection Hrun as <-. exists []. by rewrite app_nil_r.
  - rewrite foldM_cons, compress_group_eq in Hrun.
    unfold group_total. cbn [sum_list_with snd]. fold (group_total entries).
    destruct (Z.of_nat (length (Group.observations g)) <? compressionThreshold this)%Z.
    + rewrite bind_Ok in Hrun. apply IH in Hrun as (outs & -> & Htotal & Hsizes).
      exists outs. split_and!; [done | lia | done].
    + destruct (_clusterSimilarObservations this (Group.observations g))
        as [clusters|e] eqn:Hcl; [|done].
      rewrite !bind_Ok in Hrun.
      destruct (compress_step_total g clusters (clusters_sizes _ _ Hcl) acc)
        as (outs1 & Hstep & Htotal1 & Hsizes1).
      rewrite Hstep in Hrun. apply IH in Hrun as (outs2 & -> & Htotal2 & Hsizes2).
      exists (outs1 ++ outs2). rewrite <- app_assoc. split; [done|].
      pose proof (clusters_total_length this _ _ Hcl).
      split; [|by apply Forall_app].
      rewrite source_total_app. lia.
Qed.
End Shrinking.

Lemma group_total_perm (a b : list (string * Group.t)) :
  a ≡ₚ b → group_total a = group_total b.
Proof.
  unfold group_total. induction 1; simpl; lia.
Qed.

Lemma source_total_sizes (outs : list Compressed.t) :
  Forall (λ out, 2 ≤ length (Compressed.source_observations out)) outs →
  2 * length outs ≤ source_total outs.
Proof. unfold source_total. induction 1; simpl; lia. Qed.

(** X5.  Compression never uses a pending observation twice: the
    compressed observations have, all together, no more sources than
    there are pending observations.  Every compressed observation has at
    least two sources, so there are at most half as many compressed
    observations as pending ones. *)
Theorem compression_shrinks (this : CompressionEngine.t) (now : Z)
    (pending : list Pending.t) :
  source_total (compressObservations this now pending) ≤ length pending
  ∧ Forall (λ out, 2 ≤ length (Compressed.source_observations out))
           (compressObservations this now pending)
  ∧ 2 * length (compressObservations this now pending) ≤ length pending.
Proof.
  assert (Hmain : source_total (compressObservations this now pending) ≤ length pending
                  ∧ Forall (λ out, 2 ≤ length (Compressed.source_observations out))
                           (compressObservations this now pending)).
  { unfold compressObservations. destruct pending as [|p pending]; [by split|].
    destruct (compress_body this now (p :: pending)) as [results|e] eqn:Hbody;
      [|split; [unfold source_total; simpl; lia | constructor]].
    unfold compress_body in Hbody.
    apply compress_groups_total in Hbody as (outs & -> & Htotal & Hsizes).
    rewrite (group_total_perm _ _ (entries_perm _)) in Htotal.
    pose proof (groups_total this now (p :: pending)). split; [|done].
    simpl app. lia. }
  destruct Hmain as [Htotal Hsizes]. split_and!; [done | done |].
  apply source_total_sizes in Hsizes. lia.
Qed.

(** ** What a compressed observation inherits from the filter *)

(** The members of the cluster behind a compressed observation are
    eligible pending observations. *)
Lemma output_members (this : CompressionEngine.t) (now : Z) (pending : list Pending.t)
    (out : Compressed.t) :
  out ∈ compressObservations this now pending →
  ∃ cluster entityName category,
    _compressCluster cluster entityName category = Some out
    ∧ ∀ o, o ∈ cluster →
        eligible this now o = true ∧ ∃ p, p ∈ pending ∧ Pending.observation p = o.
Proof.
  intros (key & g & Hin & _ & clusters & cluster & Hcl & Hc & _ & Hout)
    %outputs_from_large_groups.
  exists cluster, (Group.entityName g), (Group.category g). split; [done|].
  intros o Ho.
  apply clusters_are_seeded in Hcl.
  pose proof (proj1 (Forall_forall _ _) Hcl cluster Hc) as (seed & members & -> & _ & Hsub & _).
  apply Hsub in Ho.
  destruct (grouped_all this now pending) as [Hnd Hget].
  specialize (Hget key). rewrite (get_elem _ _ _ Hnd Hin) in Hget.
  destruct Hget as [Hobs _]. rewrite Hobs in Ho. unfold eligible_for in Ho.
  apply list_elem_of_fmap in Ho as (p & -> & Hp).
  apply list_elem_of_filter in Hp as [[He _] Hp]. split; [done | by exists p].
Qed.

Lemma sum_confidence_ge (m : Z) (cluster : list Observation) :
  Forall (λ o, (m <= num_or (confidence o) 3)%Z) cluster →
  (m * Z.of_nat (length cluster) <= sum_confidence cluster)%Z.
Proof.
  unfold sum_confidence.
  assert (Hgen : ∀ acc, Forall (λ o, (m <= num_or (confidence o) 3)%Z) cluster →
                   (acc + m * Z.of_nat (length cluster)
                    <= fold_left (λ sum obs, (sum + num_or (confidence obs) 3)%Z) cluster acc)%Z).
  { induction cluster as [|o cluster IH]; intros acc Hc; simpl; [lia|].
    apply Forall_cons in Hc as [Ho Hc]. etrans; [|apply IH; done]. lia. }
  intros Hc. specialize (Hgen 0%Z Hc). lia.
Qed.

Lemma round_ge (m n : Z) (s : Z) :
  (0 < n)%Z → (m * n <= s)%Z → (m <= round (inject_Z s / inject_Z n))%Z.
Proof.
  intros Hn Hs. unfold round.
  assert (Hq : (inject_Z m <= inject_Z s / inject_Z n + (1 # 2))%Q).
  { assert (Hn' : (0 < inject_Z n)%Q) by (unfold Qlt; simpl; lia).
    assert (Hle : (inject_Z m <= inject_Z s / inject_Z n)%Q).
    { apply Qle_shift_div_l; [done|]. rewrite <- inject_Z_mult. by rewrite <- Zle_Qle. }
    lra. }
  apply Qfloor_resp_le in Hq. by rewrite Qfloor_Z in Hq.
Qed.

Lemma eligible_confidence (this : CompressionEngine.t) (now : Z) (o : Observation) :
  eligible this now o = true → (CompressionEngine.minConfidence (options this) <= 3)%Z →
  (CompressionEngine.minConfidence (options this) <= num_or (confidence o) 3)%Z.
Proof.
  unfold eligible. intros [[_ Hc%negb_true_iff]%andb_true_iff _]%andb_true_iff Hmin.
  unfold num_lt in Hc. destruct (confidence o) as [v|]; simpl; [|done].
  apply Z.ltb_ge in Hc. destruct v; simpl; lia.
Qed.

Lemma eligible_age (this : CompressionEngine.t) (now : Z) (o : Observation) (t : Z) :
  eligible this now o = true → timestamp o = TsAt t →
  (days_between now t <= maxObservationAge (options this))%Q.
Proof.
  unfold eligible. intros [_ Ha%negb_true_iff]%andb_true_iff Ht.
  unfold ageInDays, age_gt in Ha. rewrite Ht in Ha. simpl in Ha.
  apply negb_false_iff in Ha. by apply Qle_bool_iff.
Qed.

(** X6.  A compressed observation inherits what the filter grants to its
    sources.  While critical observations are preserved it is never
    critical; its timestamp, when [Date] can read it, is not older than
    [maxObservationAge] days; for a minimum confidence of at most 3, the
    default, its confidence is at least this minimum; and it carries no
    time window. *)
Theorem compressed_inherits_the_filter (this : CompressionEngine.t) (now : Z)
    (pending : list Pending.t) (out : Compressed.t) :
  out ∈ compressObservations this now pending →
  (preserveCritical (options this) = true → Compressed.is_critical out = false)
  ∧ (∀ t, Compressed.timestamp out = TsAt t →
          (days_between now t <= maxObservationAge (options this))%Q)
  ∧ ((CompressionEngine.minConfidence (options this) <= 3)%Z →
     (CompressionEngine.minConfidence (options this) <= Compressed.confidence out)%Z)
  ∧ Compressed.time_window out = None.
Proof.
  intros (cluster & entityName & category & Hout & Hmembers)%output_members.
  apply compress_cluster_inv in Hout as (first & rest & summary & Hsort & _ & ->).
  cbn [Compressed.is_critical Compressed.timestamp Compressed.confidence
       Compressed.time_window].
  assert (Hsorted : ∀ o, o ∈ first :: rest → eligible this now o = true).
  { intros o Ho. rewrite <- Hsort in Ho. apply sort_elem in Ho. by apply Hmembers. }
  split_and!; [| | |done].
  - intros Hpreserve. apply not_true_is_false. intros (o & Ho & Hcrit)%existsb_elem.
    specialize (Hsorted o Ho). unfold eligible in Hsorted.
    rewrite Hpreserve, Hcrit in Hsorted. done.
  - intros t Ht. eapply eligible_age; [|exact Ht]. apply Hsorted. by left.
  - intros Hmin. apply round_ge; [simpl; lia|].
    apply sum_confidence_ge. apply Forall_forall. intros o Ho.
    apply (eligible_confidence this now); [by apply Hsorted | done].
Qed.

(** X6 at the example of the specification, one second after the first
    observation. *)
Lemma compressed_inherits_the_filter_witness :
  Compressed.is_critical example_compressed = false
  ∧ (3 <= Compressed.confidence example_compressed)%Z.
Proof.
  destruct (compressed_inherits_the_filter example_engine 1000
              (example_pending "user" "Person" 0) example_compressed)
    as (Hcritical & _ & Hconfidence & _).
  - vm_compute. left.
  - split; [by apply Hcritical | by apply Hconfidence].
Defined.

(** ** One observation without content *)

Lemma foldM_throws {A B : Type} (body : B → A → Result B) (l : list A) (x : A) :
  x ∈ l → (∀ acc, ∃ e, body acc x = Throw e) →
  ∀ acc, ∃ e, foldM body l acc = Throw e.
Proof.
  intros Hx Hthrow. induction l as [|y l IH]; intros acc; [by apply elem_of_nil in Hx|].
  rewrite foldM_cons. destruct (body acc y) as [acc'|e] eqn:Hy; [|by exists e].
  rewrite bind_Ok. apply elem_of_cons in Hx as [->|Hx]; [|by apply IH].
  destruct (Hthrow acc) as [e He]. congruence.
Qed.

(** X7.  One eligible observation without content is enough to lose the
    whole result: when the group of a key has at least two observations,
    at least [compressionThreshold] of them, and one of them has no
    content, [compressObservations] returns the empty list, whatever the
    other groups hold. *)
Theorem missing_content_empties_compression (this : CompressionEngine.t) (now : Z)
    (pending : list Pending.t) (key : string) :
  2 ≤ length (eligible_for this now key pending) →
  (compressionThreshold this <= Z.of_nat (length (eligible_for this now key pending)))%Z →
  Exists (λ o, content o = None) (eligible_for this now key pending) →
  compressObservations this now pending = [].
Proof.
  intros Hlen Hlarge Hbad. unfold compressObservations.
  destruct pending as [|p pending]; [done|].
  destruct (grouped_all this now (p :: pending)) as [Hnd Hget].
  specialize (Hget key).
  destruct (JsObject.get (_groupObservations this now (p :: pending)) key) as [g|] eqn:Hg;
    [|rewrite Hget in Hlen; simpl in Hlen; lia].
  destruct Hget as [Hobs _].
  destruct (foldM_throws (compress_group this)
              (JsObject.entries (_groupObservations this now (p :: pending))) (key, g))
    with (acc := @nil Compressed.t) as [e He].
  - rewrite entries_perm. by apply get_Some_elem.
  - intros acc. exists TypeError. rewrite compress_group_eq, Hobs.
    rewrite (proj2 (Z.ltb_ge _ _)) by lia.
    by rewrite clusterer_fails.
  - unfold compress_body. by rewrite He.
Qed.

(** X7 at the pair whose second observation has no content, with a
    threshold of two. *)
Lemma missing_content_empties_compression_witness :
  compressObservations example_engine 1000
    (map (Pending.mk "user" "Person") silent_pair) = [].
Proof.
  apply (missing_content_empties_compression example_engine 1000
           (map (Pending.mk "user" "Person") silent_pair) "user:general").
  - vm_compute. lia.
  - vm_compute. discriminate.
  - vm_compute. apply Exists_cons_tl, Exists_cons_hd. reflexivity.
Defined.

(** ** Compression by time window *)

Section Windows.
Variable windowKey : Z → Z → Result string.
Variable timeWindowDays : Z.

Lemma window_snoc key observations h :
  window windowKey timeWindowDays key (observations ++ [h])
  = window windowKey timeWindowDays key observations
    ++ (if in_window windowKey timeWindowDays key h then [h] else []).
Proof.
  unfold window. rewrite filter_app, filter_cons, filter_nil.
  destruct (in_window windowKey timeWindowDays key h); by simpl.
Qed.

Lemma window_step_windows windows observations h windows' :
  windows_of windowKey timeWindowDays windows observations →
  window_step windowKey timeWindowDays windows h = Ok windows' →
  windows_of windowKey timeWindowDays windows' (observations ++ [h]).
Proof.
  intros [Hnd Hget]. unfold window_step.
  destruct (timestamp (h_observation h)) as [| |ms] eqn:Hts; [| done |].
  - intros [= <-]. split; [done|]. intros key.
    rewrite window_snoc. unfold in_window. rewrite Hts. by rewrite app_nil_r.
  - destruct (windowKey ms timeWindowDays) as [k|e] eqn:Hk; [|done].
    rewrite bind_Ok. intros [= <-]. split; [by apply set_nodup|].
    intros key. rewrite window_snoc. unfold in_window. rewrite Hts, Hk.
    destruct (String.eqb_spec k key) as [->|Hne].
    + rewrite get_set_eq. simpl. by rewrite Hget.
    + rewrite get_set_ne by done. by rewrite app_nil_r.
Qed.

Lemma group_by_window (observations : list Historical) windows :
  _groupByTimeWindow windowKey observations timeWindowDays = Ok windows →
  windows_of windowKey timeWindowDays windows observations.
Proof.
  unfold _groupByTimeWindow.
  assert (Hgen : ∀ pre acc, windows_of windowKey timeWindowDays acc pre →
                   foldM (window_step windowKey timeWindowDays) observations acc
                   = Ok windows →
                   windows_of windowKey timeWindowDays windows (pre ++ observations)).
  { induction observations as [|h l IH]; intros pre acc Hacc Hrun.
    - injection Hrun as <-. by rewrite app_nil_r.
    - rewrite foldM_cons in Hrun.
      destruct (window_step windowKey timeWindowDays acc h) as [acc'|e] eqn:Hstep; [|done].
      rewrite bind_Ok in Hrun.
      replace (pre ++ h :: l) with ((pre ++ [h]) ++ l) by (by rewrite <- app_assoc).
      eapply IH; [|exact Hrun]. by eapply window_step_windows. }
  apply (Hgen [] []). split; [constructor | done].
Qed.

Lemma fold_left_flat {A B : Type} (f : A → list B) (l : list A) (acc : list B) :
  fold_left (λ acc x, acc ++ f x) l acc = acc ++ flat_map f l.
Proof.
  revert acc. induction l as [|x l IH]; intros acc; simpl; [by rewrite app_nil_r|].
  by rewrite IH, app_assoc.
Qed.

Lemma temporal_outputs (this : CompressionEngine.t) (now : Z)
    (observations : list Historical) (out : Compressed.t) :
  out ∈ temporalCompression windowKey this now observations timeWindowDays →
  ∃ key compressed,
    out = tag_window key compressed
    ∧ compressed ∈ compressObservations this now
                      (map formatted (window windowKey timeWindowDays key observations))
    ∧ window windowKey timeWindowDays key observations ≠ [].
Proof.
  unfold temporalCompression. destruct observations as [|h l]; [by intros ?%elem_of_nil|].
  unfold temporal_body.
  destruct (_groupByTimeWindow windowKey (h :: l) timeWindowDays) as [windows|e] eqn:Hw;
    [|by intros ?%elem_of_nil].
  rewrite bind_Ok. apply group_by_window in Hw as [Hnd Hget].
  rewrite (fold_left_flat
             (λ entry, map (tag_window (fst entry))
                           (compressObservations this now (map formatted (snd entry))))).
  simpl app. intros Hout. apply list_elem_of_In, in_flat_map in Hout as ([key w] & Hin & Hout).
  apply list_elem_of_In, entries_elem in Hin. apply get_elem in Hin; [|done].
  specialize (Hget key). rewrite Hin in Hget. simpl in Hget, Hout.
  apply list_elem_of_In, list_elem_of_fmap in Hout as (compressed & -> & Hc).
  exists key, compressed. rewrite <- Hget. split_and!; [done | done |].
  intros ->. simpl in Hc. by apply elem_of_nil in Hc.
Qed.
End Windows.

(** X8.  [temporalCompression] is [compressObservations] applied window by
    window: every observation that it returns is a compressed observation
    of the observations of one time window, tagged with the key of this
    window.  The observations without a timestamp belong to no window.
    One timestamp that [Date] cannot read makes the result empty. *)
Theorem temporal_compression_by_window (windowKey : Z → Z → Result string)
    (this : CompressionEngine.t) (now : Z) (observations : list Historical)
    (timeWindowDays : Z) :
  (∀ ms key, windowKey ms timeWindowDays = Ok key → key ∉ JsObject.inherited) →
  (∀ out, out ∈ temporalCompression windowKey this now observations timeWindowDays →
     ∃ key compressed,
       out = tag_window key compressed
       ∧ Compressed.time_window out = Some key
       ∧ compressed ∈ compressObservations this now
                         (map formatted (window windowKey timeWindowDays key observations))
       ∧ ∃ h ms, h ∈ observations ∧ timestamp (h_observation h) = TsAt ms
                 ∧ windowKey ms timeWindowDays = Ok key)
  ∧ (∀ key h, h ∈ window windowKey timeWindowDays key observations →
       timestamp (h_observation h) ≠ TsMissing)
  ∧ (Exists (λ h, timestamp (h_observation h) = TsInvalid) observations →
     temporalCompression windowKey this now observations timeWindowDays = []).
Proof.
  intros _. split_and!.
  - intros out (key & compressed & -> & Hc & Hne)%temporal_outputs.
    exists key, compressed. split_and!; [done | done | done |].
    destruct (window windowKey timeWindowDays key observations) as [|h w] eqn:Hw; [done|].
    assert (Hh : h ∈ window windowKey timeWindowDays key observations)
      by (rewrite Hw; by left).
    apply list_elem_of_filter in Hh as [Hin Hh]. unfold in_window in Hin.
    destruct (timestamp (h_observation h)) as [| |ms] eqn:Hts; [done | done |].
    destruct (windowKey ms timeWindowDays) as [k|e] eqn:Hk; [|done].
    apply String.eqb_eq in Hin as ->. by exists h, ms.
  - intros key h [Hin _]%list_elem_of_filter Hts. unfold in_window in Hin.
    by rewrite Hts in Hin.
  - intros (h & Hh & Hts)%Exists_exists. unfold temporalCompression.
    destruct observations as [|h0 l]; [done|].
    unfold temporal_body, _groupByTimeWindow.
    destruct (foldM_throws (window_step windowKey timeWindowDays) (h0 :: l) h Hh)
      with (acc := @nil (string * list Historical)) as [e He].
    + intros acc. exists RangeError. unfold window_step. by rewrite Hts.
    + by rewrite He.
Qed.

(** X8 on the two observations of the example, which fall in one window. *)
Lemma temporal_compression_by_window_witness :
  ∃ key compressed,
    tag_window "1970-01-01" example_compressed = tag_window key compressed
    ∧ compressed ∈ compressObservations example_engine 1000
                      (map formatted (window epoch_window 30 key example_history)).
Proof.
  destruct (temporal_compression_by_window epoch_window example_engine 1000
              example_history 30) as (Houts & _ & _).
  - intros ms key [= <-]. by apply (bool_decide_unpack _).
  - destruct (Houts (tag_window "1970-01-01" example_compressed))
      as (key & compressed & Hout & _ & Hc & _).
    + vm_compute. left.
    + by exists key, compressed.
Defined.

(** ** Keywords *)

Lemma chars_cons (c : ascii) (s : string) : chars (String c s) = c :: chars s.
Proof. reflexivity. Qed.

(** The pieces of a split hold no separator. *)
Lemma split_runs_chars (sep : ascii → bool) (s t : string) (c : ascii) :
  t ∈ Str.split_runs sep s → c ∈ chars t → sep c = false ∧ c ∈ chars s.
Proof.
  revert t. induction s as [|a s IH]; intros t Ht Hc; simpl in Ht.
  - apply list_elem_of_singleton in Ht as ->. by apply elem_of_nil in Hc.
  - rewrite chars_cons. destruct (sep a) eqn:Ha.
    + assert (Hin : t = EmptyString ∨ t ∈ Str.split_runs sep s).
      { destruct (Str.starts_with sep s); [by right|].
        apply elem_of_cons in Ht as [->|Ht]; [by left | by right]. }
      destruct Hin as [->|Hin]; [by apply elem_of_nil in Hc|].
      destruct (IH t Hin Hc) as [? ?]. split; [done | by right].
    + destruct (Str.split_runs sep s) as [|t0 ts] eqn:Hsplit.
      * apply list_elem_of_singleton in Ht as ->.
        apply list_elem_of_singleton in Hc as ->. split; [done | by left].
      * apply elem_of_cons in Ht as [->|Ht].
        -- rewrite chars_cons in Hc. apply elem_of_cons in Hc as [->|Hc];
             [split; [done | by left]|].
           destruct (IH t0 ltac:(by left) Hc) as [? ?]. split; [done | by right].
        -- destruct (IH t ltac:(by right) Hc) as [? ?]. split; [done | by right].
Qed.

Lemma blank_punctuation_chars (s : string) (c : ascii) :
  c ∈ chars (Str.blank_punctuation s) →
  Str.is_space c = true ∨ (Str.is_word_char c = true ∧ c ∈ chars s).
Proof.
  induction s as [|a s IH]; [by intros ?%elem_of_nil|].
  cbn [Str.blank_punctuation]. rewrite !chars_cons. intros [->|Hc]%elem_of_cons.
  - destruct (Str.is_word_char a) eqn:Hw; simpl.
    + right. split; [done | by left].
    + left. by destruct (Str.is_space a) eqn:Hs.
  - destruct (IH Hc) as [?|[? ?]]; [by left|]. right. split; [done | by right].
Qed.

Lemma lower_char_not_upper (c : ascii) : Str.is_upper (Str.lower_char c) = false.
Proof.
  unfold Str.lower_char. destruct (Str.is_upper c) eqn:Hu; [|done].
  unfold Str.is_upper, Str.code in *.
  apply andb_true_iff in Hu as [Hlo%Nat.leb_le Hhi%Nat.leb_le].
  rewrite nat_ascii_embedding by lia.
  apply andb_false_iff. right. apply Nat.leb_gt. lia.
Qed.

Lemma toLowerCase_chars (s : string) (c : ascii) :
  c ∈ chars (Str.toLowerCase s) → Str.is_upper c = false.
Proof.
  induction s as [|a s IH]; [by intros ?%elem_of_nil|].
  cbn [Str.toLowerCase]. rewrite chars_cons.
  intros [->|Hc]%elem_of_cons; [apply lower_char_not_upper | auto].
Qed.

Lemma candidates_are_words (context : Context) (w : string) :
  w ∈ candidates context →
  3 < String.length w ∧ _isStopWord w = false ∧ lowercase_word w.
Proof.
  unfold candidates. intros [Hw Hin]%list_elem_of_filter.
  apply andb_true_iff in Hw as [Hlen%Nat.ltb_lt Hstop%negb_true_iff].
  split_and!; [done | done |]. apply Forall_forall. intros c Hc.
  destruct (split_runs_chars _ _ _ _ Hin Hc) as [Hspace Hc'].
  apply blank_punctuation_chars in Hc' as [Hs|[Hword Hc']]; [unfold Str.is_space in *; congruence|].
  split; [done|]. by eapply toLowerCase_chars.
Qed.

Lemma count_item_keys (counts : JsObject.t JsObject.Count) (item w : string) :
  w ∈ map fst (JsObject.count_item counts item) → w ∈ map fst counts ∨ w = item.
Proof.
  unfold JsObject.count_item.
  assert (Hset : ∀ c, w ∈ map fst (JsObject.set counts item c) →
                      w ∈ map fst counts ∨ w = item).
  { intros c. rewrite set_keys. destruct (JsObject.get counts item); [by left|].
    intros [?| ->%list_elem_of_singleton]%elem_of_app; [by left | by right]. }
  destruct (JsObject.get counts item) as [[n|]|]; [apply Hset | by left |].
  destruct (bool_decide (item ∈ JsObject.inherited)); [|apply Hset].
  destruct (String.eqb item "__proto__"); [by left | apply Hset].
Qed.

Lemma counts_keys (arr : list string) (counts : JsObject.t JsObject.Count) (w : string) :
  w ∈ map fst (fold_left JsObject.count_item arr counts) → w ∈ map fst counts ∨ w ∈ arr.
Proof.
  revert counts. induction arr as [|x arr IH]; intros counts; simpl; [by left|].
  intros [[?| ->]%count_item_keys|?]%IH; [by left | right; by left | right; by right].
Qed.

(** The entries of the counts of words that no object inherits. *)
Lemma plain_counts (arr : list string) :
  (∀ w, w ∈ arr → w ∉ JsObject.inherited) →
  let counts := fold_left JsObject.count_item arr [] in
  NoDup (map fst counts)
  ∧ (∀ e, e ∈ counts → fst e ∈ arr ∧ snd e = JsObject.Times (occurrences (fst e) arr))
  ∧ (∀ w, w ∈ arr → (w, JsObject.Times (occurrences w arr)) ∈ counts).
Proof.
  intros Hplain counts.
  destruct (counts_counted arr [] [] counted_nil) as [Hnd Hget]. simpl app in Hget.
  fold counts in Hnd, Hget.
  assert (Hw : ∀ w, w ∈ arr →
                 JsObject.get counts w = Some (JsObject.Times (occurrences w arr))).
  { intros w Hin. specialize (Hget w). rewrite decide_False in Hget by auto.
    apply occurrences_pos in Hin. by destruct (occurrences w arr); [lia|]. }
  split_and!; [done | |].
  - intros [w c] Hin. simpl.
    assert (Harr : w ∈ arr).
    { destruct (counts_keys arr [] w) as [?%elem_of_nil|?]; [|done|done].
      apply list_elem_of_fmap. by exists (w, c). }
    split; [done|]. apply get_elem in Hin; [|done]. rewrite (Hw w Harr) in Hin. congruence.
  - intros w Hin. by apply get_Some_elem, Hw.
Qed.

Lemma StronglySorted_app_inv {A : Type} (R : A → A → Prop) (l1 l2 : list A) :
  StronglySorted R (l1 ++ l2) → ∀ a b, a ∈ l1 → b ∈ l2 → R a b.
Proof.
  induction l1 as [|x l1 IH]; intros Hs a b Ha Hb; [by apply elem_of_nil in Ha|].
  simpl in Hs. apply StronglySorted_inv in Hs as [Hs Hx].
  apply elem_of_cons in Ha as [->|Ha]; [|by apply IH].
  apply (proj1 (Forall_forall _ _) Hx). apply elem_of_app. by right.
Qed.

Lemma slice0_nonneg {A : Type} (n : Z) (l : list A) :
  (0 <= n)%Z → JsArray.slice0 n l = take (Z.to_nat n) l.
Proof. intros Hn. unfold JsArray.slice0. by destruct (Z.ltb_spec n 0); [lia|]. Qed.

(** X9.  [_extractKeywords] returns at most ten keywords, all different.
    Every keyword is a candidate word of the context: a lowercase word of
    more than three characters that is not a stop word.  When no candidate
    is a name that objects inherit, the keywords are listed by decreasing
    number of occurrences, and no candidate left out occurs more often
    than a keyword. *)
Theorem keywords_are_the_frequent_words (context : Context) :
  let keywords := _extractKeywords context in
  length keywords ≤ 10
  ∧ NoDup keywords
  ∧ (∀ k, k ∈ keywords →
       k ∈ candidates context
       ∧ 3 < String.length k ∧ _isStopWord k = false ∧ lowercase_word k)
  ∧ ((∀ w, w ∈ candidates context → w ∉ JsObject.inherited) →
     StronglySorted
       (λ a b, occurrences b (candidates context) ≤ occurrences a (candidates context))
       keywords
     ∧ ∀ k w, k ∈ keywords → w ∈ candidates context → w ∉ keywords →
         occurrences w (candidates context) ≤ occurrences k (candidates context)).
Proof.
  intros keywords. unfold keywords, _extractKeywords. cbv zeta.
  change (filter _ (Str.split_space _)) with (candidates context).
  set (counts := fold_left JsObject.count_item (candidates context) []).
  set (sorted := JsArray.sort
                   (λ a b, descending (count_value (snd a)) (count_value (snd b)))
                   (JsObject.entries counts)).
  rewrite slice0_nonneg by lia. change (Z.to_nat 10) with 10.
  assert (Hperm : sorted ≡ₚ counts).
  { unfold sorted. by rewrite sort_perm, entries_perm. }
  assert (Hnd : NoDup (map fst counts)).
  { destruct (counts_counted (candidates context) [] [] counted_nil) as [Hnd _]. done. }
  assert (Hkeys : ∀ k, k ∈ map fst (take 10 sorted) → k ∈ candidates context).
  { intros k (e & -> & He%(subseteq_take 10))%list_elem_of_fmap.
    rewrite Hperm in He.
    destruct (counts_keys (candidates context) [] (fst e)) as [?%elem_of_nil|?]; [|done|done].
    apply list_elem_of_fmap. by exists e. }
  split_and!.
  - rewrite length_map, length_take. lia.
  - apply (NoDup_fmap_2_strong _ _); [|].
    + intros a b Ha%(subseteq_take 10) Hb%(subseteq_take 10) Hab.
      rewrite Hperm in Ha, Hb. destruct a as [ka va], b as [kb vb]. simpl in Hab. subst kb.
      f_equal. apply get_elem in Ha, Hb; [|done|done]. congruence.
    + eapply sublist_NoDup; [|apply sublist_take].
      rewrite Hperm. by eapply NoDup_fmap_1.
  - intros k Hk%Hkeys. split; [done|]. by apply (candidates_are_words context).
  - intros Hplain.
    destruct (plain_counts (candidates context) Hplain) as (_ & Hentries & Hall).
    fold counts in Hentries, Hall.
    assert (Hkey : ∀ e, e ∈ sorted →
                     count_value (snd e)
                     = Some (inject_Z (Z.of_nat (occurrences (fst e) (candidates context))))).
    { intros e He. rewrite Hperm in He. destruct (Hentries e He) as [_ ->]. done. }
    assert (Hsorted : StronglySorted
                        (λ a b, occurrences (fst b) (candidates context)
                                ≤ occurrences (fst a) (candidates context)) sorted).
    { apply (StronglySorted_weaken (score_before (λ e, count_value (snd e)))).
      - intros a b Ha Hb (x & y & Hx & Hy & Hle).
        rewrite (Hkey a Ha) in Hx. rewrite (Hkey b Hb) in Hy.
        injection Hx as <-. injection Hy as <-.
        rewrite <- Zle_Qle in Hle. lia.
      - apply (descending_sorted (λ e, count_value (snd e))).
        apply Forall_forall. intros e He%entries_elem.
        destruct (Hentries e He) as [_ ->]. by eexists. }
    split.
    + apply (StronglySorted_map fst
               (λ a b, occurrences b (candidates context)
                       ≤ occurrences a (candidates context))).
      by apply StronglySorted_take.
    + intros k w (e & -> & He)%list_elem_of_fmap Hw Hout.
      assert (Hentry : (w, JsObject.Times (occurrences w (candidates context))) ∈ sorted)
        by (rewrite Hperm; by apply Hall).
      rewrite <- (take_drop 10 sorted) in Hentry, Hsorted.
      apply elem_of_app in Hentry as [Hin|Hin].
      * destruct Hout. apply list_elem_of_fmap. by eexists (w, _).
      * exact (StronglySorted_app_inv _ _ _ Hsorted e _ He Hin).
Qed.

(** ** Duplicate entities *)

Lemma dedup_spec (entities : list Entity.t) :
  ∀ seen,
    let unique := dedup_entities entities seen in
    NoDup (map Entity.name unique)
    ∧ (∀ u, u ∈ unique → Entity.name u ∉ seen)
    ∧ unique `sublist_of` entities
    ∧ (∀ e, e ∈ entities →
         Entity.name e ∈ seen ∨ ∃ u, u ∈ unique ∧ Entity.name u = Entity.name e)
    ∧ (∀ u, u ∈ unique → first_named (Entity.name u) entities = Some u).
Proof.
  induction entities as [|e entities IH]; intros seen; simpl.
  - split_and!; [constructor | by intros u ?%elem_of_nil | done
                 | by intros u ?%elem_of_nil | by intros u ?%elem_of_nil].
  - unfold JsSet.has, JsSet.add. case_bool_decide as Hseen.
    + destruct (IH seen) as (Hnd & Hout & Hsub & Hall & Hfirst).
      split_and!; [done | done | by apply sublist_cons | |].
      * intros x [->|Hx]%elem_of_cons; [by left | by apply Hall].
      * intros u Hu. unfold first_named. simpl.
        destruct (String.eqb_spec (Entity.name e) (Entity.name u)) as [Heq|Hne].
        -- destruct (Hout u Hu). by rewrite <- Heq.
        -- by apply Hfirst.
    + unfold JsSet.has. rewrite bool_decide_eq_false_2 by done.
      destruct (IH (seen ++ [Entity.name e])) as (Hnd & Hout & Hsub & Hall & Hfirst).
      split_and!.
      * simpl. constructor; [|done].
        intros (u & Hname & Hu)%list_elem_of_fmap.
        apply (Hout u Hu). rewrite <- Hname. apply elem_of_app. right. by left.
      * intros u [->|Hu]%elem_of_cons; [done|].
        intros Hin. apply (Hout u Hu). apply elem_of_app. by left.
      * by apply sublist_skip.
      * intros x [->|Hx]%elem_of_cons; [right; exists e; split; [by left | done]|].
        destruct (Hall x Hx) as [[?| ->%list_elem_of_singleton]%elem_of_app|(u & Hu & Hname)].
        -- by left.
        -- right. exists e. split; [by left | done].
        -- right. exists u. split; [by right | done].
      * intros u [->|Hu]%elem_of_cons; unfold first_named; simpl.
        -- by rewrite String.eqb_refl.
        -- destruct (String.eqb_spec (Entity.name e) (Entity.name u)) as [Heq|Hne].
           ++ destruct (Hout u Hu). rewrite <- Heq. apply elem_of_app. right. by left.
           ++ by apply Hfirst.
Qed.

Lemma dedup_fixed (entities : list Entity.t) :
  ∀ seen,
    NoDup (map Entity.name entities) →
    (∀ e, e ∈ entities → Entity.name e ∉ seen) →
    dedup_entities entities seen = entities.
Proof.
  induction entities as [|e entities IH]; intros seen Hnd Hout; [done|].
  simpl in Hnd. apply NoDup_cons in Hnd as [He Hnd].
  assert (Hfresh : Entity.name e ∉ seen) by (apply Hout; by left).
  cbn [dedup_entities]. unfold JsSet.add, JsSet.has.
  rewrite !(bool_decide_eq_false_2 _ Hfresh).
  f_equal. apply IH; [done|].
  intros x Hx [Hin|Heq%list_elem_of_singleton]%elem_of_app.
  - apply (Hout x); [by right | done].
  - apply He. rewrite <- Heq. apply list_elem_of_fmap. by exists x.
Qed.

(** X10.  [_removeDuplicateEntities] keeps, in their order, the first
    entity of every name: the names of the result are all different, no
    name of the input is lost, and a list without duplicates is returned
    as it is. *)
Theorem duplicates_are_removed (entities : list Entity.t) :
  let unique := _removeDuplicateEntities entities in
  NoDup (map Entity.name unique)
  ∧ unique `sublist_of` entities
  ∧ (∀ e, e ∈ entities → ∃ u, u ∈ unique ∧ Entity.name u = Entity.name e)
  ∧ (∀ u, u ∈ unique → first_named (Entity.name u) entities = Some u)
  ∧ (NoDup (map Entity.name entities) → unique = entities)
  ∧ _removeDuplicateEntities unique = unique.
Proof.
  intros unique. unfold unique, _removeDuplicateEntities.
  destruct (dedup_spec entities []) as (Hnd & _ & Hsub & Hall & Hfirst).
  split_and!; [done | done | | done | |].
  - intros e He. destruct (Hall e He) as [?%elem_of_nil|?]; done.
  - intros Hnd'. apply dedup_fixed; [done|]. intros e _. apply not_elem_of_nil.
  - apply dedup_fixed; [done|]. intros e _. apply not_elem_of_nil.
Qed.

(** ** The range of the scores *)

Lemma ratio_in_unit (a n : Z) : (0 <= a <= n)%Z → (0 < n)%Z → in_unit (inject_Z a / inject_Z n).
Proof.
  intros [Ha Han] Hn.
  assert (Hn' : (0 < inject_Z n)%Q) by (unfold Qlt; simpl; lia).
  split.
  - apply Qle_shift_div_l; [done|]. rewrite Qmult_0_l. unfold Qle. simpl. lia.
  - apply Qle_shift_div_r; [done|]. rewrite Qmult_1_l. by rewrite <- Zle_Qle.
Qed.

Lemma count_matches_le {A : Type} (P : A → bool) (l : list A) (m : nat) :
  fold_left (λ matches x, if P x then (matches + 1)%nat else matches) l m ≤ m + length l.
Proof.
  revert m. induction l as [|x l IH]; intros m; simpl; [lia|].
  etrans; [apply IH|]. destruct (P x); lia.
Qed.

Lemma count_matches_all {A : Type} (P : A → bool) (l : list A) (m : nat) :
  (∀ x, x ∈ l → P x = true) →
  fold_left (λ matches x, if P x then (matches + 1)%nat else matches) l m = m + length l.
Proof.
  revert m. induction l as [|x l IH]; intros m Hall; simpl; [lia|].
  rewrite (Hall x) by (by left). rewrite IH by (intros y Hy; apply Hall; by right). lia.
Qed.

Lemma count_matches_none {A : Type} (P : A → bool) (l : list A) (m : nat) :
  (∀ x, x ∈ l → P x = false) →
  fold_left (λ matches x, if P x then (matches + 1)%nat else matches) l m = m.
Proof.
  revert m. induction l as [|x l IH]; intros m Hall; simpl; [done|].
  rewrite (Hall x) by (by left). apply IH. intros y Hy. apply Hall. by right.
Qed.

Lemma relevance_in_unit (stringify : Entity.t → string) (e : Entity.t)
    (keywords : list string) :
  in_unit (_calculateRelevanceScore stringify e keywords).
Proof.
  unfold _calculateRelevanceScore. cbv zeta.
  destruct (Nat.ltb_spec 0 (length keywords)) as [Hlen|Hlen]; [|split; lra].
  apply ratio_in_unit; [|lia]. split; [lia|].
  pose proof (count_matches_le
                (λ keyword, Str.includes (Str.toLowerCase (stringify e))
                                         (Str.toLowerCase keyword)) keywords 0).
  lia.
Qed.

Lemma sum_bounds (l : list Z) (lo hi : Z) :
  Forall (λ x, (lo <= x <= hi)%Z) l →
  ∀ acc, (acc + lo * Z.of_nat (length l) <= fold_left Z.add l acc
          <= acc + hi * Z.of_nat (length l))%Z.
Proof.
  induction 1 as [|x l Hx _ IH]; intros acc; simpl; [lia|].
  specialize (IH (acc + x)%Z). lia.
Qed.

Lemma confidence_score_bounds (e : Entity.t) :
  (0 <= _calculateConfidenceScore e)%Q
  ∧ (Forall on_scale (Entity.observations e) → (_calculateConfidenceScore e <= 1)%Q).
Proof.
  unfold _calculateConfidenceScore.
  destruct (Entity.observations e) as [|o0 l] eqn:Hobs; [split; [lra | intros; lra]|].
  rewrite <- Hobs. clear Hobs o0 l.
  set (confidences := filter (λ c, (0 < c)%Z)
                        (map (λ o, num_or (confidence o) 0) (Entity.observations e))).
  destruct confidences as [|c0 cs] eqn:Hc; [split; [lra | intros; lra]|].
  rewrite <- Hc. assert (Hlen : (0 < Z.of_nat (length confidences))%Z)
    by (rewrite Hc; simpl; lia).
  assert (Hn : (0 < inject_Z (Z.of_nat (length confidences)))%Q)
    by (unfold Qlt; simpl; lia).
  assert (Hpos : Forall (λ x, (1 <= x)%Z) confidences).
  { apply Forall_forall. intros x [Hx _]%list_elem_of_filter. lia. }
  split.
  - assert (Hsum : (0 <= fold_left Z.add confidences 0)%Z).
    { assert (Hlo : ∀ acc, (acc + Z.of_nat (length confidences)
                            <= fold_left Z.add confidences acc)%Z).
      { clear -Hpos. induction Hpos as [|x l Hx _ IH]; intros acc; simpl; [lia|].
        specialize (IH (acc + x)%Z). lia. }
      specialize (Hlo 0%Z). lia. }
    apply Qle_shift_div_l; [lra|]. rewrite Qmult_0_l.
    apply Qle_shift_div_l; [done|]. rewrite Qmult_0_l. unfold Qle. simpl. lia.
  - intros Hscale.
    assert (Hrange : Forall (λ x, (1 <= x <= 5)%Z) confidences).
    { apply Forall_forall. intros x Hx. split; [by apply (proj1 (Forall_forall _ _) Hpos)|].
      apply list_elem_of_filter in Hx as [_ (o & -> & Ho)%list_elem_of_fmap].
      pose proof (proj1 (Forall_forall _ _) Hscale o Ho) as Ho5. unfold on_scale in Ho5.
      destruct (confidence o) as [c|]; simpl; [|lia]. specialize (Ho5 c eq_refl).
      destruct c; simpl; lia. }
    pose proof (sum_bounds confidences 1%Z 5%Z Hrange 0%Z) as [_ Hhi].
    apply Qle_shift_div_r; [lra|]. rewrite Qmult_1_l.
    apply Qle_shift_div_r; [done|].
    rewrite <- (inject_Z_mult 5). rewrite <- Zle_Qle. lia.
Qed.

Lemma recency_of_days_unit (w d : Q) : (0 < w)%Q → (0 <= d)%Q → in_unit (recency_of_days w d).
Proof.
  intros Hw Hd. unfold recency_of_days, in_unit.
  assert (0 <= d / w)%Q.
  { apply Qle_shift_div_l; [done|]. lra. }
  destruct (Q.max_spec 0 (1 - d / w)) as [[Hlt ->]|[Hle ->]]; split; lra.
Qed.

Lemma days_between_nonneg (now t : Z) : (t <= now)%Z → (0 <= days_between now t)%Q.
Proof.
  intros Ht. unfold days_between. apply Qle_shift_div_l; [done|].
  rewrite Qmult_0_l. unfold Qle. simpl. lia.
Qed.

Lemma recency_score_bounds (this : Options) (now : Z) (e : Entity.t) :
  (0 <= _calculateRecencyScore this now e)%Q
  ∧ ((0 < recencyWindow this)%Q →
     Forall (λ o, not_later now (timestamp o)) (Entity.observations e) →
     (_calculateRecencyScore this now e <= 1)%Q).
Proof.
  unfold _calculateRecencyScore.
  destruct (Entity.observations e) as [|o0 l] eqn:Hobs; [split; [lra | intros; lra]|].
  rewrite <- Hobs. clear Hobs o0 l.
  destruct (filter _ _) as [|t ts] eqn:Hts; [split; [lra | intros; lra]|].
  split; [apply Q.le_max_l|]. intros Hw Hlater.
  apply recency_of_days_unit; [done|]. apply days_between_nonneg.
  destruct (max_list_spec (t :: ts)) as [Hin _]; [done| |].
  { intros t' Ht'. rewrite <- Hts in Ht'. by apply recent_times in Ht' as [? _]. }
  destruct (proj1 (recent_times (Entity.observations e) (max_list (t :: ts))))
    as [_ (o & Ho & Ht)]; [by rewrite Hts|].
  by apply (proj1 (Forall_forall _ _) Hlater o Ho).
Qed.

(** X11.  The scores of an entity, for a recency window that is not
    zero.  [_scoreEntities] keeps the entities and their order, and gives
    each the weighted sum of its three partial scores.  The relevance
    score lies between 0 and 1, and no partial score is negative.  For a
    positive recency window and observations of the data model, with
    confidences of at most 5 and no timestamp later than [now], the
    recency and confidence scores are at most 1; so with weights that are
    not negative the total score lies between 0 and the sum of the
    weights, which is 1 by default. *)
Theorem entity_scores_are_bounded (stringify : Entity.t → string) (this : Options)
    (now : Z) (entities : list Entity.t) (keywords : list string) :
  ¬ (recencyWindow this == 0)%Q →
  map entity (_scoreEntities stringify this now entities keywords) = entities
  ∧ Forall
      (λ se,
         (score se
          == Weights.relevance (weights this) * s_relevance (scores se)
             + Weights.recency (weights this) * s_recency (scores se)
             + Weights.confidence (weights this) * s_confidence (scores se))%Q
         ∧ in_unit (s_relevance (scores se))
         ∧ (0 <= s_recency (scores se))%Q
         ∧ (0 <= s_confidence (scores se))%Q
         ∧ ((0 < recencyWindow this)%Q →
            Forall (λ o, on_scale o ∧ not_later now (timestamp o))
                   (Entity.observations (entity se)) →
            (s_recency (scores se) <= 1)%Q
            ∧ (s_confidence (scores se) <= 1)%Q
            ∧ ((0 <= Weights.relevance (weights this))%Q →
               (0 <= Weights.recency (weights this))%Q →
               (0 <= Weights.confidence (weights this))%Q →
               (0 <= score se)%Q
               ∧ (score se <= Weights.relevance (weights this)
                              + Weights.recency (weights this)
                              + Weights.confidence (weights this))%Q)))
      (_scoreEntities stringify this now entities keywords)
  ∧ (Weights.relevance (weights default_options)
     + Weights.recency (weights default_options)
     + Weights.confidence (weights default_options) == 1)%Q.
Proof.
  intros _. split_and!; [| |done].
  - unfold _scoreEntities. rewrite map_map. simpl. apply map_id.
  - unfold _scoreEntities. apply Forall_forall.
    intros se (e & -> & He)%list_elem_of_fmap. cbn [score scores entity s_relevance
      s_recency s_confidence].
    pose proof (relevance_in_unit stringify e keywords) as [Hr0 Hr1].
    pose proof (recency_score_bounds this now e) as [Hc0 Hc1].
    pose proof (confidence_score_bounds e) as [Hf0 Hf1].
    split_and!; [reflexivity | by split | done | done |].
    intros Hw Hmodel.
    assert (Hrec : (_calculateRecencyScore this now e <= 1)%Q).
    { apply Hc1; [done|]. eapply Forall_impl; [exact Hmodel|]. by intros o [_ ?]. }
    assert (Hconf : (_calculateConfidenceScore e <= 1)%Q).
    { apply Hf1. eapply Forall_impl; [exact Hmodel|]. by intros o [? _]. }
    split_and!; [done | done |]. intros Hwr Hwc Hwf.
    set (r := _calculateRelevanceScore stringify e keywords) in *.
    set (c := _calculateRecencyScore this now e) in *.
    set (f := _calculateConfidenceScore e) in *.
    set (wr := Weights.relevance (weights this)) in *.
    set (wc := Weights.recency (weights this)) in *.
    set (wf := Weights.confidence (weights this)) in *.
    split; nra.
Qed.

(** X11 on the user of the sample, with the default options: the three
    partial scores and the total score lie between 0 and 1. *)
Lemma entity_scores_are_bounded_witness :
  ∃ se,
    _scoreEntities name_only default_options 5000 [sample_user] ["user"%string] = [se]
    ∧ entity se = sample_user
    ∧ in_unit (s_relevance (scores se))
    ∧ in_unit (s_recency (scores se))
    ∧ in_unit (s_confidence (scores se))
    ∧ in_unit (score se).
Proof.
  destruct (entity_scores_are_bounded name_only default_options 5000 [sample_user]
              ["user"%string]) as (Hentities & Hall & _).
  { intros Hzero. discriminate Hzero. }
  destruct (_scoreEntities name_only default_options 5000 [sample_user] ["user"%string])
    as [|se [|se' rest]] eqn:Hscored; [done | | done].
  injection Hentities as Hentity. exists se.
  apply Forall_inv in Hall as (_ & Hrelevance & Hrecency & Hconfidence & Hmodel).
  destruct Hmodel as (Hrecency1 & Hconfidence1 & Hscore); [done | |].
  { rewrite Hentity. repeat constructor; unfold on_scale, not_later; simpl;
      intros ? [= <-]; lia. }
  destruct Hscore as [Hscore0 Hscore1]; [done | done | done |].
  split_and!; [done | done | done | by split | by split |].
  split; [done|]. eapply Qle_trans; [exact Hscore1|]. by vm_compute.
Defined.

(** ** The scores of relations *)

Lemma base_score_spec (topEntities : list ScoredEntity) (r : Relation.t) :
  (if JsSet.has (JsSet.of_list (map (λ e, Entity.name (entity e)) topEntities))
                (Relation.from r)
      && JsSet.has (JsSet.of_list (map (λ e, Entity.name (entity e)) topEntities))
                   (Relation.to r)
   then 1%Q else (1 # 2)%Q)
  = base_score topEntities r.
Proof.
  unfold base_score, JsSet.has.
  destruct (decide (Relation.from r ∈ map (λ e, Entity.name (entity e)) topEntities))
    as [Hf|Hf];
    destruct (decide (Relation.to r ∈ map (λ e, Entity.name (entity e)) topEntities))
      as [Ht|Ht].
  - rewrite !bool_decide_eq_true_2; [done | done | by apply of_list_elem
                                     | by apply of_list_elem].
  - rewrite (bool_decide_eq_false_2 (Relation.to r ∈ JsSet.of_list _))
      by (by rewrite of_list_elem).
    rewrite andb_false_r. rewrite bool_decide_eq_false_2; [done | tauto].
  - rewrite (bool_decide_eq_false_2 (Relation.from r ∈ JsSet.of_list _))
      by (by rewrite of_list_elem).
    rewrite andb_false_l. rewrite bool_decide_eq_false_2; [done | tauto].
  - rewrite (bool_decide_eq_false_2 (Relation.from r ∈ JsSet.of_list _))
      by (by rewrite of_list_elem).
    rewrite andb_false_l. rewrite bool_decide_eq_false_2; [done | tauto].
Qed.

(** X12.  The score of a relation, for a recency window that is not
    zero.  [_scoreRelations] keeps the relations
    and their order.  A relation starts from 1 when both its ends are
    among the top entities and from one half otherwise; a critical
    relation gains 0.3, and a relation with a time gains a recency boost
    that is never negative, and is at most 0.2 when the recency window is
    positive and the time is not later than [now].  A relation without
    attributes keeps its base score.  The score is not a number exactly
    when the relation has a time that [Date] cannot read. *)
Theorem relation_scores_are_bounded (this : Options) (now : Z)
    (relations : list Relation.t) (topEntities : list ScoredEntity) :
  ¬ (recencyWindow this == 0)%Q →
  Forall2
    (λ r sr,
       relation sr = r
       ∧ (relation_score sr = None ↔ relation_time r = TsInvalid)
       ∧ ∀ s, relation_score sr = Some s →
           (base_score topEntities r <= s)%Q
           ∧ (Relation.attributes r = None → s = base_score topEntities r)
           ∧ ((0 < recencyWindow this)%Q → not_later now (relation_time r) →
              (s <= base_score topEntities r + (3 # 10) + (2 # 10))%Q
              ∧ (critical_relation r = false →
                 (s <= base_score topEntities r + (2 # 10))%Q)))
    relations (_scoreRelations this now relations topEntities).
Proof.
  intros _.
  unfold _scoreRelations. cbv zeta. apply Forall2_fmap_r, Forall_Forall2_diag.
  apply Forall_forall. intros r _. unfold compose. cbn [relation relation_score].
  rewrite base_score_spec. set (base := base_score topEntities r).
  unfold relation_time, critical_relation, not_later.
  split; [done|].
  destruct (Relation.attributes r) as [a|]; [|split; [done|]; intros s [= <-]; split_and!;
    [lra | done | intros; split; [lra | intros; lra]]].
  set (marked := if Relation.is_critical a then (base + (3 # 10))%Q else base).
  assert (Hmarked : (base <= marked)%Q ∧ (marked <= base + (3 # 10))%Q
                    ∧ (Relation.is_critical a = false → marked = base)).
  { unfold marked. destruct (Relation.is_critical a); split_and!; (lra || done). }
  destruct Hmarked as (Hlo & Hhi & Hplain).
  destruct (Relation.time a) as [| |t] eqn:Htime; cbn [ts_truthy getTime].
  - split; [done|]. intros s [= <-]. split_and!; [done | done |].
    intros _ _. split; [lra|]. intros Hc. rewrite (Hplain Hc). lra.
  - split; [done|]. done.
  - split; [done|]. intros s [= <-].
    pose proof (Q.le_max_l 0 ((2 # 10) * (1 - days_between now t / recencyWindow this))) as Hb.
    split_and!; [lra | done |]. intros Hw Hlater.
    assert (Hboost : (Qmax 0 ((2 # 10) * (1 - days_between now t / recencyWindow this))
                      <= 2 # 10)%Q).
    { pose proof (recency_of_days_unit (recencyWindow this) (days_between now t) Hw
                    (days_between_nonneg now t (Hlater t eq_refl))) as [_ Hunit].
      unfold recency_of_days in Hunit.
      destruct (Q.max_spec 0 (1 - days_between now t / recencyWindow this))
        as [[Hlt Heq]|[Hle Heq]]; rewrite Heq in Hunit;
        destruct (Q.max_spec 0 ((2 # 10) * (1 - days_between now t / recencyWindow this)))
          as [[Hlt' ->]|[Hle' ->]]; lra. }
    split; [lra|]. intros Hc. rewrite (Hplain Hc). lra.
Qed.

(** X12 on the critical relation of the sample: it connects two top
    entities and is fifteen days old in a window of thirty, so it scores
    1 + 0.3 + 0.1. *)
Lemma relation_scores_are_bounded_witness :
  ∃ sr,
    _scoreRelations default_options (30 * ms_per_day) [sample_relation] sample_top = [sr]
    ∧ relation sr = sample_relation
    ∧ ∃ s, relation_score sr = Some s ∧ (1 <= s)%Q ∧ (s <= 15 # 10)%Q.
Proof.
  pose proof (relation_scores_are_bounded default_options (30 * ms_per_day)
                [sample_relation] sample_top) as Hall.
  assert (Hwindow : ¬ (recencyWindow default_options == 0)%Q)
    by (intros Hzero; discriminate Hzero).
  specialize (Hall Hwindow).
  apply Forall2_cons_inv_l in Hall as (sr & rest & (Hr & _ & Hs) & Hrest & Heq).
  apply Forall2_nil_inv_l in Hrest as ->.
  exists sr. split_and!; [done | done |].
  destruct (relation_score sr) as [s|] eqn:Hscore.
  - exists s. destruct (Hs s eq_refl) as (Hlo & _ & Hhi).
    destruct Hhi as [Hhi _]; [done | by intros t [= <-] |].
    assert (Hbase : base_score sample_top sample_relation = 1%Q) by (by vm_compute).
    rewrite Hbase in Hlo, Hhi. split_and!; [done | done | lra].
  - vm_compute in Heq. injection Heq as <-. discriminate Hscore.
Defined.

(** ** The answer of general retrieval *)

Section Answer.
Variable stringify : Entity.t → string.
Context {G : Type} `{KnowledgeGraph G}.
Variable this : Options.
Variable now : Z.
Variable knowledgeGraph : G.

(** The entities that general retrieval starts from. *)
Lemma relevant_body_eq (context : Context) (targetEntities : list string)
    (options : Overrides) :
  ∃ start : Result (list Entity.t),
    (targetEntities = [] →
     ∀ entities, start = Ok entities → NoDup (map Entity.name entities))
    ∧ ∀ options,
        relevant_body stringify this now knowledgeGraph context targetEntities options
        = (start ≫= λ entities,
           let keywords := _extractKeywords context in
           let topEntities :=
             JsArray.slice0 (maxEntities (merge this options))
               (JsArray.sort (λ a b, descending (Some (score a)) (Some (score b)))
                             (_scoreEntities stringify this now entities keywords)) in
           foldM (λ relations e,
                    getEntityRelations knowledgeGraph (Entity.name (entity e))
                    ≫= λ entityRelations, Ok (relations ++ entityRelations))
                 topEntities [] ≫= λ relations,
           Ok {| Relevant.entities :=
                   map (λ e, mkRetrieved e
                               (_filterAndSortObservations now
                                  (Entity.observations (entity e)) keywords
                                  (merge this options)))
                       topEntities;
                 Relevant.relations :=
                   JsArray.slice0 (maxRelations (merge this options))
                     (JsArray.sort
                        (λ a b, descending (relation_score a) (relation_score b))
                        (_scoreRelations this now relations topEntities));
                 Relevant.context := Some (keywords, merge this options);
                 Relevant.error := None |}).
Proof.
  unfold relevant_body. cbv zeta. eexists. split; [|intros o; reflexivity].
  intros -> entities. simpl.
  destruct (foldM _ (_extractKeywords context) []) as [found|e]; [|done].
  rewrite bind_Ok. intros [= <-].
  unfold _removeDuplicateEntities. by destruct (dedup_spec found []) as [? _].
Qed.
End Answer.

Lemma take_names_nodup {A : Type} (f : A → string) (k : nat) (l l' : list A) :
  l ≡ₚ l' → NoDup (map f l') → NoDup (map f (take k l)).
Proof.
  intros Hperm Hnd. eapply sublist_NoDup.
  - rewrite <- (Permutation_map f Hperm) in Hnd. exact Hnd.
  - apply (fmap_sublist f), sublist_take.
Qed.

(** X13.  What the options of one call can change.  The entities that
    general retrieval returns, their scores, their order, and the
    relations with their scores depend on the options of the call through
    [maxEntities] and [maxRelations] only: the weights and the recency
    window given with the call do not reach the ranking, which uses those
    of the service. *)
Theorem ranking_ignores_call_weights (stringify : Entity.t → string)
    {G : Type} `{KnowledgeGraph G} (this : Options) (now : Z) (knowledgeGraph : G)
    (context : Context) (targetEntities : list string) (options1 options2 : Overrides) :
  set_maxEntities options1 = set_maxEntities options2 →
  set_maxRelations options1 = set_maxRelations options2 →
  let result1 :=
    retrieveRelevantMemories stringify this now knowledgeGraph context targetEntities
      options1 in
  let result2 :=
    retrieveRelevantMemories stringify this now knowledgeGraph context targetEntities
      options2 in
  map of_entity (Relevant.entities result1) = map of_entity (Relevant.entities result2)
  ∧ Relevant.relations result1 = Relevant.relations result2
  ∧ Relevant.error result1 = Relevant.error result2.
Proof.
  intros HE HR result1 result2. unfold result1, result2, retrieveRelevantMemories.
  destruct (relevant_body_eq stringify this now knowledgeGraph context targetEntities
              options1) as (start & _ & Hbody).
  rewrite !Hbody. destruct start as [entities|e]; [|done].
  rewrite !bind_Ok. cbv zeta.
  assert (HmaxE : maxEntities (merge this options1) = maxEntities (merge this options2))
    by (unfold merge; simpl; by rewrite HE).
  assert (HmaxR : maxRelations (merge this options1) = maxRelations (merge this options2))
    by (unfold merge; simpl; by rewrite HR).
  rewrite HmaxE, HmaxR.
  destruct (foldM _ _ []) as [relations|e]; [|done].
  rewrite !bind_Ok. cbn [Relevant.entities Relevant.relations Relevant.error].
  split_and!; [|done|done].
  rewrite !map_map. done.
Qed.

(** X13 on the sample graph: the answer to a call that sets its own
    weights and recency window ranks as the answer to a plain call. *)
Lemma ranking_ignores_call_weights_witness :
  map of_entity
    (Relevant.entities
       (retrieveRelevantMemories name_only default_options 5000 sample_graph
          (ContextString "user likes green tea") [] reweighted))
  = map of_entity
      (Relevant.entities
         (retrieveRelevantMemories name_only default_options 5000 sample_graph
            (ContextString "user likes green tea") [] no_overrides)).
Proof.
  destruct (ranking_ignores_call_weights name_only default_options 5000 sample_graph
              (ContextString "user likes green tea") [] reweighted no_overrides)
    as (Hentities & _); [reflexivity | reflexivity |].
  exact Hentities.
Defined.

Lemma filter_and_sort_sorted (now : Z) (observations : list Observation)
    (keywords : list string) (options : Options) :
  ¬ (recencyWindow options == 0)%Q →
  Forall (λ o, timestamp o ≠ TsInvalid) observations →
  StronglySorted (score_before obs_score)
    (_filterAndSortObservations now observations keywords options).
Proof.
  intros _ Hread. unfold _filterAndSortObservations.
  destruct observations as [|o0 l] eqn:Hobs; [constructor|]. rewrite <- Hobs in *.
  apply slice0_sorted. apply descending_sorted. apply Forall_forall.
  intros so (o & -> & [_ Ho]%list_elem_of_filter)%list_elem_of_fmap. cbn [obs_score].
  pose proof (proj1 (Forall_forall _ _) Hread o Ho) as Hts.
  unfold observation_score, num_add.
  cbv beta in Hts.
  destruct (timestamp o); cbn [ts_truthy getTime option_map]; [eauto | by destruct Hts | eauto].
Qed.

(** X14.  The entities of general retrieval, for recency windows, that
    of the service and that of the merged options, that are not zero.
    When no target entity is
    given, the entities of the answer have names that are all different.
    In every case an entity of the answer carries the observations that
    the observation filter selects among its own: at most
    [maxObservationsPerEntity] of them, for a limit that is not negative,
    each with a confidence of at least [minConfidence], an absent one
    counting as 0, and sorted by descending score when [Date] can read
    every timestamp of the entity. *)
Theorem relevant_entities_are_filtered (stringify : Entity.t → string)
    {G : Type} `{KnowledgeGraph G} (this : Options) (now : Z) (knowledgeGraph : G)
    (context : Context) (targetEntities : list string) (options : Overrides) :
  ¬ (recencyWindow this == 0)%Q →
  ¬ (recencyWindow (merge this options) == 0)%Q →
  let result :=
    retrieveRelevantMemories stringify this now knowledgeGraph context targetEntities
      options in
  (targetEntities = [] → NoDup (map retrieved_name (Relevant.entities result)))
  ∧ ∀ r, r ∈ Relevant.entities result →
      observations r
      = _filterAndSortObservations now (Entity.observations (entity (of_entity r)))
          (_extractKeywords context) (merge this options)
      ∧ (∀ so, so ∈ observations r →
           obs so ∈ Entity.observations (entity (of_entity r))
           ∧ (minConfidence (merge this options) <= num_or (confidence (obs so)) 0)%Z)
      ∧ ((0 <= maxObservationsPerEntity (merge this options))%Z →
         (Z.of_nat (length (observations r))
          <= maxObservationsPerEntity (merge this options))%Z)
      ∧ (Forall (λ o, timestamp o ≠ TsInvalid)
                (Entity.observations (entity (of_entity r))) →
         StronglySorted (score_before obs_score) (observations r)).
Proof.
  intros _ Hwindow result. unfold result, retrieveRelevantMemories.
  destruct (relevant_body_eq stringify this now knowledgeGraph context targetEntities
              options) as (start & Hstart & Hbody).
  rewrite Hbody. destruct start as [entities|e];
    [|split; [intros _; constructor | by intros r ?%elem_of_nil]].
  rewrite bind_Ok. cbv zeta. destruct (foldM _ _ []) as [relations|e];
    [|split; [intros _; constructor | by intros r ?%elem_of_nil]].
  rewrite bind_Ok. cbn [Relevant.entities]. split.
  - intros Hnone. specialize (Hstart Hnone entities eq_refl).
    rewrite map_map. unfold retrieved_name. cbn [of_entity].
    destruct (slice0_prefix (maxEntities (merge this options))
                (JsArray.sort (λ a b, descending (Some (score a)) (Some (score b)))
                              (_scoreEntities stringify this now entities
                                 (_extractKeywords context)))) as [k ->].
    apply (take_names_nodup (λ e, Entity.name (entity e)) k _
             (_scoreEntities stringify this now entities (_extractKeywords context)));
      [apply sort_perm|].
    unfold _scoreEntities. rewrite map_map. done.
  - intros r (e & -> & _)%list_elem_of_fmap. cbn [observations of_entity].
    split_and!; [done | | |].
    + intros so Hso. by apply filter_and_sort_spec in Hso.
    + apply filter_and_sort_length.
    + by apply filter_and_sort_sorted.
Qed.

(** X14 on the sample graph, with the default options: the names of the
    entities of the answer are different and the observations of each
    are sorted by descending score. *)
Lemma relevant_entities_are_filtered_witness :
  let result :=
    retrieveRelevantMemories name_only default_options 5000 sample_graph
      (ContextString "user likes green tea") [] no_overrides in
  NoDup (map retrieved_name (Relevant.entities result))
  ∧ Forall (λ r, StronglySorted (score_before obs_score) (observations r))
           (Relevant.entities result).
Proof.
  intros result.
  destruct (relevant_entities_are_filtered name_only default_options 5000 sample_graph
              (ContextString "user likes green tea") [] no_overrides) as [Hnames Hall].
  { intros Hzero. discriminate Hzero. }
  { intros Hzero. discriminate Hzero. }
  fold result in Hnames, Hall.
  split; [by apply Hnames|].
  assert (Hdated : Forall (λ r, Forall (λ o, timestamp o ≠ TsInvalid)
                                   (Entity.observations (entity (of_entity r))))
                          (Relevant.entities result)).
  { vm_compute. repeat constructor; discriminate. }
  apply Forall_forall. intros r Hr. destruct (Hall r Hr) as (_ & _ & _ & Hsorted).
  apply Hsorted. by apply (proj1 (Forall_forall _ _) Hdated r Hr).
Defined.

(** ** Retrieval by time range *)

Lemma in_range_within (now : Z) (timeRange : ByTimeRange.Range) (ts : Timestamp) :
  readable_range timeRange →
  in_range
    (if ts_truthy (ByTimeRange.startDate timeRange)
     then getTime (ByTimeRange.startDate timeRange) else Some 0%Z)
    (if ts_truthy (ByTimeRange.endDate timeRange)
     then getTime (ByTimeRange.endDate timeRange) else Some now) ts
  = within (range_from timeRange) (range_until now timeRange) ts.
Proof.
  intros [Hs He]. unfold in_range, within, range_from, range_until, num_le, num_ge.
  destruct (ByTimeRange.startDate timeRange) as [| |s]; [|done|];
    destruct (ByTimeRange.endDate timeRange) as [| |e]; try done;
    destruct ts as [| |t]; done.
Qed.

Lemma restrict_observations_ext (keep keep' : Observation → bool)
    (entities : list Entity.t) :
  (∀ o, keep o = keep' o) →
  restrict_observations keep entities = restrict_observations keep' entities.
Proof.
  intros Hext. unfold restrict_observations. f_equal. apply map_ext. intros e.
  f_equal. apply list_filter_iff. intros o. by rewrite Hext.
Qed.

(** X15.  When the graph answers and the range can be read and printed,
    [retrieveByTimeRange] returns no error; its entities are, in the order
    of the graph, those that have an observation whose timestamp lies in
    the range, each with exactly these observations; its relations are
    the relations of the graph whose time lies in the range.  A missing
    start stands for the epoch and a missing end for [now], and the answer
    prints them as ["beginning"] and as the present time.  An observation
    or a relation without a time, or with a time that [Date] cannot read,
    is never returned. *)
Theorem time_range_memories (toISOString : Z → Result string)
    {G : Type} `{KnowledgeGraph G} (now : Z) (knowledgeGraph : G)
    (timeRange : ByTimeRange.Range) (entityNames : list string)
    (entities : list Entity.t) (graph : option Graph.t) (startText endText : string) :
  candidate_entities knowledgeGraph entityNames = Ok entities →
  exportGraph knowledgeGraph = Ok graph →
  bound_text toISOString (Ok "beginning"%string) (ByTimeRange.startDate timeRange)
  = Ok startText →
  bound_text toISOString (toISOString now) (ByTimeRange.endDate timeRange)
  = Ok endText →
  let result := retrieveByTimeRange toISOString now knowledgeGraph timeRange entityNames in
  let keep := within (range_from timeRange) (range_until now timeRange) in
  ByTimeRange.error result = None
  ∧ ByTimeRange.timeRange result = ByTimeRange.Formatted startText endText
  ∧ Forall2 (restricted (λ o, keep (timestamp o)))
      (filter (λ e, existsb (λ o, keep (timestamp o)) (Entity.observations e) = true)
              entities)
      (ByTimeRange.entities result)
  ∧ (∀ r o, r ∈ ByTimeRange.entities result → o ∈ Entity.observations r →
       ∃ t, timestamp o = TsAt t
            ∧ (range_from timeRange <= t <= range_until now timeRange)%Z)
  ∧ ByTimeRange.relations result
    = filter (λ r, keep (relation_time r) = true) (graph_relations graph).
Proof.
  intros Hentities Hgraph Hstart Hend result keep.
  assert (Hread : readable_range timeRange).
  { split; intros Hbad; [rewrite Hbad in Hstart | rewrite Hbad in Hend]; done. }
  assert (Hresult : result
            = {| ByTimeRange.timeRange := ByTimeRange.Formatted startText endText;
                 ByTimeRange.entities :=
                   restrict_observations (λ o, keep (timestamp o)) entities;
                 ByTimeRange.relations :=
                   filter (λ r, keep (relation_time r) = true) (graph_relations graph);
                 ByTimeRange.error := None |}).
  { unfold result, retrieveByTimeRange, time_range_body, exported_relations. cbv zeta.
    rewrite Hentities, bind_Ok, Hgraph, !bind_Ok.
    unfold bound_text in Hstart, Hend. rewrite Hstart, bind_Ok, Hend, bind_Ok.
    f_equal.
    - apply restrict_observations_ext. intros o. by apply in_range_within.
    - unfold graph_relations. destruct graph as [[es [rs|]]|]; try done. simpl.
      apply list_filter_iff. intros r. unfold relation_time.
      destruct (Relation.attributes r) as [a|]; [|done].
      by rewrite in_range_within. }
  rewrite Hresult. cbn [ByTimeRange.error ByTimeRange.timeRange ByTimeRange.entities
                        ByTimeRange.relations].
  split_and!; [done | done | apply restrict_observations_spec | | done].
  intros r o (e & _ & _ & _ & Hobs)%restrict_observations_elem Ho.
  rewrite Hobs in Ho. apply list_elem_of_filter in Ho as [Hk _].
  unfold keep, within in Hk. destruct (timestamp o) as [| |t]; [done | done |].
  exists t. split; [done|]. apply andb_true_iff in Hk as [?%Z.leb_le ?%Z.leb_le]. lia.
Qed.

(** X15 on the sample graph, for the range that ends at the time 2500:
    the user comes back with the two observations made until then. *)
Lemma time_range_memories_witness :
  map (λ e, map content (Entity.observations e))
      (ByTimeRange.entities
         (retrieveByTimeRange epoch_iso 5000 sample_graph
            (ByTimeRange.mkRange TsMissing (TsAt 2500)) []))
  = [[Some "is allergic to nuts"%string; Some "likes green tea"%string]]
  ∧ ∀ r o,
      r ∈ ByTimeRange.entities
            (retrieveByTimeRange epoch_iso 5000 sample_graph
               (ByTimeRange.mkRange TsMissing (TsAt 2500)) []) →
      o ∈ Entity.observations r →
      ∃ t, timestamp o = TsAt t ∧ (0 <= t <= 2500)%Z.
Proof.
  split; [reflexivity|].
  destruct (time_range_memories epoch_iso 5000 sample_graph
              (ByTimeRange.mkRange TsMissing (TsAt 2500)) []
              (MemoryGraph.entities sample_graph)
              (Some {| Graph.entities := Some (MemoryGraph.entities sample_graph);
                       Graph.relations := Some (MemoryGraph.relations sample_graph) |})
              "beginning" "1970-01-01T00:00:00.000Z")
    as (_ & _ & _ & Hall & _); [reflexivity | reflexivity | reflexivity | reflexivity |].
  exact Hall.
Defined.

(** X16.  A bound of the range that [Date] cannot read makes the whole
    retrieval fail, even when the graph answers: the answer has no entity
    and no relation, carries an error message, and gives the range back
    as it was given. *)
Theorem unreadable_range_fails (toISOString : Z → Result string)
    {G : Type} `{KnowledgeGraph G} (now : Z) (knowledgeGraph : G)
    (timeRange : ByTimeRange.Range) (entityNames : list string) :
  ¬ readable_range timeRange →
  let result := retrieveByTimeRange toISOString now knowledgeGraph timeRange entityNames in
  ByTimeRange.entities result = []
  ∧ ByTimeRange.relations result = []
  ∧ is_Some (ByTimeRange.error result)
  ∧ ByTimeRange.timeRange result = ByTimeRange.AsGiven timeRange.
Proof.
  intros Hbad result.
  assert (Hthrow : ∃ e, time_range_body toISOString now knowledgeGraph timeRange entityNames
                        = Throw e).
  { unfold time_range_body. cbv zeta.
    destruct (candidate_entities knowledgeGraph entityNames) as [entities|e]; [|by eexists].
    rewrite bind_Ok.
    destruct (exported_relations _ _) as [relations|e]; [|by eexists].
    rewrite bind_Ok.
    destruct (ByTimeRange.startDate timeRange) as [| |s] eqn:Hs; [|by eexists|].
    - rewrite bind_Ok.
      destruct (ByTimeRange.endDate timeRange) as [| |e] eqn:He; [|by eexists|].
      + destruct Hbad. split; congruence.
      + destruct Hbad. split; congruence.
    - destruct (toISOString s) as [text|e]; [|by eexists]. rewrite bind_Ok.
      destruct (ByTimeRange.endDate timeRange) as [| |e] eqn:He; [|by eexists|].
      + destruct Hbad. split; congruence.
      + destruct Hbad. split; congruence. }
  destruct Hthrow as [e He]. unfold result, retrieveByTimeRange. rewrite He.
  cbn. split_and!; [done | done | by eexists | done].
Qed.

(** X16 for a start that is not a date, on the sample graph. *)
Lemma unreadable_range_fails_witness :
  ByTimeRange.entities
    (retrieveByTimeRange epoch_iso 5000 sample_graph
       (ByTimeRange.mkRange TsInvalid TsMissing) []) = []
  ∧ is_Some (ByTimeRange.error
               (retrieveByTimeRange epoch_iso 5000 sample_graph
                  (ByTimeRange.mkRange TsInvalid TsMissing) [])).
Proof.
  destruct (unreadable_range_fails epoch_iso 5000 sample_graph
              (ByTimeRange.mkRange TsInvalid TsMissing) [])
    as (Hentities & _ & Herror & _).
  - intros [Hstart _]. by apply Hstart.
  - by split.
Defined.

(** ** The name, type and category of a group *)

Section GroupHeads.
Variable this : CompressionEngine.t.
Variable now : Z.

Lemma members_of_snoc key items item :
  members_of this now key (items ++ [item])
  = members_of this now key items
    ++ (if decide (eligible this now (Pending.observation item) = true
                   ∧ groupKey item = key)
        then [item] else []).
Proof.
  unfold members_of. by rewrite filter_app.
Qed.

Lemma eligible_for_members key items :
  eligible_for this now key items = map Pending.observation (members_of this now key items).
Proof. reflexivity. Qed.

Lemma eligible_keys_snoc items item :
  eligible_keys this now (items ++ [item])
  = eligible_keys this now items
    ++ (if eligible this now (Pending.observation item) then [groupKey item] else []).
Proof.
  unfold eligible_keys. rewrite filter_app, map_app. f_equal.
  rewrite filter_cons, filter_nil.
  destruct (eligible this now (Pending.observation item)); by case_decide.
Qed.

Lemma of_list_snoc (l : list string) (x : string) :
  JsSet.of_list (l ++ [x]) = JsSet.add (JsSet.of_list l) x.
Proof. unfold JsSet.of_list. by rewrite fold_left_app. Qed.

Lemma group_heads items :
  let groups := _groupObservations this now items in
  map fst groups = JsSet.of_list (eligible_keys this now items)
  ∧ ∀ key g, JsObject.get groups key = Some g →
      key = (Group.entityName g ++ ":" ++ Group.category g)%string
      ∧ ∃ first, head (members_of this now key items) = Some first
                 ∧ opened_by first g.
Proof.
  induction items as [|item items IH] using rev_ind; [by split|].
  pose proof (grouped_all this now items) as [Hnd Hgrouped].
  cbv zeta in *. unfold _groupObservations in *. rewrite fold_left_app. simpl.
  destruct IH as [Hkeys IH].
  set (groups := fold_left (group_step this now) items []) in *.
  rewrite eligible_keys_snoc.
  destruct (eligible this now (Pending.observation item)) eqn:He.
  - destruct (group_step_keep this now groups item He) as (g' & Hstep & _).
    assert (Hg' : ∀ g0, JsObject.get groups (groupKey item) = Some g0 →
                    Group.entityName g' = Group.entityName g0
                    ∧ Group.entityType g' = Group.entityType g0
                    ∧ Group.category g' = Group.category g0).
    { intros g0 Hg0. unfold group_step in Hstep.
      unfold eligible in He.
      apply andb_true_iff in He as [[Hc%negb_true_iff Hm%negb_true_iff]%andb_true_iff
                                      Ha%negb_true_iff].
      rewrite Hc, Hm, Ha, Hg0 in Hstep.
      assert (Hget : JsObject.get (JsObject.set groups (groupKey item) g') (groupKey item)
                     = Some g') by apply get_set_eq.
      rewrite <- Hstep, get_set_eq in Hget. by injection Hget as <-. }
    assert (Hnew : JsObject.get groups (groupKey item) = None →
                   opened_by item g'
                   ∧ groupKey item = (Group.entityName g' ++ ":" ++ Group.category g')%string).
    { intros Hnone. unfold group_step in Hstep.
      unfold eligible in He.
      apply andb_true_iff in He as [[Hc%negb_true_iff Hm%negb_true_iff]%andb_true_iff
                                      Ha%negb_true_iff].
      rewrite Hc, Hm, Ha, Hnone in Hstep.
      assert (Hget : JsObject.get (JsObject.set groups (groupKey item) g') (groupKey item)
                     = Some g') by apply get_set_eq.
      rewrite <- Hstep, get_set_eq in Hget. injection Hget as <-. by split. }
    rewrite Hstep. split.
    + rewrite set_keys, of_list_snoc, <- Hkeys. unfold JsSet.add, JsSet.has.
      destruct (JsObject.get groups (groupKey item)) eqn:Hget.
      * rewrite bool_decide_eq_true_2; [done|].
        destruct (decide (groupKey item ∈ map fst groups)) as [?|Hout]; [done|].
        apply get_None_keys in Hout. congruence.
      * rewrite bool_decide_eq_false_2; [done|]. by apply get_None_keys.
    + intros key g. rewrite members_of_snoc.
      destruct (decide (groupKey item = key)) as [<-|Hne].
      * rewrite get_set_eq. intros [= <-]. rewrite decide_True by (by rewrite He).
        destruct (JsObject.get groups (groupKey item)) as [g0|] eqn:Hget.
        -- destruct (IH _ _ Hget) as (Hkey & first & Hfirst & Hn & Ht & Hc).
           destruct (Hg' g0 eq_refl) as (Hn' & Ht' & Hc').
           split; [by rewrite Hn', Hc'|]. exists first. split.
           ++ destruct (members_of this now (groupKey item) items); [done | done].
           ++ unfold opened_by. by rewrite Hn', Ht', Hc'.
        -- destruct (Hnew eq_refl) as [Hopened Hkey]. split; [done|].
           exists item. split; [|done].
           specialize (Hgrouped (groupKey item)). rewrite Hget in Hgrouped.
           rewrite eligible_for_members in Hgrouped.
           apply fmap_nil_inv in Hgrouped. by rewrite Hgrouped.
      * rewrite get_set_ne by done. rewrite decide_False by tauto.
        rewrite app_nil_r. apply IH.
    - rewrite group_step_skip by done. rewrite app_nil_r. split; [done|].
      intros key g. rewrite members_of_snoc.
      rewrite decide_False by (intros [? _]; congruence).
      rewrite app_nil_r. apply IH.
Qed.
End GroupHeads.

(** X17.  The groups of [_groupObservations] appear in the order in which
    their keys first occur among the pending items that pass the filter.
    A group carries the entity name, the entity type and the category of
    the first of these items that has its key, and its key is its name,
    a colon and its category; the type that a later item gives to the
    same entity is not kept. *)
Theorem groups_carry_their_first_item (this : CompressionEngine.t) (now : Z)
    (pending : list Pending.t) :
  map fst (_groupObservations this now pending)
  = JsSet.of_list (eligible_keys this now pending)
  ∧ ∀ key g, JsObject.get (_groupObservations this now pending) key = Some g →
      key = (Group.entityName g ++ ":" ++ Group.category g)%string
      ∧ ∃ first, head (members_of this now key pending) = Some first
                 ∧ opened_by first g
                 ∧ Group.observations g
                   = map Pending.observation (members_of this now key pending).
Proof.
  destruct (group_heads this now pending) as [Hkeys Hheads]. split; [done|].
  intros key g Hg. destruct (Hheads key g Hg) as (Hkey & first & Hfirst & Hopened).
  split; [done|]. exists first. split_and!; [done | done |].
  destruct (grouped_all this now pending) as [_ Hgrouped]. specialize (Hgrouped key).
  rewrite Hg in Hgrouped. by destruct Hgrouped as [-> _].
Qed.

(** X17 on two items that give two types to one entity: the group keeps
    the first. *)
Lemma groups_carry_their_first_item_witness :
  ∃ g, JsObject.get (_groupObservations default_engine 0 retyped_pending) "user:general"
       = Some g
       ∧ Group.entityType g = "Person"%string
       ∧ length (Group.observations g) = 2.
Proof.
  destruct (groups_carry_their_first_item default_engine 0 retyped_pending) as [_ Hheads].
  destruct (JsObject.get (_groupObservations default_engine 0 retyped_pending)
              "user:general") as [g|] eqn:Hg; [|by vm_compute in Hg].
  exists g. split; [done|].
  destruct (Hheads _ g Hg) as (_ & first & Hfirst & (_ & Htype & _) & Hobs).
  vm_compute in Hfirst. injection Hfirst as <-. split; [exact Htype|].
  rewrite Hobs. reflexivity.
Defined.

(** ** The score of an observation *)

Lemma observation_matches (keywords : list string) (o : Observation) (m : nat) :
  fold_left
    (λ score keyword,
       match content o with
       | Some text =>
           if negb (String.eqb text EmptyString)
              && Str.includes (Str.toLowerCase text) (Str.toLowerCase keyword)
           then (score + 1)%nat else score
       | None => score
       end)
    keywords m
  = m + keyword_matches keywords o.
Proof.
  unfold keyword_matches, includes_keyword. revert m.
  induction keywords as [|k keywords IH]; intros m; simpl; [lia|].
  rewrite IH, filter_cons. destruct (content o) as [text|]; [|rewrite decide_False by done; lia].
  destruct (negb (String.eqb text EmptyString)
            && Str.includes (Str.toLowerCase text) (Str.toLowerCase k)).
  - rewrite decide_True by done. simpl. lia.
  - rewrite decide_False by done. lia.
Qed.

Lemma keyword_matches_le (keywords : list string) (o : Observation) :
  keyword_matches keywords o ≤ length keywords.
Proof. unfold keyword_matches. apply length_filter. Qed.

(** X18.  For a recency window that is not zero, the score that the
    observation filter gives to an observation is
    the weighted sum of three parts plus a bonus of one half for a
    critical observation: the share of the keywords that its content
    includes, which is 0 for an observation without content or without
    keywords; its recency, which is 0 without a timestamp; and a fifth of
    its confidence, an absent one counting as 0.  The score is not a
    number exactly when [Date] cannot read the timestamp.  For weights
    that are not negative and a confidence between 0 and 5 the score is
    at least the bonus, and for a positive recency window and a timestamp
    that is not later than [now] it is at most the bonus plus the sum of
    the weights. *)
Theorem observation_scores_are_bounded (now : Z) (keywords : list string)
    (options : Options) (o : Observation) :
  ¬ (recencyWindow options == 0)%Q →
  (observation_score now keywords options o = None ↔ timestamp o = TsInvalid)
  ∧ ∀ s, observation_score now keywords options o = Some s →
      ∃ relevance recency,
        (s == Weights.relevance (weights options) * relevance
              + Weights.recency (weights options) * recency
              + Weights.confidence (weights options)
                * (inject_Z (num_or (confidence o) 0) / 5)
              + critical_bonus o)%Q
        ∧ relevance
          = (inject_Z (Z.of_nat (keyword_matches keywords o))
             / inject_Z (Z.of_nat (Nat.max 1 (length keywords))))%Q
        ∧ in_unit relevance
        ∧ (0 <= recency)%Q
        ∧ (timestamp o = TsMissing → recency = 0%Q)
        ∧ (fair_weights (weights options) → rated o →
           (critical_bonus o <= s)%Q
           ∧ ((0 < recencyWindow options)%Q → not_later now (timestamp o) →
              (s <= critical_bonus o
                    + (Weights.relevance (weights options)
                       + Weights.recency (weights options)
                       + Weights.confidence (weights options)))%Q)).
Proof.
  intros _.
  unfold observation_score. cbv zeta. rewrite observation_matches. simpl Nat.add.
  set (relevance := (inject_Z (Z.of_nat (keyword_matches keywords o))
                     / inject_Z (Z.of_nat (Nat.max 1 (length keywords))))%Q).
  assert (Hrel : in_unit relevance).
  { apply ratio_in_unit; [|lia]. pose proof (keyword_matches_le keywords o). lia. }
  fold (critical_bonus o).
  assert (Hconf : rated o →
                  (0 <= inject_Z (num_or (confidence o) 0) / 5)%Q
                  ∧ (inject_Z (num_or (confidence o) 0) / 5 <= 1)%Q).
  { intros Hrated. apply (ratio_in_unit _ 5); [|lia].
    unfold rated in Hrated. destruct (confidence o) as [c|]; simpl; [|lia].
    specialize (Hrated c eq_refl). destruct c; simpl; lia. }
  assert (Hbonus : (0 <= critical_bonus o)%Q).
  { unfold critical_bonus. destruct (is_critical o); lra. }
  destruct Hrel as [Hr0 Hr1].
  destruct (timestamp o) as [| |t] eqn:Hts; cbn [ts_truthy getTime option_map num_add].
  - split; [done|]. intros s [= <-]. exists relevance, 0%Q.
    split_and!; [reflexivity | done | by split | lra | done |].
    intros (Hwr & Hwc & Hwf) [Hc0 Hc1]%Hconf.
    set (c := (inject_Z (num_or (confidence o) 0) / 5)%Q) in *.
    split; [nra|]. intros _ _. nra.
  - split; [done|]. done.
  - split; [done|]. intros s [= <-].
    exists relevance, (recency_of_days (recencyWindow options) (days_between now t)).
    pose proof (Q.le_max_l 0 (1 - days_between now t / recencyWindow options)) as Hrec0.
    fold (recency_of_days (recencyWindow options) (days_between now t)) in Hrec0.
    split_and!; [reflexivity | done | by split | done | done |].
    intros (Hwr & Hwc & Hwf) [Hc0 Hc1]%Hconf.
    set (c := (inject_Z (num_or (confidence o) 0) / 5)%Q) in *.
    set (d := recency_of_days (recencyWindow options) (days_between now t)) in *.
    split; [nra|]. intros Hw Hlater.
    assert (Hd : (d <= 1)%Q).
    { apply recency_of_days_unit; [done|]. apply days_between_nonneg. by apply Hlater. }
    nra.
Qed.

(** X18 on the allergy of the user of the sample, which is critical and
    holds the one keyword: its score is a number between the bonus and
    the bonus plus the sum of the default weights. *)
Lemma observation_scores_are_bounded_witness :
  ∃ s,
    observation_score 5000 ["allergic"%string] default_options
      (mkObservation (Some "is allergic to nuts"%string) (TsAt 1000) (Some 5%Z)
                     (Some "identity"%string) true) = Some s
    ∧ (1 # 2 <= s)%Q ∧ (s <= 3 # 2)%Q.
Proof.
  set (o := mkObservation (Some "is allergic to nuts"%string) (TsAt 1000) (Some 5%Z)
                          (Some "identity"%string) true).
  destruct (observation_scores_are_bounded 5000 ["allergic"%string] default_options o)
    as [Hnan Hscore].
  { intros Hzero. discriminate Hzero. }
  destruct (observation_score 5000 ["allergic"%string] default_options o) as [s|] eqn:Hs.
  - exists s. split; [done|].
    destruct (Hscore s eq_refl) as (relevance & recency & _ & _ & _ & _ & _ & Hbounds).
    destruct Hbounds as [Hlow Hhigh].
    { unfold fair_weights. simpl. split_and!; by vm_compute. }
    { unfold rated. simpl. intros c [= <-]. lia. }
    split; [exact Hlow|].
    eapply Qle_trans; [apply Hhigh; [done|]|by vm_compute].
    unfold not_later. simpl. intros t [= <-]. lia.
  - by apply proj1 in Hnan; specialize (Hnan eq_refl).
Defined.

(** ** Retrieval for named entities *)

Lemma fetch_named {G : Type} `{KnowledgeGraph G} (knowledgeGraph : G)
    (names : list string) :
  (∀ n, n ∈ names → ∃ found, getEntity knowledgeGraph n = Ok found) →
  fetch_entities knowledgeGraph names = Ok (named knowledgeGraph names).
Proof.
  unfold fetch_entities, named.
  assert (Hgen : ∀ acc,
            (∀ n, n ∈ names → ∃ found, getEntity knowledgeGraph n = Ok found) →
            foldM (λ entities entityName,
                     getEntity knowledgeGraph entityName ≫= λ found,
                     Ok (match found with
                         | Some e => entities ++ [e]
                         | None => entities
                         end))
                  names acc
            = Ok (acc ++ omap (λ entityName,
                                 match getEntity knowledgeGraph entityName with
                                 | Ok found => found
                                 | Throw _ => None
                                 end) names)).
  { induction names as [|n names IH]; intros acc Hall; [simpl; by rewrite app_nil_r|].
    rewrite foldM_cons. destruct (Hall n ltac:(by left)) as [found Hn].
    cbn [omap list_omap]. rewrite Hn, !bind_Ok.
    rewrite IH by (intros m Hm; apply Hall; by right).
    destruct found; [by rewrite <- app_assoc | done]. }
  intros Hall. by rewrite (Hgen [] Hall).
Qed.

(** X19.  Retrieval for named entities.  When entity names are given and
    the graph answers for each of them, the three specialised retrievals
    start from the entities that the graph knows under these names, in
    the order of the names.  [retrieveByCategory] then never exports the
    graph: it returns no error even when the export fails.
    [retrieveCriticalMemories] and [retrieveByTimeRange] still export it
    for the relations, and a failure of the export empties their
    answer. *)
Theorem named_retrieval_and_the_export (toISOString : Z → Result string)
    {G : Type} `{KnowledgeGraph G} (this : Options) (now : Z) (knowledgeGraph : G)
    (category : option string) (timeRange : ByTimeRange.Range)
    (entityNames : list string) (options : Overrides) :
  entityNames ≠ [] →
  (∀ n, n ∈ entityNames → ∃ found, getEntity knowledgeGraph n = Ok found) →
  candidate_entities knowledgeGraph entityNames = Ok (named knowledgeGraph entityNames)
  ∧ (let result := retrieveByCategory this now knowledgeGraph category entityNames options in
     ByCategory.error result = None
     ∧ map of_entity (ByCategory.entities result)
       = restrict_observations (λ o, bool_decide (category_of o = category))
           (named knowledgeGraph entityNames))
  ∧ (∀ e, exportGraph knowledgeGraph = Throw e →
       (let result := retrieveCriticalMemories knowledgeGraph entityNames in
        Critical.entities result = [] ∧ Critical.relations result = []
        ∧ Critical.error result = Some (message_of e))
       ∧ (let result :=
            retrieveByTimeRange toISOString now knowledgeGraph timeRange entityNames in
          ByTimeRange.entities result = [] ∧ ByTimeRange.relations result = []
          ∧ ByTimeRange.error result = Some (message_of e))).
Proof.
  intros Hne Hall.
  assert (Hstart : candidate_entities knowledgeGraph entityNames
                   = Ok (named knowledgeGraph entityNames)).
  { unfold candidate_entities. destruct entityNames as [|n names]; [done|].
    cbn [length Nat.ltb Nat.leb]. by apply fetch_named. }
  split_and!; [done | |].
  - cbv zeta. unfold retrieveByCategory, category_body. rewrite Hstart, bind_Ok.
    cbn [ByCategory.error ByCategory.entities]. split; [done|].
    rewrite map_map. cbn [of_entity]. apply map_id.
  - intros e He. split.
    + cbv zeta. unfold retrieveCriticalMemories, critical_body, exported_relations.
      by rewrite Hstart, bind_Ok, He.
    + cbv zeta. unfold retrieveByTimeRange, time_range_body, exported_relations.
      cbv zeta. by rewrite Hstart, bind_Ok, He.
Qed.

(** X19 on a graph that cannot be exported: retrieval by category answers
    for the named user, critical retrieval does not. *)
Lemma named_retrieval_and_the_export_witness :
  ByCategory.error
    (retrieveByCategory default_options 5000 (Directory.mk [sample_user])
       (Some "preference"%string) ["user"%string] no_overrides) = None
  ∧ Critical.error (retrieveCriticalMemories (Directory.mk [sample_user]) ["user"%string])
    = Some "export refused"%string.
Proof.
  destruct (named_retrieval_and_the_export epoch_iso default_options 5000
              (Directory.mk [sample_user]) (Some "preference"%string)
              (ByTimeRange.mkRange TsMissing TsMissing) ["user"%string] no_overrides)
    as (_ & [Hcategory _] & Hexport).
  - done.
  - intros n _. by eexists.
  - split; [exact Hcategory|].
    destruct (Hexport Directory.sealed eq_refl) as [(_ & _ & Hcritical) _].
    exact Hcritical.
Defined.

(** ** The caches of the knowledge graph handler *)

Section HandlerCaches.
Context {S : Type}.
Variable mcp : Mcp.Server S.

Lemma wrapper_handler {A : Type} (simulated : A) (call : S → Mcp.Answer A * S)
    (w : S * KnowledgeGraphHandler.t) :
  snd (snd (KnowledgeGraphHandler.wrapper simulated call w)) = snd w.
Proof.
  unfold KnowledgeGraphHandler.wrapper. by destruct (call (fst w)) as [[a|e|] s].
Qed.

(** Initialization does not touch the caches, and an initialized
    handler is left as it is. *)
Lemma ensure_caches (w : S * KnowledgeGraphHandler.t) :
  same_caches (snd (snd (KnowledgeGraphHandler.ensureInitialized mcp w))) (snd w)
  ∧ (KnowledgeGraphHandler.initialized (snd w) = true →
     KnowledgeGraphHandler.ensureInitialized mcp w = (true, w)).
Proof.
  unfold KnowledgeGraphHandler.ensureInitialized.
  destruct (KnowledgeGraphHandler.initialized (snd w)) eqn:Hinit; [by split|].
  split; [|done]. unfold KnowledgeGraphHandler.initialize.
  pose proof (wrapper_handler (Some KnowledgeGraphHandler.empty_graph)
                (λ s, Mcp.read_graph mcp s) w) as Hw.
  fold (KnowledgeGraphHandler._readGraph mcp w) in Hw.
  destruct (KnowledgeGraphHandler._readGraph mcp w) as [[[g|]|e] w'];
    simpl in *; by rewrite Hw.
Qed.

Lemma getEntity_cached (entityName : string) (entity : Entity.t)
    (w : S * KnowledgeGraphHandler.t) :
  KnowledgeGraphHandler.entityCache (snd w) !! entityName = Some entity →
  fst (KnowledgeGraphHandler.getEntity mcp entityName w) = Some entity.
Proof.
  intros Hin. unfold KnowledgeGraphHandler.getEntity.
  destruct (ensure_caches w) as [[HE _] _].
  destruct (KnowledgeGraphHandler.ensureInitialized mcp w) as [b w0].
  cbn [snd] in HE. by rewrite HE, Hin.
Qed.

Lemma entityExists_cached (entityName : string) (entity : Entity.t)
    (w : S * KnowledgeGraphHandler.t) :
  KnowledgeGraphHandler.entityCache (snd w) !! entityName = Some entity →
  fst (KnowledgeGraphHandler.entityExists mcp entityName w) = true.
Proof.
  intros Hin. unfold KnowledgeGraphHandler.entityExists.
  destruct (ensure_caches w) as [[HE _] _].
  destruct (KnowledgeGraphHandler.ensureInitialized mcp w) as [b w0].
  cbn [snd] in HE. rewrite HE, Hin. by rewrite bool_decide_eq_true_2.
Qed.

(** X20.  Creating an entity.  [createEntity] succeeds exactly when the
    entity has a name and a type and the store does not reject it; it
    then caches the entity under its name, so that [getEntity] returns
    this entity and [entityExists] answers yes, whatever the store
    holds.  When it fails the caches are left as they were, and an
    entity without name or type is refused with a message of its own
    before the store is asked. *)
Theorem created_entities_are_cached (entity : Entity.t)
    (w : S * KnowledgeGraphHandler.t) :
  let ready := snd (KnowledgeGraphHandler.ensureInitialized mcp w) in
  let result := KnowledgeGraphHandler.createEntity mcp entity w in
  match fst result with
  | KnowledgeGraphHandler.Success created =>
      created = entity ∧ valid_entity entity
      ∧ (∀ e s, Mcp.create_entities mcp (fst ready) [entity] ≠ (Mcp.Rejected e, s))
      ∧ KnowledgeGraphHandler.entityCache (snd (snd result))
        = <[Entity.name entity := entity]> (KnowledgeGraphHandler.entityCache (snd w))
      ∧ KnowledgeGraphHandler.relationCache (snd (snd result))
        = KnowledgeGraphHandler.relationCache (snd w)
      ∧ fst (KnowledgeGraphHandler.getEntity mcp (Entity.name entity) (snd result))
        = Some entity
      ∧ fst (KnowledgeGraphHandler.entityExists mcp (Entity.name entity) (snd result))
        = true
  | KnowledgeGraphHandler.Failure error =>
      same_caches (snd (snd result)) (snd w)
      ∧ (valid_entity entity →
         ∃ s, Mcp.create_entities mcp (fst ready) [entity]
              = (Mcp.Rejected (Error error), s))
      ∧ (¬ valid_entity entity →
         error = "Entity must have name and entityType properties"%string
         ∧ snd result = ready)
  end.
Proof.
  intros ready result. subst ready result. unfold KnowledgeGraphHandler.createEntity.
  destruct (ensure_caches w) as [[HE HR] _].
  destruct (KnowledgeGraphHandler.ensureInitialized mcp w) as [b w0].
  cbn [fst snd] in *.
  unfold KnowledgeGraphHandler.createEntity_body, valid_entity.
  destruct (String.eqb_spec (Entity.name entity) EmptyString) as [Hname|Hname];
    [simpl; split_and!; [by split | tauto | done]|].
  destruct (String.eqb_spec (Entity.entityType entity) EmptyString) as [Htype|Htype];
    [simpl; split_and!; [by split | tauto | done]|].
  cbn [orb]. unfold KnowledgeGraphHandler._createEntities, KnowledgeGraphHandler.wrapper.
  assert (Hcached : ∀ s : S,
            let w' := KnowledgeGraphHandler.with_entities (s, snd w0)
                        (<[Entity.name entity := entity]>
                           (KnowledgeGraphHandler.entityCache (snd w0))) in
            KnowledgeGraphHandler.entityCache (snd w')
            = <[Entity.name entity := entity]> (KnowledgeGraphHandler.entityCache (snd w))
            ∧ KnowledgeGraphHandler.relationCache (snd w')
              = KnowledgeGraphHandler.relationCache (snd w)
            ∧ fst (KnowledgeGraphHandler.getEntity mcp (Entity.name entity) w')
              = Some entity
            ∧ fst (KnowledgeGraphHandler.entityExists mcp (Entity.name entity) w')
              = true).
  { intros s w'.
    assert (Hin : KnowledgeGraphHandler.entityCache (snd w') !! Entity.name entity
                  = Some entity) by apply lookup_insert_eq.
    split_and!; [by rewrite <- HE | done | by apply getEntity_cached
                 | by eapply entityExists_cached]. }
  destruct (Mcp.create_entities mcp (fst w0) [entity]) as [[[]|e|] s] eqn:Hcall.
  - cbn [fst snd]. destruct (Hcached s) as (? & ? & ? & ?). by split_and!.
  - cbn [fst snd]. split_and!; [by split | | tauto]. intros _. exists s. by destruct e.
  - cbn [fst snd]. destruct w0 as [s0 h0]. destruct (Hcached s0) as (? & ? & ? & ?).
    by split_and!.
Qed.

(** X21.  Adding an observation.  [addObservation] refuses an observation
    without content before the store is asked; otherwise it gives the
    observation the present time when it has no timestamp, and it
    succeeds unless the store rejects the observation: it fails for an
    observation with content only with the error of the store.  When it
    succeeds it appends the observation to the observations of the
    cached entity of this name, so that [getEntity] returns the entity
    with the new observation at the end.  An entity that is not cached
    is not added to the cache.  When the call fails the caches are left
    as they were. *)
Theorem observations_are_appended (now : Z) (entityName : string)
    (observation : Observation) (w : S * KnowledgeGraphHandler.t) :
  let ready := snd (KnowledgeGraphHandler.ensureInitialized mcp w) in
  let result := KnowledgeGraphHandler.addObservation mcp now entityName observation w in
  match fst result with
  | KnowledgeGraphHandler.Success (name, added) =>
      name = entityName ∧ has_content observation
      ∧ added = KnowledgeGraphHandler.stamped now observation
      ∧ timestamp added ≠ TsMissing
      ∧ (timestamp observation ≠ TsMissing → added = observation)
      ∧ KnowledgeGraphHandler.relationCache (snd (snd result))
        = KnowledgeGraphHandler.relationCache (snd w)
      ∧ match KnowledgeGraphHandler.entityCache (snd w) !! entityName with
        | Some entity =>
            KnowledgeGraphHandler.entityCache (snd (snd result))
            = <[entityName := KnowledgeGraphHandler.with_observation entity added]>
                (KnowledgeGraphHandler.entityCache (snd w))
            ∧ fst (KnowledgeGraphHandler.getEntity mcp entityName (snd result))
              = Some (KnowledgeGraphHandler.with_observation entity added)
        | None =>
            KnowledgeGraphHandler.entityCache (snd (snd result))
            = KnowledgeGraphHandler.entityCache (snd w)
        end
  | KnowledgeGraphHandler.Failure error =>
      same_caches (snd (snd result)) (snd w)
      ∧ (has_content observation →
         ∃ s, Mcp.add_observations mcp (fst ready) entityName
                [KnowledgeGraphHandler.stamped now observation]
              = (Mcp.Rejected (Error error), s))
      ∧ (¬ has_content observation →
         error = "Observation must have content property"%string
         ∧ snd result = ready)
  end.
Proof.
  intros ready result. subst ready result. unfold KnowledgeGraphHandler.addObservation.
  destruct (ensure_caches w) as [[HE HR] _].
  destruct (KnowledgeGraphHandler.ensureInitialized mcp w) as [b w0].
  cbn [fst snd] in *.
  unfold KnowledgeGraphHandler.addObservation_body, has_content.
  destruct (content observation) as [[|c text]|] eqn:Hcontent.
  - simpl. split_and!; [by split | | by intros _].
    intros (text & [= <-] & Hne). by destruct Hne.
  - set (added := KnowledgeGraphHandler.stamped now observation).
    assert (Hadded : timestamp added ≠ TsMissing
                     ∧ (timestamp observation ≠ TsMissing → added = observation)).
    { unfold added, KnowledgeGraphHandler.stamped.
      destruct (timestamp observation) eqn:Hts; simpl; rewrite ?Hts; by split. }
    destruct Hadded as [Hstamp Hsame].
    unfold KnowledgeGraphHandler._addObservations, KnowledgeGraphHandler.wrapper.
    assert (Hcached : ∀ s : S,
              let w' := match KnowledgeGraphHandler.entityCache (snd w0) !! entityName with
                        | Some entity =>
                            KnowledgeGraphHandler.with_entities (s, snd w0)
                              (<[entityName :=
                                   KnowledgeGraphHandler.with_observation entity added]>
                                 (KnowledgeGraphHandler.entityCache (snd w0)))
                        | None => (s, snd w0)
                        end in
              KnowledgeGraphHandler.relationCache (snd w')
              = KnowledgeGraphHandler.relationCache (snd w)
              ∧ match KnowledgeGraphHandler.entityCache (snd w) !! entityName with
                | Some entity =>
                    KnowledgeGraphHandler.entityCache (snd w')
                    = <[entityName := KnowledgeGraphHandler.with_observation entity added]>
                        (KnowledgeGraphHandler.entityCache (snd w))
                    ∧ fst (KnowledgeGraphHandler.getEntity mcp entityName w')
                      = Some (KnowledgeGraphHandler.with_observation entity added)
                | None =>
                    KnowledgeGraphHandler.entityCache (snd w')
                    = KnowledgeGraphHandler.entityCache (snd w)
                end).
    { intros s w'. subst w'. rewrite <- HE.
      destruct (KnowledgeGraphHandler.entityCache (snd w0) !! entityName) as [entity|];
        [|by split].
      split_and!; [done | done |]. apply getEntity_cached. apply lookup_insert_eq. }
    destruct (Mcp.add_observations mcp (fst w0) entityName [added])
      as [[[]|e|] s] eqn:Hcall.
    + cbn [fst snd]. destruct (Hcached s) as [? ?].
      split_and!; [done | by eexists | done | done | done | done | done].
    + cbn [fst snd]. split_and!; [by split | |].
      * intros _. exists s. by destruct e.
      * intros Hno. destruct Hno. by eexists.
    + cbn [fst snd]. destruct w0 as [s0 h0]. destruct (Hcached s0) as [? ?].
      split_and!; [done | by eexists | done | done | done | done | done].
  - simpl. split_and!; [by split | | by intros _].
    by intros (text & [=] & _).
Qed.

(** X22.  Deleting an entity.  When the store accepts the deletion,
    [deleteEntity] removes the entity from the cache and, from the
    cache of relations, exactly the relations that start from it or
    lead to it.  When the store rejects the deletion the caches are
    left as they were. *)
Theorem deleted_entities_leave_the_caches (entityName : string)
    (w : S * KnowledgeGraphHandler.t) :
  let ready := snd (KnowledgeGraphHandler.ensureInitialized mcp w) in
  let result := KnowledgeGraphHandler.deleteEntity mcp entityName w in
  match fst result with
  | KnowledgeGraphHandler.Success deleted =>
      deleted = entityName
      ∧ KnowledgeGraphHandler.entityCache (snd (snd result)) !! entityName = None
      ∧ (∀ other, other ≠ entityName →
           KnowledgeGraphHandler.entityCache (snd (snd result)) !! other
           = KnowledgeGraphHandler.entityCache (snd w) !! other)
      ∧ (∀ key relation,
           KnowledgeGraphHandler.relationCache (snd (snd result)) !! key = Some relation
           ↔ KnowledgeGraphHandler.relationCache (snd w) !! key = Some relation
             ∧ Relation.from relation ≠ entityName
             ∧ Relation.to relation ≠ entityName)
  | KnowledgeGraphHandler.Failure error =>
      same_caches (snd (snd result)) (snd w)
      ∧ ∃ s, Mcp.delete_entities mcp (fst ready) [entityName]
             = (Mcp.Rejected (Error error), s)
  end.
Proof.
  intros ready result. subst ready result. unfold KnowledgeGraphHandler.deleteEntity.
  destruct (ensure_caches w) as [[HE HR] _].
  destruct (KnowledgeGraphHandler.ensureInitialized mcp w) as [b w0].
  cbn [fst snd] in *.
  unfold KnowledgeGraphHandler.deleteEntity_body, KnowledgeGraphHandler._deleteEntities,
    KnowledgeGraphHandler.wrapper.
  assert (Hfilter : ∀ key relation,
            filter (λ kr, KnowledgeGraphHandler.touches entityName (snd kr) = false)
                   (KnowledgeGraphHandler.relationCache (snd w0)) !! key = Some relation
            ↔ KnowledgeGraphHandler.relationCache (snd w) !! key = Some relation
              ∧ Relation.from relation ≠ entityName
              ∧ Relation.to relation ≠ entityName).
  { intros key relation. rewrite map_lookup_filter_Some, HR. cbn [snd].
    unfold KnowledgeGraphHandler.touches. rewrite orb_false_iff.
    by rewrite !String.eqb_neq. }
  destruct (Mcp.delete_entities mcp (fst w0) [entityName]) as [[[]|e|] s] eqn:Hcall;
    cbn [fst snd KnowledgeGraphHandler.entityCache KnowledgeGraphHandler.relationCache].
  - split_and!; [done | apply lookup_delete_eq | | done].
    intros other Hne. by rewrite lookup_delete_ne, HE.
  - split; [by split|]. exists s. by destruct e.
  - split_and!; [done | apply lookup_delete_eq | | done].
    intros other Hne. by rewrite lookup_delete_ne, HE.
Qed.

Lemma cache_relations_lookup (relations : list Relation.t)
    (cache : gmap string Relation.t) (relation : Relation.t) :
  relation ∈ relations →
  is_Some (KnowledgeGraphHandler.cache_relations relations cache
             !! KnowledgeGraphHandler.cacheKey relation).
Proof.
  unfold KnowledgeGraphHandler.cache_relations. revert cache.
  induction relations as [|r relations IH] using rev_ind; intros cache Hin;
    [by apply elem_of_nil in Hin|].
  rewrite fold_left_app. simpl. apply lookup_insert_is_Some'.
  apply elem_of_app in Hin as [Hin| ->%list_elem_of_singleton]; [|by left].
  right. by apply IH.
Qed.

(** X23.  The relations of an entity.  [getEntityRelations] returns the
    relations of the graph of the store that start from the entity or
    lead to it, in the order of the graph, and caches each of them; it
    returns nothing when the store rejects the reading, is not there,
    or has no relations.  It leaves the cache of entities as it was. *)
Theorem entity_relations_touch_the_entity (entityName : string)
    (w : S * KnowledgeGraphHandler.t) :
  let ready := snd (KnowledgeGraphHandler.ensureInitialized mcp w) in
  let result := KnowledgeGraphHandler.getEntityRelations mcp entityName w in
  Forall (λ r, Relation.from r = entityName ∨ Relation.to r = entityName) (fst result)
  ∧ (∀ r, r ∈ fst result →
       is_Some (KnowledgeGraphHandler.relationCache (snd (snd result))
                  !! KnowledgeGraphHandler.cacheKey r))
  ∧ KnowledgeGraphHandler.entityCache (snd (snd result))
    = KnowledgeGraphHandler.entityCache (snd w)
  ∧ match fst (Mcp.read_graph mcp (fst ready)) with
    | Mcp.Resolved graph =>
        fst result
        = filter (λ r, KnowledgeGraphHandler.touches entityName r = true)
                 (default [] (graph ≫= Graph.relations))
    | _ => fst result = []
    end.
Proof.
  intros ready result. subst ready result.
  unfold KnowledgeGraphHandler.getEntityRelations.
  destruct (ensure_caches w) as [[HE HR] _].
  destruct (KnowledgeGraphHandler.ensureInitialized mcp w) as [b w0].
  cbn [fst snd] in *.
  unfold KnowledgeGraphHandler.getEntityRelations_body, KnowledgeGraphHandler._readGraph,
    KnowledgeGraphHandler.wrapper.
  assert (Htouch : ∀ all,
            Forall (λ r, Relation.from r = entityName ∨ Relation.to r = entityName)
                   (filter (λ r, KnowledgeGraphHandler.touches entityName r = true) all)).
  { intros all. apply Forall_forall. intros r [Hr _]%list_elem_of_filter.
    unfold KnowledgeGraphHandler.touches in Hr.
    apply orb_true_iff in Hr as [?%String.eqb_eq|?%String.eqb_eq]; auto. }
  destruct (Mcp.read_graph mcp (fst w0)) as [[graph|e|] s] eqn:Hcall; cbn [fst snd].
  - destruct (graph ≫= Graph.relations) as [all|]; cbn [fst snd default].
    + split_and!; [apply Htouch | | done | done].
      intros r Hr. by apply cache_relations_lookup.
    + split_and!; [constructor | by intros r ?%elem_of_nil | done | by rewrite filter_nil].
  - split_and!; [constructor | by intros r ?%elem_of_nil | done | done].
  - cbn. split_and!; [constructor | by intros r ?%elem_of_nil | by destruct w0 | done].
Qed.
End HandlerCaches.

(** X20 on a new handler with a store that is not there: the entity is
    created by simulation and comes back from the cache. *)
Lemma created_entities_are_cached_witness :
  fst (KnowledgeGraphHandler.createEntity offline sample_user
         (tt, KnowledgeGraphHandler.new))
  = KnowledgeGraphHandler.Success sample_user
  ∧ fst (KnowledgeGraphHandler.getEntity offline "user"
           (snd (KnowledgeGraphHandler.createEntity offline sample_user
                   (tt, KnowledgeGraphHandler.new))))
    = Some sample_user.
Proof.
  pose proof (created_entities_are_cached offline sample_user
                (tt, KnowledgeGraphHandler.new)) as Hcreated.
  cbv zeta in Hcreated.
  destruct (fst (KnowledgeGraphHandler.createEntity offline sample_user
                   (tt, KnowledgeGraphHandler.new))) as [created|error] eqn:Hresult.
  - destruct Hcreated as (-> & _ & _ & _ & _ & Hget & _). by split.
  - by vm_compute in Hresult.
Defined.

(** X21 on a handler that has cached the user of the sample, with a
    store that is not there: an observation without timestamp is stamped
    and comes back as the last observation of the user. *)
Lemma observations_are_appended_witness :
  let w := snd (KnowledgeGraphHandler.createEntity offline sample_user
                  (tt, KnowledgeGraphHandler.new)) in
  let result := KnowledgeGraphHandler.addObservation offline 7000 "user" daily_tea w in
  fst result
  = KnowledgeGraphHandler.Success ("user"%string, KnowledgeGraphHandler.stamped 7000 daily_tea)
  ∧ timestamp (KnowledgeGraphHandler.stamped 7000 daily_tea) = TsAt 7000
  ∧ fst (KnowledgeGraphHandler.getEntity offline "user" (snd result))
    = Some (KnowledgeGraphHandler.with_observation sample_user
              (KnowledgeGraphHandler.stamped 7000 daily_tea)).
Proof.
  intros w result.
  pose proof (observations_are_appended offline 7000 "user" daily_tea w) as Hadded.
  cbv zeta in Hadded. fold result in Hadded.
  assert (Hcontent : has_content daily_tea) by (by eexists).
  assert (Hcached : KnowledgeGraphHandler.entityCache (snd w) !! "user"%string
                    = Some sample_user) by (by vm_compute).
  destruct (fst result) as [[name added]|error].
  - destruct Hadded as (-> & _ & -> & _ & _ & _ & Hentity).
    rewrite Hcached in Hentity. destruct Hentity as [_ Hget].
    split_and!; [done | done | exact Hget].
  - destruct Hadded as (_ & Hrejected & _).
    destruct (Hrejected Hcontent) as [s Hcall]. discriminate Hcall.
Defined.

(** X23 for a store that is not there: [getEntityRelations] has nothing to
    return. *)
Lemma entity_relations_touch_the_entity_witness :
  fst (KnowledgeGraphHandler.getEntityRelations offline "user"
         (tt, KnowledgeGraphHandler.new)) = [].
Proof.
  by destruct (entity_relations_touch_the_entity offline "user"
                 (tt, KnowledgeGraphHandler.new)) as (_ & _ & _ & Hnone).
Defined.

(** ** The relations and the contents of the handler's caches *)

Lemma colon_split (a b c d : string) :
  colon_free a = true → colon_free c = true →
  (a ++ ":" ++ b)%string = (c ++ ":" ++ d)%string → a = c ∧ b = d.
Proof.
  revert c. induction a as [|x a IH]; intros [|y c] Ha Hc Heq;
    unfold String.append in Heq; fold String.append in Heq; simpl in Ha, Hc.
  - by injection Heq as ->.
  - injection Heq as <- _. by rewrite Ascii.eqb_refl in Hc.
  - injection Heq as -> _. by rewrite Ascii.eqb_refl in Ha.
  - injection Heq as -> Heq.
    apply andb_true_iff in Ha as [_ Ha]. apply andb_true_iff in Hc as [_ Hc].
    destruct (IH c Ha Hc Heq) as [-> ->]. by split.
Qed.

(** X24.  The keys of the cache of relations.  The key joins the source,
    the type and the target of a relation with colons; when neither the
    sources nor the types hold a colon, two relations with the same key
    have the same source, type and target, so that the cache keeps
    relations apart that differ in one of the three. *)
Theorem cache_keys_tell_relations_apart (a b : Relation.t) :
  colon_free (Relation.from a) = true →
  colon_free (Relation.relationType a) = true →
  colon_free (Relation.from b) = true →
  colon_free (Relation.relationType b) = true →
  KnowledgeGraphHandler.cacheKey a = KnowledgeGraphHandler.cacheKey b →
  Relation.from a = Relation.from b
  ∧ Relation.relationType a = Relation.relationType b
  ∧ Relation.to a = Relation.to b.
Proof.
  unfold KnowledgeGraphHandler.cacheKey. intros Hfa Hta Hfb Htb Hkey.
  apply colon_split in Hkey as [Hfrom Hrest]; [|done..].
  apply colon_split in Hrest as [Htype Hto]; [|done..]. by split_and!.
Qed.

Section HandlerRelations.
Context {S : Type}.
Variable mcp : Mcp.Server S.

Lemma keeps_names_refl (cache : gmap string Entity.t) : keeps_names cache cache.
Proof. by intros name Hin. Qed.
Local Hint Resolve keeps_names_refl : core.

Lemma cache_entities_keeps (entities : list Entity.t) (cache : gmap string Entity.t) :
  keeps_names cache (KnowledgeGraphHandler.cache_entities entities cache).
Proof.
  unfold KnowledgeGraphHandler.cache_entities. revert cache.
  induction entities as [|e entities IH]; intros cache name Hin; [done|].
  simpl. apply IH. apply lookup_insert_is_Some'. by right.
Qed.

Lemma cache_entities_lookup (entities : list Entity.t) (cache : gmap string Entity.t)
    (entity : Entity.t) :
  entity ∈ entities →
  ∃ cached, cached ∈ entities ∧ Entity.name cached = Entity.name entity
            ∧ KnowledgeGraphHandler.cache_entities entities cache
                !! Entity.name entity = Some cached.
Proof.
  unfold KnowledgeGraphHandler.cache_entities. revert cache.
  induction entities as [|e entities IH] using rev_ind; intros cache Hin;
    [by apply elem_of_nil in Hin|].
  rewrite fold_left_app. simpl.
  destruct (decide (Entity.name e = Entity.name entity)) as [Heq|Hne].
  - exists e. split_and!; [apply elem_of_app; right; by left | done |].
    rewrite <- Heq. apply lookup_insert_eq.
  - apply elem_of_app in Hin as [Hin|Hin%list_elem_of_singleton]; [|by subst].
    destruct (IH cache Hin) as (cached & Hc & Hname & Hlook).
    exists cached. split_and!; [apply elem_of_app; by left | done |].
    by rewrite lookup_insert_ne.
Qed.

Lemma cache_relations_find (relations : list Relation.t)
    (cache : gmap string Relation.t) (relation : Relation.t) :
  relation ∈ relations →
  ∃ cached, cached ∈ relations
            ∧ KnowledgeGraphHandler.cacheKey cached = KnowledgeGraphHandler.cacheKey relation
            ∧ KnowledgeGraphHandler.cache_relations relations cache
                !! KnowledgeGraphHandler.cacheKey relation = Some cached.
Proof.
  unfold KnowledgeGraphHandler.cache_relations. revert cache.
  induction relations as [|r relations IH] using rev_ind; intros cache Hin;
    [by apply elem_of_nil in Hin|].
  rewrite fold_left_app. simpl.
  destruct (decide (KnowledgeGraphHandler.cacheKey r
                    = KnowledgeGraphHandler.cacheKey relation)) as [Heq|Hne].
  - exists r. split_and!; [apply elem_of_app; right; by left | done |].
    rewrite <- Heq. apply lookup_insert_eq.
  - apply elem_of_app in Hin as [Hin|Hin%list_elem_of_singleton]; [|by subst].
    destruct (IH cache Hin) as (cached & Hc & Hname & Hlook).
    exists cached. split_and!; [apply elem_of_app; by left | done |].
    by rewrite lookup_insert_ne.
Qed.

Lemma keeps_names_trans (a b c : gmap string Entity.t) :
  keeps_names a b → keeps_names b c → keeps_names a c.
Proof. intros Hab Hbc name Hin. by apply Hbc, Hab. Qed.

(** [entityExists] leaves the relations alone and forgets no entity. *)
Lemma entityExists_caches (entityName : string) (w : S * KnowledgeGraphHandler.t) :
  let w' := snd (KnowledgeGraphHandler.entityExists mcp entityName w) in
  KnowledgeGraphHandler.relationCache (snd w')
  = KnowledgeGraphHandler.relationCache (snd w)
  ∧ keeps_names (KnowledgeGraphHandler.entityCache (snd w))
                (KnowledgeGraphHandler.entityCache (snd w')).
Proof.
  cbv zeta. unfold KnowledgeGraphHandler.entityExists.
  destruct (ensure_caches mcp w) as [[HE HR] _].
  destruct (KnowledgeGraphHandler.ensureInitialized mcp w) as [b w0].
  cbn [fst snd] in *. rewrite <- HE, <- HR.
  case_bool_decide; [by split|].
  unfold KnowledgeGraphHandler.entityExists_body, KnowledgeGraphHandler._searchNodes,
    KnowledgeGraphHandler.wrapper.
  destruct (Mcp.search_nodes mcp (fst w0) entityName) as [[results|e|] s].
  - destruct (results ≫= Nodes.entities) as [[|first rest]|]; cbn [fst snd];
      [by split | | by split].
    split; [done|]. apply cache_entities_keeps.
  - by split.
  - destruct (Some KnowledgeGraphHandler.no_nodes ≫= Nodes.entities)
      as [[|first rest]|]; cbn [fst snd]; [by split | | by split].
    split; [done|]. apply cache_entities_keeps.
Qed.

(** [createEntity] leaves the relations alone and forgets no entity. *)
Lemma createEntity_caches (entity : Entity.t) (w : S * KnowledgeGraphHandler.t) :
  let w' := snd (KnowledgeGraphHandler.createEntity mcp entity w) in
  KnowledgeGraphHandler.relationCache (snd w')
  = KnowledgeGraphHandler.relationCache (snd w)
  ∧ keeps_names (KnowledgeGraphHandler.entityCache (snd w))
                (KnowledgeGraphHandler.entityCache (snd w')).
Proof.
  cbv zeta. unfold KnowledgeGraphHandler.createEntity.
  destruct (ensure_caches mcp w) as [[HE HR] _].
  destruct (KnowledgeGraphHandler.ensureInitialized mcp w) as [b w0].
  cbn [fst snd] in *. rewrite <- HE, <- HR.
  unfold KnowledgeGraphHandler.createEntity_body.
  destruct (_ || _); [by split|].
  unfold KnowledgeGraphHandler._createEntities, KnowledgeGraphHandler.wrapper.
  destruct (Mcp.create_entities mcp (fst w0) [entity]) as [[[]|e|] s]; cbn [fst snd].
  - split; [done|]. intros name Hin. apply lookup_insert_is_Some'. by right.
  - by split.
  - cbn. split; [done|]. intros name Hin. apply lookup_insert_is_Some'. by right.
Qed.

(** The state in which the store is asked keeps the relations and
    forgets no entity. *)
Lemma ends_ensured_caches (relation : Relation.t) (w : S * KnowledgeGraphHandler.t) :
  let w' := ends_ensured mcp relation w in
  KnowledgeGraphHandler.relationCache (snd w')
  = KnowledgeGraphHandler.relationCache (snd w)
  ∧ keeps_names (KnowledgeGraphHandler.entityCache (snd w))
                (KnowledgeGraphHandler.entityCache (snd w')).
Proof.
  cbv zeta. unfold ends_ensured.
  pose proof (entityExists_caches (Relation.from relation) w) as [HR1 HE1].
  destruct (KnowledgeGraphHandler.entityExists mcp (Relation.from relation) w)
    as [fromExists w1]. cbn [snd] in HR1, HE1.
  pose proof (entityExists_caches (Relation.to relation) w1) as [HR2 HE2].
  destruct (KnowledgeGraphHandler.entityExists mcp (Relation.to relation) w1)
    as [toExists w2]. cbn [snd] in HR2, HE2. cbv beta iota zeta.
  set (w3 := if fromExists then w2 else _).
  assert (H3 : KnowledgeGraphHandler.relationCache (snd w3)
               = KnowledgeGraphHandler.relationCache (snd w2)
               ∧ keeps_names (KnowledgeGraphHandler.entityCache (snd w2))
                             (KnowledgeGraphHandler.entityCache (snd w3))).
  { subst w3. destruct fromExists; [by split|]. apply createEntity_caches. }
  destruct H3 as [HR3 HE3].
  set (w4 := if toExists then _ else _).
  assert (H4 : KnowledgeGraphHandler.relationCache (snd w4)
               = KnowledgeGraphHandler.relationCache (snd w3)
               ∧ keeps_names (KnowledgeGraphHandler.entityCache (snd w3))
                             (KnowledgeGraphHandler.entityCache (snd w4))).
  { subst w4. destruct toExists; [by split|]. apply createEntity_caches. }
  destruct H4 as [HR4 HE4]. clearbody w3 w4.
  split; [congruence|]. eauto using keeps_names_trans.
Qed.

(** The [try] block of [createRelation] on a relation that passes the
    validation. *)
Lemma createRelation_body_valid (relation : Relation.t)
    (w : S * KnowledgeGraphHandler.t) :
  valid_relation relation →
  KnowledgeGraphHandler.createRelation_body mcp relation w
  = match KnowledgeGraphHandler._createRelations mcp [relation]
            (ends_ensured mcp relation w) with
    | (Ok _, w') =>
        (Ok relation,
         KnowledgeGraphHandler.with_relations w'
           (<[KnowledgeGraphHandler.cacheKey relation := relation]>
              (KnowledgeGraphHandler.relationCache (snd w'))))
    | (Throw e, w') => (Throw e, w')
    end.
Proof.
  intros (Hfrom & Htype & Hto).
  unfold KnowledgeGraphHandler.createRelation_body, ends_ensured.
  apply String.eqb_neq in Hfrom, Htype, Hto. rewrite Hfrom, Htype, Hto. cbn [orb].
  destruct (KnowledgeGraphHandler.entityExists mcp (Relation.from relation) w)
    as [fromExists w1].
  by destruct (KnowledgeGraphHandler.entityExists mcp (Relation.to relation) w1)
    as [toExists w2].
Qed.

(** X25.  Creating a relation.  [createRelation] refuses a relation
    without source, type or target before the store is asked.
    Otherwise it checks that the two entities exist, creates those that
    it does not find, and asks the store to create the relation; it
    succeeds unless the store rejects the relation, whatever happened
    to the two entities: a relation that passes the validation fails
    only with the error of the store.  When it succeeds the relation is
    cached under its key and nothing else changes in the cache of
    relations.  When the call fails the cache of relations is left as
    it was.  In every case no cached entity is forgotten. *)
Theorem relations_are_cached_by_key (relation : Relation.t)
    (w : S * KnowledgeGraphHandler.t) :
  let ready := snd (KnowledgeGraphHandler.ensureInitialized mcp w) in
  let result := KnowledgeGraphHandler.createRelation mcp relation w in
  keeps_names (KnowledgeGraphHandler.entityCache (snd w))
              (KnowledgeGraphHandler.entityCache (snd (snd result)))
  ∧ match fst result with
    | KnowledgeGraphHandler.Success created =>
        created = relation ∧ valid_relation relation
        ∧ KnowledgeGraphHandler.relationCache (snd (snd result))
          = <[KnowledgeGraphHandler.cacheKey relation := relation]>
              (KnowledgeGraphHandler.relationCache (snd w))
    | KnowledgeGraphHandler.Failure error =>
        KnowledgeGraphHandler.relationCache (snd (snd result))
        = KnowledgeGraphHandler.relationCache (snd w)
        ∧ (valid_relation relation →
           ∃ s, Mcp.create_relations mcp (fst (ends_ensured mcp relation ready))
                  [relation]
                = (Mcp.Rejected (Error error), s))
        ∧ (¬ valid_relation relation →
           error = "Relation must have from, relationType, and to properties"%string
           ∧ snd result = ready)
    end.
Proof.
  intros ready result. subst ready result.
  unfold KnowledgeGraphHandler.createRelation.
  destruct (ensure_caches mcp w) as [[HE HR] _].
  destruct (KnowledgeGraphHandler.ensureInitialized mcp w) as [b w0].
  cbn [fst snd] in *. rewrite <- HE, <- HR. clear HE HR.
  destruct (decide (Relation.from relation = EmptyString)) as [Hfrom|Hfrom];
    [|destruct (decide (Relation.relationType relation = EmptyString)) as [Htype|Htype];
      [|destruct (decide (Relation.to relation = EmptyString)) as [Hto|Hto]]].
  - unfold KnowledgeGraphHandler.createRelation_body. rewrite Hfrom. simpl.
    split_and!; [done | done | by intros (? & _) | by intros _].
  - unfold KnowledgeGraphHandler.createRelation_body. rewrite Htype.
    rewrite orb_true_r. simpl.
    split_and!; [done | done | by intros (_ & ? & _) | by intros _].
  - unfold KnowledgeGraphHandler.createRelation_body. rewrite Hto.
    rewrite orb_true_r. simpl.
    split_and!; [done | done | by intros (_ & _ & ?) | by intros _].
  - assert (Hvalid : valid_relation relation) by done.
    rewrite (createRelation_body_valid relation w0 Hvalid).
    destruct (ends_ensured_caches relation w0) as [HR HE].
    set (w4 := ends_ensured mcp relation w0) in *.
    unfold KnowledgeGraphHandler._createRelations, KnowledgeGraphHandler.wrapper.
    destruct (Mcp.create_relations mcp (fst w4) [relation]) as [[[]|e|] s] eqn:Hcall;
      cbn [fst snd].
    + cbn. rewrite HR. by split_and!.
    + split_and!; [done | done | |].
      * intros _. exists s. by destruct e.
      * intros Hno. by destruct Hno.
    + cbn. rewrite HR. by split_and!.
Qed.

(** X26.  Deleting a relation.  [deleteRelation] refuses a relation
    without source, type or target before the store is asked.
    Otherwise, when the store does not reject the deletion, the key of
    the relation is removed from the cache of relations and nothing
    else changes.  When the call fails the caches are left as they
    were. *)
Theorem deleted_relations_leave_the_cache (relation : Relation.t)
    (w : S * KnowledgeGraphHandler.t) :
  let ready := snd (KnowledgeGraphHandler.ensureInitialized mcp w) in
  let result := KnowledgeGraphHandler.deleteRelation mcp relation w in
  KnowledgeGraphHandler.entityCache (snd (snd result))
  = KnowledgeGraphHandler.entityCache (snd w)
  ∧ match fst result with
    | KnowledgeGraphHandler.Success deleted =>
        deleted = relation ∧ valid_relation relation
        ∧ KnowledgeGraphHandler.relationCache (snd (snd result))
          = delete (KnowledgeGraphHandler.cacheKey relation)
                   (KnowledgeGraphHandler.relationCache (snd w))
        ∧ KnowledgeGraphHandler.relationCache (snd (snd result))
            !! KnowledgeGraphHandler.cacheKey relation = None
    | KnowledgeGraphHandler.Failure error =>
        KnowledgeGraphHandler.relationCache (snd (snd result))
        = KnowledgeGraphHandler.relationCache (snd w)
        ∧ (valid_relation relation →
           ∃ s, Mcp.delete_relations mcp (fst ready) [relation]
                = (Mcp.Rejected (Error error), s))
        ∧ (¬ valid_relation relation →
           error = "Relation must have from, relationType, and to properties"%string
           ∧ snd result = ready)
    end.
Proof.
  intros ready result. subst ready result.
  unfold KnowledgeGraphHandler.deleteRelation.
  destruct (ensure_caches mcp w) as [[HE HR] _].
  destruct (KnowledgeGraphHandler.ensureInitialized mcp w) as [b w0].
  cbn [fst snd] in *. rewrite <- HE, <- HR. clear HE HR.
  unfold KnowledgeGraphHandler.deleteRelation_body, valid_relation.
  destruct (String.eqb (Relation.from relation) EmptyString) eqn:Hfrom;
    [apply String.eqb_eq in Hfrom; simpl;
     split_and!; [done | done | by intros (? & _) | by intros _]|].
  destruct (String.eqb (Relation.relationType relation) EmptyString) eqn:Htype;
    [apply String.eqb_eq in Htype; simpl;
     split_and!; [done | done | by intros (_ & ? & _) | by intros _]|].
  destruct (String.eqb (Relation.to relation) EmptyString) eqn:Hto;
    [apply String.eqb_eq in Hto; simpl;
     split_and!; [done | done | by intros (_ & _ & ?) | by intros _]|].
  apply String.eqb_neq in Hfrom, Htype, Hto. cbn [orb].
  unfold KnowledgeGraphHandler._deleteRelations, KnowledgeGraphHandler.wrapper.
  destruct (Mcp.delete_relations mcp (fst w0) [relation]) as [[[]|e|] s] eqn:Hcall;
    cbn [fst snd].
  - cbn. split_and!; try done. apply lookup_delete_eq.
  - split_and!; [done | done | | ].
    + intros _. exists s. by destruct e.
    + intros Hno. by destruct Hno.
  - cbn. split_and!; try done. apply lookup_delete_eq.
Qed.

(** X27.  Clearing the graph.  [clearGraph] reads the graph and, when it
    has entities, asks the store to delete all of them by name in one
    call.  When neither call is rejected both caches are emptied;
    otherwise the caches are left as they were and the error of the
    rejected call is reported. *)
Theorem cleared_graph_empties_the_caches (w : S * KnowledgeGraphHandler.t) :
  let ready := snd (KnowledgeGraphHandler.ensureInitialized mcp w) in
  let result := KnowledgeGraphHandler.clearGraph mcp w in
  match fst result with
  | KnowledgeGraphHandler.Success message =>
      message = "Knowledge graph cleared"%string
      ∧ KnowledgeGraphHandler.entityCache (snd (snd result)) = ∅
      ∧ KnowledgeGraphHandler.relationCache (snd (snd result)) = ∅
      ∧ ∀ e s, Mcp.read_graph mcp (fst ready) ≠ (Mcp.Rejected e, s)
  | KnowledgeGraphHandler.Failure error =>
      same_caches (snd (snd result)) (snd w)
      ∧ ((∃ s, Mcp.read_graph mcp (fst ready) = (Mcp.Rejected (Error error), s))
         ∨ ∃ graph first rest s s',
             Mcp.read_graph mcp (fst ready) = (Mcp.Resolved (Some graph), s)
             ∧ Graph.entities graph = Some (first :: rest)
             ∧ Mcp.delete_entities mcp s (map Entity.name (first :: rest))
               = (Mcp.Rejected (Error error), s'))
  end.
Proof.
  intros ready result. subst ready result.
  unfold KnowledgeGraphHandler.clearGraph.
  destruct (ensure_caches mcp w) as [[HE HR] _].
  destruct (KnowledgeGraphHandler.ensureInitialized mcp w) as [b w0].
  cbn [fst snd] in *. unfold same_caches. rewrite <- HE, <- HR. clear HE HR.
  unfold KnowledgeGraphHandler.clearGraph_body, KnowledgeGraphHandler._readGraph,
    KnowledgeGraphHandler._deleteEntities, KnowledgeGraphHandler.wrapper.
  destruct (Mcp.read_graph mcp (fst w0)) as [[graph|e|] s] eqn:Hread; cbn [fst snd].
  - destruct graph as [graph|]; cbn [mbind option_bind]; [|by split_and!].
    destruct (Graph.entities graph) as [[|first rest]|] eqn:Hentities;
      [by split_and! | | by split_and!].
    destruct (Mcp.delete_entities mcp s (map Entity.name (first :: rest)))
      as [[[]|e|] s'] eqn:Hdelete; cbn [fst snd].
    + by split_and!.
    + split; [done|]. right. exists graph, first, rest, s, s'. by destruct e.
    + by split_and!.
  - split; [done|]. left. exists s. by destruct e.
  - destruct (Some KnowledgeGraphHandler.empty_graph ≫= Graph.entities)
      as [[|first rest]|] eqn:Hentities; [by split_and! | done | by split_and!].
Qed.

(** X28.  Exporting the graph.  [exportGraph] returns the graph of the
    store, or an empty graph when the store rejects the reading, has
    no graph, or is not there.  Every entity of the returned graph is
    then cached under its name and every relation under its key (the
    last one of the graph with this name or key), and no cached entity
    is forgotten. *)
Theorem exported_graph_is_cached (w : S * KnowledgeGraphHandler.t) :
  let ready := snd (KnowledgeGraphHandler.ensureInitialized mcp w) in
  let result := KnowledgeGraphHandler.exportGraph mcp w in
  let entities := default [] (Graph.entities (fst result)) in
  let relations := default [] (Graph.relations (fst result)) in
  (∀ entity, entity ∈ entities →
     ∃ cached, cached ∈ entities ∧ Entity.name cached = Entity.name entity
               ∧ KnowledgeGraphHandler.entityCache (snd (snd result))
                   !! Entity.name entity = Some cached)
  ∧ (∀ relation, relation ∈ relations →
       ∃ cached, cached ∈ relations
                 ∧ KnowledgeGraphHandler.cacheKey cached
                   = KnowledgeGraphHandler.cacheKey relation
                 ∧ KnowledgeGraphHandler.relationCache (snd (snd result))
                     !! KnowledgeGraphHandler.cacheKey relation = Some cached)
  ∧ keeps_names (KnowledgeGraphHandler.entityCache (snd w))
                (KnowledgeGraphHandler.entityCache (snd (snd result)))
  ∧ match fst (Mcp.read_graph mcp (fst ready)) with
    | Mcp.Resolved (Some graph) => fst result = graph
    | _ => fst result = KnowledgeGraphHandler.empty_graph
    end.
Proof.
  intros ready result. subst ready result.
  unfold KnowledgeGraphHandler.exportGraph.
  destruct (ensure_caches mcp w) as [[HE HR] _].
  destruct (KnowledgeGraphHandler.ensureInitialized mcp w) as [b w0].
  cbn [fst snd] in *. rewrite <- HE. clear HE HR.
  unfold KnowledgeGraphHandler.exportGraph_body, KnowledgeGraphHandler._readGraph,
    KnowledgeGraphHandler.wrapper.
  assert (Hgraph : ∀ (graph : option Graph.t) (w' : S * KnowledgeGraphHandler.t),
            KnowledgeGraphHandler.entityCache (snd w')
            = KnowledgeGraphHandler.entityCache (snd w0) →
            let w1 :=
              match graph ≫= Graph.entities with
              | Some entities =>
                  KnowledgeGraphHandler.with_entities w'
                    (KnowledgeGraphHandler.cache_entities entities
                       (KnowledgeGraphHandler.entityCache (snd w')))
              | None => w'
              end in
            let w2 :=
              match graph ≫= Graph.relations with
              | Some relations =>
                  KnowledgeGraphHandler.with_relations w1
                    (KnowledgeGraphHandler.cache_relations relations
                       (KnowledgeGraphHandler.relationCache (snd w1)))
              | None => w1
              end in
            let answer := default KnowledgeGraphHandler.empty_graph graph in
            (∀ entity, entity ∈ default [] (Graph.entities answer) →
               ∃ cached, cached ∈ default [] (Graph.entities answer)
                         ∧ Entity.name cached = Entity.name entity
                         ∧ KnowledgeGraphHandler.entityCache (snd w2)
                             !! Entity.name entity = Some cached)
            ∧ (∀ relation, relation ∈ default [] (Graph.relations answer) →
                 ∃ cached, cached ∈ default [] (Graph.relations answer)
                           ∧ KnowledgeGraphHandler.cacheKey cached
                             = KnowledgeGraphHandler.cacheKey relation
                           ∧ KnowledgeGraphHandler.relationCache (snd w2)
                               !! KnowledgeGraphHandler.cacheKey relation = Some cached)
            ∧ keeps_names (KnowledgeGraphHandler.entityCache (snd w0))
                          (KnowledgeGraphHandler.entityCache (snd w2))).
  { intros [graph|] w' Hw'; cbn [mbind option_bind]; cbv zeta.
    - change (default KnowledgeGraphHandler.empty_graph (Some graph)) with graph.
      destruct (Graph.entities graph) as [entities|],
        (Graph.relations graph) as [relations|];
        cbn [default fst snd KnowledgeGraphHandler.with_entities
               KnowledgeGraphHandler.with_relations
               KnowledgeGraphHandler.entityCache KnowledgeGraphHandler.relationCache];
        rewrite ?Hw'; split_and!;
        try (by intros ? ?%elem_of_nil);
        try (intros x Hin; by apply cache_entities_lookup);
        try (intros x Hin; by apply cache_relations_find);
        try apply cache_entities_keeps; done.
    - cbn. rewrite Hw'.
      split_and!; [by intros ? ?%elem_of_nil | by intros ? ?%elem_of_nil | done]. }
  destruct (Mcp.read_graph mcp (fst w0)) as [[graph|e|] s] eqn:Hread; cbn [fst snd].
  - destruct (Hgraph graph (s, snd w0) eq_refl) as (H1 & H2 & H3).
    split_and!; [done | done | done | by destruct graph].
  - cbn. split_and!; [by intros ? ?%elem_of_nil | by intros ? ?%elem_of_nil | done | done].
  - destruct (Hgraph (Some KnowledgeGraphHandler.empty_graph) w0 eq_refl)
      as (H1 & H2 & H3).
    split_and!; [done | done | done | done].
Qed.

(** X29.  An entity that exists can be fetched.  When [entityExists]
    answers yes, the entity is in the cache afterwards, so that
    [getEntity] returns an entity for this name without asking the
    store for it; when the name was not cached before, the entity
    returned has this name and is one of those that the search of the
    store returned. *)
Theorem existing_entities_can_be_fetched (entityName : string)
    (w : S * KnowledgeGraphHandler.t) :
  let ready := snd (KnowledgeGraphHandler.ensureInitialized mcp w) in
  let checked := KnowledgeGraphHandler.entityExists mcp entityName w in
  fst checked = true →
  ∃ entity,
    fst (KnowledgeGraphHandler.getEntity mcp entityName (snd checked)) = Some entity
    ∧ KnowledgeGraphHandler.entityCache (snd (snd checked)) !! entityName = Some entity
    ∧ (KnowledgeGraphHandler.entityCache (snd w) !! entityName = None →
       Entity.name entity = entityName
       ∧ ∃ found s,
           Mcp.search_nodes mcp (fst ready) entityName
           = (Mcp.Resolved (Some {| Nodes.entities := Some found |}), s)
           ∧ entity ∈ found).
Proof.
  intros ready checked. subst ready checked.
  unfold KnowledgeGraphHandler.entityExists.
  destruct (ensure_caches mcp w) as [[HE HR] _].
  destruct (KnowledgeGraphHandler.ensureInitialized mcp w) as [b w0].
  cbn [fst snd] in *. rewrite <- HE. clear HE HR.
  case_bool_decide as Hcached.
  - intros _. destruct Hcached as [entity Hentity]. exists entity.
    cbn [fst snd]. split_and!; [by apply getEntity_cached | done |].
    intros Hnone. by rewrite Hnone in Hentity.
  - unfold KnowledgeGraphHandler.entityExists_body, KnowledgeGraphHandler._searchNodes,
      KnowledgeGraphHandler.wrapper.
    destruct (Mcp.search_nodes mcp (fst w0) entityName) as [[results|e|] s] eqn:Hsearch;
      cbn [fst snd]; [| done | done].
    destruct results as [[found]|]; cbn [mbind option_bind Nodes.entities]; [|done].
    destruct found as [[|first rest]|]; cbn [fst snd]; [done | | done].
    intros Hsome. apply existsb_exists in Hsome as (entity & Hin & Hname).
    apply String.eqb_eq in Hname. apply list_elem_of_In in Hin.
    destruct (cache_entities_lookup (first :: rest)
                (KnowledgeGraphHandler.entityCache (snd w0)) entity Hin)
      as (cached & Hc & Hcname & Hlook).
    rewrite Hname in Hlook, Hcname.
    exists cached. split_and!.
    + by apply getEntity_cached.
    + done.
    + intros _. split; [done|]. by exists (first :: rest), s.
Qed.
End HandlerRelations.

(** X25 on a new handler with a store that holds the user of the sample
    and accepts every change: the employment of the user is created and
    cached under its key. *)
Lemma relations_are_cached_by_key_witness :
  let result :=
    KnowledgeGraphHandler.createRelation (holding [sample_user]) sample_employment
      (tt, KnowledgeGraphHandler.new) in
  fst result = KnowledgeGraphHandler.Success sample_employment
  ∧ KnowledgeGraphHandler.relationCache (snd (snd result)) !! "user:works_at:acme"%string
    = Some sample_employment.
Proof.
  intros result.
  pose proof (relations_are_cached_by_key (holding [sample_user]) sample_employment
                (tt, KnowledgeGraphHandler.new)) as [_ Hcreated].
  cbv zeta in Hcreated. fold result in Hcreated.
  assert (Hvalid : valid_relation sample_employment) by (by split_and!).
  destruct (fst result) as [created|error].
  - destruct Hcreated as (-> & _ & Hcache). split; [done|].
    rewrite Hcache. apply lookup_insert_eq.
  - destruct Hcreated as (_ & Hrejected & _).
    destruct (Hrejected Hvalid) as [s Hcall]. discriminate Hcall.
Defined.

(** X24 for two relations with the same key. *)
Lemma cache_keys_tell_relations_apart_witness :
  Relation.from sample_employment = Relation.from sample_critical_employment
  ∧ Relation.relationType sample_employment
    = Relation.relationType sample_critical_employment
  ∧ Relation.to sample_employment = Relation.to sample_critical_employment.
Proof.
  apply (cache_keys_tell_relations_apart sample_employment sample_critical_employment);
    reflexivity.
Defined.

(** X29 for a store that holds the user: the user exists and is fetched. *)
Lemma existing_entities_can_be_fetched_witness :
  ∃ entity,
    fst (KnowledgeGraphHandler.getEntity (holding [sample_user]) "user"
           (snd (KnowledgeGraphHandler.entityExists (holding [sample_user]) "user"
                   (tt, KnowledgeGraphHandler.new)))) = Some entity
    ∧ Entity.name entity = "user"%string.
Proof.
  destruct (existing_entities_can_be_fetched (holding [sample_user]) "user"
              (tt, KnowledgeGraphHandler.new)) as (entity & Hget & _ & Hnew);
    [by vm_compute|].
  exists entity. split; [done|]. by apply Hnew.
Defined.
